(* ===== verification/_CoqProject ===== *)
-Q . S2P
Prelude.v
CString.v
Float.v
CircBuffer.v
Fpga.v
Interrupt.v
Sender.v
Receiver.v
UserReader.v
Klist.v
Chains.v
Managers.v
Registry.v
ProcListing.v
Framework.v
ByteBuffer.v
Queue.v
Deaggregation.v
Aggregation.v
Sync.v
DriverListing.v
GpsBuffer.v
Tsip.v
GpsClients.v
Nmea.v
InitCounter.v
FilterPrograms.v
Words.v
Wep.v
Aes.v
Tkip.v
Ccmp.v
Decrypt.v
KeyWrap.v
Digest.v
Ptk.v
StateMachine.v
MlmeQueue.v
Mlme.v
