(* ===== verification/Prelude.v ===== *)
(** * MIAVITA: the seismic network's software

    A verification of the software that runs on the nodes and the sink of the
    MIAVITA seismic network: boards with an FPGA that sample four geophone
    channels, time stamp the samples with the pulses of a GPS receiver, and send
    them over an ad hoc wireless network to a server.

    ** The program and its parts

    - On a node, [interruption/] is a kernel module.  Its interrupt handler
      ([int.c]) is entered for the second pulses of the GPS and for finished
      conversions; it reads the converter through the FPGA ([fpga.c]) and stores
      the samples in a ring ([proc_entry.c]).
    - [kernel_sender/] is a second module: a thread reads the ring, makes a
      packet of each sample and sends it.  [kernel_sender/receiver/] is the
      server that writes the packets it receives to a JSON file.
      [interruption/userland_reader.c] and [fake_sender/] are small programs
      around them.
    - [gps_time/] has the readers of two GPS receivers: the Lassen iQ, which
      speaks the binary protocol TSIP, and the Condor, which sends NMEA
      sentences.  A thread reads the serial line into a ring, a second one takes
      the messages out and keeps the state; clients wait for their answers.
      [kernel_sender/receiver/init_counter.c] asks a receiver for the time and
      sets the seconds of the kernel.
    - [fred_framework/] lets modules ("interceptors") work on packets in the
      network stack: linked lists ([klist.c]), filters and chains
      ([filter.c], [chains.c]), the netfilter hooks ([hooks.c]), rules and the
      managers of rules and interceptors ([rule.c], [rule_manager.c],
      [interceptor_manager.c], [main.c]), the proc file through which rules are
      made ([proc_registry.c]) and the programs that write it
      ([interceptor_shell/]), and the listing of all of this in [/proc]
      ([proc_entry.c]).
    - [fred_framework/interceptors/] has two interceptors: aggregation gathers
      packets in buffers ([byte_buffer.c], [aggregation.c]) that a thread
      flushes ([consuela.c]); deaggregation takes aggregates apart
      ([deaggregation.c]) and hands the packets to a thread that sends them
      again ([spin_lock_queue.c], [injection_thread.c]).
    - [rt2501/sources/Module/] is the wireless driver with the project's
      additions: packets that a filter selects ([filter_chains.c]) leave a node
      with the time they spent in it instead of their time stamp, and get a time
      stamp of the local clock when they arrive ([sync_proto.c]); the filters are
      made and listed through [/proc] ([proc_filters.c]), by two programs
      ([user/mkfilter.c], [user/rmfilter.c]).  Frames are protected by the
      ciphers of the driver: WEP ([rtmp_wep.c]), TKIP and AES-CCMP
      ([rtmp_tkip.c]), with the digests of [md5.c] and the keys of [wpa.c].  A
      thread takes messages of timers, of received frames and of the system from
      a queue and drives the state machines with them ([mlme.c], and the tables
      of [assoc.c], [auth.c], [auth_rsp.c], [sync.c] and [wpa.c]).

    ** Files of the development

    - [Prelude]: machine integers, bytes, results that may go wrong, the state
      monad [stm], and the tactics and lemmas the other files share.
    - [CString]: decimal formats, [atoi], C strings.  [Float]: the floating
      point arithmetic of the GPS readers, on IEEE numbers, and [atof].
    - [CircBuffer]: the ring ([proc_entry.c]).  [rstep] is [read_nsamples] cut
      into its accesses to shared memory, so that the interrupt can store
      samples between any two of them.
    - [Fpga]: [fpga.c] over memory-mapped registers whose reads are answered by
      a script.
    - [Interrupt]: [int.c]; its state [intmod] holds the module's variables, the
      registers and the ring.
    - [Sender], [Receiver]: the sender thread; the server.  [UserReader]: the
      user-space reader and the fake sender.
    - [Klist]: the kernel memory (a map from addresses to objects, with the
      outcomes of the next allocations) and [klist.c] over it.
    - [Chains]: the state [fw] of the framework, [filter.c], [chains.c] and
      [hooks.c].  [Managers]: rules, managers, start and stop.
      [Registry]: requests from user space.  [ProcListing]: the listing of the
      framework and the buffer it is kept in.  [Framework]: loading and
      unloading of the whole, with the hooks registered in the kernel.
    - [ByteBuffer]: [byte_buffer.c] and the checksum of [utils.h].
      [Queue]: the injection queue and thread.  [Deaggregation] and
      [Aggregation]: the two interceptors and the thread consuela.
    - [Sync]: the additions to the wireless driver, over the same packets.
      [DriverListing]: the listing of its filters.  [FilterPrograms]: the
      programs that make and remove filters, and the loading and unloading of
      the driver.
    - [Words]: words and tables of the ciphers.  [Wep]: [rtmp_wep.c] and the
      random bytes of [mlme.c].  [Aes]: both implementations of AES
      ([rtmp_tkip.c] on bytes, [md5.c] with tables).  [Tkip] and [Ccmp]: the two
      halves of [rtmp_tkip.c].  [Decrypt]: the choice of the cipher for a
      received packet ([rtusb_data.c]).  [KeyWrap]: group keys ([wpa.c]).
      [Digest]: MD5, SHA-1, their authentication codes and the hash of passwords.
      [Ptk]: the pairwise key, the nonce and the counter of requests ([wpa.c]).
    - [StateMachine]: the state machines of [mlme.c] and their five tables.
      [MlmeQueue]: the queue of messages, those who put messages into it and the
      classes of received frames; a step relation interleaves enqueuers and the
      consumer.  [Mlme]: the loop of the thread.  The class [MlmeActions] gives
      the functions of the tables, [Enqueuing] what the loop relies on; the theorem
      on the loop is proved against it, and an instance shows that it can be met.
    - [GpsBuffer]: what the GPS readers share, the ring of received bytes and the
      thread that fills it.  The class [Reader] states what a reader promises of
      its frames and its turns; [stream_refines] is proved against it.
      [Tsip] and [Nmea] are the two readers, with an instance of [Reader] each.
      [GpsClients]: the threads of the Lassen reader and its clients as a step
      relation.  [InitCounter]: the program [init_counter] over the Condor
      reader.

    Definitions have the names of the C functions; a loop of a function is a
    definition of its own, named after the function.  A C integer is a [Z] with
    the conversions of the source written out ([u8], [u32], [s32]...).  A
    function that changes state is of type [stm S A]: it returns a value and a
    new state, or [Crash] with the reason (NULL or freed memory accessed, an
    array overrun, a variable read before it was set, a loop that does not
    end).  Outcomes the environment decides (registers, the clock, allocation
    and socket results, partial writes) are arguments or scripts in the state,
    and the theorems hold for all of them unless they say otherwise.

    ** What the theorems show

    - The ring is a queue of up to 1023 samples; a reader that is interrupted at
      any point gets exactly the next unread samples.  After an overrun it does
      not, and does not notice.
    - Each run of the interrupt handler is a path of an abstract acquisition
      machine; sequence numbers increase strictly and time stamps do not
      decrease.  The reads and writes of the FPGA follow its protocol, except
      for retries.
    - Each sample reaches the socket once and in order, for every schedule of
      the thread, unless its packet cannot be allocated or sent, and arrives as one
      JSON line with its four signed values, the most negative one with the wrong
      sign ([samples_reach_json], from the ring of a node to the file of the server).
    - Lists implement sequences; registering a filter keeps its chain sorted and
      unregistering undoes it; a hook runs the matching filters of its chain in
      order, and each point of the network stack runs its own chain.  A request
      written by the shell is parsed into the values it was made from; one with a
      destination port overruns an array of the parser.
    - The aggregation buffer is a bounded stack and the injection queue is first
      in, first out; packets that are aggregated on a node and taken apart at
      the sink arrive once each, in order, with their contents
      ([aggregation_roundtrip]), but without their time stamps.
    - A packet that the driver passes on over any number of nodes ends up with
      its time of creation on the clock of the last node plus the time it spent
      in the air ([sync_journey]).
    - The GPS readers handle each message once, in order, when its last byte has
      arrived, however the stream is cut into reads and the threads are scheduled
      ([tsip_stream_refines], [nmea_stream_refines]).  The Lassen reader gives
      the seconds of UTC; a single client of it is always served.  NMEA sentences
      with a wrong character are refused; a position sentence sets the position.
      [init_counter], however it ends, sets the kernel's seconds only to an answer
      of the receiver.
    - The ciphers are those of their standards: the checksum is the CRC
      polynomial, the two implementations of AES agree and decryption inverts
      encryption, the key mixing and the MIC of TKIP are those of IEEE 802.11i,
      AES-CCMP is CCM, the digests are those of the whole message however it is
      cut, the password hash is PBKDF2.  Packets protected with any of the three
      ciphers are recovered ([packet_decrypted]), as long as they have no QoS field
      and, with TKIP, three addresses; WEP and TKIP frames with a
      changed byte are refused.  The standards are definitions of their own, and
      their published test vectors are evaluated.
    - The two ends of a handshake derive the same pairwise key, the one of the
      standard.  The queue of the driver's thread loses and reorders nothing and
      never overwrites the element in use, as long as only one enqueuer at a time
      is between its check and its store (with two it does); received frames are
      stored whole with a type of the table of their machine; the loop of the
      thread takes the messages in order, for all functions of the machines that
      change the queue only by enqueuing.  Whether it ends depends on these
      functions, and is not shown.
    - The listings hold the text of everything registered, as long as it fits the
      buffer; the user-space reader prints the samples of the ring.
    - A group of theorems states what goes wrong in the code as it is: lost
      pulses, retries that transmit the wrong command, rules that cannot be
      unregistered, memory used after it was freed, locks taken twice, a time
      that is a month late, a wake-up that gets lost, listings that are appended
      to the old ones until they overrun the buffer, a nonce without anything
      random in it, a probe response that stops the kernel.

    ** Fuel

    A loop over a list in memory gets one unit of fuel more than there are
    objects in memory.  The nodes of a list are distinct objects, and the
    theorems on these loops prove that they end.  The loops of deaggregation
    use a place of an array of 27 in each turn.  The loops of the server and of
    the threads follow a list of what the environment does.  [dec_aux] has 20
    digits, enough for 64 bits.  [process_msg] has 1024 turns, one more than the
    bytes that may wait in the ring, and each turn takes a message out of it; the
    search for a comma has 101 steps, more than [inst_buf] has characters.  In
    [InitCounter] the wait for an answer has a turn for every second in which the
    receiver still sends.  The padding of the MIC of TKIP takes at most three
    turns ([pad_loop_ends]).  The loops of the other ciphers and digests have a
    fixed number of turns, or one for each block of their input.  The loop of the
    driver's thread has any fuel; [MlmeSuspend] has one turn more than the queue has elements; the walk over the
    elements of a probe response has one for every byte.

    ** Not modelled

    Left out are the vendor drivers ([rt2501/] apart from the project's
    additions, the ciphers and keys, and the queue and loop of the thread;
    [rt3070/]): they drive the registers of a radio whose behaviour is not in the
    sources.  The functions the state machines call are not modelled either.
    Left out too are the vendor's board program and the binaries made from it ([ts7500ctl/],
    [interruption/modified_binaries/]), the tool chain
    ([crosstool/]), old experiments ([old_stuff/]), the interactive GPS tests
    ([uart_gps_test.c]), tests, scripts and results: none of it is the project's
    own logic, or it only prints.  Within the modelled files, the calls that only
    print or set up sockets are left out.  Spurious wake-ups of
    condition variables are modelled in [InitCounter] only; the time a thread takes is
    not modelled. *)

From stdpp Require Export base list numbers option strings gmap.
From Stdlib Require Export ZArith Lia Sorted.

Declare Scope c_scope.
Delimit Scope c_scope with C.
#[global] Open Scope Z_scope.

(** ** Machine integers

    A C integer of width [w] is a [Z] together with an explicit conversion that
    is applied wherever the source converts or where an operation may wrap. *)

Definition u8 (z : Z) : Z := z mod 2 ^ 8.
Definition u16 (z : Z) : Z := z mod 2 ^ 16.
Definition u32 (z : Z) : Z := z mod 2 ^ 32.
Definition u64 (z : Z) : Z := z mod 2 ^ 64.

Definition swrap (w z : Z) : Z := (z + 2 ^ (w - 1)) mod 2 ^ w - 2 ^ (w - 1).
Definition s16 (z : Z) : Z := swrap 16 z.
Definition s32 (z : Z) : Z := swrap 32 z.
Definition s64 (z : Z) : Z := swrap 64 z.

Notation "'is_u8' x" := (0 ≤ x < 256) (at level 10, only parsing) : c_scope.
Notation "'is_u16' x" := (0 ≤ x < 2 ^ 16) (at level 10, only parsing) : c_scope.
Notation "'is_u32' x" := (0 ≤ x < 2 ^ 32) (at level 10, only parsing) : c_scope.
Notation "'is_u64' x" := (0 ≤ x < 2 ^ 64) (at level 10, only parsing) : c_scope.
Open Scope c_scope.

(** A C truth value: zero is false. *)
Definition truthy (z : Z) : bool := negb (z =? 0).

(** ** Bytes in memory

    The boards run little endian, so an integer stored by the processor is the
    list of its bytes from the least significant one on. *)

Fixpoint le_bytes (n : nat) (z : Z) : list Z :=
  match n with
  | O => []
  | S n' => z mod 256 :: le_bytes n' (z / 256)
  end.

Fixpoint le_val (bs : list Z) : Z :=
  match bs with
  | [] => 0
  | b :: bs' => b + 256 * le_val bs'
  end.

(** The same integer in network byte order. *)
Definition be_bytes (n : nat) (z : Z) : list Z := reverse (le_bytes n z).
Definition be_val (bs : list Z) : Z := le_val (reverse bs).

(** [cpu_to_be64], [be64_to_cpu], [htons] and the like on a little endian CPU. *)
Definition bswap (n : nat) (z : Z) : Z := le_val (reverse (le_bytes n z)).

Definition bytes_ok (bs : list Z) : Prop := Forall (fun b => is_u8 b) bs.

(** Characters of a literal, as bytes. *)
Definition chr (a : Ascii.ascii) : Z := Z.of_nat (Ascii.nat_of_ascii a).
Fixpoint str (s : string) : list Z :=
  match s with
  | EmptyString => []
  | String a s' => chr a :: str s'
  end.
Notation "'ch' s" := (hd 0 (str s)) (at level 10, s at level 9, only parsing) : c_scope.

(** ** Results of C code that may go wrong

    [Crash] is the outcome of an execution the C standard or the kernel gives no
    meaning to, or that stops the kernel. *)

Inductive crash : Set :=
| NullDeref      (** a NULL pointer is dereferenced *)
| BadAccess      (** an address with no live object of that type is accessed or freed *)
| OutOfBounds    (** an array or packet is accessed outside its storage *)
| Uninitialised  (** a variable is read before it was assigned *)
| KernelPanic    (** the code calls panic() *)
| ProcessExit (code : Z) (** the code calls exit(code) *)
| BadConversion  (** a floating point number does not fit the integer it is converted to *)
| Diverges.      (** the fuel of a loop ran out *)

#[export] Instance crash_eq_dec : EqDecision crash.
Proof. solve_decision. Defined.

Inductive result (A : Type) : Type :=
| Ok (a : A)
| Crash (c : crash).
Arguments Ok {A} a.
Arguments Crash {A} c.

#[export] Instance result_ret : MRet result := fun A a => Ok a.
#[export] Instance result_bind : MBind result := fun A B f m =>
  match m with Ok a => f a | Crash c => Crash c end.
#[export] Instance result_fmap : FMap result := fun A B f m =>
  match m with Ok a => Ok (f a) | Crash c => Crash c end.

(** A stateful C function over the state [S]. *)
Definition stm (S A : Type) : Type := S → result (A * S).

#[export] Instance stm_ret {S} : MRet (stm S) := fun A a s => Ok (a, s).
#[export] Instance stm_bind {S} : MBind (stm S) := fun A B f m s =>
  match m s with Ok (a, s') => f a s' | Crash c => Crash c end.

Definition get {S} : stm S S := fun s => Ok (s, s).
Definition put {S} (s : S) : stm S unit := fun _ => Ok (tt, s).
Definition gets {S A} (f : S → A) : stm S A := fun s => Ok (f s, s).
Definition modify {S} (f : S → S) : stm S unit := fun s => Ok (tt, f s).
Definition throw {S A} (c : crash) : stm S A := fun _ => Crash c.
Definition lift {S A} (r : result A) : stm S A := fun s =>
  match r with Ok a => Ok (a, s) | Crash c => Crash c end.
Definition unless_null {S A} (o : option A) : stm S A :=
  match o with Some a => mret a | None => throw NullDeref end.

(** Reads of an array. *)
Definition nth_byte (bs : list Z) (i : Z) : result Z :=
  if i <? 0 then Crash OutOfBounds
  else match bs !! Z.to_nat i with Some b => Ok b | None => Crash OutOfBounds end.

(** [n] bytes starting at offset [i]. *)
Definition sub_bytes (bs : list Z) (i n : Z) : result (list Z) :=
  if (0 <=? i) && (0 <=? n) && (i + n <=? Z.of_nat (length bs))
  then Ok (take (Z.to_nat n) (drop (Z.to_nat i) bs))
  else Crash OutOfBounds.

(** Overwrite the bytes at offset [i] with [new]. *)
Definition set_bytes (bs : list Z) (i : Z) (new : list Z) : result (list Z) :=
  if (0 <=? i) && (i + Z.of_nat (length new) <=? Z.of_nat (length bs))
  then Ok (take (Z.to_nat i) bs ++ new ++ drop (Z.to_nat i + length new) bs)
  else Crash OutOfBounds.

(** ** Automation *)

Create HintDb cint discriminated.
Create Rewrite HintDb cint.

(** [lia] with division and remainder by constants. *)
Ltac dlia := Z.to_euclidean_division_equations; lia.

(** Split the conjunctions and existentials of the context. *)
Ltac break :=
  repeat match goal with
  | H : _ ∧ _ |- _ => destruct H
  | H : ∃ _, _ |- _ => destruct H
  end.

(** Case analysis on a boolean test, with its meaning in the context. *)
Ltac case_test :=
  match goal with
  | |- context [if ?b then _ else _] =>
      let E := fresh "E" in destruct b eqn:E
  | |- context [match ?b with true => _ | false => _ end] =>
      let E := fresh "E" in destruct b eqn:E
  end.

Ltac bool_props :=
  repeat match goal with
  | H : (_ && _) = true |- _ => apply andb_true_iff in H; destruct H
  | H : (_ || _) = false |- _ => apply orb_false_iff in H; destruct H
  | H : negb _ = true |- _ => apply negb_true_iff in H
  | H : negb _ = false |- _ => apply negb_false_iff in H
  | H : (_ =? _) = true |- _ => apply Z.eqb_eq in H
  | H : (_ =? _) = false |- _ => apply Z.eqb_neq in H
  | H : (_ <? _) = true |- _ => apply Z.ltb_lt in H
  | H : (_ <? _) = false |- _ => apply Z.ltb_ge in H
  | H : (_ <=? _) = true |- _ => apply Z.leb_le in H
  | H : (_ <=? _) = false |- _ => apply Z.leb_gt in H
  end.

(** ** Integer lemmas *)

Lemma u8_range z : is_u8 (u8 z).
Proof. apply Z.mod_pos_bound. lia. Qed.

Lemma u16_range z : is_u16 (u16 z).
Proof. apply Z.mod_pos_bound. lia. Qed.

Lemma u32_range z : is_u32 (u32 z).
Proof. apply Z.mod_pos_bound. lia. Qed.

Lemma u64_range z : is_u64 (u64 z).
Proof. apply Z.mod_pos_bound. lia. Qed.

Lemma u32_small z : is_u32 z → u32 z = z.
Proof. intros. by apply Z.mod_small. Qed.

Lemma u16_small z : is_u16 z → u16 z = z.
Proof. intros. by apply Z.mod_small. Qed.

Lemma u64_small z : is_u64 z → u64 z = z.
Proof. intros. by apply Z.mod_small. Qed.

Lemma u8_small z : is_u8 z → u8 z = z.
Proof. intros. by apply Z.mod_small. Qed.

Lemma swrap_small w z : 0 < w → - 2 ^ (w - 1) ≤ z < 2 ^ (w - 1) → swrap w z = z.
Proof.
  intros Hw Hz. unfold swrap.
  assert (2 ^ w = 2 * 2 ^ (w - 1)) as ->.
  { rewrite <- Z.pow_succ_r by lia. f_equal; lia. }
  rewrite Z.mod_small by lia. lia.
Qed.

Lemma swrap_range w z : 0 < w → - 2 ^ (w - 1) ≤ swrap w z < 2 ^ (w - 1).
Proof.
  intros Hw. unfold swrap.
  assert (2 ^ w = 2 * 2 ^ (w - 1)) as ->.
  { rewrite <- Z.pow_succ_r by lia. f_equal; lia. }
  pose proof (Z.pow_pos_nonneg 2 (w - 1)).
  pose proof (Z.mod_pos_bound (z + 2 ^ (w - 1)) (2 * 2 ^ (w - 1))). lia.
Qed.

#[export] Hint Resolve u8_range u16_range u32_range u64_range : cint.
#[export] Hint Rewrite u8_small u16_small u32_small u64_small using lia : cint.

(** ** Byte lemmas *)

Lemma length_le_bytes n z : length (le_bytes n z) = n.
Proof. revert z; induction n as [|n IH]; intros z; simpl; [done|by rewrite IH]. Qed.

Lemma le_bytes_ok n z : bytes_ok (le_bytes n z).
Proof.
  revert z; induction n as [|n IH]; intros z; simpl; constructor; [|apply IH].
  apply Z.mod_pos_bound. lia.
Qed.

Lemma le_val_le_bytes n z : le_val (le_bytes n z) = z mod 256 ^ Z.of_nat n.
Proof.
  revert z; induction n as [|n IH]; intros z; [by rewrite Z.mod_1_r|].
  cbn [le_bytes le_val]. rewrite IH, Nat2Z.inj_succ, Z.pow_succ_r by lia.
  rewrite Z.rem_mul_r by (try apply Z.pow_nonzero; lia). lia.
Qed.

Lemma le_bytes_le_val bs n : bytes_ok bs → length bs = n → le_bytes n (le_val bs) = bs.
Proof.
  intros Hb <-. induction Hb as [|b bs Hb _ IH]; simpl; [done|].
  replace ((b + 256 * le_val bs) mod 256) with b by dlia.
  replace ((b + 256 * le_val bs) / 256) with (le_val bs) by dlia.
  by rewrite IH.
Qed.

Lemma le_val_range bs : bytes_ok bs → 0 ≤ le_val bs < 256 ^ Z.of_nat (length bs).
Proof.
  induction 1 as [|b bs Hb _ IH]; simpl; [lia|].
  rewrite Nat2Z.inj_succ, Z.pow_succ_r by lia. lia.
Qed.

Lemma bytes_ok_reverse bs : bytes_ok (reverse bs) ↔ bytes_ok bs.
Proof. unfold bytes_ok. by rewrite Forall_reverse. Qed.

Lemma length_be_bytes n z : length (be_bytes n z) = n.
Proof. unfold be_bytes. by rewrite length_reverse, length_le_bytes. Qed.

Lemma be_val_be_bytes n z : 0 ≤ z < 256 ^ Z.of_nat n → be_val (be_bytes n z) = z.
Proof.
  intros. unfold be_val, be_bytes. rewrite reverse_involutive, le_val_le_bytes.
  by apply Z.mod_small.
Qed.

Lemma le_bytes_bswap n z : le_bytes n (bswap n z) = be_bytes n z.
Proof.
  unfold bswap, be_bytes. apply le_bytes_le_val.
  - apply bytes_ok_reverse, le_bytes_ok.
  - by rewrite length_reverse, length_le_bytes.
Qed.

Lemma bswap_bswap n z : 0 ≤ z < 256 ^ Z.of_nat n → bswap n (bswap n z) = z.
Proof.
  intros. unfold bswap at 1. rewrite le_bytes_bswap. by apply be_val_be_bytes.
Qed.

Lemma bswap_range n z : 0 ≤ bswap n z < 256 ^ Z.of_nat n.
Proof.
  unfold bswap.
  pose proof (le_val_range (reverse (le_bytes n z))) as H.
  rewrite length_reverse, length_le_bytes in H.
  apply H, bytes_ok_reverse, le_bytes_ok.
Qed.

Lemma bytes_ok_app bs cs : bytes_ok (bs ++ cs) ↔ bytes_ok bs ∧ bytes_ok cs.
Proof. apply Forall_app. Qed.

#[export] Hint Resolve le_bytes_ok : cint.
#[export] Hint Rewrite length_le_bytes length_be_bytes : cint.

(** ** Bit operations as arithmetic *)

Lemma lor_shiftl_add a b n :
  0 ≤ n → 0 ≤ b < 2 ^ n → Z.lor (Z.shiftl a n) b = a * 2 ^ n + b.
Proof.
  intros Hn Hb. rewrite <- Z.shiftl_mul_pow2 by done.
  assert (Z.land (Z.shiftl a n) b = 0) as H0.
  { apply Z.bits_inj'. intros i Hi. rewrite Z.land_spec, Z.bits_0.
    destruct (Z.lt_ge_cases i n) as [H|H]; [by rewrite Z.shiftl_spec_low|].
    replace (Z.testbit b i) with false; [apply andb_false_r|].
    rewrite <- (Z.mod_small b (2 ^ n)) by done. by rewrite Z.mod_pow2_bits_high. }
  rewrite <- Z.lxor_lor by done. by rewrite <- Z.add_nocarry_lxor.
Qed.

Lemma land_ones_mod a n m : 0 ≤ n → m = Z.ones n → Z.land a m = a mod 2 ^ n.
Proof. intros ? ->. by apply Z.land_ones. Qed.

Lemma shiftr_div a n m : 0 ≤ n → m = 2 ^ n → Z.shiftr a n = a / m.
Proof. intros ? ->. by apply Z.shiftr_div_pow2. Qed.

(** ** List lemmas *)

Lemma replicate_cons_middle {A} k (x : A) l : replicate k x ++ x :: l = x :: replicate k x ++ l.
Proof. induction k as [|k IH]; simpl; [done|by rewrite IH]. Qed.

(** ** Running stateful code *)

Lemma bind_Ok {S A B} (m : stm S A) (f : A → stm S B) s r :
  (m ≫= f) s = Ok r → ∃ a s', m s = Ok (a, s') ∧ f a s' = Ok r.
Proof. unfold mbind, stm_bind. destruct (m s) as [[a s']|]; [eauto|done]. Qed.

Lemma bind_run {S A B} (m : stm S A) (f : A → stm S B) s a s' :
  m s = Ok (a, s') → (m ≫= f) s = f a s'.
Proof. unfold mbind, stm_bind. by intros ->. Qed.

Lemma stm_bind_ext {S A B} (m : stm S A) (f g : A → stm S B) s :
  (∀ a s', m s = Ok (a, s') → f a s' = g a s') → (m ≫= f) s = (m ≫= g) s.
Proof. unfold mbind, stm_bind. intros H. destruct (m s) as [[a s']|]; auto. Qed.

Lemma stm_bind_assoc {S A B C} (m : stm S A) (f : A → stm S B) (g : B → stm S C) s :
  ((m ≫= f) ≫= g) s = (m ≫= fun a => f a ≫= g) s.
Proof. unfold mbind, stm_bind. by destruct (m s) as [[a s']|]. Qed.

Lemma stm_bind_head {S A B} (m m' : stm S A) (f : A → stm S B) s :
  m s = m' s → (m ≫= f) s = (m' ≫= f) s.
Proof. unfold mbind, stm_bind. by intros ->. Qed.

Lemma ret_Ok {S A} (a : A) (s : S) r : (mret a : stm S A) s = Ok r → r = (a, s).
Proof. unfold mret, stm_ret. congruence. Qed.

Lemma result_bind_Ok {A B} (a : A) (f : A → result B) : (Ok a ≫= f) = f a.
Proof. done. Qed.
Lemma result_bind_Crash {A B} c (f : A → result B) : (Crash c ≫= f) = Crash c.
Proof. done. Qed.

(** Take apart a completed run [H : (m ≫= f) s = Ok r]. *)
Ltac inv_bind H :=
  let a := fresh "a" in let s1 := fresh "s" in
  apply bind_Ok in H as (a & s1 & ? & H).

(** [m] keeps the property [P] of the state, whenever it completes. *)
Definition keeps {S A} (P : S → Prop) (m : stm S A) : Prop :=
  ∀ s a s', P s → m s = Ok (a, s') → P s'.

Create HintDb keeps discriminated.

Section Keeps.
Context {S : Type} (P : S → Prop).

Lemma keeps_ret {A} (a : A) : keeps P (mret a).
Proof. intros s a' s' H [= _ <-]. done. Qed.
Lemma keeps_lift {A} (r : result A) : keeps P (lift r).
Proof. intros s a s' H. unfold lift. destruct r; [|done]. by intros [= _ <-]. Qed.
Lemma keeps_get : keeps P get.
Proof. intros s a s' H [= _ <-]. done. Qed.
Lemma keeps_throw {A} c : keeps P (throw c : stm S A).
Proof. by intros s a s' H. Qed.
Lemma keeps_modify f : (∀ s, P s → P (f s)) → keeps P (modify f).
Proof. intros Hf s a s' H [= _ <-]. auto. Qed.
Lemma keeps_bind {A B} (m : stm S A) (f : A → stm S B) :
  keeps P m → (∀ a, keeps P (f a)) → keeps P (m ≫= f).
Proof. intros Hm Hf s b s' H E. apply bind_Ok in E as (a & s1 & E1 & E2). eapply Hf, E2. eapply Hm, E1. done. Qed.
Lemma keeps_if {A} (b : bool) (m m' : stm S A) : keeps P m → keeps P m' → keeps P (if b then m else m').
Proof. by destruct b. Qed.
Lemma keeps_decide {A} (Q : Prop) `{!Decision Q} (m m' : stm S A) :
  keeps P m → keeps P m' → keeps P (if decide Q then m else m').
Proof. by destruct (decide Q). Qed.
End Keeps.
#[export] Hint Resolve keeps_ret keeps_lift keeps_get keeps_throw keeps_bind keeps_if keeps_decide : keeps.

(** Exhaustive checks over a range of integers. *)
Lemma forall_range (f : Z → bool) lo n x :
  forallb f (seqZ lo n) = true → lo ≤ x < lo + n → f x = true.
Proof.
  intros H Hx. rewrite forallb_forall in H. apply H, list_elem_of_In, elem_of_seqZ. lia.
Qed.

Lemma StronglySorted_snoc {A} (R : A → A → Prop) l x :
  StronglySorted R l → Forall (fun y => R y x) l → StronglySorted R (l ++ [x]).
Proof.
  induction 1 as [|y l Hl IH Hy]; intros Hx; simpl; [by repeat constructor|].
  inversion Hx; subst. constructor; [by apply IH|]. apply Forall_app. by repeat constructor.
Qed.

Lemma filter_all_id {A} (P : A → Prop) `{!∀ x, Decision (P x)} (l : list A) :
  (∀ x, x ∈ l → P x) → filter P l = l.
Proof.
  intros Hall. induction l as [|x l IH]; [done|].
  rewrite filter_cons_True by (apply Hall; constructor). f_equal. apply IH.
  intros y Hy. apply Hall. by constructor.
Qed.

(** The middle one of three byte ranges. *)
Lemma slice_app {A} (a b c : list A) i n :
  length a = i → length b = n → take n (drop i (a ++ b ++ c)) = b.
Proof. intros <- <-. by rewrite drop_app_length, take_app_length. Qed.
