(* ===== verification/CString.v ===== *)
(** * C strings and number formats

    The parts of the C library the programs use on text: decimal conversions of
    [printf], [atoi], string comparison, and C strings inside byte arrays. *)

From S2P Require Import Prelude.

(** ** Decimal *)

Fixpoint dec_aux (fuel : nat) (n : Z) (acc : list Z) : list Z :=
  match fuel with
  | O => acc
  | S f => let acc := (48 + n mod 10) :: acc in
           if n <? 10 then acc else dec_aux f (n / 10) acc
  end.

(** [%u] and [%llu]: twenty digits hold any 64-bit number. *)
Definition dec_u (n : Z) : list Z := dec_aux 20 n [].
(** [%d]. *)
Definition dec_d (n : Z) : list Z := if n <? 0 then 45 :: dec_u (- n) else dec_u n.

Definition isdigit (c : Z) : bool := (48 <=? c) && (c <=? 57).
Definition isspace (c : Z) : bool := (c =? 32) || ((9 <=? c) && (c <=? 13)).

Fixpoint digits_val (bs : list Z) (acc : Z) : Z :=
  match bs with
  | c :: bs' => if isdigit c then digits_val bs' (acc * 10 + (c - 48)) else acc
  | [] => acc
  end.

Fixpoint skip_spaces (bs : list Z) : list Z :=
  match bs with
  | c :: bs' => if isspace c then skip_spaces bs' else bs
  | [] => []
  end.

(** [atoi] on numbers that fit: a value out of the range of [int] has no
    defined result in C; here it wraps. *)
Definition atoi (bs : list Z) : Z :=
  match skip_spaces bs with
  | [] => 0
  | c :: bs' =>
      if c =? ch "-" then s32 (- digits_val bs' 0)
      else if c =? ch "+" then s32 (digits_val bs' 0)
      else s32 (digits_val (c :: bs') 0)
  end.

(** ** C strings in arrays *)

(** The characters before the terminator. *)
Fixpoint cstr (bs : list Z) : list Z :=
  match bs with
  | [] => []
  | c :: bs' => if c =? 0 then [] else c :: cstr bs'
  end.

Definition strlen (bs : list Z) : Z := Z.of_nat (length (cstr bs)).
Definition streq (a b : list Z) : bool := bool_decide (a = b).
Definition no_nul (bs : list Z) : Prop := Forall (fun c => c ≠ 0) bs.

(** ** Lemmas *)

Lemma dec_aux_app fuel n acc : dec_aux fuel n acc = dec_aux fuel n [] ++ acc.
Proof.
  revert n acc. induction fuel as [|f IH]; intros n acc; [done|]. cbn [dec_aux].
  case_test; [done|]. rewrite IH, (IH _ [_]), <- app_assoc. done.
Qed.

Lemma dec_aux_digits fuel n : 0 ≤ n → Forall (fun c => isdigit c = true) (dec_aux fuel n []).
Proof.
  revert n. induction fuel as [|f IH]; intros n Hn; [constructor|]. cbn [dec_aux].
  assert (isdigit (48 + n mod 10) = true).
  { unfold isdigit. pose proof (Z.mod_pos_bound n 10). apply andb_true_iff.
    split; apply Z.leb_le; lia. }
  case_test; [by repeat constructor|]. rewrite dec_aux_app. apply Forall_app.
  split; [apply IH; dlia|by repeat constructor].
Qed.

Lemma digits_val_app ds rest a :
  Forall (fun c => isdigit c = true) ds →
  digits_val (ds ++ rest) a = digits_val rest (digits_val ds a).
Proof.
  intros H. revert a. induction H as [|c ds Hc _ IH]; intros a; [done|]. simpl. by rewrite Hc.
Qed.

Lemma digits_val_dec_aux fuel n a :
  0 ≤ n < 10 ^ Z.of_nat fuel → (0 < fuel)%nat →
  ∃ k, 0 < k ∧ digits_val (dec_aux fuel n []) a = a * 10 ^ k + n.
Proof.
  revert n a. induction fuel as [|f IH]; intros n a Hn Hf; [lia|]. cbn [dec_aux].
  assert (isdigit (48 + n mod 10) = true) as Hd.
  { unfold isdigit. pose proof (Z.mod_pos_bound n 10). apply andb_true_iff.
    split; apply Z.leb_le; lia. }
  destruct (Z.ltb_spec n 10) as [Hs|Hs].
  - exists 1. cbn [digits_val]. rewrite Hd. split; [lia|]. rewrite Z.mod_small; lia.
  - rewrite dec_aux_app, digits_val_app by (apply dec_aux_digits; dlia).
    rewrite Nat2Z.inj_succ, Z.pow_succ_r in Hn by lia.
    assert (0 < f)%nat as Hf' by (destruct f; [simpl in Hn|]; lia).
    destruct (IH (n / 10) a) as (k & Hk & ->); [dlia|done|].
    exists (k + 1). cbn [digits_val]. rewrite Hd, Z.pow_add_r by lia. split; [lia|].
    pose proof (Z.div_mod n 10). lia.
Qed.

(** Where a number ends. *)
Definition stops (rest : list Z) : Prop :=
  match rest with c :: _ => isdigit c = false | [] => True end.

Lemma digits_val_stops rest a : stops rest → digits_val rest a = a.
Proof. destruct rest as [|c rest]; simpl; [done|]. by intros ->. Qed.

Lemma dec_aux_nonnil f n acc : dec_aux (S f) n acc ≠ [].
Proof.
  cbn [dec_aux]. case_test; [done|]. rewrite dec_aux_app. by destruct (dec_aux f _ _).
Qed.

Lemma dec_u_head n : 0 ≤ n → ∃ c ds, dec_u n = c :: ds ∧ isdigit c = true.
Proof.
  intros Hn. unfold dec_u. pose proof (dec_aux_digits 20 n Hn) as H.
  destruct (dec_aux 20 n []) as [|c ds] eqn:E; [|inversion H; eauto].
  by apply dec_aux_nonnil in E.
Qed.

Lemma digit_not_special c : isdigit c = true → isspace c = false ∧ c ≠ 45 ∧ c ≠ 43 ∧ c ≠ 0.
Proof. unfold isdigit, isspace. intros H. bool_props. split; [|lia]. apply orb_false_iff. split;
  [apply Z.eqb_neq; lia|]. apply andb_false_iff. right. apply Z.leb_gt. lia. Qed.

Lemma atoi_dec_u n rest : 0 ≤ n < 2 ^ 31 → stops rest → atoi (dec_u n ++ rest) = n.
Proof.
  intros Hn Hrest. destruct (dec_u_head n) as (c & ds & E & Hc); [lia|].
  pose proof (digit_not_special c Hc) as (Hsp & H45 & H43 & _).
  assert (digits_val (dec_u n ++ rest) 0 = n) as Hv.
  { unfold dec_u. rewrite digits_val_app, digits_val_stops by (done || (apply dec_aux_digits; lia)).
    destruct (digits_val_dec_aux 20 n 0) as (k & _ & ->); lia. }
  unfold atoi. rewrite E in *. simpl skip_spaces. rewrite Hsp. simpl app in Hv.
  change (hd 0 (str "-")) with 45. change (hd 0 (str "+")) with 43.
  rewrite (proj2 (Z.eqb_neq _ _) H45), (proj2 (Z.eqb_neq _ _) H43), Hv. apply swrap_small; lia.
Qed.

Lemma dec_aux_length fuel n k :
  0 ≤ n < 10 ^ Z.of_nat k → (1 ≤ k)%nat → (length (dec_aux fuel n []) ≤ k)%nat.
Proof.
  revert n k. induction fuel as [|f IH]; intros n k Hn Hk; [simpl; lia|]. cbn [dec_aux].
  destruct (Z.ltb_spec n 10); [done|]. rewrite dec_aux_app, length_app. simpl.
  destruct k as [|[|k]]; [lia|simpl in Hn; lia|].
  rewrite Nat2Z.inj_succ, Z.pow_succ_r in Hn by lia.
  specialize (IH (n / 10) (S k)). assert (0 ≤ n / 10 < 10 ^ Z.of_nat (S k)) by dlia. lia.
Qed.

Lemma dec_d_length n k : - 10 ^ Z.of_nat k < n < 10 ^ Z.of_nat k → (1 ≤ k)%nat → (length (dec_d n) ≤ S k)%nat.
Proof.
  intros Hn Hk. unfold dec_d. destruct (Z.ltb_spec n 0); [simpl; apply le_n_S|apply Nat.le_le_succ_r];
    apply dec_aux_length; lia.
Qed.

Lemma dec_d_length_pos n k : 0 ≤ n < 10 ^ Z.of_nat k → (1 ≤ k)%nat → (length (dec_d n) ≤ k)%nat.
Proof.
  intros Hn Hk. unfold dec_d. rewrite (proj2 (Z.ltb_ge n 0)) by lia. by apply dec_aux_length.
Qed.

Lemma dec_u_no_nul n : 0 ≤ n → no_nul (dec_u n).
Proof.
  intros Hn. unfold no_nul, dec_u. eapply Forall_impl; [by apply dec_aux_digits|].
  intros c Hc. by destruct (digit_not_special c Hc) as (_ & _ & _ & ?).
Qed.

Lemma cstr_app_nul s rest : no_nul s → cstr (s ++ 0 :: rest) = s.
Proof.
  induction 1 as [|c s Hc _ IH]; [done|]. simpl. by rewrite (proj2 (Z.eqb_neq c 0) Hc), IH.
Qed.

Lemma cstr_no_nul s : no_nul s → cstr s = s.
Proof. induction 1 as [|c s Hc _ IH]; [done|]. simpl. by rewrite (proj2 (Z.eqb_neq c 0) Hc), IH. Qed.

Lemma cstr_is_no_nul s : no_nul (cstr s).
Proof.
  induction s as [|c s IH]; [constructor|]. simpl. destruct (Z.eqb_spec c 0); by constructor.
Qed.
