(* ===== verification/Float.v ===== *)
(** * Floating point numbers of C

    [float] and [double] as the binary32 and binary64 numbers of IEEE 754, in the
    executable formalisation of the standard library ([SpecFloat]): the
    conversions the GPS readers use, [atof], [floor] and [fmod], and the fact that
    arithmetic on whole numbers of up to 24 bits is exact. *)

From S2P Require Import Prelude CString.
From Stdlib Require Import SpecFloat.

Definition f32_sub : spec_float → spec_float → spec_float := SFsub 24 128.
Definition f32_of_Z (z : Z) : spec_float := binary_normalize 24 128 z 0 false.
Definition f64_add : spec_float → spec_float → spec_float := SFadd 53 1024.
Definition f64_mul : spec_float → spec_float → spec_float := SFmul 53 1024.
Definition f64_div : spec_float → spec_float → spec_float := SFdiv 53 1024.
Definition f64_of_Z (z : Z) : spec_float := binary_normalize 53 1024 z 0 false.

(** The number a word of 32 bits stands for. *)
Definition float_of_bits (v : Z) : spec_float :=
  let s := Z.testbit v 31 in
  let e := (v / 2 ^ 23) mod 256 in
  let m := v mod 2 ^ 23 in
  if e =? 255 then (if m =? 0 then S754_infinity s else S754_nan)
  else if e =? 0 then match m with Zpos p => S754_finite s p (-149) | _ => S754_zero s end
  else match m + 2 ^ 23 with Zpos p => S754_finite s p (e - 150) | _ => S754_nan end.

(** Conversions between the formats. *)
Definition round_to (prec emax : Z) (f : spec_float) : spec_float :=
  match f with
  | S754_finite s m e => binary_normalize prec emax (cond_Zopp s (Zpos m)) e s
  | _ => f
  end.
Definition to_double : spec_float → spec_float := round_to 53 1024.
Definition to_float : spec_float → spec_float := round_to 24 128.

(** The whole part, towards zero. *)
Definition magnitude (m : positive) (e : Z) : Z := if 0 <=? e then Zpos m * 2 ^ e else Zpos m / 2 ^ (- e).
Definition trunc (f : spec_float) : option Z :=
  match f with
  | S754_zero _ => Some 0
  | S754_finite s m e => Some (cond_Zopp s (magnitude m e))
  | _ => None
  end.

(** [(int) f] and [(long) f]: undefined when the whole part does not fit. *)
Definition to_s32 (f : spec_float) : result Z :=
  match trunc f with
  | Some z => if (- 2 ^ 31 <=? z) && (z <? 2 ^ 31) then Ok z else Crash BadConversion
  | None => Crash BadConversion
  end.

(** [m * 2 ^ e] as a fraction: numerator and denominator. *)
Definition fraction (s : bool) (m : positive) (e : Z) : Z * Z :=
  if 0 <=? e then (cond_Zopp s (Zpos m * 2 ^ e), 1) else (cond_Zopp s (Zpos m), 2 ^ (- e)).

(** [floor] and [fmod] of the C library on doubles: both are exact. *)
Definition f64_floor (f : spec_float) : spec_float :=
  match f with
  | S754_finite s m e => let '(a, b) := fraction s m e in binary_normalize 53 1024 (a / b) 0 s
  | _ => f
  end.
Definition f64_fmod (f : spec_float) (y : Z) : spec_float :=
  match f with
  | S754_finite s m e =>
      let '(a, b) := fraction false m e in
      binary_normalize 53 1024 (cond_Zopp s (a mod (y * b))) (Z.min e 0) s
  | S754_zero s => S754_zero s
  | _ => S754_nan
  end.

(** [atof] on the decimal forms: sign, digits and a fraction.  A quotient of two
    numbers is rounded once, as the conversion of a decimal is. *)
Fixpoint span_digits (bs : list Z) : list Z * list Z :=
  match bs with
  | c :: bs' => if isdigit c then let '(ds, rest) := span_digits bs' in (c :: ds, rest) else ([], bs)
  | [] => ([], [])
  end.
Definition dec_quotient (neg : bool) (n k : Z) : spec_float :=
  match n, 10 ^ k with
  | Zpos a, Zpos b => let '(m, e, l) := SFdiv_core_binary 53 1024 (Zpos a) 0 (Zpos b) 0 in
                      binary_round_aux 53 1024 neg m e l
  | _, _ => S754_zero neg
  end.
Definition atof_digits (neg : bool) (bs : list Z) : spec_float :=
  let '(whole, rest) := span_digits bs in
  let frac := match rest with c :: rest' => if c =? ch "." then (span_digits rest').1 else [] | [] => [] end in
  dec_quotient neg (digits_val (whole ++ frac) 0) (Z.of_nat (length frac)).
Definition atof (bs : list Z) : spec_float :=
  match skip_spaces bs with
  | c :: bs' => if c =? ch "-" then atof_digits true bs'
                else if c =? ch "+" then atof_digits false bs'
                else atof_digits false (c :: bs')
  | [] => S754_zero false
  end.

(** ** Whole numbers are exact *)

(** [f] is the whole number [n], which is not negative and small. *)
Definition is_whole (f : spec_float) (n : Z) : Prop :=
  match f with
  | S754_zero _ => n = 0
  | S754_finite s m e => s = false ∧ e ≤ 0 ∧ Zpos m = n * 2 ^ (- e)
  | _ => False
  end.

Lemma digits2_log2 p : Zpos (digits2_pos p) = Z.log2 (Zpos p) + 1.
Proof.
  induction p as [p IH|p IH|]; [| |done]; cbn [digits2_pos]; rewrite Pos2Z.inj_succ, IH.
  - change (Zpos p~1) with (2 * Zpos p + 1). rewrite Z.log2_succ_double; lia.
  - change (Zpos p~0) with (2 * Zpos p). rewrite Z.log2_double; lia.
Qed.

Lemma digits2_shift n k p :
  0 < n → 0 ≤ k → Zpos p = n * 2 ^ k → Zpos (digits2_pos p) = Z.log2 n + 1 + k.
Proof. intros Hn Hk Hp. rewrite digits2_log2, Hp, Z.log2_mul_pow2 by done. lia. Qed.

Lemma iter_xO_val d m : Zpos (Pos.iter xO m d) = Zpos m * 2 ^ Zpos d.
Proof.
  induction d as [|d IH] using Pos.peano_ind; [by rewrite Z.mul_comm|].
  rewrite Pos.iter_succ, Pos2Z.inj_xO, IH, Pos2Z.inj_succ, Z.pow_succ_r by done. lia.
Qed.

Lemma shr_1_even m : 0 < m → shr_1 (Build_shr_record (2 * m) false false) = Build_shr_record m false false.
Proof. by destruct m. Qed.

Lemma iter_shr_exact d m :
  0 < m → iter_pos shr_1 d (Build_shr_record (m * 2 ^ Zpos d) false false) = Build_shr_record m false false.
Proof.
  revert m. induction d as [d IH|d IH|]; intros m Hm; cbn [iter_pos].
  - replace (m * 2 ^ Zpos d~1) with (2 * ((m * 2 ^ Zpos d) * 2 ^ Zpos d)).
    2:{ rewrite Pos2Z.inj_xI, Z.pow_add_r, Z.mul_comm, <- Z.mul_assoc by lia.
        replace (2 ^ (2 * Zpos d)) with (2 ^ Zpos d * 2 ^ Zpos d) by (rewrite <- Z.pow_add_r by lia; f_equal; lia). lia. }
    rewrite shr_1_even, !IH by lia. done.
  - replace (m * 2 ^ Zpos d~0) with ((m * 2 ^ Zpos d) * 2 ^ Zpos d).
    2:{ rewrite <- Z.mul_assoc, <- Z.pow_add_r by lia. do 2 f_equal. lia. }
    by rewrite !IH by lia.
  - rewrite Z.mul_comm. by apply shr_1_even.
Qed.

Section Exact.
Context (n : Z) (Hn : 0 < n < 2 ^ 24).

Definition msb : Z := Z.log2 n + 1.
Definition canon : Z := n * 2 ^ (24 - msb).

Lemma msb_range : 1 ≤ msb ≤ 24.
Proof using Hn.
  unfold msb. split; [pose proof (Z.log2_nonneg n); lia|].
  assert (Z.log2 n < 24) by (apply Z.log2_lt_pow2; lia). lia.
Qed.

Lemma fexp_msb : fexp 24 128 msb = msb - 24.
Proof using Hn. pose proof msb_range. unfold fexp, emin. lia. Qed.

(** A mantissa that stands for [n] is shifted to 24 digits without loss. *)
Lemma shr_fexp_exact p e :
  Zpos p = n * 2 ^ (- e) → e ≤ msb - 24 →
  shr_fexp 24 128 (Zpos p) e loc_Exact = (Build_shr_record canon false false, msb - 24).
Proof using Hn.
  intros Hp He. pose proof msb_range as Hm. unfold shr_fexp. cbn [Zdigits2 shr_record_of_loc].
  rewrite (digits2_shift n (- e) p) by (done || lia). fold msb.
  replace (msb + - e + e) with msb by lia. rewrite fexp_msb.
  assert (Zpos p = canon * 2 ^ (msb - 24 - e)) as ->.
  { unfold canon. rewrite Hp, <- Z.mul_assoc, <- Z.pow_add_r by lia. do 2 f_equal. lia. }
  unfold shr. destruct (msb - 24 - e) as [|d|d] eqn:E; [|rewrite iter_shr_exact|lia].
  - rewrite Z.mul_1_r. f_equal. lia.
  - f_equal. lia.
  - unfold canon. pose proof (Z.pow_pos_nonneg 2 (24 - msb)). nia.
Qed.

Lemma binary_round_whole p e s :
  Zpos p = n * 2 ^ (- e) → e ≤ 0 →
  ∃ q, Zpos q = canon ∧ binary_round 24 128 s p e = S754_finite s q (msb - 24).
Proof using Hn.
  intros Hp He. pose proof msb_range as Hm. unfold binary_round.
  rewrite (digits2_shift n (- e) p) by (done || lia). fold msb.
  replace (msb + - e + e) with msb by lia. rewrite fexp_msb.
  assert (∃ p' e', shl_align p e (msb - 24) = (p', e') ∧ Zpos p' = n * 2 ^ (- e') ∧ e' ≤ msb - 24) as
    (p' & e' & -> & Hp' & He').
  { unfold shl_align. destruct (msb - 24 - e) as [|d|d] eqn:E.
    - exists p, e. split_and!; [done|done|lia].
    - exists p, e. split_and!; [done|done|lia].
    - exists (Pos.iter xO p d), (msb - 24). split_and!; [done| |lia].
      rewrite iter_xO_val, Hp, <- Z.mul_assoc, <- Z.pow_add_r by lia. do 2 f_equal. lia. }
  assert (0 < canon) as Hc by (unfold canon; pose proof (Z.pow_pos_nonneg 2 (24 - msb)); nia).
  unfold binary_round_aux. rewrite (shr_fexp_exact p' e' Hp' He').
  cbn [shr_m loc_of_shr_record round_nearest_even]. destruct canon as [|q|q] eqn:Eq; [lia| |lia].
  rewrite (shr_fexp_exact q (msb - 24)); [|by rewrite <- Eq; unfold canon; do 2 f_equal; lia|lia].
  cbn [shr_m]. rewrite Eq. rewrite (proj2 (Z.leb_le _ _)) by lia. by exists q.
Qed.
End Exact.

Lemma binary_normalize_whole n p e :
  0 ≤ n < 2 ^ 24 → p = n * 2 ^ (- e) → e ≤ 0 → is_whole (binary_normalize 24 128 p e false) n.
Proof.
  intros Hn Hp He. destruct (decide (n = 0)) as [->|Hnz]; [by rewrite Hp|].
  pose proof (Z.pow_pos_nonneg 2 (- e) ltac:(lia) ltac:(lia)).
  destruct p as [|p|p]; [nia| |nia]. cbn [binary_normalize].
  destruct (binary_round_whole n ltac:(lia) p e false Hp He) as (q & Hq & ->).
  pose proof (msb_range n ltac:(lia)). split; [done|]. split; [lia|]. rewrite Hq. unfold canon. do 2 f_equal. lia.
Qed.

Lemma trunc_whole f n : is_whole f n → trunc f = Some n.
Proof.
  destruct f as [s| | |s m e]; cbn [is_whole trunc]; [by intros ->|done|done|].
  intros (-> & He & H). unfold magnitude, cond_Zopp. rewrite H. destruct (Z.leb_spec 0 e).
  - replace e with 0 in * by lia. f_equal. change (2 ^ (- 0)) with 1. change (2 ^ 0) with 1. lia.
  - rewrite Z.div_mul; [done|]. apply Z.pow_nonzero; lia.
Qed.

(** The mantissa at an exponent at or below its own. *)
Lemma shl_align_val m e e' : e' ≤ e → Zpos (fst (shl_align m e e')) = Zpos m * 2 ^ (e - e').
Proof.
  intros He. unfold shl_align. destruct (e' - e) as [|d|d] eqn:E; [|lia|].
  - replace (e - e') with 0 by lia. simpl. lia.
  - cbn [fst]. rewrite iter_xO_val. do 2 f_equal. lia.
Qed.

(** Subtraction of whole numbers. *)
Lemma f32_sub_whole x y a b :
  is_whole x a → is_whole y b → 0 ≤ b ≤ a → a < 2 ^ 24 → is_whole (f32_sub x y) (a - b).
Proof.
  intros Hx Hy Hb Ha. destruct x as [s| | |s m e]; [|done|done|]; destruct y as [s'| | |s' m' e']; try done;
    cbn [is_whole] in Hx, Hy.
  - subst. by destruct s, s'.
  - subst. destruct Hy as (-> & He & Hy). replace b with 0 in Hy by lia. lia.
  - subst. by rewrite Z.sub_0_r.
  - destruct Hx as (-> & He & Hx), Hy as (-> & He' & Hy). unfold f32_sub, SFsub.
    set (ez := Z.min e e'). unfold cond_Zopp. rewrite !shl_align_val by lia.
    rewrite Hx, Hy, <- !Z.mul_assoc, <- !Z.pow_add_r by lia.
    replace (- e + (e - ez)) with (- ez) by lia. replace (- e' + (e' - ez)) with (- ez) by lia.
    rewrite <- Z.mul_sub_distr_r. apply binary_normalize_whole; [lia|done|lia].
Qed.

Lemma f32_of_Z_whole n : 0 ≤ n < 2 ^ 24 → is_whole (f32_of_Z n) n.
Proof. intros. apply binary_normalize_whole; [done|by rewrite Z.mul_1_r|done]. Qed.

(** What is left of a whole number without its whole part. *)
Lemma f32_sub_self x n : is_whole x n → n < 2 ^ 24 → 0 ≤ n → ∃ s, f32_sub x (f32_of_Z n) = S754_zero s.
Proof.
  intros Hx Hn H0. pose proof (f32_sub_whole x (f32_of_Z n) n n Hx (f32_of_Z_whole n ltac:(lia)) ltac:(lia) Hn) as H.
  rewrite Z.sub_diag in H. destruct (f32_sub x (f32_of_Z n)) as [s| | |s m e]; [by exists s|done|done|].
  destruct H as (_ & _ & H). lia.
Qed.
