(* ===== verification/CircBuffer.v ===== *)
(** * The sample ring of the acquisition module

    Models [interruption/proc_entry.h] and [interruption/proc_entry.c]: the
    circular buffer [CIRC_BUFFER] that the ADC interrupt fills
    ([write_to_buffer]) and the sender thread drains ([read_nsamples]).
    [read_nsamples] is given twice: as one uninterrupted call, and as the
    sequence of its accesses to the shared variables ([rstep]), because the
    interrupt may run between any two of them. *)

From S2P Require Import Prelude.

Definition CIRC_BUF_SIZE : Z := 1024.
Definition FIRST_INDEX : Z := 0.
Definition LAST_INDEX : Z := CIRC_BUF_SIZE - 1.

(** [sizeof(sample_t)]: an [int64_t], an [int32_t] and three [uint32_t]. *)
Definition sizeof_sample_t : Z := 24.

Record sample_t : Type := mk_sample {
  timestamp : Z;             (* int64_t *)
  seq_number : Z;            (* int32_t *)
  data : Z * Z * Z           (* uint32_t data[3] *)
}.

Record circ : Type := mk_circ {
  last_write : Z;            (* volatile uint32_t *)
  last_read : Z;             (* volatile uint32_t *)
  CIRC_BUFFER : list sample_t
}.

Definition quick_module (index : Z) : Z := Z.land index (CIRC_BUF_SIZE - 1).

(** The buffer as the loader leaves it. *)
Definition circ_init : circ :=
  mk_circ 0 0 (replicate (Z.to_nat CIRC_BUF_SIZE) (mk_sample 0 0 (0, 0, 0))).

Definition write_to_buffer (value : Z * Z * Z) (ts seq : Z) (c : circ) : circ :=
  let lw := quick_module (u32 (last_write c + 1)) in
  mk_circ lw (last_read c)
    (<[Z.to_nat lw := mk_sample ts seq value]> (CIRC_BUFFER c)).

Definition create_proc_file (c : circ) : circ := mk_circ 0 (last_read c) (CIRC_BUFFER c).

(** The number of samples between the two indices. *)
Definition samples_to_copy (behind : bool) (lr lw : Z) : Z :=
  if behind then u32 ((LAST_INDEX - lr) + (lw - FIRST_INDEX) + 1)
  else u32 (lw - lr).

(** The copy loop from iteration [i] on, [n] iterations left; [cap] is the
    number of samples the allocated block holds. *)
Fixpoint copy_loop (buf : list sample_t) (lr cap i : Z) (n : nat) : result (list sample_t) :=
  match n with
  | O => Ok []
  | S n' =>
      if cap <=? i then Crash OutOfBounds
      else match buf !! Z.to_nat (quick_module (u32 (lr + 1 + i))) with
           | None => Crash OutOfBounds
           | Some s => s' ← copy_loop buf lr cap (i + 1) n'; Ok (s :: s')
           end
  end.

(** The outcome of a call: the returned count, the block written to
    [*be_samples] and whether the consistency message was printed. *)
Record read_out : Type := mk_read_out {
  ret : Z;
  be_samples : option (list sample_t);
  complained : bool
}.

Section WithKmalloc.
(** [kmalloc size] succeeds or not. *)
Context (kmalloc : Z → bool).

Definition read_nsamples (c : circ) : result (read_out * circ) :=
  let last_write_tmp := last_write c in
  if last_read c =? last_write c then Ok (mk_read_out 0 None false, c)
  else
    let n := samples_to_copy (last_write c <? last_read c) (last_read c) (last_write c) in
    let size := u32 (n * sizeof_sample_t) in
    if negb (kmalloc size) then Ok (mk_read_out 0 None false, c)
    else
      be ← copy_loop (CIRC_BUFFER c) (last_read c) (size / sizeof_sample_t) 0 (Z.to_nat n);
      let lr := quick_module (u32 (last_read c + n)) in
      Ok (mk_read_out n (Some be) (negb (lr =? last_write_tmp)),
          mk_circ (last_write c) lr (CIRC_BUFFER c)).

(** The same call as a sequence of atomic accesses. *)
Inductive rpc : Type :=
| R_start
| R_test (tmp : Z)
| R_branch (tmp : Z)
| R_count (tmp : Z) (behind : bool)
| R_copy (tmp n cap i : Z) (acc : list sample_t)
| R_done (out : read_out).

Definition rstep (c : circ) (pc : rpc) : result (circ * rpc) :=
  match pc with
  | R_start => Ok (c, R_test (last_write c))
  | R_test tmp =>
      Ok (c, if last_read c =? last_write c then R_done (mk_read_out 0 None false)
             else R_branch tmp)
  | R_branch tmp => Ok (c, R_count tmp (last_write c <? last_read c))
  | R_count tmp behind =>
      let n := samples_to_copy behind (last_read c) (last_write c) in
      let size := u32 (n * sizeof_sample_t) in
      Ok (c, if kmalloc size then R_copy tmp n (size / sizeof_sample_t) 0 []
             else R_done (mk_read_out 0 None false))
  | R_copy tmp n cap i acc =>
      if i <? n then
        if cap <=? i then Crash OutOfBounds
        else match CIRC_BUFFER c !! Z.to_nat (quick_module (u32 (last_read c + 1 + i))) with
             | None => Crash OutOfBounds
             | Some s => Ok (c, R_copy tmp n cap (i + 1) (acc ++ [s]))
             end
      else
        let lr := quick_module (u32 (last_read c + n)) in
        Ok (mk_circ (last_write c) lr (CIRC_BUFFER c),
            R_done (mk_read_out n (Some acc) (negb (lr =? tmp))))
  | R_done out => Ok (c, R_done out)
  end.

(** One step of the system: the reader advances, or the interrupt stores a
    sample; the last component is the history of all samples ever stored. *)
Inductive sys_step : circ * rpc * list sample_t → circ * rpc * list sample_t → Prop :=
| step_reader c pc c' pc' L :
    rstep c pc = Ok (c', pc') → sys_step (c, pc, L) (c', pc', L)
| step_irq c pc L v ts seq :
    sys_step (c, pc, L) (write_to_buffer v ts seq c, pc, L ++ [mk_sample ts seq v]).
End WithKmalloc.

(** [procfile_read] of [/proc/geophone]: the raw bytes of the array. *)
Definition sample_bytes (s : sample_t) : list Z :=
  let '(d0, d1, d2) := data s in
  le_bytes 8 (timestamp s) ++ le_bytes 4 (seq_number s)
    ++ le_bytes 4 d0 ++ le_bytes 4 d1 ++ le_bytes 4 d2.

Definition circ_bytes (c : circ) : list Z := mjoin (sample_bytes <$> CIRC_BUFFER c).

(** Returned: the bytes copied to [dest_buffer] and the value of [*eof]. *)
Definition procfile_read (offset dest_buffer_length : Z) (c : circ) : result (list Z * Z) :=
  let data_size_in_chars := u32 (CIRC_BUF_SIZE * sizeof_sample_t) in
  let how_many := if u32 offset <=? data_size_in_chars
                  then u32 (data_size_in_chars - offset) else 0 in
  let how_many := if how_many <? u32 dest_buffer_length then how_many
                  else u32 dest_buffer_length in
  bs ← (if how_many =? 0 then Ok [] else sub_bytes (circ_bytes c) offset how_many);
  Ok (bs, if how_many =? 0 then 0 else 1).

(** ** What the ring promises

    [circ_inv L r c]: of the samples [L] stored so far the reader has taken the
    first [r]; the sample number [j] (from 0) lives in slot [(j + 1) mod 1024]
    until it is overwritten 1024 samples later. *)
Definition circ_inv (L : list sample_t) (r : Z) (c : circ) : Prop :=
  length (CIRC_BUFFER c) = Z.to_nat CIRC_BUF_SIZE ∧
  last_write c = Z.of_nat (length L) mod CIRC_BUF_SIZE ∧
  last_read c = r mod CIRC_BUF_SIZE ∧
  0 ≤ r ≤ Z.of_nat (length L) ∧
  ∀ j, 0 ≤ j → Z.of_nat (length L) - CIRC_BUF_SIZE ≤ j < Z.of_nat (length L) →
    CIRC_BUFFER c !! Z.to_nat ((j + 1) mod CIRC_BUF_SIZE) = L !! Z.to_nat j.

(** The queue the ring implements. *)
Inductive circ_op : Type :=
| OpWrite (s : sample_t)
| OpRead.

(** Abstract run: the queue of unread samples and the samples handed out;
    [None] when a write finds the queue full. *)
Fixpoint spec_run (ops : list circ_op) (q : list sample_t) : option (list sample_t * list sample_t) :=
  match ops with
  | [] => Some ([], q)
  | OpWrite s :: ops' =>
      if Z.of_nat (length q) <? CIRC_BUF_SIZE - 1 then spec_run ops' (q ++ [s]) else None
  | OpRead :: ops' =>
      '(out, q') ← spec_run ops' []; Some (q ++ out, q')
  end.

Fixpoint impl_run (kmalloc : Z → bool) (ops : list circ_op) (c : circ) : result (list sample_t * circ) :=
  match ops with
  | [] => Ok ([], c)
  | OpWrite s :: ops' =>
      impl_run kmalloc ops' (write_to_buffer (data s) (timestamp s) (seq_number s) c)
  | OpRead :: ops' =>
      '(o, c') ← read_nsamples kmalloc c;
      '(out, c'') ← impl_run kmalloc ops' c';
      Ok (default [] (be_samples o) ++ out, c'')
  end.

(** ** Lemmas *)

Lemma quick_module_mod x : quick_module x = x mod CIRC_BUF_SIZE.
Proof. apply (Z.land_ones x 10). lia. Qed.

Lemma u32_mod x : u32 x mod CIRC_BUF_SIZE = x mod CIRC_BUF_SIZE.
Proof. unfold u32, CIRC_BUF_SIZE. dlia. Qed.

Create Rewrite HintDb circ.
#[export] Hint Rewrite quick_module_mod u32_mod : circ.

Lemma circ_init_inv : circ_inv [] 0 circ_init.
Proof. repeat split; simpl; try lia. Qed.

Lemma circ_inv_write L r c v ts seq :
  circ_inv L r c →
  circ_inv (L ++ [mk_sample ts seq v]) r (write_to_buffer v ts seq c).
Proof.
  intros (Hlen & Hw & Hr & Hrange & Hbuf). unfold circ_inv, write_to_buffer; simpl.
  rewrite length_app, length_insert; simpl. autorewrite with circ.
  assert ((last_write c + 1) mod CIRC_BUF_SIZE = (Z.of_nat (length L) + 1) mod CIRC_BUF_SIZE)
    as Hslot by (rewrite Hw; apply Zplus_mod_idemp_l).
  split; [done|]. split; [rewrite Hslot; f_equal; lia|]. split; [done|]. split; [lia|].
  intros j Hj0 Hj. rewrite Hslot. destruct (decide (j = Z.of_nat (length L))) as [->|Hne].
  - rewrite list_lookup_insert_eq by (rewrite Hlen; unfold CIRC_BUF_SIZE; dlia).
    by rewrite Nat2Z.id, lookup_app_r, Nat.sub_diag by lia.
  - rewrite list_lookup_insert_ne by (unfold CIRC_BUF_SIZE in *; dlia).
    rewrite lookup_app_l by lia. apply Hbuf; lia.
Qed.

(** The copy loop yields a contiguous piece of the history. *)
Lemma copy_loop_history L buf lr cap i n base :
  (∀ k, i ≤ k < i + Z.of_nat n →
     buf !! Z.to_nat (quick_module (u32 (lr + 1 + k))) = L !! Z.to_nat (base + k)) →
  0 ≤ i → 0 ≤ base → i + Z.of_nat n ≤ cap → base + i + Z.of_nat n ≤ Z.of_nat (length L) →
  copy_loop buf lr cap i n = Ok (take n (drop (Z.to_nat (base + i)) L)).
Proof.
  revert i. induction n as [|n IH]; intros i Hbuf Hi Hb Hcap Hlen; [by rewrite take_0|].
  cbn [copy_loop]. rewrite (proj2 (Z.leb_gt cap i)) by lia.
  rewrite Hbuf by lia.
  destruct (lookup_lt_is_Some_2 L (Z.to_nat (base + i))) as [s Hs]; [lia|].
  rewrite Hs, IH by (try intros; try apply Hbuf; lia). simpl.
  rewrite (drop_S L s (Z.to_nat (base + i))) by done. simpl.
  by replace (Z.to_nat (base + (i + 1))) with (S (Z.to_nat (base + i))) by lia.
Qed.

(** The count the code computes is the distance between the indices. *)
Lemma samples_to_copy_dist lr lw :
  0 ≤ lr < CIRC_BUF_SIZE → 0 ≤ lw < CIRC_BUF_SIZE →
  samples_to_copy (lw <? lr) lr lw = (lw - lr) mod CIRC_BUF_SIZE.
Proof.
  unfold samples_to_copy, LAST_INDEX, FIRST_INDEX, CIRC_BUF_SIZE, u32. intros ??.
  destruct (Z.ltb_spec lw lr); dlia.
Qed.

(** Slots after the reader's index hold the history, also after laps. *)
Lemma circ_inv_slot L r c k lag :
  circ_inv L r c → lag = (Z.of_nat (length L) - r) mod CIRC_BUF_SIZE → 0 ≤ k < lag →
  CIRC_BUFFER c !! Z.to_nat (quick_module (u32 (last_read c + 1 + k)))
    = L !! Z.to_nat (Z.of_nat (length L) - lag + k).
Proof.
  intros (Hlen & Hw & Hr & Hrange & Hbuf) -> Hk. autorewrite with circ.
  rewrite <- Hbuf by (unfold CIRC_BUF_SIZE in *; dlia).
  f_equal. f_equal.
  rewrite Hr, <- Z.add_assoc, Zplus_mod_idemp_l.
  set (d := Z.of_nat (length L) - r) in *.
  replace (Z.of_nat (length L) - d mod CIRC_BUF_SIZE + k + 1)
    with (r + (1 + k) + (d / CIRC_BUF_SIZE) * CIRC_BUF_SIZE)
    by (unfold CIRC_BUF_SIZE; dlia).
  by rewrite Z_mod_plus_full.
Qed.

(** What one uninterrupted call does, for any amount of unread data: it takes
    the newest [lag] samples, where [lag] is the backlog modulo the ring size. *)
Lemma read_nsamples_lag kmalloc L r c lag :
  circ_inv L r c → lag = (Z.of_nat (length L) - r) mod CIRC_BUF_SIZE →
  (lag ≠ 0 → kmalloc (lag * sizeof_sample_t) = true) →
  read_nsamples kmalloc c =
    Ok (mk_read_out lag
          (if lag =? 0 then None else Some (drop (length L - Z.to_nat lag) L)) false,
        mk_circ (last_write c) (last_write c) (CIRC_BUFFER c)).
Proof.
  intros Hinv Hlag Hk. pose proof Hinv as (Hlen & Hw & Hr & Hrange & Hbuf).
  unfold read_nsamples.
  assert (last_read c = last_write c ↔ lag = 0) as Heq
    by (rewrite Hw, Hr; unfold CIRC_BUF_SIZE in *; dlia).
  destruct (Z.eqb_spec (last_read c) (last_write c)) as [E|E].
  { rewrite (proj1 Heq E). simpl. destruct c; simpl in *; congruence. }
  assert (lag ≠ 0) as Hl0 by tauto. specialize (Hk Hl0).
  assert (0 < lag < CIRC_BUF_SIZE ∧ lag ≤ Z.of_nat (length L)) as [Hlt Hle]
    by (clear - Hlag Hl0 Hrange; unfold CIRC_BUF_SIZE in *; dlia).
  rewrite samples_to_copy_dist by (rewrite ?Hr, ?Hw; unfold CIRC_BUF_SIZE; dlia).
  replace ((last_write c - last_read c) mod CIRC_BUF_SIZE) with lag
    by (rewrite Hw, Hr, Hlag; apply Zminus_mod).
  rewrite u32_small by (unfold CIRC_BUF_SIZE, sizeof_sample_t in *; lia).
  rewrite Hk, Z.div_mul by done. cbn [negb].
  assert (∀ k, 0 ≤ k < 0 + Z.of_nat (Z.to_nat lag) →
    CIRC_BUFFER c !! Z.to_nat (quick_module (u32 (last_read c + 1 + k)))
      = L !! Z.to_nat (Z.of_nat (length L) - lag + k)) as Hslots.
  { intros k Hkk. apply (circ_inv_slot L r); [done|done|lia]. }
  rewrite (copy_loop_history _ _ _ _ _ _ _ Hslots) by lia.
  autorewrite with circ. rewrite (proj2 (Z.eqb_neq lag 0)) by done.
  replace ((last_read c + lag) mod CIRC_BUF_SIZE) with (last_write c)
    by (rewrite Hw, Hr, Hlag, Zplus_mod_idemp_l, Zplus_mod_idemp_r; f_equal; lia).
  rewrite Z.eqb_refl. simpl.
  rewrite take_ge by (rewrite length_drop; lia).
  repeat f_equal. lia.
Qed.

(** *** The interleaved reader *)

Lemma take_drop_app_l {A} (L L' : list A) n r :
  (r + n ≤ length L)%nat → take n (drop r (L ++ L')) = take n (drop r L).
Proof.
  intros. rewrite drop_app_le, take_app_le; [done|rewrite length_drop; lia|lia].
Qed.

(** What holds of a call that started when the reader had taken [r] samples. *)
Definition rinv (r : Z) (c : circ) (pc : rpc) (L : list sample_t) : Prop :=
  match pc with
  | R_start | R_test _ => circ_inv L r c
  | R_branch _ => circ_inv L r c ∧ r < Z.of_nat (length L)
  | R_count _ behind =>
      circ_inv L r c ∧ r < Z.of_nat (length L) ∧
      ∃ w, r < w ≤ Z.of_nat (length L) ∧
           behind = (w mod CIRC_BUF_SIZE <? r mod CIRC_BUF_SIZE)
  | R_copy _ n cap i acc =>
      circ_inv L r c ∧ 1 ≤ n ≤ Z.of_nat (length L) - r ∧ cap = n ∧ 0 ≤ i ≤ n ∧
      acc = take (Z.to_nat i) (drop (Z.to_nat r) L)
  | R_done out =>
      (ret out = 0 ∧ circ_inv L r c) ∨
      (0 ≤ r ∧ 1 ≤ ret out ≤ Z.of_nat (length L) - r ∧
       be_samples out = Some (take (Z.to_nat (ret out)) (drop (Z.to_nat r) L)) ∧
       circ_inv L (r + ret out) c)
  end.

Lemma circ_inv_read L r c n :
  circ_inv L r c → 0 ≤ n ≤ Z.of_nat (length L) - r →
  circ_inv L (r + n)
    (mk_circ (last_write c) (quick_module (u32 (last_read c + n))) (CIRC_BUFFER c)).
Proof.
  intros (Hlen & Hw & Hr & Hrange & Hbuf) Hn. unfold circ_inv; simpl.
  autorewrite with circ. rewrite Hr, Zplus_mod_idemp_l. repeat split; auto; lia.
Qed.

(** The count read in three pieces is right or, in the window where the
    writer wraps between the comparison and the subtraction, absurdly large. *)
Lemma samples_to_copy_racy r w w' :
  0 ≤ r < w → w ≤ w' → w' - r < CIRC_BUF_SIZE →
  let n := samples_to_copy (w mod CIRC_BUF_SIZE <? r mod CIRC_BUF_SIZE)
             (r mod CIRC_BUF_SIZE) (w' mod CIRC_BUF_SIZE) in
  n = w' - r ∨ 2 ^ 31 ≤ u32 (n * sizeof_sample_t).
Proof.
  unfold CIRC_BUF_SIZE, samples_to_copy, LAST_INDEX, FIRST_INDEX, sizeof_sample_t,
    CIRC_BUF_SIZE. intros Hr Hw Hlt. simpl.
  pose proof (Z.div_mod r 1024 ltac:(lia)) as Er.
  pose proof (Z.div_mod w 1024 ltac:(lia)) as Ew.
  pose proof (Z.div_mod w' 1024 ltac:(lia)) as Ew'.
  pose proof (Z.mod_pos_bound r 1024 ltac:(lia)) as Br.
  pose proof (Z.mod_pos_bound w 1024 ltac:(lia)) as Bw.
  pose proof (Z.mod_pos_bound w' 1024 ltac:(lia)) as Bw'.
  set (rq := r / 1024) in *. set (wq := w / 1024) in *. set (wq' := w' / 1024) in *.
  set (rm := r mod 1024) in *. set (wm := w mod 1024) in *. set (wm' := w' mod 1024) in *.
  clearbody rq wq wq' rm wm wm'.
  destruct (Z.ltb_spec wm rm) as [H|H].
  - left. unfold u32. rewrite Z.mod_small by lia. lia.
  - destruct (Z.le_gt_cases rm wm').
    + left. unfold u32. rewrite Z.mod_small by lia. lia.
    + right. unfold u32. rewrite Zmult_mod_idemp_l.
      replace ((wm' - rm) * 24) with (2 ^ 32 - 24 * (rm - wm') + (-1) * 2 ^ 32) by lia.
      rewrite Z_mod_plus_full, Z.mod_small by lia. lia.
Qed.

Lemma rinv_irq r c pc L v ts seq :
  rinv r c pc L → rinv r (write_to_buffer v ts seq c) pc (L ++ [mk_sample ts seq v]).
Proof.
  destruct pc; simpl; rewrite ?length_app; simpl.
  - apply circ_inv_write.
  - apply circ_inv_write.
  - intros [? ?]. split; [by apply circ_inv_write|lia].
  - intros (? & ? & w & ? & ?). split_and!; [by apply circ_inv_write|lia|].
    exists w. split; [lia|done].
  - intros (Hinv & ? & ? & ? & ->). split_and!; try lia; [by apply circ_inv_write|].
    destruct Hinv as (_ & _ & _ & Hr & _). by rewrite take_drop_app_l by lia.
  - intros [[? ?]|(? & ? & Hout & Hinv)].
    + left. split; [done|by apply circ_inv_write].
    + right. split_and!; try lia; [|by apply circ_inv_write].
      rewrite Hout. destruct Hinv as (_ & _ & _ & Hr & _). by rewrite take_drop_app_l by lia.
Qed.

Lemma rinv_copy_slot r c L i :
  circ_inv L r c → Z.of_nat (length L) - r < CIRC_BUF_SIZE → 0 ≤ i < Z.of_nat (length L) - r →
  CIRC_BUFFER c !! Z.to_nat (quick_module (u32 (last_read c + 1 + i)))
    = L !! Z.to_nat (r + i).
Proof.
  intros Hinv Hb Hi.
  rewrite (circ_inv_slot L r c i (Z.of_nat (length L) - r)); [f_equal; lia|done| |lia].
  rewrite Z.mod_small; lia.
Qed.

Lemma rinv_rstep kmalloc r c pc L :
  (∀ sz, 2 ^ 31 ≤ sz → kmalloc sz = false) →
  Z.of_nat (length L) - r < CIRC_BUF_SIZE →
  rinv r c pc L → ∃ c' pc', rstep kmalloc c pc = Ok (c', pc') ∧ rinv r c' pc' L.
Proof.
  intros Hk Hb Hinv. destruct pc as [|tmp|tmp|tmp behind|tmp n cap i acc|out]; simpl in *.
  - eauto.
  - do 2 eexists; split; [done|]. pose proof Hinv as (_ & Hw & Hr & Hrg & _).
    destruct (Z.eqb_spec (last_read c) (last_write c)) as [E|E]; simpl; [by left|].
    split; [done|]. destruct (decide (r = Z.of_nat (length L))); [congruence|lia].
  - do 2 eexists; split; [done|]. destruct Hinv as [Hinv ?]. simpl. split_and!; auto.
    pose proof Hinv as (_ & Hw & Hr & _). rewrite Hw, Hr.
    exists (Z.of_nat (length L)). split; [lia|done].
  - destruct Hinv as (Hinv & Hlt & w & Hw & ->). do 2 eexists; split; [done|].
    pose proof Hinv as (_ & Hlw & Hlr & Hrg & _). rewrite Hlw, Hlr.
    destruct (samples_to_copy_racy r w (Z.of_nat (length L))) as [E|E]; [lia..| |].
    + rewrite E. case_test; simpl; [|by left].
      rewrite u32_small by (unfold CIRC_BUF_SIZE, sizeof_sample_t in *; lia).
      rewrite Z.div_mul by done. split_and!; auto; lia.
    + rewrite (Hk _ E). simpl. by left.
  - destruct Hinv as (Hinv & Hn & -> & Hi & ->).
    destruct (Z.ltb_spec i n) as [Hin|Hin].
    + rewrite (proj2 (Z.leb_gt n i)) by lia. rewrite (rinv_copy_slot r c L i) by (done || lia).
      pose proof Hinv as (_ & _ & _ & Hrg & _).
      destruct (lookup_lt_is_Some_2 L (Z.to_nat (r + i))) as [s Hs]; [lia|].
      rewrite Hs. do 2 eexists; split; [done|]. simpl. split_and!; auto; try lia.
      replace (Z.to_nat (i + 1)) with (S (Z.to_nat i)) by lia.
      erewrite take_S_r; [done|]. rewrite lookup_drop. by rewrite <- Z2Nat.inj_add by lia.
    + assert (i = n) as -> by lia. do 2 eexists; split; [done|]. simpl. right.
      pose proof Hinv as (_ & _ & _ & Hrg & _).
      split_and!; try lia; [done|]. by apply circ_inv_read; [|lia].
  - eauto.
Qed.

Lemma sys_step_log kmalloc c pc L c' pc' L' :
  sys_step kmalloc (c, pc, L) (c', pc', L') → (length L ≤ length L')%nat.
Proof. intros H; inversion H; subst; rewrite ?length_app; simpl; lia. Qed.

Lemma rinv_reachable kmalloc r c0 L0 s :
  (∀ sz, 2 ^ 31 ≤ sz → kmalloc sz = false) →
  circ_inv L0 r c0 → rtc (sys_step kmalloc) (c0, R_start, L0) s →
  Z.of_nat (length s.2) - r < CIRC_BUF_SIZE → rinv r s.1.1 s.1.2 s.2.
Proof.
  intros Hk H0 Hs. revert s Hs.
  refine (rtc_ind_r (fun s => _) _ _ _); [done|].
  intros s1 s2 _ Hstep IH Hb. destruct s1 as [[c pc] L], s2 as [[c' pc'] L'].
  pose proof (sys_step_log _ _ _ _ _ _ _ Hstep). simpl in *.
  assert (rinv r c pc L) as Hinv by (apply IH; lia).
  inversion Hstep as [? ? ? ? ? Hr|]; subst; [|by apply rinv_irq].
  destruct (rinv_rstep kmalloc r c pc L') as (? & ? & Hr' & ?); [done|lia|done|].
  congruence.
Qed.

(** ** Theorems *)

(** C1: a call to [read_nsamples] during which the interrupt stores any number
    of samples at any point never touches memory outside the ring, and either
    takes nothing or takes, in order and without a gap, the samples that follow
    the ones taken before, as long as no more than 1023 samples are unread and
    [kmalloc] refuses requests of 2 GiB and more (the race between the
    comparison and the subtraction of the indices asks for such a block). *)
Theorem read_nsamples_interleaved kmalloc r c0 L0 c pc L :
  (∀ sz, 2 ^ 31 ≤ sz → kmalloc sz = false) →
  circ_inv L0 r c0 →
  rtc (sys_step kmalloc) (c0, R_start, L0) (c, pc, L) →
  Z.of_nat (length L) - r < CIRC_BUF_SIZE →
  (∃ c' pc', rstep kmalloc c pc = Ok (c', pc')) ∧
  ∀ out, pc = R_done out →
    circ_inv L (r + ret out) c ∧
    (ret out = 0 ∨ be_samples out = Some (take (Z.to_nat (ret out)) (drop (Z.to_nat r) L))).
Proof.
  intros Hk H0 Hs Hb. pose proof (rinv_reachable _ _ _ _ _ Hk H0 Hs Hb) as Hinv. simpl in Hinv.
  split.
  - destruct (rinv_rstep _ _ _ _ _ Hk Hb Hinv) as (? & ? & ? & _). eauto.
  - intros out ->. destruct Hinv as [[-> ?]|(_ & _ & ? & ?)]; [|auto].
    rewrite Z.add_0_r. auto.
Qed.

(** The interrupt stores a sample between the reader's first two accesses. *)
Lemma read_nsamples_interleaved_witness :
  ∃ c out, rtc (sys_step (fun sz => sz <? 4096)) (circ_init, R_start, [])
             (c, R_done out, [mk_sample 7 1 (1, 2, 3)]) ∧
           circ_inv [mk_sample 7 1 (1, 2, 3)] 1 c ∧
           be_samples out = Some [mk_sample 7 1 (1, 2, 3)].
Proof.
  assert (∃ c out, rtc (sys_step (fun sz => sz <? 4096)) (circ_init, R_start, [])
             (c, R_done out, [mk_sample 7 1 (1, 2, 3)]) ∧ ret out = 1) as (c & out & Hs & Hret).
  { do 2 eexists. split.
    - eapply rtc_l; [by apply step_reader|].
      eapply rtc_l; [apply (step_irq _ _ _ _ (1, 2, 3) 7 1)|].
      do 5 (eapply rtc_l; [apply step_reader; vm_compute; reflexivity|]). apply rtc_refl.
    - reflexivity. }
  exists c, out. split; [done|].
  destruct (read_nsamples_interleaved (fun sz => sz <? 4096) 0 circ_init [] c (R_done out)
              [mk_sample 7 1 (1, 2, 3)]) as [_ H].
  - intros sz Hsz. apply Z.ltb_ge. lia.
  - apply circ_init_inv.
  - done.
  - done.
  - destruct (H out eq_refl) as [Hinv [H0|Hbe]]; [lia|]. rewrite Hret in *. done.
Defined.

Lemma spec_run_refines kmalloc ops :
  (∀ k, 0 < k < CIRC_BUF_SIZE → kmalloc (k * sizeof_sample_t) = true) →
  ∀ L r c out q,
    circ_inv L r c → Z.of_nat (length L) - r < CIRC_BUF_SIZE →
    spec_run ops (drop (Z.to_nat r) L) = Some (out, q) →
    ∃ c' L' r', impl_run kmalloc ops c = Ok (out, c') ∧ circ_inv L' r' c' ∧
                q = drop (Z.to_nat r') L'.
Proof.
  intros Hk. induction ops as [|[s|] ops IH]; intros L r c out q Hinv Hb Hrun; simpl in *.
  - simplify_eq. eauto 10.
  - pose proof Hinv as (_ & _ & _ & Hr & _). rewrite length_drop in Hrun.
    destruct (Z.ltb_spec (Z.of_nat (length L - Z.to_nat r)) (CIRC_BUF_SIZE - 1)); [|done].
    apply (IH (L ++ [s]) r).
    + destruct s. by apply circ_inv_write.
    + rewrite length_app; simpl. lia.
    + by rewrite drop_app_le by lia.
  - pose proof Hinv as (_ & Hw & _ & Hr & _).
    rewrite (read_nsamples_lag kmalloc L r c (Z.of_nat (length L) - r)); [|done| |].
    2: { symmetry. apply Z.mod_small. lia. }
    2: { intros. apply Hk. lia. }
    simpl. destruct (spec_run ops []) as [[out1 q1]|] eqn:E; simpl in *; [|done]. simplify_eq.
    destruct (IH L (Z.of_nat (length L)) (mk_circ (last_write c) (last_write c) (CIRC_BUFFER c))
                out1 q) as (c' & L' & r' & Himpl & Hinv' & Hq).
    + destruct Hinv as (? & _ & _ & _ & ?). repeat split; auto; lia.
    + unfold CIRC_BUF_SIZE. lia.
    + by rewrite Nat2Z.id, drop_all.
    + rewrite Himpl. simpl. do 3 eexists. split_and!; [|done|done].
      do 3 f_equal. destruct (Z.eqb_spec (Z.of_nat (length L) - r) 0); simpl.
      * by rewrite drop_ge by lia.
      * f_equal. lia.
Qed.

(** C10: the ring implements a FIFO queue of up to 1023 samples: for every
    sequence of stores and reads in which no store finds 1023 unread samples,
    the reads hand out exactly what reads of the queue would, whatever the
    index wrap-arounds, provided the blocks they ask for can be allocated. *)
Theorem circ_refines_queue kmalloc ops out q :
  (∀ k, 0 < k < CIRC_BUF_SIZE → kmalloc (k * sizeof_sample_t) = true) →
  spec_run ops [] = Some (out, q) →
  ∃ c, impl_run kmalloc ops circ_init = Ok (out, c) ∧ ∃ L r, circ_inv L r c ∧ q = drop (Z.to_nat r) L.
Proof.
  intros Hk Hrun.
  destruct (spec_run_refines kmalloc ops Hk [] 0 circ_init out q) as (c & L & r & ? & ? & ?);
    eauto 10 using circ_init_inv. done.
Qed.

Lemma circ_refines_queue_witness :
  ∃ c, impl_run (fun _ => true)
         [OpWrite (mk_sample 1 1 (1, 2, 3)); OpRead; OpWrite (mk_sample 2 2 (4, 5, 6)); OpRead; OpRead]
         circ_init = Ok ([mk_sample 1 1 (1, 2, 3); mk_sample 2 2 (4, 5, 6)], c).
Proof.
  destruct (circ_refines_queue (fun _ => true)
    [OpWrite (mk_sample 1 1 (1, 2, 3)); OpRead; OpWrite (mk_sample 2 2 (4, 5, 6)); OpRead; OpRead]
    [mk_sample 1 1 (1, 2, 3); mk_sample 2 2 (4, 5, 6)] []) as (c & H & _);
    [reflexivity|reflexivity|exists c; exact H].
Defined.

(** When the reader falls behind by [backlog] samples it is given the newest
    [backlog mod 1024] of them and the older [1024 * (backlog / 1024)] are lost;
    the call reports no inconsistency. *)
Theorem read_nsamples_overrun kmalloc L r c backlog :
  circ_inv L r c → backlog = Z.of_nat (length L) - r →
  (∀ k, 0 < k < CIRC_BUF_SIZE → kmalloc (k * sizeof_sample_t) = true) →
  ∃ o c', read_nsamples kmalloc c = Ok (o, c') ∧
    ret o = backlog mod CIRC_BUF_SIZE ∧
    default [] (be_samples o) =
      drop (Z.to_nat (r + CIRC_BUF_SIZE * (backlog / CIRC_BUF_SIZE))) L ∧
    complained o = false ∧ circ_inv L (Z.of_nat (length L)) c'.
Proof.
  intros Hinv -> Hk. pose proof Hinv as (Hlen & Hw & Hr & Hrange & Hbuf).
  set (b := Z.of_nat (length L) - r) in *.
  assert (0 ≤ b mod CIRC_BUF_SIZE < CIRC_BUF_SIZE) as Hm by (apply Z.mod_pos_bound; done).
  pose proof (Z.div_mod b CIRC_BUF_SIZE ltac:(done)) as Hdm.
  rewrite (read_nsamples_lag kmalloc L r c (b mod CIRC_BUF_SIZE)); [|done|done|].
  2: { intros. apply Hk. lia. }
  do 2 eexists. split_and!; [done|done| |done|].
  - simpl. assert (0 ≤ b / CIRC_BUF_SIZE) by (apply Z.div_pos; lia || done).
    destruct (Z.eqb_spec (b mod CIRC_BUF_SIZE) 0); simpl.
    + by rewrite drop_ge by nia.
    + f_equal. nia.
  - repeat split; auto; lia.
Qed.

(** A reader that sleeps through 1025 interrupts finds one sample. *)
Lemma read_nsamples_overrun_witness :
  let w := fix w (n : nat) (c : circ) :=
    match n with O => c | S n' => w n' (write_to_buffer (0, 0, Z.of_nat n') (Z.of_nat n') 0 c) end in
  ∃ o c', read_nsamples (fun _ => true) (w 1025%nat circ_init) = Ok (o, c') ∧ ret o = 1.
Proof.
  intros w.
  assert (∀ n L c, circ_inv L 0 c → ∃ L', length L' = (length L + n)%nat ∧ circ_inv L' 0 (w n c))
    as Hw.
  { induction n as [|n IH]; intros L c H; [exists L; split; [lia|done]|].
    destruct (IH _ _ (circ_inv_write L 0 c (0, 0, Z.of_nat n) (Z.of_nat n) 0 H)) as (L' & Hl & ?).
    exists L'. rewrite length_app in Hl. simpl in Hl. split; [lia|done]. }
  destruct (Hw 1025%nat [] circ_init circ_init_inv) as (L & Hl & Hinv).
  destruct (read_nsamples_overrun (fun _ => true) L 0 (w 1025%nat circ_init)
              (Z.of_nat (length L) - 0) Hinv eq_refl) as (o & c' & H1 & H2 & _); [done|].
  exists o, c'. split; [done|]. rewrite H2, Hl. reflexivity.
Defined.
