(* ===== verification/Fpga.v ===== *)
(** * Access to the FPGA and the ADC

    Models [interruption/fpga.c] with the constants of [interruption/mem_addr.h].
    The hardware is whatever answers the register reads: a [script] holds the
    values the next reads of memory-mapped registers return, in order, and the
    [mmio] log records every access. A polling loop that the script never
    satisfies ends in [Crash Diverges]; theorems quantify over all scripts. *)

From S2P Require Import Prelude.

Definition SPI_REGISTER : Z := 0x71000000.
Definition SPI_CFG : Z := 0x40.
Definition SPI_TX_CTRL : Z := 0x4C.
Definition SPI_RX_DATA : Z := 0x58.
Definition SPI_FIFO_TX_CTRL : Z := 0x60.
Definition SPI_FIFO_RX_CFG : Z := 0x64.
Definition SPI_INTR_ENA : Z := 0x6C.
Definition LUN_CS_ERASE_MASK : Z := 0x700.
Definition LUN_CS_BIT_MASK : Z := Z.shiftl 1 9.
Definition EDGE_MASK : Z := Z.shiftl 1 14.
Definition SPEED_SHIFT : Z := 10.
Definition WORD_SIZE : Z := 4.
Definition GPIOA_REGISTER : Z := 0x7C000000.
Definition WATCHDOG_TIME_10SEG : Z := 2.
Definition WATCHDOG_FPGA_ADDRESS : Z := 0x74.

Inductive access : Type :=
| Rd (addr val : Z)
| Wr (addr val : Z).

Record fpga : Type := mk_fpga {
  gpio_a_new_mem : Z;
  spi_register : Z;
  cvspiregs : Z;
  script : list Z;           (* answers of the hardware to the next reads *)
  mmio : list access         (* accesses so far, the latest first *)
}.

Definition rd (addr : Z) : stm fpga Z := fun s =>
  match script s with
  | [] => Crash Diverges
  | v :: vs =>
      Ok (v, mk_fpga (gpio_a_new_mem s) (spi_register s) (cvspiregs s) vs (Rd addr v :: mmio s))
  end.

Definition wr (addr val : Z) : stm fpga unit := fun s =>
  Ok (tt, mk_fpga (gpio_a_new_mem s) (spi_register s) (cvspiregs s) (script s)
            (Wr addr val :: mmio s)).

(** Poll a register until it is zero ([z = true]) or non-zero. Every poll uses
    one answer of the script, so its length bounds the polls. *)
Fixpoint poll_loop (fuel : nat) (addr : Z) (z : bool) : stm fpga unit :=
  match fuel with
  | O => throw Diverges
  | S n => v ← rd addr; if Bool.eqb (v =? 0) z then mret tt else poll_loop n addr z
  end.
Definition with_fuel {A} (f : nat → stm fpga A) : stm fpga A :=
  fun s => f (S (length (script s))) s.
Definition poll (addr : Z) (z : bool) : stm fpga unit :=
  with_fuel (fun fuel => poll_loop fuel addr z).

(** The A15/A16 window of the bus, written to the GPIO block. *)
Definition window_word (adr : Z) : Z :=
  Z.lor (u32 (Z.shiftl (Z.shiftr adr 5) 15)) (Z.lor (Z.shiftl 1 17) (Z.shiftl 1 3)).

Definition poke_command (adr d : Z) : Z :=
  Z.lor (Z.lor (u32 (Z.shiftl adr 18)) 0x800000) (u32 (Z.shiftl d 3)).

(** The loop of the assembly block: labels 3, 2 and 1. *)
Fixpoint poke_loop (fuel : nat) (cmd : Z) : stm fpga unit :=
  match fuel with
  | O => throw Diverges
  | S n =>
      s ← get;
      poll (cvspiregs s + 0x64) true;;
      wr (cvspiregs s + 0x50) cmd;;
      poll (cvspiregs s + 0x64) false;;
      r ← rd (cvspiregs s + 0x58);
      if Z.land r 0x1 =? 0 then poke_loop n 0 else mret tt
  end.

Definition poke16 (adr dat : Z) : stm fpga unit :=
  s ← get;
  wr (gpio_a_new_mem s) (window_word adr);;
  let adr := Z.land adr 0x1f in
  with_fuel (fun fuel => poke_loop fuel (poke_command adr dat)).

Fixpoint peek_loop (fuel : nat) (cmd : Z) : stm fpga Z :=
  match fuel with
  | O => throw Diverges
  | S n =>
      s ← get;
      wr (cvspiregs s + 0x50) cmd;;
      poll (cvspiregs s + 0x64) false;;
      r ← rd (cvspiregs s + 0x58);
      if Z.land r 0x10000 =? 0 then peek_loop n 0
      else mret (Z.land r (u32 (Z.lnot 0xff0000)))
  end.

Definition peek16 (adr : Z) : stm fpga Z :=
  s ← get;
  wr (gpio_a_new_mem s) (window_word adr);;
  let adr := Z.land adr 0x1f in
  r ← with_fuel (fun fuel => peek_loop fuel (u32 (Z.shiftl adr 18)));
  mret (u16 r).

Definition getR0 : stm fpga Z := peek16 0x40.
Definition setR0 (val : Z) : stm fpga unit := poke16 0x40 (u16 val).

Definition cavium_disable_cs : stm fpga unit :=
  val ← getR0;
  if truthy (Z.land val (Z.shiftl 1 7)) then
    setR0 (Z.land val (Z.lnot (Z.shiftl 1 7)));;
    setR0 (Z.lxor (Z.land val (Z.lnot (Z.shiftl 1 7))) (Z.shiftl 1 14))
  else mret tt.

Fixpoint read_times (n : nat) (addr : Z) : stm fpga unit :=
  match n with O => mret tt | S n' => rd addr;; read_times n' addr end.

Definition prepare_registers : stm fpga unit :=
  s ← get;
  wr (spi_register s + SPI_FIFO_RX_CFG) 0x0;;
  wr (spi_register s + SPI_CFG) 0x80000c02;;
  wr (spi_register s + SPI_FIFO_TX_CTRL) 0x0;;
  wr (spi_register s + SPI_INTR_ENA) 0x0;;
  wr (spi_register s + SPI_TX_CTRL) 0x4;;
  read_times 8 (spi_register s + SPI_RX_DATA);;
  wr (gpio_a_new_mem s) (Z.lor (Z.shiftl 2 15) (Z.lor (Z.shiftl 1 17) (Z.shiftl 1 3)));;
  cavium_disable_cs.

(** [gpio] and [spi] are the addresses [request_mem] returned. *)
Definition reserve_memory (gpio spi : Z) : stm fpga unit :=
  modify (fun s => mk_fpga gpio spi spi (script s) (mmio s)).

Definition set_lun_speed_edge : stm fpga unit :=
  let clock := 15 in
  let edge := 1 in
  conf ← getR0;
  let mask := if edge =? 1 then EDGE_MASK else 0 in
  setR0 (Z.lor conf mask);;
  let mask := Z.lor mask LUN_CS_BIT_MASK in
  let conf := Z.land conf (Z.lnot LUN_CS_ERASE_MASK) in
  let mask := Z.lor mask (Z.shiftl clock SPEED_SHIFT) in
  setR0 (Z.lor conf mask).

Definition prepare_spi2 : stm fpga unit := prepare_registers;; set_lun_speed_edge.
Definition prepare_spi (gpio spi : Z) : stm fpga unit := reserve_memory gpio spi.

(** Byte [i] of a 32-bit variable in memory. *)
Definition byte_at (w i : Z) : Z := Z.land (Z.shiftr w (8 * i)) 0xff.

(** The twelve bytes of [read_buffer], from the six words read. *)
Definition channel_bytes (a b c d e f : Z) : list Z :=
  let temp_buffer1 := u32 (Z.lor (Z.shiftl a 16) b) in
  let temp_buffer2 := u32 (Z.lor (Z.shiftl c 16) d) in
  let temp_buffer3 := u32 (Z.lor (Z.shiftl e 16) f) in
  [byte_at temp_buffer1 3; byte_at temp_buffer1 2; byte_at temp_buffer1 1;
   byte_at temp_buffer1 0; byte_at temp_buffer2 3; byte_at temp_buffer2 2;
   byte_at temp_buffer2 1; byte_at temp_buffer2 0; byte_at temp_buffer3 3;
   byte_at temp_buffer3 2; byte_at temp_buffer3 1; byte_at temp_buffer3 0].

(** [read_buffer] is an array of three [unsigned int]. *)
Definition words_of_bytes (bs : list Z) : Z * Z * Z :=
  (le_val (take 4 bs), le_val (take 4 (drop 4 bs)), le_val (take 4 (drop 8 bs))).

Definition read_four_channels : stm fpga (Z * Z * Z) :=
  a ← peek16 0x4A;
  b ← peek16 0x4A;
  c ← peek16 0x4A;
  d ← peek16 0x4A;
  e ← peek16 0x4A;
  f ← peek16 0x4C;
  mret (words_of_bytes (channel_bytes a b c d e f)).

Definition write_watchdog : stm fpga unit :=
  poke16 WATCHDOG_FPGA_ADDRESS WATCHDOG_TIME_10SEG.

Definition write_dio26 (b : bool) : stm fpga unit :=
  let pinOffSet := 5 in
  (if b then v ← peek16 0x6a; poke16 0x6a (u16 (Z.lor v (Z.shiftl 1 pinOffSet)))
   else v ← peek16 0x6a; poke16 0x6a (u16 (Z.land v (Z.lnot (Z.shiftl 1 pinOffSet)))));;
  v ← peek16 0x6c;
  poke16 0x6c (u16 (Z.lor v (Z.shiftl 1 pinOffSet))).

(** ** Lemmas *)

Lemma byte_at_div w i : 0 ≤ i → byte_at w i = w / 2 ^ (8 * i) mod 256.
Proof.
  intros. unfold byte_at. rewrite (land_ones_mod _ 8) by done.
  by rewrite (shiftr_div w (8 * i) (2 ^ (8 * i))) by lia.
Qed.

Lemma two_words a b : is_u16 a → is_u16 b → u32 (Z.lor (Z.shiftl a 16) b) = a * 65536 + b.
Proof. intros. rewrite lor_shiftl_add by lia. rewrite u32_small by lia. lia. Qed.

Lemma two_words_bytes a b :
  is_u16 a → is_u16 b →
  let w := u32 (Z.lor (Z.shiftl a 16) b) in
  [byte_at w 3; byte_at w 2; byte_at w 1; byte_at w 0]
    = [a / 256; a mod 256; b / 256; b mod 256].
Proof.
  intros Ha Hb. cbv zeta. rewrite two_words, !byte_at_div by lia.
  change (2 ^ (8 * 3)) with 16777216. change (2 ^ (8 * 2)) with 65536.
  change (2 ^ (8 * 1)) with 256. change (2 ^ (8 * 0)) with 1.
  assert ((a * 65536 + b) / 16777216 mod 256 = a / 256) as -> by dlia.
  assert ((a * 65536 + b) / 65536 mod 256 = a mod 256) as -> by dlia.
  assert ((a * 65536 + b) / 256 mod 256 = b / 256) as -> by dlia.
  assert ((a * 65536 + b) / 1 mod 256 = b mod 256) as -> by dlia.
  done.
Qed.

Lemma channel_bytes_words a b c d e f :
  is_u16 a → is_u16 b → is_u16 c → is_u16 d → is_u16 e → is_u16 f →
  channel_bytes a b c d e f =
    mjoin ((fun w => [w / 256; w mod 256]) <$> [a; b; c; d; e; f]).
Proof.
  intros Ha Hb Hc Hd He Hf. unfold channel_bytes. cbv zeta.
  pose proof (two_words_bytes a b Ha Hb) as E1.
  pose proof (two_words_bytes c d Hc Hd) as E2.
  pose proof (two_words_bytes e f He Hf) as E3. cbv zeta in E1, E2, E3.
  injection E1 as -> -> -> ->. injection E2 as -> -> -> ->. by injection E3 as -> -> -> ->.
Qed.

(** The writes of the log, latest first. *)
Definition writes (s : fpga) : list (Z * Z) :=
  omap (fun a => match a with Wr x v => Some (x, v) | Rd _ _ => None end) (mmio s).

(** The configuration of the driver, which no access changes. *)
Definition same_base (s s' : fpga) : Prop :=
  gpio_a_new_mem s' = gpio_a_new_mem s ∧ spi_register s' = spi_register s ∧
  cvspiregs s' = cvspiregs s.

Lemma poll_loop_ok fuel addr z s s' :
  poll_loop fuel addr z s = Ok (tt, s') → writes s' = writes s ∧ same_base s s'.
Proof.
  revert s. induction fuel as [|fuel IH]; intros s; [done|].
  cbn [poll_loop]. unfold mbind, stm_bind, rd. destruct (script s) as [|v vs]; [done|].
  case_test; intros H.
  - unfold mret, stm_ret in H. simplify_eq. done.
  - apply IH in H as [? (? & ? & ?)]. done.
Qed.

(** Consecutive zero polls are waited out. *)
Lemma poll_loop_wait k fuel addr st rest s :
  (k < fuel)%nat → st ≠ 0 → script s = replicate k 0 ++ st :: rest →
  poll_loop fuel addr false s =
    Ok (tt, mk_fpga (gpio_a_new_mem s) (spi_register s) (cvspiregs s) rest
              (Rd addr st :: replicate k (Rd addr 0) ++ mmio s)).
Proof.
  revert fuel s. induction k as [|k IH]; intros [|fuel] s Hf Hst Hs; try lia; simpl in Hs;
    cbn [poll_loop]; unfold mbind, stm_bind, rd; rewrite Hs.
  - by rewrite (proj2 (Z.eqb_neq st 0)).
  - change (Bool.eqb (0 =? 0) false) with false. cbv iota.
    rewrite IH by (simpl; lia || done). simpl. by rewrite replicate_cons_middle.
Qed.

Lemma peek_loop_tx fuel cmd s v s' :
  peek_loop fuel cmd s = Ok (v, s') →
  same_base s s' ∧
  ∃ k, writes s' = replicate k (cvspiregs s + 0x50, 0) ++ (cvspiregs s + 0x50, cmd) :: writes s.
Proof.
  revert cmd s. induction fuel as [|fuel IH]; intros cmd s; [done|].
  cbn [peek_loop]. intros H.
  inv_bind H. match goal with H0 : get _ = _ |- _ => injection H0 as <- <- end.
  inv_bind H. match goal with H0 : wr _ _ _ = _ |- _ => injection H0 as <- <- end.
  apply bind_Ok in H as ([] & s2 & Hp & H).
  apply poll_loop_ok in Hp as [Hw (B1 & B2 & B3)]. simpl in B1, B2, B3.
  apply bind_Ok in H as (r & s3 & Hr & H).
  assert (writes s3 = writes s2 ∧ same_base s s3) as [Hw3 Hb3].
  { unfold rd in Hr. destruct (script s2); simplify_eq. done. }
  destruct (Z.land r 65536 =? 0).
  - apply IH in H as [(? & ? & ?) [k Hk]]. destruct Hb3 as (? & ? & E3).
    split; [repeat split; congruence|]. exists (S k).
    rewrite Hk, E3, Hw3, Hw. apply replicate_cons_middle.
  - apply ret_Ok in H. simplify_eq. split; [done|]. exists 0%nat. by rewrite Hw3, Hw.
Qed.

(** A transaction the FPGA acknowledges: it is polled [k] times, then status
    [st] is non-zero, then [r] is received, with its acknowledge bit set. *)
Record transaction : Type := mk_trans { busy : nat; status : Z; reply : Z }.
Definition acked (t : transaction) : Prop := status t ≠ 0 ∧ Z.testbit (reply t) 16 = true.
Definition answers (t : transaction) : list Z := replicate (busy t) 0 ++ [status t; reply t].

Lemma ack_bit r : Z.testbit r 16 = true → (Z.land r 0x10000 =? 0) = false.
Proof.
  intros H. apply Z.eqb_neq. intros E.
  assert (Z.testbit (Z.land r 0x10000) 16 = false) as F by by rewrite E, Z.bits_0.
  by rewrite Z.land_spec, H in F.
Qed.

Lemma u16_bic r : u16 (Z.land r (u32 (Z.lnot 0xff0000))) = u16 r.
Proof.
  unfold u16. apply Z.bits_inj'. intros i Hi.
  destruct (Z.lt_ge_cases i 16) as [H|H]; [|by rewrite !Z.mod_pow2_bits_high by lia].
  rewrite !Z.mod_pow2_bits_low by done. rewrite Z.land_spec.
  replace (Z.testbit (u32 (Z.lnot 0xff0000)) i) with true; [apply andb_true_r|].
  symmetry. by apply (forall_range (Z.testbit (u32 (Z.lnot 0xff0000))) 0 16).
Qed.

Definition peek_log (s : fpga) (adr : Z) (t : transaction) : list access :=
  Rd (cvspiregs s + 0x58) (reply t) :: Rd (cvspiregs s + 0x64) (status t)
    :: replicate (busy t) (Rd (cvspiregs s + 0x64) 0)
    ++ Wr (cvspiregs s + 0x50) (u32 (Z.shiftl (Z.land adr 0x1f) 18))
    :: Wr (gpio_a_new_mem s) (window_word adr) :: mmio s.

Lemma peek16_acked s adr t rest :
  acked t → script s = answers t ++ rest →
  peek16 adr s =
    Ok (u16 (reply t), mk_fpga (gpio_a_new_mem s) (spi_register s) (cvspiregs s) rest
                         (peek_log s adr t)).
Proof.
  intros [Hst Hack] Hs. unfold peek16, answers in *. rewrite <- app_assoc in Hs. simpl in Hs.
  rewrite (bind_run _ _ s s s) by done.
  rewrite (bind_run (wr _ _) _ s tt _ eq_refl).
  erewrite bind_run; [|unfold with_fuel; cbn [peek_loop];
    rewrite (bind_run get _ _ _ _ eq_refl), (bind_run (wr _ _) _ _ _ _ eq_refl)].
  2: { erewrite bind_run; [|apply (poll_loop_wait (busy t)); [|exact Hst|exact Hs]].
       2: { simpl. rewrite Hs, length_app, length_replicate. simpl. lia. }
       erewrite bind_run; [|reflexivity].
       rewrite ack_bit by done. reflexivity. }
  unfold mret, stm_ret. by rewrite u16_bic.
Qed.

(** The same memory seen as bytes, and the 24-bit value of channel [k] in it,
    most significant byte first. *)
Definition bytes_of_words (w : Z * Z * Z) : list Z :=
  le_bytes 4 w.1.1 ++ le_bytes 4 w.1.2 ++ le_bytes 4 w.2.
Definition channel_of (w : Z * Z * Z) (k : nat) : Z :=
  be_val (take 3 (drop (3 * k) (bytes_of_words w))).

Lemma words_of_bytes_roundtrip bs :
  bytes_ok bs → length bs = 12%nat → bytes_of_words (words_of_bytes bs) = bs.
Proof.
  intros Hb Hl. unfold words_of_bytes, bytes_of_words. cbn [fst snd].
  rewrite !(le_bytes_le_val _ 4)
    by (rewrite ?length_take, ?length_drop, ?Hl; first [done|by repeat first [apply Forall_take|apply Forall_drop]]).
  do 12 (destruct bs as [|? bs]; [done|]). by destruct bs.
Qed.

Lemma channel_bytes_ok a b c d e f :
  is_u16 a → is_u16 b → is_u16 c → is_u16 d → is_u16 e → is_u16 f →
  bytes_ok (channel_bytes a b c d e f).
Proof.
  intros. rewrite channel_bytes_words by done. simpl. repeat constructor; dlia.
Qed.

(** The channels are the consecutive 24-bit groups of the words. *)
Lemma channel_of_words a b c d e f :
  is_u16 a → is_u16 b → is_u16 c → is_u16 d → is_u16 e → is_u16 f →
  let w := words_of_bytes (channel_bytes a b c d e f) in
  channel_of w 0 * 2 ^ 24 + channel_of w 1 = a * 2 ^ 32 + b * 2 ^ 16 + c ∧
  channel_of w 2 * 2 ^ 24 + channel_of w 3 = d * 2 ^ 32 + e * 2 ^ 16 + f.
Proof.
  intros. unfold channel_of, w. rewrite words_of_bytes_roundtrip by (done || by apply channel_bytes_ok).
  rewrite channel_bytes_words by done. simpl.
  unfold be_val, reverse. simpl. split; dlia.
Qed.

Lemma register_mask n b :
  0 ≤ n < 16 → 0 ≤ b < 2 → Z.land (32 + 2 * n + b) 0x1e = 2 * n.
Proof.
  intros Hn Hb. apply Z.eqb_eq.
  pose (f := fun x => Z.land (32 + x) 0x1e =? 2 * (x / 2)).
  assert (f (2 * n + b) = true) as H by (apply (forall_range f 0 32); [done|lia]).
  unfold f in H. rewrite Z.add_assoc in H.
  by replace ((2 * n + b) / 2) with n in H by dlia.
Qed.

(** ** Theorems *)

(** A register read the FPGA answers after any number of busy polls returns
    the low sixteen bits of the reply, having selected the window and sent the
    five-bit address once. *)
Theorem peek16_transaction s adr t rest :
  acked t → script s = answers t ++ rest →
  ∃ s', peek16 adr s = Ok (u16 (reply t), s') ∧ script s' = rest ∧
    writes s' = (cvspiregs s + 0x50, Z.land adr 0x1f * 2 ^ 18)
                  :: (gpio_a_new_mem s, window_word adr) :: writes s.
Proof.
  intros Ht Hs. rewrite (peek16_acked s adr t rest) by done. eexists. split_and!; [done|done|].
  unfold writes, peek_log. simpl. rewrite omap_app.
  replace (omap _ (replicate (busy t) _)) with (@nil (Z * Z)) by (induction (busy t); done).
  simpl. do 3 f_equal. rewrite Z.shiftl_mul_pow2 by done. apply u32_small.
  rewrite (land_ones_mod adr 5) by done. dlia.
Qed.

(** When the FPGA does not acknowledge a read, [peek16] does not send the
    read again: every further word it transmits is 0, so the value it returns
    is the answer to that word. *)
Theorem peek16_retry adr s v s' :
  peek16 adr s = Ok (v, s') →
  ∃ k, writes s' = replicate k (cvspiregs s + 0x50, 0)
                     ++ (cvspiregs s + 0x50, u32 (Z.shiftl (Z.land adr 0x1f) 18))
                     :: (gpio_a_new_mem s, window_word adr) :: writes s.
Proof.
  unfold peek16. intros H. inv_bind H. match goal with E : get _ = _ |- _ => injection E as <- <- end.
  inv_bind H. match goal with E : wr _ _ _ = _ |- _ => injection E as <- <- end.
  apply bind_Ok in H as (r & s2 & Hl & H). apply ret_Ok in H. simplify_eq.
  by apply peek_loop_tx in Hl as [_ Hl].
Qed.

Lemma peek16_retry_witness :
  ∃ s', peek16 0x4A (mk_fpga 0 0 0 [1; 0; 1; 0x10005] []) = Ok (5, s') ∧
  ∃ k, writes s' = replicate k (0x50, 0) ++ (0x50, Z.shiftl 10 18) :: (0, window_word 0x4A) :: [].
Proof.
  eexists. split; [vm_compute; reflexivity|].
  apply (peek16_retry 0x4A (mk_fpga 0 0 0 [1; 0; 1; 0x10005] []) 5). vm_compute. reflexivity.
Defined.

(** The command word of a register write carries its three fields apart:
    write flag, register and data can be read back from it, for the even
    register addresses the bus has. *)
Theorem poke_command_fields adr d :
  0 ≤ adr < 32 → adr mod 2 = 0 → is_u16 d →
  let cmd := poke_command adr d in
  Z.testbit cmd 23 = true ∧ Z.land (Z.shiftr cmd 18) 0x1e = adr ∧
  Z.land (Z.shiftr cmd 3) 0xffff = d ∧ is_u32 cmd.
Proof.
  intros Ha He Hd cmd.
  assert (cmd = 2 ^ 23 + adr * 2 ^ 18 + d * 8) as Hc.
  { unfold cmd, poke_command. rewrite !Z.shiftl_mul_pow2, !u32_small by lia.
    rewrite (Z.lor_comm _ 0x800000).
    assert (Z.lor 0x800000 (adr * 2 ^ 18) = 2 ^ 23 + adr * 2 ^ 18) as ->.
    { apply (lor_shiftl_add 1 (adr * 2 ^ 18) 23); lia. }
    replace (2 ^ 23 + adr * 2 ^ 18) with (Z.shiftl (16 + adr / 2) 19)
      by (rewrite Z.shiftl_mul_pow2 by done; dlia).
    rewrite lor_shiftl_add, Z.shiftl_mul_pow2 by lia. lia. }
  clearbody cmd. subst cmd. split_and!.
  - apply Z.testbit_true; [done|]. dlia.
  - rewrite (shiftr_div _ 18 (2 ^ 18)) by done.
    set (x := _ / _).
    assert (x = 32 + 2 * (adr / 2) + d / 2 ^ 15) as -> by (unfold x; dlia).
    rewrite register_mask by dlia. dlia.
  - rewrite (shiftr_div _ 3 8), (land_ones_mod _ 16) by done. dlia.
  - lia.
  - lia.
Qed.

Lemma poke_command_fields_witness :
  Z.land (Z.shiftr (poke_command 10 0x8001) 3) 0xffff = 0x8001.
Proof. apply (poke_command_fields 10 0x8001); done || lia. Defined.

(** Reading the four channels performs six acknowledged reads and leaves, in
    memory order, each channel's 24 bits with the most significant byte first:
    the channels are the four consecutive 24-bit groups of the six words. *)
Theorem read_four_channels_layout s ta tb tc td te tf rest :
  Forall acked [ta; tb; tc; td; te; tf] →
  script s = answers ta ++ answers tb ++ answers tc ++ answers td ++ answers te
               ++ answers tf ++ rest →
  ∃ w s', read_four_channels s = Ok (w, s') ∧ script s' = rest ∧
    let word t := u16 (reply t) in
    channel_of w 0 * 2 ^ 24 + channel_of w 1 = word ta * 2 ^ 32 + word tb * 2 ^ 16 + word tc ∧
    channel_of w 2 * 2 ^ 24 + channel_of w 3 = word td * 2 ^ 32 + word te * 2 ^ 16 + word tf.
Proof.
  intros Hack Hs. decompose_Forall_hyps. unfold read_four_channels.
  do 6 (erewrite bind_run;
        [|eapply peek16_acked; [|first [exact Hs|cbn [script]; reflexivity]]; assumption]).
  do 2 eexists. split; [reflexivity|]. split; [done|]. cbv zeta.
  apply channel_of_words; apply u16_range.
Qed.

Lemma read_four_channels_layout_witness :
  let t r := mk_trans 1 1 (0x10000 + r) in
  let ts := [t 0x0102; t 0x0304; t 0x0506; t 0x0708; t 0x090a; t 0x0b0c] in
  ∃ w s', read_four_channels (mk_fpga 0 0 0 (mjoin (answers <$> ts)) []) = Ok (w, s') ∧
    channel_of w 0 * 2 ^ 24 + channel_of w 1 = 0x010203040506.
Proof.
  intros t ts.
  destruct (read_four_channels_layout (mk_fpga 0 0 0 (mjoin (answers <$> ts)) [])
    (t 0x0102) (t 0x0304) (t 0x0506) (t 0x0708) (t 0x090a) (t 0x0b0c) []) as (w & s' & H & _ & H1 & _).
  - repeat constructor; done.
  - reflexivity.
  - exists w, s'. split; [exact H|]. rewrite H1. reflexivity.
Defined.

Lemma peek16_transaction_witness :
  ∃ s', peek16 0x4A (mk_fpga 0 0 0 [0; 0; 1; 0x1abcd] []) = Ok (0xabcd, s') ∧ script s' = [].
Proof.
  destruct (peek16_transaction (mk_fpga 0 0 0 [0; 0; 1; 0x1abcd] []) 0x4A
              (mk_trans 2 1 0x1abcd) []) as (s' & H & Hs & _); [done|done|].
  exists s'. split; [exact H|exact Hs].
Defined.
