(* ===== verification/Interrupt.v ===== *)
(** * The acquisition interrupt module

    Models [interruption/int.c]: module set-up and tear-down, the interrupt
    handler and its two cases, the PPS pulse of the GPS and the data-ready
    signal of the ADC. The registers are read and written through the MMIO
    environment of [Fpga]; [clock] holds the answers of the next calls to
    [do_gettimeofday]; [stored] is a ghost history of the samples handed to
    [write_to_buffer]. *)

From stdpp Require Import functions.
From S2P Require Import Prelude CircBuffer Fpga.

(** The registers the module maps, with their physical addresses. *)
Inductive reg : Set :=
| GPIOA_EN | PIN_DIR | INTR_EN | INTRMASK | INT_STATUS | INT_MASK | INTRTRIGGER
| INTRBOTH | INTRRISE | INT_MASK_CLEAR | IRQ_STATUS | FIQ_SELECT | INT_TRIGGER_MODE
| INT_TRIGGER_LEVEL | IRQ_PRIOTITY | VIC_CONTROL | SOFT_INT | GPIO_DATA_INPUT
| GPIO_INT_CLEAR | GPIO_INT_STATUS.

#[export] Instance reg_eq_dec : EqDecision reg.
Proof. solve_decision. Defined.

Definition MISC_REGISTER : Z := 0x76000000.
Definition VIC : Z := 0xFFFFF000.

Definition phys (r : reg) : Z :=
  match r with
  | GPIOA_EN => MISC_REGISTER + 0x20
  | GPIO_DATA_INPUT => GPIOA_REGISTER + 0x04
  | PIN_DIR => GPIOA_REGISTER + 0x08
  | INTR_EN => GPIOA_REGISTER + 0x20
  | GPIO_INT_STATUS => GPIOA_REGISTER + 0x28
  | INTRMASK => GPIOA_REGISTER + 0x2C
  | GPIO_INT_CLEAR => GPIOA_REGISTER + 0x30
  | INTRTRIGGER => GPIOA_REGISTER + 0x34
  | INTRBOTH => GPIOA_REGISTER + 0x38
  | INTRRISE => GPIOA_REGISTER + 0x3C
  | INT_STATUS => VIC + 0x00
  | INT_MASK => VIC + 0x08
  | INT_MASK_CLEAR => VIC + 0x0C
  | INT_TRIGGER_MODE => VIC + 0x10
  | INT_TRIGGER_LEVEL => VIC + 0x14
  | FIQ_SELECT => VIC + 0x18
  | IRQ_STATUS => VIC + 0x1C
  | IRQ_PRIOTITY => VIC + 0xC0
  | VIC_CONTROL => VIC + 0x144
  | SOFT_INT => VIC + 0x24
  end.

Definition SCL_BIT_NUMBER : Z := 14.
Definition SDA_BIT_NUMBER : Z := 13.
Definition SCL_MASK : Z := Z.shiftl 1 SCL_BIT_NUMBER.
Definition SDA_MASK : Z := Z.shiftl 1 SDA_BIT_NUMBER.
Definition GPIOA_EN_MASK : Z := Z.lor SCL_MASK SDA_MASK.
Definition IRQ_NUMBER : Z := 4.

Record intmod : Type := mk_intmod {
  fp : fpga;
  new_address : reg → Z;       (* the *_new_address variables *)
  claimed : list (Z * Z);      (* regions of request_mem_region: start, size *)
  mapped : list Z;             (* addresses returned by ioremap *)
  irq_registered : bool;
  counter_sda : Z;             (* unsigned int *)
  counter_scl : Z;
  counter_seconds : Z;
  counter : Z;
  mux_state : Z;
  sec_in_pps : Z;              (* long *)
  usec_in_pps : Z;
  elapsed_secs : Z;            (* __miavita_elapsed_secs, 64 bits *)
  elapsed_usecs : Z;           (* __miavita_elapsed_usecs *)
  ring : circ;
  clock : list (Z * Z);
  stored : list sample_t
}.

(** Field updates. *)
Definition set_fp (x : fpga) (s : intmod) : intmod :=
  mk_intmod x (new_address s) (claimed s) (mapped s) (irq_registered s) (counter_sda s)
    (counter_scl s) (counter_seconds s) (counter s) (mux_state s) (sec_in_pps s)
    (usec_in_pps s) (elapsed_secs s) (elapsed_usecs s) (ring s) (clock s) (stored s).
Definition set_address (r : reg) (a : Z) (s : intmod) : intmod :=
  mk_intmod (fp s) (<[r := a]> (new_address s)) (claimed s) (mapped s) (irq_registered s)
    (counter_sda s) (counter_scl s) (counter_seconds s) (counter s) (mux_state s) (sec_in_pps s)
    (usec_in_pps s) (elapsed_secs s) (elapsed_usecs s) (ring s) (clock s) (stored s).
Definition set_regions (c : list (Z * Z)) (m : list Z) (s : intmod) : intmod :=
  mk_intmod (fp s) (new_address s) c m (irq_registered s) (counter_sda s)
    (counter_scl s) (counter_seconds s) (counter s) (mux_state s) (sec_in_pps s)
    (usec_in_pps s) (elapsed_secs s) (elapsed_usecs s) (ring s) (clock s) (stored s).
Definition set_irq (b : bool) (s : intmod) : intmod :=
  mk_intmod (fp s) (new_address s) (claimed s) (mapped s) b (counter_sda s)
    (counter_scl s) (counter_seconds s) (counter s) (mux_state s) (sec_in_pps s)
    (usec_in_pps s) (elapsed_secs s) (elapsed_usecs s) (ring s) (clock s) (stored s).
Definition set_counts (sda scl secs cnt : Z) (s : intmod) : intmod :=
  mk_intmod (fp s) (new_address s) (claimed s) (mapped s) (irq_registered s) sda scl secs cnt
    (mux_state s) (sec_in_pps s) (usec_in_pps s) (elapsed_secs s) (elapsed_usecs s) (ring s)
    (clock s) (stored s).
Definition set_mux (m : Z) (s : intmod) : intmod :=
  mk_intmod (fp s) (new_address s) (claimed s) (mapped s) (irq_registered s) (counter_sda s)
    (counter_scl s) (counter_seconds s) (counter s) m (sec_in_pps s)
    (usec_in_pps s) (elapsed_secs s) (elapsed_usecs s) (ring s) (clock s) (stored s).
Definition set_pps (sec usec : Z) (s : intmod) : intmod :=
  mk_intmod (fp s) (new_address s) (claimed s) (mapped s) (irq_registered s) (counter_sda s)
    (counter_scl s) (counter_seconds s) (counter s) (mux_state s) sec usec
    (elapsed_secs s) (elapsed_usecs s) (ring s) (clock s) (stored s).
Definition set_elapsed (secs usecs : Z) (s : intmod) : intmod :=
  mk_intmod (fp s) (new_address s) (claimed s) (mapped s) (irq_registered s) (counter_sda s)
    (counter_scl s) (counter_seconds s) (counter s) (mux_state s) (sec_in_pps s) (usec_in_pps s)
    secs usecs (ring s) (clock s) (stored s).
Definition set_ring (c : circ) (st : list sample_t) (s : intmod) : intmod :=
  mk_intmod (fp s) (new_address s) (claimed s) (mapped s) (irq_registered s) (counter_sda s)
    (counter_scl s) (counter_seconds s) (counter s) (mux_state s) (sec_in_pps s) (usec_in_pps s)
    (elapsed_secs s) (elapsed_usecs s) c (clock s) st.
Definition set_clock (ck : list (Z * Z)) (s : intmod) : intmod :=
  mk_intmod (fp s) (new_address s) (claimed s) (mapped s) (irq_registered s) (counter_sda s)
    (counter_scl s) (counter_seconds s) (counter s) (mux_state s) (sec_in_pps s) (usec_in_pps s)
    (elapsed_secs s) (elapsed_usecs s) (ring s) ck (stored s).

(** Code of [fpga.c] run by this module. *)
Definition on_fpga {A} (m : stm fpga A) : stm intmod A := fun s =>
  match m (fp s) with Ok (a, f) => Ok (a, set_fp f s) | Crash c => Crash c end.

Definition do_gettimeofday : stm intmod (Z * Z) := fun s =>
  match clock s with
  | [] => Crash Diverges
  | t :: ts => Ok (t, set_clock ts s)
  end.

(** ** Memory regions *)

Definition overlaps (a b : Z * Z) : bool :=
  (a.1 <? b.1 + b.2) && (b.1 <? a.1 + a.2).

Section WithIoremap.
(** [ioremap] of the kernel: the virtual address of a physical range. *)
Context (ioremap : Z → Z → Z).

(** [-ENODEV] when another driver, or this one, holds part of the range. *)
Definition request_mem (mem_addr size : Z) : stm intmod Z := fun s =>
  if existsb (overlaps (mem_addr, size)) (claimed s) then Ok (-19, s)
  else
    let new_mem := u32 (ioremap mem_addr size) in
    Ok (new_mem, set_regions ((mem_addr, size) :: claimed s) (new_mem :: mapped s) s).

Definition map_reg (r : reg) (size : Z) : stm intmod unit :=
  a ← request_mem (phys r) size;
  modify (set_address r (u32 a)).

Definition request_memory_regions : stm intmod unit :=
  map_reg GPIOA_EN WORD_SIZE;; map_reg PIN_DIR WORD_SIZE;;
  map_reg INTR_EN WORD_SIZE;; map_reg INTRMASK WORD_SIZE;;
  map_reg INT_STATUS WORD_SIZE;; map_reg INT_MASK WORD_SIZE;;
  map_reg INTRTRIGGER WORD_SIZE;; map_reg INTRBOTH WORD_SIZE;;
  map_reg INTRRISE WORD_SIZE;; map_reg INT_MASK_CLEAR WORD_SIZE;;
  map_reg IRQ_STATUS WORD_SIZE;; map_reg FIQ_SELECT WORD_SIZE;;
  map_reg INT_TRIGGER_MODE WORD_SIZE;; map_reg INT_TRIGGER_LEVEL WORD_SIZE;;
  map_reg IRQ_PRIOTITY (WORD_SIZE * 32);; map_reg VIC_CONTROL WORD_SIZE;;
  map_reg SOFT_INT WORD_SIZE;; map_reg GPIO_DATA_INPUT WORD_SIZE;;
  map_reg GPIO_INT_CLEAR WORD_SIZE;; map_reg GPIO_INT_STATUS WORD_SIZE.

(** [iounmap] is given the physical address, as the code does. *)
Definition release_mem (mem_addr byte_size : Z) : stm intmod unit :=
  modify (fun s => set_regions (filter (fun r => r ≠ (mem_addr, byte_size)) (claimed s))
                     (filter (fun a => a ≠ mem_addr) (mapped s)) s).

Definition release_reg (r : reg) (size : Z) : stm intmod unit := release_mem (phys r) size.

Definition unregister_memory_region : stm intmod unit :=
  release_reg GPIOA_EN WORD_SIZE;; release_reg PIN_DIR WORD_SIZE;;
  release_reg INTR_EN WORD_SIZE;; release_reg INTRMASK WORD_SIZE;;
  release_reg INTRTRIGGER WORD_SIZE;; release_reg INTRBOTH WORD_SIZE;;
  release_reg INTRRISE WORD_SIZE;; release_reg INT_STATUS WORD_SIZE;;
  release_reg INT_MASK WORD_SIZE;; release_reg INT_MASK_CLEAR WORD_SIZE;;
  release_reg FIQ_SELECT WORD_SIZE;; release_reg IRQ_STATUS WORD_SIZE;;
  release_reg INT_TRIGGER_MODE WORD_SIZE;; release_reg INT_TRIGGER_LEVEL WORD_SIZE;;
  release_reg IRQ_PRIOTITY (WORD_SIZE * 32);; release_reg VIC_CONTROL WORD_SIZE;;
  release_reg SOFT_INT WORD_SIZE;; release_reg GPIO_DATA_INPUT WORD_SIZE;;
  release_reg GPIO_INT_CLEAR WORD_SIZE;; release_reg GPIO_INT_STATUS WORD_SIZE.

Definition release_mem_spi : stm intmod unit :=
  release_mem GPIOA_REGISTER WORD_SIZE;; release_mem SPI_REGISTER (0x6C + WORD_SIZE).

(** ** Set-up *)

Definition rd_reg (r : reg) : stm intmod Z :=
  a ← gets (fun s => new_address s r); on_fpga (rd a).
Definition wr_reg (r : reg) (v : Z) : stm intmod unit :=
  a ← gets (fun s => new_address s r); on_fpga (wr a v).

(** [*p &= ~m] and [*p |= m]. *)
Definition clear_bits (r : reg) (m : Z) : stm intmod unit :=
  v ← rd_reg r; wr_reg r (Z.land v (u32 (Z.lnot m))).
Definition set_bits (r : reg) (m : Z) : stm intmod unit :=
  v ← rd_reg r; wr_reg r (Z.lor v m).

(** The two [printk] around each update read the volatile register too. *)
Definition logged (r : reg) (m : stm intmod unit) : stm intmod unit :=
  rd_reg r;; m;; rd_reg r;; mret tt.

Definition enable_gpio_interruptions : stm intmod unit :=
  logged PIN_DIR (clear_bits PIN_DIR GPIOA_EN_MASK);;
  logged INTRMASK (clear_bits INTRMASK GPIOA_EN_MASK);;
  logged INTRTRIGGER (clear_bits INTRTRIGGER GPIOA_EN_MASK);;
  logged INTRBOTH (clear_bits INTRBOTH GPIOA_EN_MASK);;
  logged INTRRISE (clear_bits INTRRISE GPIOA_EN_MASK);;
  logged INTR_EN (set_bits INTR_EN GPIOA_EN_MASK);;
  logged GPIOA_EN (clear_bits GPIOA_EN GPIOA_EN_MASK).

(** [ok]: whether [request_irq] succeeds; a failure is only printed. *)
Definition register_handle_interruption (ok : bool) : stm intmod unit :=
  modify (set_irq ok).
Definition unregister_handle_interruption : stm intmod unit := modify (set_irq false).

(** [reserve_memory] of [fpga.c]. *)
Definition reserve_spi : stm intmod unit :=
  gpio ← request_mem GPIOA_REGISTER WORD_SIZE;
  spi ← request_mem SPI_REGISTER (0x6C + WORD_SIZE);
  on_fpga (prepare_spi (u32 gpio) (u32 spi)).

Definition init (irq_ok : bool) : stm intmod Z :=
  reserve_spi;;
  request_memory_regions;;
  on_fpga prepare_spi2;;
  register_handle_interruption irq_ok;;
  enable_gpio_interruptions;;
  modify (fun s => set_ring (create_proc_file (ring s)) (stored s) s);;
  mret 0.

Definition cleanup : stm intmod unit :=
  unregister_handle_interruption;;
  unregister_memory_region;;
  release_mem_spi.
End WithIoremap.

(** ** The handlers *)

(** [return *p &= 0x1]: the register is written back. *)
Definition is_fpga_used : stm intmod bool :=
  v ← rd_reg INTRTRIGGER;
  wr_reg INTRTRIGGER (Z.land v 0x1);;
  mret (truthy (Z.land v 0x1)).

Definition handle_gps_int : stm intmod unit :=
  t ← do_gettimeofday;
  modify (set_pps t.1 t.2);;
  s ← get;
  put (set_counts (counter_sda s) (counter_scl s) (u32 (counter_seconds s + 1)) (counter s) s);;
  s ← get;
  put (set_elapsed (u64 (elapsed_secs s + 1)) 0 s);;
  s ← get;
  put (set_counts (counter_sda s) 0 (counter_seconds s) (counter s) s);;
  used ← is_fpga_used;
  if (used : bool) then mret tt
  else
    on_fpga (write_dio26 false);;
    modify (set_mux 0);;
    on_fpga write_watchdog.

Definition NUMBER_OF_USECS_IN_SECONDS : Z := 1000000.

Definition calculate_usecs (current_sec current_usec base_sec base_usec : Z) : Z :=
  if base_sec =? current_sec then u64 (s32 (current_usec - base_usec))
  else if s32 (base_sec + 1) =? current_sec
       then u64 (s32 (NUMBER_OF_USECS_IN_SECONDS - base_usec + current_usec))
       else 0.

Definition SEC_2_USEC : Z := 1000000.

Definition handle_adc_int : stm intmod unit :=
  fpga_busy ← is_fpga_used;
  t ← do_gettimeofday;
  s ← get;
  put (set_elapsed (elapsed_secs s) (calculate_usecs t.1 t.2 (sec_in_pps s) (usec_in_pps s)) s);;
  s ← get;
  put (set_counts (counter_sda s) (counter_scl s) (counter_seconds s) (u32 (counter s + 1)) s);;
  if (fpga_busy : bool) then mret tt
  else
    s ← get;
    (if mux_state s =? 0 then on_fpga (write_dio26 true);; modify (set_mux 1) else mret tt);;
    value_buffer ← on_fpga read_four_channels;
    s ← get;
    let ts := s64 (u64 (elapsed_secs s * SEC_2_USEC + elapsed_usecs s)) in
    let sq := s32 (counter s) in
    put (set_ring (write_to_buffer value_buffer ts sq (ring s))
           (stored s ++ [mk_sample ts sq value_buffer]) s).

Definition interrupt : stm intmod unit :=
  clear_bits INTR_EN GPIOA_EN_MASK;;
  st ← rd_reg GPIO_INT_STATUS;
  (if truthy (Z.land SCL_MASK st) then
     s ← get;
     put (set_counts (counter_sda s) (u32 (counter_scl s + 1)) (counter_seconds s) (counter s) s);;
     handle_adc_int
   else
     st ← rd_reg GPIO_INT_STATUS;
     if truthy (Z.land SDA_MASK st) then
       s ← get;
       put (set_counts (u32 (counter_sda s + 1)) (counter_scl s) (counter_seconds s) (counter s) s);;
       handle_gps_int
     else mret tt);;
  set_bits GPIO_INT_CLEAR GPIOA_EN_MASK;;
  set_bits INTR_EN GPIOA_EN_MASK.

(** ** Specification: the acquisition as a labelled transition system

    What the module promises of its timing and its samples, with the registers
    and the handlers' control flow abstracted away. *)

Inductive cause : Set := Adc | Pps | Spurious.

(** The cause the handler finds, from the answers to its first register reads:
    the first one is the interrupt mask it clears. *)
Definition cause_of (answers : list Z) : cause :=
  match answers with
  | _ :: st :: rest =>
      if Z.testbit st SCL_BIT_NUMBER then Adc
      else match rest with
           | st :: _ => if Z.testbit st SDA_BIT_NUMBER then Pps else Spurious
           | [] => Spurious
           end
  | _ => Spurious
  end.

Record acq : Type := mk_acq {
  secs : Z;                 (* PPS pulses seen *)
  base : Z * Z;             (* kernel time of the last one *)
  count : Z;                (* data-ready signals seen *)
  samples : list sample_t
}.

Definition acq_of (s : intmod) : acq :=
  mk_acq (elapsed_secs s) (sec_in_pps s, usec_in_pps s) (counter s) (stored s).

(** The time stamp of a sample converted at kernel time [t]. *)
Definition stamp (a : acq) (t : Z * Z) : Z :=
  s64 (u64 (secs a * SEC_2_USEC + calculate_usecs t.1 t.2 (base a).1 (base a).2)).

Inductive acq_step (t : Z * Z) (a : acq) : cause → acq → Prop :=
| step_pps : acq_step t a Pps (mk_acq (u64 (secs a + 1)) t (count a) (samples a))
| step_busy : (* the FPGA is in use: the conversion is skipped *)
    acq_step t a Adc (mk_acq (secs a) (base a) (u32 (count a + 1)) (samples a))
| step_sample v :
    acq_step t a Adc
      (mk_acq (secs a) (base a) (u32 (count a + 1))
         (samples a ++ [mk_sample (stamp a t) (s32 (u32 (count a + 1))) v]))
| step_spurious : acq_step t a Spurious a.

(** A run of the handler with the causes and kernel times it met. *)
Definition label (s : intmod) : cause * (Z * Z) := (cause_of (script (fp s)), hd (0, 0) (clock s)).
Fixpoint irun (tr : list (cause * (Z * Z))) (s s' : intmod) : Prop :=
  match tr with
  | [] => s' = s
  | e :: tr' => ∃ s1, e = label s ∧ interrupt s = Ok (tt, s1) ∧ irun tr' s1 s'
  end.

(** ** Frame lemmas: the register accesses leave the acquisition state alone *)

Definition framed (s s' : intmod) : Prop :=
  acq_of s' = acq_of s ∧ ring s' = ring s ∧ clock s' = clock s ∧
  elapsed_usecs s' = elapsed_usecs s ∧ new_address s' = new_address s.

#[local] Instance framed_refl : Reflexive framed.
Proof. done. Qed.
#[local] Instance framed_trans : Transitive framed.
Proof. intros x y z (? & ? & ? & ? & ?) (? & ? & ? & ? & ?). repeat split; congruence. Qed.

Lemma on_fpga_framed {A} (m : stm fpga A) s a s' : on_fpga m s = Ok (a, s') → framed s s'.
Proof. unfold on_fpga. intros H. destruct (m (fp s)) as [[]|]; by simplify_eq. Qed.

Lemma rd_reg_framed r s v s' :
  rd_reg r s = Ok (v, s') → framed s s' ∧ script (fp s) = v :: script (fp s').
Proof.
  unfold rd_reg. intros H. inv_bind H. split.
  - apply on_fpga_framed in H. unfold gets in *. by simplify_eq.
  - unfold gets, on_fpga, rd in *. simplify_eq. by destruct (script (fp _)); simplify_eq.
Qed.

Lemma wr_reg_framed r v s u s' :
  wr_reg r v s = Ok (u, s') → framed s s' ∧ script (fp s') = script (fp s).
Proof.
  unfold wr_reg. intros H. inv_bind H. split.
  - apply on_fpga_framed in H. unfold gets in *. by simplify_eq.
  - unfold gets, on_fpga, wr in *. by simplify_eq.
Qed.

Lemma clear_bits_framed r m s u s' :
  clear_bits r m s = Ok (u, s') →
  framed s s' ∧ ∃ v, script (fp s) = v :: script (fp s').
Proof.
  unfold clear_bits. intros H. inv_bind H.
  match goal with H0 : rd_reg _ _ = _ |- _ => apply rd_reg_framed in H0 as [? E] end.
  apply wr_reg_framed in H as [? ->]. split; [by etrans|eauto].
Qed.

Lemma set_bits_framed r m s u s' : set_bits r m s = Ok (u, s') → framed s s'.
Proof.
  unfold set_bits. intros H. inv_bind H.
  match goal with H0 : rd_reg _ _ = _ |- _ => apply rd_reg_framed in H0 as [? E] end.
  apply wr_reg_framed in H as [? ?]. by etrans.
Qed.

Lemma is_fpga_used_framed s b s' : is_fpga_used s = Ok (b, s') → framed s s'.
Proof.
  unfold is_fpga_used. intros H. inv_bind H. inv_bind H. apply ret_Ok in H. simplify_eq.
  match goal with H0 : rd_reg _ _ = _ |- _ => apply rd_reg_framed in H0 as [? _] end.
  match goal with H0 : wr_reg _ _ _ = _ |- _ => apply wr_reg_framed in H0 as [? _] end.
  by etrans.
Qed.

Lemma do_gettimeofday_ok s t s' :
  do_gettimeofday s = Ok (t, s') → ∃ ts, clock s = t :: ts ∧ s' = set_clock ts s.
Proof. unfold do_gettimeofday. destruct (clock s) eqn:E; intros; simplify_eq; eauto. Qed.

(** One statement of a completed run: [get], [put], [modify] and [mret] are
    executed, the others leave their equation. *)
Ltac istep H :=
  apply bind_Ok in H;
  let a := fresh "a" in let s1 := fresh "st" in let E := fresh "E" in
  destruct H as (a & s1 & E & H);
  try (unfold get, put, modify in E; injection E as <- <-).

Lemma handle_gps_int_step s u s' :
  handle_gps_int s = Ok (u, s') →
  acq_step (hd (0, 0) (clock s)) (acq_of s) Pps (acq_of s') ∧ ring s' = ring s ∧
  new_address s' = new_address s.
Proof.
  unfold handle_gps_int. intros H. istep H.
  apply do_gettimeofday_ok in E as (ts & E & ->).
  do 7 istep H. apply bind_Ok in H as (used & st & Eu & H).
  apply is_fpga_used_framed in Eu as (Ha & Hr & _ & _ & Hn).
  assert (acq_of s' = acq_of st ∧ ring s' = ring st ∧ new_address s' = new_address st)
    as (-> & -> & ->).
  { destruct used.
    - apply ret_Ok in H. by simplify_eq.
    - apply bind_Ok in H as (v & st1 & Ew & H). apply on_fpga_framed in Ew as (? & ? & _ & _ & ?).
      istep H. apply on_fpga_framed in H as (? & ? & _ & _ & ?). unfold acq_of in *. simpl in *.
      repeat split; congruence. }
  rewrite Ha, Hr, Hn, E. split; [|done]. destruct a as [x y]. exact (step_pps _ _).
Qed.

(** The ring follows the ghost history of the samples. *)
Definition ring_ok (r : Z) (s : intmod) : Prop := circ_inv (stored s) r (ring s).

Lemma framed_ring_ok r s s' : framed s s' → ring_ok r s → ring_ok r s'.
Proof. intros (Ha & Hr & _). unfold ring_ok, acq_of in *. by injection Ha as _ _ _ _ ->; rewrite Hr. Qed.

Lemma mux_framed (s : intmod) u s' :
  (if mux_state s =? 0 then on_fpga (write_dio26 true);; modify (set_mux 1) else mret tt) s
    = Ok (u, s') → framed s s'.
Proof.
  case_test; intros H.
  - apply bind_Ok in H as (v & st & Ew & H). apply on_fpga_framed in Ew.
    unfold modify in H. simplify_eq. exact Ew.
  - apply ret_Ok in H. by simplify_eq.
Qed.

Lemma handle_adc_int_step s u s' :
  handle_adc_int s = Ok (u, s') →
  acq_step (hd (0, 0) (clock s)) (acq_of s) Adc (acq_of s') ∧
  new_address s' = new_address s ∧ ∀ r, ring_ok r s → ring_ok r s'.
Proof.
  unfold handle_adc_int. intros H.
  apply bind_Ok in H as (busy & st & Eu & H). apply is_fpga_used_framed in Eu as Hf.
  apply bind_Ok in H as (t & st1 & Et & H). apply do_gettimeofday_ok in Et as (ts & Et & ->).
  do 4 istep H. pose proof Hf as (Ha & Hr & Hc & _ & Hna). rewrite <- Hc, Et. simpl.
  injection Ha as Hs Hb1 Hb2 Hn Hst. destruct busy.
  - apply ret_Ok in H. simplify_eq. split; [|split; [done|intros r Hok; exact (framed_ring_ok r _ _ Hf Hok)]].
    unfold acq_of; simpl. rewrite Hs, Hb1, Hb2, Hn, Hst. apply step_busy.
  - istep H. apply bind_Ok in H as (v & st2 & Em & H). apply mux_framed in Em as (Ha2 & Hr2 & _ & He2 & Hna2).
    injection Ha2 as Hs2 Hb12 Hb22 Hn2 Hst2. simpl in *.
    apply bind_Ok in H as (w & st3 & Ew & H). apply on_fpga_framed in Ew as (Ha3 & Hr3 & _ & He3 & Hna3).
    injection Ha3 as Hs3 Hb13 Hb23 Hn3 Hst3. istep H. unfold put in H. simplify_eq. split_and!; [|simpl; congruence|].
    + unfold acq_of; simpl. rewrite Hs3, Hb13, Hb23, Hn3, Hst3, He3, Hs2, Hb12, Hb22, Hn2, Hst2, He2.
      rewrite Hs, Hb1, Hb2, Hn, Hst. apply step_sample.
    + intros r Hok. apply (framed_ring_ok r _ _ Hf) in Hok. unfold ring_ok in *. simpl.
      rewrite Hst3, Hst2, Hr3, Hr2. by apply circ_inv_write.
Qed.

Lemma mask_bit k m v : 0 ≤ k → m = Z.shiftl 1 k → truthy (Z.land m v) = Z.testbit v k.
Proof.
  intros Hk ->. rewrite Z.shiftl_1_l, Z.land_comm. unfold truthy.
  destruct (Z.testbit v k) eqn:E.
  - apply negb_true_iff, Z.eqb_neq. intros H.
    assert (Z.testbit (Z.land v (2 ^ k)) k = false) as F by by rewrite H, Z.bits_0.
    by rewrite Z.land_spec, E, Z.pow2_bits_true in F.
  - apply negb_false_iff, Z.eqb_eq, Z.bits_inj'. intros i Hi.
    rewrite Z.land_spec, Z.bits_0. destruct (decide (i = k)) as [->|]; [by rewrite E|].
    by rewrite Z.pow2_bits_false, andb_false_r.
Qed.

Lemma interrupt_step s u s' :
  interrupt s = Ok (u, s') →
  acq_step (label s).2 (acq_of s) (label s).1 (acq_of s') ∧
  ∀ r, ring_ok r s → ring_ok r s'.
Proof.
  unfold interrupt. intros H.
  apply bind_Ok in H as (v & s1 & E1 & H).
  apply clear_bits_framed in E1 as [F1 [x Hx]].
  apply bind_Ok in H as (w & s2 & E2 & H). apply rd_reg_framed in E2 as [F2 Hy].
  apply bind_Ok in H as (v3 & s3 & E3 & H).
  apply bind_Ok in H as (v4 & s4 & E4 & H). apply set_bits_framed in E4, H.
  pose proof (transitivity F1 F2) as F12. pose proof (transitivity E4 H) as F34.
  unfold label. rewrite Hx, Hy. cbn [fst snd].
  assert (acq_step (hd (0, 0) (clock s2)) (acq_of s2) (cause_of (x :: w :: script (fp s2)))
            (acq_of s3) ∧ ∀ r, ring_ok r s2 → ring_ok r s3) as [Hstep Hring].
  { unfold cause_of. rewrite <- (mask_bit SCL_BIT_NUMBER SCL_MASK) by done. case_test.
    - do 2 istep E3. apply handle_adc_int_step in E3 as (? & _ & ?). done.
    - apply bind_Ok in E3 as (w2 & s2' & E2 & E3). apply rd_reg_framed in E2 as [F2' ->].
      rewrite <- (mask_bit SDA_BIT_NUMBER SDA_MASK) by done. case_test.
      + do 2 istep E3. apply handle_gps_int_step in E3 as (Hs & Hr & _). pose proof F2' as (Ha & _ & Hc & _).
        rewrite <- Hc, <- Ha. split; [exact Hs|]. intros r Hok.
        apply (framed_ring_ok r _ _ F2') in Hok. unfold ring_ok in *. rewrite Hr.
        inversion Hs. unfold acq_of in *. simpl in *. congruence.
      + apply ret_Ok in E3. injection E3 as -> ->. pose proof F2' as (-> & _). split; [constructor|].
        intros r. apply (framed_ring_ok _ _ _ F2'). }
  destruct F12 as (Ha & Hr & Hc & He & Hn). rewrite <- Ha, <- Hc.
  split.
  - by destruct F34 as (-> & _).
  - intros r Hok. apply (framed_ring_ok r _ _ F34), Hring, (framed_ring_ok r s); [|done].
    repeat split; congruence.
Qed.

Lemma irun_snoc_ind (P : acq → list (cause * (Z * Z)) → Prop) pre s tr s' :
  (∀ a tr0 e a', P a tr0 → acq_step e.2 a e.1 a' → P a' (tr0 ++ [e])) →
  P (acq_of s) pre → irun tr s s' → P (acq_of s') (pre ++ tr).
Proof.
  intros Hstep. revert pre s. induction tr as [|e tr IH]; intros pre s H0 H.
  - simpl in H. subst. by rewrite app_nil_r.
  - destruct H as (s1 & -> & Hi & H). apply interrupt_step in Hi as [Hs _].
    rewrite cons_middle, app_assoc. apply (IH _ s1); [|done]. by apply (Hstep (acq_of s)).
Qed.

(** C5: every completed run of the interrupt handler is one step of the acquisition
    machine, with the cause the status register shows and the kernel time of the
    interrupt; and it keeps the circular buffer in step with the samples. *)
Theorem interrupt_refines s tr s' r :
  circ_inv (stored s) r (ring s) → irun tr s s' →
  circ_inv (stored s') r (ring s') ∧
  ∃ path : list acq, length path = length tr ∧
    last (acq_of s :: path) = Some (acq_of s') ∧
    ∀ i e a a', tr !! i = Some e → (acq_of s :: path) !! i = Some a → path !! i = Some a' →
      acq_step e.2 a e.1 a'.
Proof.
  revert s. induction tr as [|e tr IH]; intros s Hinv H.
  - simpl in H. subst. split; [done|]. exists []. done.
  - destruct H as (s1 & -> & Hi & H). apply interrupt_step in Hi as [Hs Hr].
    destruct (IH s1 (Hr r Hinv) H) as [Hinv' (path & Hlen & Hlast & Hpath)].
    split; [done|]. exists (acq_of s1 :: path). split_and!; [simpl; congruence|done|].
    intros [|i] e a a' He Ha Ha'; simpl in He, Ha'; [by simplify_eq/=|]. by apply (Hpath i).
Qed.

Definition sec_us : Z := 1000000.
Definition micros (t : Z * Z) : Z := t.1 * sec_us + t.2.
Definition timeval_ok (t : Z * Z) : Prop := 0 ≤ t.1 < 2 ^ 31 - 1 ∧ 0 ≤ t.2 < sec_us.

Lemma calculate_usecs_recent now pulse :
  timeval_ok now → timeval_ok pulse → micros pulse ≤ micros now ≤ micros pulse + sec_us →
  calculate_usecs now.1 now.2 pulse.1 pulse.2 = micros now - micros pulse.
Proof.
  unfold timeval_ok, micros, sec_us. intros [? ?] [? ?] ?.
  assert (pulse.1 = now.1 ∨ pulse.1 + 1 = now.1) as Hsec by lia.
  unfold calculate_usecs, NUMBER_OF_USECS_IN_SECONDS. rewrite (swrap_small 32 (_ + 1)) by lia.
  destruct Hsec as [E|E].
  - rewrite E, Z.eqb_refl, (swrap_small 32), u64_small by lia. lia.
  - rewrite (proj2 (Z.eqb_neq _ _)), (proj2 (Z.eqb_eq _ _) E) by lia.
    rewrite (swrap_small 32), u64_small by lia. lia.
Qed.

(** [calculate_usecs] is the number of microseconds since the last pulse of the
    GPS when that pulse came at most a second before; when pulses were missed
    for two seconds or more it is 0, whatever the time. *)
Theorem calculate_usecs_elapsed now pulse :
  timeval_ok now → timeval_ok pulse → micros pulse ≤ micros now →
  (micros now ≤ micros pulse + sec_us →
   calculate_usecs now.1 now.2 pulse.1 pulse.2 = micros now - micros pulse) ∧
  (micros pulse + 2 * sec_us ≤ micros now → calculate_usecs now.1 now.2 pulse.1 pulse.2 = 0).
Proof.
  intros Hn Hp Hle. split; intros Hd; [apply calculate_usecs_recent; done || lia|].
  unfold timeval_ok, micros, sec_us in *. destruct Hn, Hp. unfold calculate_usecs.
  rewrite (swrap_small 32 (_ + 1)) by lia. by rewrite !(proj2 (Z.eqb_neq _ _)) by lia.
Qed.

Lemma calculate_usecs_elapsed_witness : calculate_usecs 101 250000 100 900000 = 350000.
Proof.
  apply (calculate_usecs_elapsed (101, 250000) (100, 900000));
    unfold timeval_ok, micros, sec_us; simpl; lia.
Defined.

(** What the trace shows of the sequence numbers. *)
Definition numbered (c0 : Z) (a : acq) (tr : list (cause * (Z * Z))) : Prop :=
  c0 + Z.of_nat (length tr) < 2 ^ 31 →
  c0 ≤ count a ≤ c0 + Z.of_nat (length tr) ∧
  StronglySorted Z.lt (seq_number <$> samples a) ∧
  Forall (fun n => c0 < n ≤ count a) (seq_number <$> samples a).

Lemma numbered_step c0 a tr e a' :
  0 ≤ c0 → numbered c0 a tr → acq_step e.2 a e.1 a' → numbered c0 a' (tr ++ [e]).
Proof.
  intros Hc H Hs Hlen. rewrite length_app in *. simpl in *.
  destruct H as (Hr & Hsort & Hall); [lia|].
  destruct e as [c t]. inversion Hs; subst; simpl; try (split_and!; done || lia);
    try rewrite (u32_small (count a + 1)) by lia.
  - split_and!; try lia; [done|]. eapply Forall_impl; [exact Hall|]. simpl. lia.
  - rewrite fmap_app. simpl. rewrite (swrap_small 32) by lia. split_and!; try lia.
    + apply StronglySorted_snoc; [done|]. eapply Forall_impl; [exact Hall|]. simpl. lia.
    + apply Forall_app. split; [|repeat constructor; lia].
      eapply Forall_impl; [exact Hall|]. simpl. lia.
Qed.

(** The sequence numbers of the samples taken after start-up increase strictly, for
    every schedule of interrupts, and stay within the number of data-ready
    signals: a gap in them is a conversion skipped while the FPGA was in use. *)
Theorem sequence_numbers_increase s tr s' :
  stored s = [] → 0 ≤ counter s → counter s + Z.of_nat (length tr) < 2 ^ 31 → irun tr s s' →
  StronglySorted Z.lt (seq_number <$> stored s') ∧
  Forall (fun n => counter s < n ≤ counter s') (seq_number <$> stored s').
Proof.
  intros H0 Hc Hlen Hrun.
  destruct (irun_snoc_ind (numbered (counter s)) [] s tr s') as (_ & ? & ?); [| |done|done|done].
  - intros a tr0 e a'. by apply numbered_step.
  - intros _. unfold acq_of. simpl. rewrite H0. repeat constructor; lia.
Qed.

(** The pulses and the conversions come in order of time, and no conversion
    comes more than a second (of kernel time) after the last pulse. *)
Fixpoint well_timed (pulse : Z * Z) (now : Z) (tr : list (cause * (Z * Z))) : Prop :=
  match tr with
  | [] => True
  | (Pps, t) :: tr' => timeval_ok t ∧ now ≤ micros t ∧ well_timed t (micros t) tr'
  | (Adc, t) :: tr' =>
      timeval_ok t ∧ now ≤ micros t ≤ micros pulse + sec_us ∧ well_timed pulse (micros t) tr'
  | (Spurious, _) :: tr' => well_timed pulse now tr'
  end.

(** The state of a well-timed acquisition at time [now]. *)
Definition timely (now : Z) (a : acq) : Prop :=
  timeval_ok (base a) ∧ micros (base a) ≤ now ≤ micros (base a) + sec_us ∧ 0 ≤ secs a ∧
  StronglySorted Z.le (CircBuffer.timestamp <$> samples a) ∧
  Forall (fun ts => ts ≤ secs a * sec_us + (now - micros (base a)))
    (CircBuffer.timestamp <$> samples a).

Lemma timely_step now tr e a a' :
  timely now a → secs a * sec_us < 2 ^ 62 → well_timed (base a) now (e :: tr) →
  acq_step e.2 a e.1 a' →
  secs a ≤ secs a' ≤ secs a + 1 ∧ ∃ now', timely now' a' ∧ well_timed (base a') now' tr.
Proof.
  destruct e as [c t]. intros (Hb & Hnow & Hsec & Hsort & Hall) Hmax Hw Hs.
  unfold timely, sec_us in *. cbn [fst snd] in Hs.
  inversion Hs; subst; cbn [well_timed] in Hw.
  - destruct Hw as (Ht & Hle & Hw). unfold sec_us in Hle. simpl. rewrite u64_small by lia. split; [lia|].
    exists (micros t). split; [|done]. split_and!; try done; try lia.
    eapply Forall_impl; [exact Hall|]. simpl. lia.
  - destruct Hw as (Ht & Hle & Hw). unfold sec_us in Hle. simpl. split; [lia|].
    exists (micros t). split; [|done]. split_and!; try done; try lia.
    eapply Forall_impl; [exact Hall|]. simpl. lia.
  - destruct Hw as (Ht & Hle & Hw). unfold sec_us in Hle. simpl. split; [lia|]. exists (micros t).
    assert (stamp a t = secs a * sec_us + (micros t - micros (base a))) as Hst.
    { unfold stamp, SEC_2_USEC. rewrite calculate_usecs_recent by (done || (unfold sec_us; lia)).
      unfold sec_us in *. rewrite u64_small by lia. apply swrap_small; lia. }
    unfold sec_us in Hst. rewrite fmap_app. simpl. rewrite Hst.
    split; [|done]. split_and!; try done; try lia.
    + apply StronglySorted_snoc; [done|]. eapply Forall_impl; [exact Hall|]. simpl. lia.
    + apply Forall_app. split; [|repeat constructor; lia].
      eapply Forall_impl; [exact Hall|]. simpl. lia.
  - split; [lia|]. by exists now.
Qed.

(** C21: the time stamps of the stored samples never go backwards, provided the kernel
    clock does not and a pulse of the GPS precedes every conversion by at most a
    second of that clock. *)
Theorem timestamps_monotone s tr s' :
  stored s = [] → timeval_ok (base (acq_of s)) → 0 ≤ elapsed_secs s →
  (elapsed_secs s + Z.of_nat (length tr)) * sec_us < 2 ^ 62 →
  well_timed (base (acq_of s)) (micros (base (acq_of s))) tr → irun tr s s' →
  StronglySorted Z.le (CircBuffer.timestamp <$> stored s').
Proof.
  intros H0 Hb Hs Hmax Hw Hrun.
  assert (timely (micros (base (acq_of s))) (acq_of s)) as Ht.
  { unfold timely. simpl. rewrite H0. split_and!; try done; try (unfold sec_us; lia); constructor. }
  clear H0 Hb Hs. revert Ht Hw. generalize (micros (base (acq_of s))).
  revert s Hmax Hrun. induction tr as [|e tr IH]; intros s Hmax Hrun now Ht Hw.
  - simpl in Hrun. subst. apply Ht.
  - destruct Hrun as (s1 & -> & Hi & Hrun). apply interrupt_step in Hi as [Hstep _].
    simpl length in Hmax. unfold sec_us in Hmax.
    destruct (timely_step now tr (label s) (acq_of s) (acq_of s1)) as (Hle & now' & Ht' & Hw');
      [done|simpl; unfold sec_us; lia|done|done|].
    apply (IH s1) with now'; [|done..]. simpl in Hle. unfold sec_us. lia.
Qed.

(** A module that has seen no interrupt, with the GPIO lines already set up. *)
Definition idle (answers : list Z) (times : list (Z * Z)) : intmod :=
  mk_intmod (mk_fpga 0 0 0 answers []) phys [] [] true 0 0 0 0 1 0 0 0 0 circ_init times [].

(** A pulse while the FPGA is in use, and a conversion of six acknowledged reads. *)
Definition pulse_answers : list Z := [0; 0x2000; 0x2000; 1; 0; 0].
Definition conversion_answers : list Z :=
  [0; 0x4000; 0; 1; 0x10001; 1; 0x10002; 1; 0x10003; 1; 0x10004; 1; 0x10005; 1; 0x10006; 0; 0].
Definition two_conversions : intmod :=
  idle (pulse_answers ++ conversion_answers ++ conversion_answers)
    [(100, 900000); (100, 920000); (101, 250000)].
Definition two_conversions_trace : list (cause * (Z * Z)) :=
  [(Pps, (100, 900000)); (Adc, (100, 920000)); (Adc, (101, 250000))].

Lemma two_conversions_run :
  ∃ s', irun two_conversions_trace two_conversions s' ∧
    CircBuffer.timestamp <$> stored s' = [1020000; 1350000] ∧ seq_number <$> stored s' = [1; 2].
Proof.
  eexists. split.
  - do 3 (eexists; split; [vm_compute; reflexivity|]; split; [vm_compute; reflexivity|]).
    reflexivity.
  - split; reflexivity.
Qed.

Lemma interrupt_refines_witness :
  ∃ s', irun two_conversions_trace two_conversions s' ∧ circ_inv (stored s') 0 (ring s').
Proof.
  destruct two_conversions_run as (s' & H & _). exists s'. split; [exact H|].
  apply (interrupt_refines two_conversions two_conversions_trace s' 0 circ_init_inv H).
Defined.

Lemma sequence_numbers_increase_witness :
  ∃ s', irun two_conversions_trace two_conversions s' ∧
    StronglySorted Z.lt (seq_number <$> stored s').
Proof.
  destruct two_conversions_run as (s' & H & _). exists s'. split; [exact H|].
  apply (sequence_numbers_increase two_conversions two_conversions_trace s');
    [reflexivity|simpl; lia|simpl; lia|exact H].
Defined.

(** After a pulse whose time is still in the state. *)
Definition after_pulse (s : intmod) : intmod := set_pps 100 900000 s.

Lemma timestamps_monotone_witness :
  ∃ s', irun two_conversions_trace (after_pulse two_conversions) s' ∧
    StronglySorted Z.le (CircBuffer.timestamp <$> stored s').
Proof.
  eexists. split.
  - do 3 (eexists; split; [vm_compute; reflexivity|]; split; [vm_compute; reflexivity|]).
    reflexivity.
  - apply (timestamps_monotone (after_pulse two_conversions) two_conversions_trace);
      [reflexivity|unfold timeval_ok, sec_us; simpl; lia|simpl; lia
      |unfold sec_us; simpl; lia
      |cbn; unfold timeval_ok; split_and!; vm_compute; done|].
    do 3 (eexists; split; [vm_compute; reflexivity|]; split; [vm_compute; reflexivity|]).
    reflexivity.
Defined.

Lemma rd_reg_log r s v s' :
  rd_reg r s = Ok (v, s') →
  mmio (fp s') = Rd (new_address s r) v :: mmio (fp s) ∧ new_address s' = new_address s.
Proof.
  unfold rd_reg, gets, on_fpga, rd, mbind, stm_bind. intros H.
  destruct (script (fp s)); by simplify_eq.
Qed.

Lemma set_bits_log r m s u s' :
  set_bits r m s = Ok (u, s') →
  ∃ v, mmio (fp s') = Wr (new_address s r) (Z.lor v m) :: Rd (new_address s r) v :: mmio (fp s).
Proof.
  unfold set_bits. intros H. inv_bind H.
  match goal with H0 : rd_reg _ _ = _ |- _ => apply rd_reg_log in H0 as [E Hn] end.
  unfold wr_reg, gets, on_fpga, wr, mbind, stm_bind in H. simplify_eq. simpl.
  rewrite Hn, E. eauto.
Qed.

Lemma dispatch_address (st : Z) s u s' :
  (if truthy (Z.land SCL_MASK st) then
     s ← get;
     put (set_counts (counter_sda s) (u32 (counter_scl s + 1)) (counter_seconds s) (counter s) s);;
     handle_adc_int
   else
     st ← rd_reg GPIO_INT_STATUS;
     if truthy (Z.land SDA_MASK st) then
       s ← get;
       put (set_counts (u32 (counter_sda s + 1)) (counter_scl s) (counter_seconds s) (counter s) s);;
       handle_gps_int
     else mret tt) s = Ok (u, s') → new_address s' = new_address s.
Proof.
  case_test; intros H.
  - do 2 istep H. by apply handle_adc_int_step in H as (_ & ? & _).
  - apply bind_Ok in H as (w & s2 & E2 & H). apply rd_reg_log in E2 as [_ <-].
    destruct (truthy (Z.land SDA_MASK w)); [do 2 istep H; by apply handle_gps_int_step in H as (_ & _ & ?)|].
    apply ret_Ok in H. by simplify_eq.
Qed.

(** Every interrupt ends by acknowledging both lines and enabling both again, so that
    when a pulse of the GPS and a conversion are pending together the
    conversion is handled, the pulse is acknowledged with it, and the second
    it marks is not counted. *)
Theorem interrupt_acknowledges_both s s' :
  interrupt s = Ok (tt, s') →
  (∃ v v' log,
     mmio (fp s') = Wr (new_address s INTR_EN) (Z.lor v' GPIOA_EN_MASK)
                      :: Rd (new_address s INTR_EN) v'
                      :: Wr (new_address s GPIO_INT_CLEAR) (Z.lor v GPIOA_EN_MASK)
                      :: Rd (new_address s GPIO_INT_CLEAR) v :: log) ∧
  ∀ v st rest, script (fp s) = v :: st :: rest →
    Z.testbit st SCL_BIT_NUMBER = true → Z.testbit st SDA_BIT_NUMBER = true →
    elapsed_secs s' = elapsed_secs s ∧ sec_in_pps s' = sec_in_pps s.
Proof.
  intros H. split.
  - unfold interrupt in H. apply bind_Ok in H as (? & s1 & E1 & H).
    apply clear_bits_framed in E1 as [(_ & _ & _ & _ & H1) _].
    apply bind_Ok in H as (? & s2 & E2 & H). apply rd_reg_log in E2 as [_ H2].
    apply bind_Ok in H as (? & s3 & E3 & H). apply dispatch_address in E3 as H3.
    apply bind_Ok in H as (? & s4 & E4 & H). pose proof (set_bits_framed _ _ _ _ _ E4) as (_ & _ & _ & _ & H4).
    apply set_bits_log in E4 as [v E4]. apply set_bits_log in H as [v' H].
    exists v, v', (mmio (fp s3)). rewrite H, E4, H4, H3, H2, H1. done.
  - intros v st rest Hs Hscl _. apply interrupt_step in H as [H _].
    unfold label in H. rewrite Hs in H. unfold cause_of in H. rewrite Hscl in H.
    inversion H; done.
Qed.

Lemma interrupt_acknowledges_both_witness :
  ∃ s', interrupt (idle ([0; 0x6000; 1; 0; 0]) [(100, 5)]) = Ok (tt, s') ∧ elapsed_secs s' = 0.
Proof.
  eexists. split; [vm_compute; reflexivity|].
  eapply (interrupt_acknowledges_both (idle ([0; 0x6000; 1; 0; 0]) [(100, 5)]));
    [vm_compute; reflexivity|reflexivity|reflexivity|reflexivity].
Defined.

(** ** Module set-up and tear-down *)

(** The regions the module claims, in the order it asks for them. *)
Definition regions : list (Z * Z) :=
  [(GPIOA_REGISTER, WORD_SIZE); (SPI_REGISTER, 0x6C + WORD_SIZE)] ++
  ((fun r => (phys r, if decide (r = IRQ_PRIOTITY) then WORD_SIZE * 32 else WORD_SIZE)) <$>
   [GPIOA_EN; PIN_DIR; INTR_EN; INTRMASK; INT_STATUS; INT_MASK; INTRTRIGGER; INTRBOTH;
    INTRRISE; INT_MASK_CLEAR; IRQ_STATUS; FIQ_SELECT; INT_TRIGGER_MODE; INT_TRIGGER_LEVEL;
    IRQ_PRIOTITY; VIC_CONTROL; SOFT_INT; GPIO_DATA_INPUT; GPIO_INT_CLEAR; GPIO_INT_STATUS]).

Definition claims (s : intmod) : list (Z * Z) * list Z := (claimed s, mapped s).

Lemma on_fpga_claims {A} (m : stm fpga A) s a s' : on_fpga m s = Ok (a, s') → claims s' = claims s.
Proof. unfold on_fpga. intros H. destruct (m (fp s)) as [[]|]; by simplify_eq. Qed.

Lemma rd_reg_claims r s v s' : rd_reg r s = Ok (v, s') → claims s' = claims s.
Proof. intros H. apply (on_fpga_claims (rd (new_address s r)) s v s'). exact H. Qed.

Lemma wr_reg_claims r v s u s' : wr_reg r v s = Ok (u, s') → claims s' = claims s.
Proof. intros H. apply (on_fpga_claims (wr (new_address s r) v) s u s'). exact H. Qed.

Lemma logged_claims r (f : Z → Z) s u s' :
  logged r (v ← rd_reg r; wr_reg r (f v)) s = Ok (u, s') → claims s' = claims s.
Proof.
  unfold logged. intros H.
  apply bind_Ok in H as (? & s1 & E1%rd_reg_claims & H).
  apply bind_Ok in H as (? & s2 & E2 & H).
  apply bind_Ok in E2 as (? & s3 & E3%rd_reg_claims & E4%wr_reg_claims).
  apply bind_Ok in H as (? & s4 & E5%rd_reg_claims & H). apply ret_Ok in H. injection H as _ <-. by rewrite E5, E4, E3, E1.
Qed.

Lemma enable_gpio_claims s u s' : enable_gpio_interruptions s = Ok (u, s') → claims s' = claims s.
Proof.
  unfold enable_gpio_interruptions, clear_bits, set_bits. intros H.
  do 6 (apply bind_Ok in H as (? & ? & ?%logged_claims & H)).
  apply logged_claims in H. congruence.
Qed.

(** Claiming and releasing a list of regions. *)
Fixpoint disjoint_from (l c : list (Z * Z)) : bool :=
  match l with
  | [] => true
  | r :: l' => negb (existsb (overlaps r) c) && disjoint_from l' (r :: c)
  end.

Section Setup.
Context (ioremap : Z → Z → Z).

Definition mapping (r : Z * Z) : Z := u32 (ioremap r.1 r.2).

Lemma request_mem_claims r s C :
  claims s = (C, mapping <$> C) → existsb (overlaps r) C = false →
  ∃ s', request_mem ioremap r.1 r.2 s = Ok (mapping r, s') ∧
    claims s' = (r :: C, mapping <$> r :: C) ∧ fp s' = fp s.
Proof.
  destruct r as [p n]. intros Hc Ho. unfold request_mem. injection Hc as -> Hm. cbn [fst snd]. rewrite Ho.
  eexists. split; [reflexivity|]. unfold claims. simpl. by rewrite Hm.
Qed.

Fixpoint map_regs (l : list (reg * Z)) : stm intmod unit :=
  match l with
  | [] => mret tt
  | [x] => map_reg ioremap x.1 x.2
  | x :: l' => map_reg ioremap x.1 x.2;; map_regs l'
  end.

Definition reg_region (x : reg * Z) : Z * Z := (phys x.1, x.2).

Lemma map_regs_claims l s C :
  claims s = (C, mapping <$> C) → disjoint_from (reg_region <$> l) C = true →
  ∃ s', map_regs l s = Ok (tt, s') ∧
    claims s' = (reverse (reg_region <$> l) ++ C, mapping <$> reverse (reg_region <$> l) ++ C).
Proof.
  revert s C. induction l as [|x l IH]; intros s C Hc Hd; [by eexists|].
  cbn [fmap list_fmap disjoint_from] in Hd. apply andb_true_iff in Hd as [Ho%negb_true_iff Hd].
  destruct (request_mem_claims (reg_region x) s C Hc Ho) as (s1 & E1 & H1 & _).
  assert (∃ s2, map_reg ioremap x.1 x.2 s = Ok (tt, s2) ∧ claims s2 = claims s1) as (s2 & E2 & H2).
  { unfold map_reg. rewrite (bind_run _ _ _ _ _ E1). by eexists. }
  rewrite <- H2 in H1. destruct (IH s2 _ H1 Hd) as (s3 & E3 & H3).
  exists s3. rewrite fmap_cons, reverse_cons, <- app_assoc. split; [|exact H3].
  destruct l; [by rewrite <- E3|]. simpl. by rewrite (bind_run _ _ _ _ _ E2).
Qed.

Definition reg_list : list (reg * Z) :=
  (fun r => (r, if decide (r = IRQ_PRIOTITY) then WORD_SIZE * 32 else WORD_SIZE)) <$>
  [GPIOA_EN; PIN_DIR; INTR_EN; INTRMASK; INT_STATUS; INT_MASK; INTRTRIGGER; INTRBOTH;
   INTRRISE; INT_MASK_CLEAR; IRQ_STATUS; FIQ_SELECT; INT_TRIGGER_MODE; INT_TRIGGER_LEVEL;
   IRQ_PRIOTITY; VIC_CONTROL; SOFT_INT; GPIO_DATA_INPUT; GPIO_INT_CLEAR; GPIO_INT_STATUS].

Lemma init_claims irq_ok s v s' :
  claims s = ([], []) → init ioremap irq_ok s = Ok (v, s') →
  claims s' = (reverse regions, mapping <$> reverse regions).
Proof.
  intros H0 H. unfold init, reserve_spi in H.
  apply bind_Ok in H as (? & s2 & E2 & H).
  destruct (request_mem_claims (GPIOA_REGISTER, WORD_SIZE) s [] H0 eq_refl) as (s0 & E0 & C0 & _).
  rewrite (bind_run _ _ _ _ _ E0) in E2.
  destruct (request_mem_claims (SPI_REGISTER, 0x6C + WORD_SIZE) s0 _ C0 eq_refl)
    as (s1 & E1 & C1 & _).
  rewrite (bind_run _ _ _ _ _ E1) in E2. apply on_fpga_claims in E2. rewrite <- E2 in C1.
  destruct (map_regs_claims reg_list s2 _ C1 eq_refl) as (s3 & E3 & C3).
  change (map_regs reg_list) with (request_memory_regions ioremap) in E3.
  rewrite (bind_run _ _ _ _ _ E3) in H.
  apply bind_Ok in H as (? & s4 & E4%on_fpga_claims & H). istep H.
  apply bind_Ok in H as (? & s5 & E5%enable_gpio_claims & H). istep H.
  apply ret_Ok in H. injection H as _ ->. change (claims (set_ring _ _ s5)) with (claims s5).
  rewrite E5. change (claims (set_irq irq_ok s4)) with (claims s4). rewrite E4, C3. reflexivity.
Qed.
End Setup.

Definition release_all (l : list (Z * Z)) (C : list (Z * Z)) : list (Z * Z) :=
  foldl (fun c r => filter (fun x => x ≠ r) c) C l.
Definition unmap_all (l : list (Z * Z)) (M : list Z) : list Z :=
  foldl (fun m r => filter (fun a => a ≠ r.1) m) M l.

Fixpoint release_list (l : list (Z * Z)) : stm intmod unit :=
  match l with
  | [] => mret tt
  | [r] => release_mem r.1 r.2
  | r :: l' => release_mem r.1 r.2;; release_list l'
  end.

Lemma release_list_cons r r' l :
  release_list (r :: r' :: l) = (release_mem r.1 r.2;; release_list (r' :: l)).
Proof. done. Qed.
Lemma release_list_one r : release_list [r] = release_mem r.1 r.2.
Proof. done. Qed.

Lemma release_list_claims l s :
  ∃ s', release_list l s = Ok (tt, s') ∧ irq_registered s' = irq_registered s ∧
    claims s' = (release_all l (claimed s), unmap_all l (mapped s)).
Proof.
  revert s. induction l as [|r l IH]; intros s; [by eexists|].
  destruct r as [p n]. set (s1 := set_regions (filter (fun r => r ≠ (p, n)) (claimed s))
                                   (filter (fun a => a ≠ p) (mapped s)) s).
  destruct (IH s1) as (s2 & E2 & I2 & C2). exists s2. split; [|by rewrite C2, I2].
  destruct l; [by rewrite <- E2|exact E2].
Qed.

(** The regions in the order of [cleanup]. *)
Definition released_regs : list (Z * Z) :=
  [(phys GPIOA_EN, WORD_SIZE); (phys PIN_DIR, WORD_SIZE); (phys INTR_EN, WORD_SIZE);
   (phys INTRMASK, WORD_SIZE); (phys INTRTRIGGER, WORD_SIZE); (phys INTRBOTH, WORD_SIZE);
   (phys INTRRISE, WORD_SIZE); (phys INT_STATUS, WORD_SIZE); (phys INT_MASK, WORD_SIZE);
   (phys INT_MASK_CLEAR, WORD_SIZE); (phys FIQ_SELECT, WORD_SIZE); (phys IRQ_STATUS, WORD_SIZE);
   (phys INT_TRIGGER_MODE, WORD_SIZE); (phys INT_TRIGGER_LEVEL, WORD_SIZE); (phys IRQ_PRIOTITY, WORD_SIZE * 32);
   (phys VIC_CONTROL, WORD_SIZE); (phys SOFT_INT, WORD_SIZE); (phys GPIO_DATA_INPUT, WORD_SIZE);
   (phys GPIO_INT_CLEAR, WORD_SIZE); (phys GPIO_INT_STATUS, WORD_SIZE)].
Definition released_spi : list (Z * Z) :=
  [(GPIOA_REGISTER, WORD_SIZE); (SPI_REGISTER, 0x6C + WORD_SIZE)].
Definition released : list (Z * Z) := released_regs ++ released_spi.

Lemma cleanup_claims s :
  ∃ s', cleanup s = Ok (tt, s') ∧ irq_registered s' = false ∧
    claims s' = (release_all released (claimed s), unmap_all released (mapped s)).
Proof.
  unfold cleanup. rewrite (bind_run _ _ s tt (set_irq false s)) by done.
  destruct (release_list_claims released_regs (set_irq false s)) as (s1 & E1 & I1 & C1).
  unfold released_regs in E1. rewrite !release_list_cons, release_list_one in E1.
  cbn [fst snd] in E1.
  unfold unregister_memory_region, release_reg. rewrite (bind_run _ _ _ _ _ E1).
  destruct (release_list_claims released_spi s1) as (s2 & E2 & I2 & C2).
  unfold released_spi in E2. rewrite release_list_cons, release_list_one in E2.
  exists s2. split; [exact E2|]. split; [by rewrite I2, I1|].
  rewrite C2. injection C1 as -> ->. unfold release_all, unmap_all, released.
  by rewrite !foldl_app.
Qed.

Lemma unmap_all_id l M : (∀ r a, r ∈ l → a ∈ M → a ≠ r.1) → unmap_all l M = M.
Proof.
  unfold unmap_all. induction l as [|r l IH]; intros H; simpl; [done|].
  rewrite filter_all_id by (intros a; apply H; constructor).
  apply IH. intros r' a Hr. apply H. by constructor.
Qed.

(** Loading and unloading the module: every region it asks for is free of the others
    it holds, so all 22 are claimed, and unloading releases all of them and the
    interrupt line; but as [iounmap] is called with physical addresses, all 22
    mappings stay behind whenever no mapping happens to equal a physical
    address. *)
Theorem load_unload_regions ioremap irq_ok s s1 v :
  claims s = ([], []) → init ioremap irq_ok s = Ok (v, s1) →
  length (claimed s1) = 22%nat ∧
  ∃ s2, cleanup s1 = Ok (tt, s2) ∧ claimed s2 = [] ∧ irq_registered s2 = false ∧
    ((∀ r p n, r ∈ regions → u32 (ioremap p n) ≠ r.1) → length (mapped s2) = 22%nat).
Proof.
  intros H0 Hi. pose proof (init_claims ioremap irq_ok s v s1 H0 Hi) as H1.
  pose proof (f_equal fst H1) as HC. pose proof (f_equal snd H1) as HM.
  unfold claims in HC, HM. cbn [fst snd] in HC, HM. split; [by rewrite HC|].
  destruct (cleanup_claims s1) as (s2 & E & Hirq & H2). exists s2.
  pose proof (f_equal fst H2) as HC2. pose proof (f_equal snd H2) as HM2.
  unfold claims in HC2, HM2. cbn [fst snd] in HC2, HM2.
  split_and!; [done| |done|].
  - rewrite HC2, HC. reflexivity.
  - intros Hp. rewrite HM2, HM, unmap_all_id; [reflexivity|].
    intros r a Hr Ha. apply list_elem_of_fmap in Ha as ([p n] & -> & _).
    apply Hp. revert Hr. assert (released ⊆ regions) as Hsub; [|apply Hsub].
    by apply (bool_decide_unpack (released ⊆ regions)).
Qed.

(** The hardware of the witness: [prepare_spi2] reads [R0] with no chip select
    to disable, then the registers read as zero. *)
Definition setup_answers : list Z :=
  replicate 8 0 ++ [1; 0x10000] ++ [1; 0x10000] ++ [0; 1; 1] ++ [0; 1; 1] ++ replicate 21 0.

Lemma load_unload_regions_witness :
  ∃ s1, init (fun p n => 0xd0000000 + p / 16) true
          (set_irq false (idle setup_answers [])) = Ok (0, s1) ∧
    length (claimed s1) = 22%nat.
Proof.
  eexists. split; [vm_compute; reflexivity|].
  eapply (load_unload_regions (fun p n => 0xd0000000 + p / 16) true
            (set_irq false (idle setup_answers []))); [reflexivity|vm_compute; reflexivity].
Defined.
