(* ===== verification/Sender.v ===== *)
(** * The sender thread

    Models [kernel_sender/sender_kthread.c] and the packet of
    [kernel_sender/miavita_packet.h]: the kernel thread that takes the samples
    out of the circular buffer and sends each in a UDP datagram. *)

From S2P Require Import Prelude CircBuffer Fpga.

(** The packet as the processor sees its fields; [p_timestamp] and [p_seq] hold
    network byte order on the wire. *)
Record packet_t : Type := mk_packet {
  p_timestamp : Z;
  p_seq : Z;
  p_samples : list Z;
  p_id : Z
}.

Definition sizeof_packet_t : Z := 25.

(** The packed struct in memory. *)
Definition packet_bytes (p : packet_t) : list Z :=
  le_bytes 8 (p_timestamp p) ++ le_bytes 4 (p_seq p) ++ p_samples p ++ le_bytes 1 (p_id p).
Definition packet_of_bytes (bs : list Z) : packet_t :=
  mk_packet (le_val (take 8 bs)) (le_val (take 4 (drop 8 bs))) (take 12 (drop 12 bs))
    (le_val (take 1 (drop 24 bs))).

(** [kmalloc_ok]: whether the allocation succeeds; [seq] is not used. *)
Definition prepare_packet (kmalloc_ok : bool) (sample : sample_t) (seq node_id : Z)
    : option packet_t :=
  if kmalloc_ok then
    Some (mk_packet (bswap 8 (u64 (CircBuffer.timestamp sample)))
                    (bswap 4 (u32 (seq_number sample)))
                    (bytes_of_words (data sample)) (u8 node_id))
  else None.

(** The thread with the module's state: the ring it shares with the interrupt,
    the datagrams the socket accepted, and the blocks it has not freed. *)
Record sender : Type := mk_sender {
  s_ring : circ;
  s_seq : Z;                  (* static uint32_t seq *)
  s_sent : list (list Z);
  s_blocks : Z
}.

Section Thread.
(** The kernel: whether an allocation of so many bytes succeeds for
    [read_nsamples], whether that of the [n]-th packet does, and whether
    [sock_sendmsg] accepts it. *)
Context (kmalloc : Z → bool) (packet_ok send_ok : Z → bool).
Context (node_id : Z).

Definition send_it (n : Z) (pkt : packet_t) (st : sender) : sender :=
  mk_sender (s_ring st) (s_seq st)
    (if send_ok n then s_sent st ++ [packet_bytes pkt] else s_sent st) (s_blocks st).

(** One turn of the [for] loop. *)
Definition send_sample (st : sender) (s : sample_t) : sender :=
  let n := s_seq st in
  let st := mk_sender (s_ring st) (u32 (n + 1)) (s_sent st) (s_blocks st) in
  match prepare_packet (packet_ok n) s n (u8 node_id) with
  | None => st
  | Some pkt =>
      let st := mk_sender (s_ring st) (s_seq st) (s_sent st) (s_blocks st + 1) in
      let st := send_it n pkt st in
      mk_sender (s_ring st) (s_seq st) (s_sent st) (s_blocks st - 1)
  end.

(** [for(i = 0; i < len; i += 1)] over the block. *)
Definition send_samples (samples : list sample_t) (st : sender) : sender :=
  foldl send_sample st samples.

(** One turn of the [while] loop. *)
Definition sender_turn (st : sender) : result sender :=
  '(out, c) ← read_nsamples kmalloc (s_ring st);
  let st := mk_sender c (s_seq st) (s_sent st)
              (s_blocks st + match be_samples out with Some _ => 1 | None => 0 end) in
  if 0 <? ret out then
    match be_samples out with
    | None => Crash NullDeref
    | Some samples =>
        let st := send_samples samples st in
        Ok (mk_sender (s_ring st) (s_seq st) (s_sent st) (s_blocks st - 1))
    end
  else Ok st.

Definition interrupts (w : list sample_t) (c : circ) : circ :=
  foldl (fun c s => write_to_buffer (data s) (CircBuffer.timestamp s) (seq_number s) c) c w.

(** The loop, until [kthread_should_stop]: each turn comes after the samples
    the interrupt stored while the thread slept. *)
Fixpoint sender_loop (rounds : list (list sample_t)) (st : sender) : result sender :=
  match rounds with
  | [] => Ok st
  | w :: rounds' =>
      st ← sender_turn (mk_sender (interrupts w (s_ring st)) (s_seq st) (s_sent st) (s_blocks st));
      sender_loop rounds' st
  end.

Definition main_loop (sock_ok bind_ok : bool) (rounds : list (list sample_t)) (st : sender)
    : result sender :=
  if negb sock_ok then Ok st
  else if negb bind_ok then Ok st
  else sender_loop rounds st.
End Thread.

(** [init_module]: the error pointer of a failed [kthread_run] is freed. *)
Definition init_module (kthread_ok : bool) : result (Z * bool) :=
  if kthread_ok then Ok (0, true) else Crash BadAccess.

(** [cleanup_module]: [sender] says whether a thread runs, [udp_socket] whether
    its socket was created. *)
Definition cleanup_module (sender udp_socket : bool) : result unit :=
  if sender then if udp_socket then Ok tt else Crash NullDeref else Ok tt.

(** ** Lemmas *)

Lemma length_bytes_of_words w : length (bytes_of_words w) = 12%nat.
Proof. unfold bytes_of_words. by rewrite !length_app, !length_le_bytes. Qed.

Lemma length_packet_bytes p : length (p_samples p) = 12%nat → length (packet_bytes p) = 25%nat.
Proof. intros H. unfold packet_bytes. by rewrite !length_app, !length_le_bytes, H. Qed.

Definition packet_ok_t (p : packet_t) : Prop :=
  is_u64 (p_timestamp p) ∧ is_u32 (p_seq p) ∧ is_u8 (p_id p) ∧ length (p_samples p) = 12%nat.

Lemma packet_of_packet_bytes p pad : packet_ok_t p → packet_of_bytes (packet_bytes p ++ pad) = p.
Proof.
  destruct p as [ts sq sm i]. intros (H1 & H2 & H3 & H4).
  cbn [p_timestamp p_seq p_samples p_id] in *.
  unfold packet_of_bytes, packet_bytes. cbn [p_timestamp p_seq p_samples p_id].
  f_equal.
  - rewrite <- !app_assoc. rewrite take_app_length' by (by rewrite length_le_bytes).
    rewrite le_val_le_bytes. apply Z.mod_small. lia.
  - rewrite <- !app_assoc. rewrite slice_app by (by rewrite length_le_bytes).
    rewrite le_val_le_bytes. apply Z.mod_small. lia.
  - rewrite <- !app_assoc, app_assoc. apply slice_app; [|done].
    by rewrite length_app, !length_le_bytes.
  - rewrite <- !app_assoc, app_assoc, app_assoc.
    rewrite slice_app by (by rewrite ?length_app, !length_le_bytes, ?H4).
    rewrite le_val_le_bytes. apply Z.mod_small. lia.
Qed.

Lemma prepare_packet_ok s n node p : prepare_packet true s n node = Some p → packet_ok_t p.
Proof.
  unfold prepare_packet. intros [= <-]. unfold packet_ok_t. cbn [p_timestamp p_seq p_samples p_id].
  split; [apply (bswap_range 8)|]. split; [apply (bswap_range 4)|].
  split; [apply u8_range|apply length_bytes_of_words].
Qed.

(** The datagram of a sample. *)
Definition datagram (node_id : Z) (s : sample_t) : list Z :=
  be_bytes 8 (u64 (CircBuffer.timestamp s)) ++ be_bytes 4 (u32 (seq_number s))
    ++ bytes_of_words (data s) ++ [u8 node_id].

Lemma prepare_packet_bytes s n node p :
  prepare_packet true s n (u8 node) = Some p → packet_bytes p = datagram node s.
Proof.
  unfold prepare_packet. intros [= <-]. unfold packet_bytes, datagram.
  cbn [p_timestamp p_seq p_samples p_id]. rewrite !le_bytes_bswap.
  do 3 f_equal. cbn [le_bytes]. f_equal. unfold u8. by rewrite !(Z.mod_small (_ mod _)) by (apply Z.mod_pos_bound; lia).
Qed.

Section Delivery.
Context (packet_ok send_ok : Z → bool) (node_id : Z).

(** What leaves the node of the samples [L], the first of which is the [n]-th
    packet. *)
Fixpoint delivered (n : Z) (L : list sample_t) : list (list Z) :=
  match L with
  | [] => []
  | s :: L' => (if packet_ok n && send_ok n then [datagram node_id s] else [])
                 ++ delivered (u32 (n + 1)) L'
  end.

Lemma delivered_app n L L' :
  is_u32 n → delivered n (L ++ L') = delivered n L ++ delivered (u32 (n + Z.of_nat (length L))) L'.
Proof.
  revert n. induction L as [|s L IH]; intros n Hn; simpl.
  - by rewrite Z.add_0_r, u32_small.
  - rewrite IH by apply u32_range. rewrite <- app_assoc. do 3 f_equal. unfold u32.
    rewrite Zplus_mod_idemp_l. f_equal. lia.
Qed.

Lemma send_samples_sent L st :
  is_u32 (s_seq st) →
  send_samples packet_ok send_ok node_id L st =
    mk_sender (s_ring st) (u32 (s_seq st + Z.of_nat (length L)))
      (s_sent st ++ delivered (s_seq st) L) (s_blocks st).
Proof.
  revert st. induction L as [|s L IH]; intros st Hn.
  - simpl. rewrite Z.add_0_r, u32_small, app_nil_r by done. by destruct st.
  - unfold send_samples in *. cbn [foldl].
    assert (send_sample packet_ok send_ok node_id st s =
      mk_sender (s_ring st) (u32 (s_seq st + 1))
        (s_sent st ++ if packet_ok (s_seq st) && send_ok (s_seq st)
                      then [datagram node_id s] else []) (s_blocks st)) as ->.
    { unfold send_sample, send_it. destruct (packet_ok (s_seq st)) eqn:E.
      - destruct (prepare_packet true s (s_seq st) (u8 node_id)) as [p|] eqn:Hp; [|done].
        apply prepare_packet_bytes in Hp as ->. simpl.
        destruct (send_ok (s_seq st)); rewrite ?app_nil_r; f_equal; lia.
      - simpl. by rewrite app_nil_r. }
    rewrite IH by apply u32_range. simpl. f_equal.
    + unfold u32. rewrite Zplus_mod_idemp_l. f_equal. lia.
    + by rewrite <- app_assoc.
Qed.
End Delivery.

Lemma interrupts_inv w L r c : circ_inv L r c → circ_inv (L ++ w) r (interrupts w c).
Proof.
  revert L c. induction w as [|s w IH]; intros L c H; [by rewrite app_nil_r|].
  rewrite cons_middle, app_assoc. apply IH. destruct s. by apply circ_inv_write.
Qed.

(** One turn, from a drained ring, after fewer than a ring of new samples. *)
Lemma sender_turn_drains kmalloc packet_ok send_ok node_id L w st :
  (∀ n, n ≤ CIRC_BUF_SIZE * sizeof_sample_t → kmalloc n = true) → circ_inv L (Z.of_nat (length L)) (s_ring st) →
  is_u32 (s_seq st) → Z.of_nat (length w) < CIRC_BUF_SIZE →
  ∃ st',
    sender_turn kmalloc packet_ok send_ok node_id
      (mk_sender (interrupts w (s_ring st)) (s_seq st) (s_sent st) (s_blocks st)) = Ok st' ∧
    circ_inv (L ++ w) (Z.of_nat (length (L ++ w))) (s_ring st') ∧
    s_seq st' = u32 (s_seq st + Z.of_nat (length w)) ∧
    s_sent st' = s_sent st ++ delivered packet_ok send_ok node_id (s_seq st) w ∧
    s_blocks st' = s_blocks st.
Proof.
  intros Hk Hinv Hseq Hw. pose proof (interrupts_inv w _ _ _ Hinv) as Hinv'.
  pose proof (read_nsamples_lag kmalloc _ _ _ (Z.of_nat (length w)) Hinv') as Hread.
  rewrite length_app, Nat2Z.inj_add in Hread.
  unfold sender_turn. cbn [s_ring s_seq s_sent s_blocks].
  rewrite Hread; [|rewrite Z.mod_small; lia|].
  2: { intros _. apply Hk. unfold CIRC_BUF_SIZE, sizeof_sample_t in *. lia. }
  set (c := interrupts w (s_ring st)) in *.
  assert (circ_inv (L ++ w) (Z.of_nat (length (L ++ w)))
            (mk_circ (last_write c) (last_write c) (CIRC_BUFFER c))) as Hd.
  { destruct Hinv' as (H1 & H2 & H3 & H4 & H5). split_and!; done || lia. }
  destruct (Z.eqb_spec (Z.of_nat (length w)) 0) as [E|E].
  - destruct w as [|? w]; [|simpl in E; lia]. eexists. split; [reflexivity|].
    cbn [s_ring s_seq s_sent s_blocks delivered be_samples]. split; [done|]. simpl.
    rewrite app_nil_r, Z.add_0_r, u32_small by done. split_and!; done || lia.
  - cbn [mbind result_bind ret be_samples].
    rewrite (proj2 (Z.ltb_lt _ _)) by lia. rewrite send_samples_sent by done.
    eexists. split; [reflexivity|]. cbn [s_ring s_seq s_sent s_blocks].
    replace (length L + length w - Z.to_nat (Z.of_nat (length w)))%nat with (length L) by lia.
    split; [done|]. rewrite drop_app_length. split_and!; done || lia.
Qed.

Lemma main_loop_delivers kmalloc packet_ok send_ok node_id rounds L st :
  (∀ n, n ≤ CIRC_BUF_SIZE * sizeof_sample_t → kmalloc n = true) →
  circ_inv L (Z.of_nat (length L)) (s_ring st) → is_u32 (s_seq st) →
  Forall (fun w => Z.of_nat (length w) < CIRC_BUF_SIZE) rounds →
  ∃ st',
    main_loop kmalloc packet_ok send_ok node_id true true rounds st = Ok st' ∧
    s_sent st' = s_sent st ++ delivered packet_ok send_ok node_id (s_seq st) (mjoin rounds) ∧
    s_blocks st' = s_blocks st.
Proof.
  intros Hk Hinv Hseq Hr. unfold main_loop. cbn [negb].
  revert L st Hinv Hseq. induction Hr as [|w rounds Hw _ IH]; intros L st Hinv Hseq.
  - exists st. simpl. by rewrite app_nil_r.
  - destruct (sender_turn_drains kmalloc packet_ok send_ok node_id L w st) as
      (st1 & E1 & Hinv1 & Hseq1 & Hs1 & Hb1); [done..|].
    cbn [sender_loop]. rewrite E1. cbn [mbind result_bind].
    destruct (IH _ st1 Hinv1) as (st2 & E2 & Hs2 & Hb2); [rewrite Hseq1; apply u32_range|].
    exists st2. split; [done|]. rewrite Hs2, Hs1, Hb2, Hb1, Hseq1. split; [|done].
    by rewrite <- app_assoc, <- delivered_app.
Qed.


