(* ===== verification/Receiver.v ===== *)
(** * The receiver and the user-space readers

    Models [kernel_sender/receiver/list.c] and [main.c] (the server that writes
    every packet it receives to a JSON file), the channel extraction of
    [interruption/userland_reader.c], and the packets of
    [fake_sender/fake_sender.c]. *)

From S2P Require Import Prelude CString CircBuffer Fpga Sender.

(** ** Files

    [answers] are the results of the next calls to [write]: -1 for an error,
    otherwise how much is accepted; when there are none left, all is. *)
Record files : Type := mk_files {
  json_open : bool;       (* false: [json_fd] is 0, the standard input *)
  json : list Z;          (* contents of the JSON file *)
  stdin_out : list Z;     (* what was written to descriptor 0 *)
  answers : list Z
}.

Definition append (bs : list Z) (s : files) : files :=
  if json_open s then mk_files true (json s ++ bs) (stdin_out s) (answers s)
  else mk_files false (json s) (stdin_out s ++ bs) (answers s).

Definition write (bs : list Z) : stm files Z := fun s =>
  match answers s with
  | [] => Ok (Z.of_nat (length bs), append bs s)
  | a :: ans =>
      let s := mk_files (json_open s) (json s) (stdin_out s) ans in
      if a <? 0 then Ok (-1, s)
      else let n := Nat.min (Z.to_nat a) (length bs) in
           Ok (Z.of_nat n, append (take n bs) s)
  end.

(** ** list.c *)

Definition ntohpkt (p : packet_t) : packet_t :=
  mk_packet (bswap 8 (p_timestamp p)) (bswap 4 (p_seq p)) (p_samples p) (p_id p).

(** The word [sample<k>] from its three bytes in the packet, least significant
    one first. *)
Definition sample_word (samples : list Z) (i0 i1 i2 : Z) : result Z :=
  b0 ← nth_byte samples i0; b1 ← nth_byte samples i1; b2 ← nth_byte samples i2;
  Ok (le_val [b0; b1; b2; 0]).

(** [if(sample > 0x800000) sample = (((~sample)+1) & 0x00FFFFFF) * -1], in
    unsigned 32-bit arithmetic. *)
Definition to_signed (sample : Z) : Z :=
  if 0x800000 <? sample
  then u32 (Z.land (u32 (u32 (Z.lnot sample) + 1)) 0x00FFFFFF * u32 (-1))
  else sample.

(** A double quote. *)
Definition dquote : list Z := [34].

Definition json_line (id seq ts s1 s2 s3 s4 : Z) : list Z :=
  dquote ++ dec_u id ++ str ":" ++ dec_u seq ++ dquote ++ str ":{" ++
  dquote ++ str "ts" ++ dquote ++ str ":" ++ dec_u ts ++ str "," ++
  dquote ++ str "1" ++ dquote ++ str ":" ++ dec_d (s32 s1) ++ str "," ++
  dquote ++ str "2" ++ dquote ++ str ":" ++ dec_d (s32 s2) ++ str "," ++
  dquote ++ str "3" ++ dquote ++ str ":" ++ dec_d (s32 s3) ++ str "," ++
  dquote ++ str "4" ++ dquote ++ str ": " ++ dec_d (s32 s4) ++ str "}".

(** [while(written < to_write)]: every turn uses an answer, and a turn without
    one writes the rest. *)
Fixpoint write_loop (fuel : nat) (buff : list Z) (written : Z) : stm files unit :=
  match fuel with
  | O => throw Diverges
  | S f =>
      if written <? Z.of_nat (length buff) then
        status ← write (drop (Z.to_nat written) buff);
        if status =? -1 then mret tt else write_loop f buff (written + status)
      else mret tt
  end.

Definition newline : list Z := [10].

Definition write_json (pkt : packet_t) (first : Z) : stm files unit :=
  sample1 ← lift (sample_word (p_samples pkt) 2 1 0);
  sample2 ← lift (sample_word (p_samples pkt) 5 4 3);
  sample3 ← lift (sample_word (p_samples pkt) 8 7 6);
  sample4 ← lift (sample_word (p_samples pkt) 11 10 9);
  let pkt := ntohpkt pkt in
  (if negb (truthy first) then write (str "," ++ newline) else write newline);;
  let buff := json_line (p_id pkt) (p_seq pkt) (p_timestamp pkt)
                (to_signed sample1) (to_signed sample2) (to_signed sample3) (to_signed sample4) in
  s ← get;
  write_loop (S (S (length (answers s)))) buff 0.

(** ** main.c *)

Record config : Type := mk_config {
  iface : option (list Z);
  port : Z;
  capacity : Z;
  output_json_file : option (list Z);
  move_file_to : option (list Z)
}.

Definition default_config : config :=
  mk_config (Some (str "lo")) 57844 250 (Some (str "miavita.json")) (Some (str "miavita_old")).

(** [argv[i]]: the entry after the last one is NULL. *)
Definition arg (argv : list (list Z)) (i : nat) : result (option (list Z)) :=
  if (i <=? length argv)%nat then Ok (argv !! i) else Crash OutOfBounds.
Definition atoi_ptr (s : option (list Z)) : result Z :=
  match s with None => Crash NullDeref | Some s => Ok (atoi s) end.

Fixpoint parse_args_from (fuel : nat) (argv : list (list Z)) (i : nat) (c : config)
    : result (Z * config) :=
  match fuel with
  | O => Crash Diverges
  | S f =>
      if (i <? length argv)%nat then
        a ← arg argv i;
        match a with
        | None => Crash NullDeref
        | Some a =>
            if streq a (str "-i") then
              v ← arg argv (i + 1);
              parse_args_from f argv (i + 2)
                (mk_config v (port c) (capacity c) (output_json_file c) (move_file_to c))
            else if streq a (str "-p") then
              v ← arg argv (i + 1); n ← atoi_ptr v;
              parse_args_from f argv (i + 2)
                (mk_config (iface c) (u16 n) (capacity c) (output_json_file c) (move_file_to c))
            else if streq a (str "-c") then
              v ← arg argv (i + 1); n ← atoi_ptr v;
              parse_args_from f argv (i + 2)
                (mk_config (iface c) (port c) (u32 n) (output_json_file c) (move_file_to c))
            else if streq a (str "-j") then
              v ← arg argv (i + 1);
              parse_args_from f argv (i + 2)
                (mk_config (iface c) (port c) (capacity c) v (move_file_to c))
            else if streq a (str "-o") then
              v ← arg argv (i + 1);
              parse_args_from f argv (i + 2)
                (mk_config (iface c) (port c) (capacity c) (output_json_file c) v)
            else Ok (0, c)
        end
      else Ok (1, c)
  end.
Definition parse_args (argv : list (list Z)) (c : config) : result (Z * config) :=
  parse_args_from (S (length argv)) argv 1 c.

(** An interface of [getifaddrs] and its first address. *)
Record ifaddr : Type := mk_ifaddr { ifa_name : list Z; ifa_up_inet : bool; ifa_in_addr : Z }.

(** Returned: the result and the address the socket was bound to, if any. *)
Fixpoint bind_first (bind : Z → Z → bool) (addrs : list ifaddr) (name : list Z) (port : Z)
    : Z * option Z :=
  match addrs with
  | [] => (1, None)
  | a :: addrs' =>
      if ifa_up_inet a && streq (ifa_name a) name then
        if bind (ifa_in_addr a) (bswap 2 port) then (1, Some (ifa_in_addr a)) else (0, None)
      else bind_first bind addrs' name port
  end.
Definition bind_socket (socket_ok : bool) (bind : Z → Z → bool) (addrs : list ifaddr)
    (c : config) : result (Z * option Z) :=
  if negb socket_ok then Ok (0, None)
  else match addrs, iface c with
       | _, Some name => Ok (bind_first bind addrs name (port c))
       | [], None => Ok (1, None)
       | _, None => if existsb ifa_up_inet addrs then Crash NullDeref else Ok (1, None)
       end.

(** The descriptor is 0 when the file cannot be opened. *)
Definition open_output_files (open_ok : bool) : stm files unit :=
  s ← get;
  if open_ok then
    put (mk_files true (json s) (stdin_out s) (answers s));;
    write (str "{");; mret tt
  else put (mk_files false (json s) (stdin_out s) (answers s)).

(** [recvfrom] into the zeroed packet: what does not fit is dropped. *)
Definition received (d : list Z) : packet_t :=
  packet_of_bytes (take (Z.to_nat sizeof_packet_t) d ++ replicate 25 0).

(** The datagrams in the order they arrive; an empty one ends the loop, as an
    error does, and after the last one the program waits. *)
Fixpoint serve_loop (ds : list (list Z)) (first : Z) : stm files unit :=
  match ds with
  | [] => mret tt
  | d :: ds' =>
      if (length d =? 0)%nat then mret tt
      else write_json (received d) first;; serve_loop ds' 1
  end.
Definition serve (open_ok : bool) (ds : list (list Z)) : stm files unit :=
  open_output_files open_ok;; serve_loop ds 0.

(** ** userland_reader.c *)

Definition correct_sample (bs : list Z) : result (list Z) :=
  mapM (nth_byte bs) [3; 2; 1; 0; 7; 6; 5; 4; 11; 10; 9; 8].

Definition separate_channel (bs : list Z) (i : Z) : result Z :=
  a ← nth_byte bs i; b ← nth_byte bs (i + 1); c ← nth_byte bs (i + 2);
  Ok (u32 (Z.shiftl a 16 + Z.shiftl b 8 + c)).
Definition separate_channels (bs : list Z) : result (list Z) :=
  mapM (separate_channel bs) [0; 3; 6; 9].

Definition two_complement (channels : list Z) : list Z := to_signed <$> channels.

(** ** fake_sender.c: the samples are left as they were on the stack. *)
Definition create_fake_packet (stack : list Z) (seq_number : Z) (number : list Z) : packet_t :=
  mk_packet (bswap 8 (u64 seq_number)) (bswap 4 seq_number) stack (u8 (atoi number)).

(** ** Lemmas *)

(** A 24-bit two's complement number. *)
Definition signed24 (x : Z) : Z := if x <? 0x800000 then x else x - 0x1000000.

Lemma to_signed_spec x :
  0 ≤ x < 2 ^ 24 → x ≠ 0x800000 → s32 (to_signed x) = s32 (signed24 x).
Proof.
  intros Hx Hne. unfold to_signed, signed24.
  destruct (Z.ltb_spec 0x800000 x) as [H|H], (Z.ltb_spec x 0x800000) as [H'|H']; try (done || lia).
  unfold Z.lnot. rewrite (land_ones_mod _ 24) by done.
  replace (u32 (u32 (Z.pred (- x)) + 1) mod 2 ^ 24) with (2 ^ 24 - x) by (unfold u32; dlia).
  unfold s32, swrap, u32. dlia.
Qed.

(** The number the server prints for a channel: two's complement on 24 bits, but the
    most negative value keeps its positive sign. *)
Definition reported24 (x : Z) : Z := if x =? 0x800000 then 8388608 else signed24 x.

Lemma to_signed_reported x : 0 ≤ x < 2 ^ 24 → s32 (to_signed x) = s32 (reported24 x).
Proof.
  intros Hx. unfold reported24. destruct (Z.eqb_spec x 0x800000) as [->|Hne]; [reflexivity|by apply to_signed_spec].
Qed.

Lemma nth_byte_ok bs i : 0 ≤ i < Z.of_nat (length bs) → ∃ b, nth_byte bs i = Ok b ∧ bs !! Z.to_nat i = Some b.
Proof.
  intros Hi. unfold nth_byte. rewrite (proj2 (Z.ltb_ge _ _)) by lia.
  destruct (lookup_lt_is_Some_2 bs (Z.to_nat i)) as [b ->]; [lia|eauto].
Qed.

(** Any twelve bytes, and the four big-endian numbers in them. *)
Definition chan (bs : list Z) (k : nat) : Z := be_val (take 3 (drop (3 * k) bs)).

Lemma twelve (bs : list Z) :
  length bs = 12%nat →
  ∃ b0 b1 b2 b3 b4 b5 b6 b7 b8 b9 b10 b11, bs = [b0; b1; b2; b3; b4; b5; b6; b7; b8; b9; b10; b11].
Proof.
  intros H. do 12 (destruct bs as [|? bs]; [done|]). destruct bs; [|done]. by do 12 eexists.
Qed.

Lemma sample_words bs :
  length bs = 12%nat →
  sample_word bs 2 1 0 = Ok (chan bs 0) ∧ sample_word bs 5 4 3 = Ok (chan bs 1) ∧
  sample_word bs 8 7 6 = Ok (chan bs 2) ∧ sample_word bs 11 10 9 = Ok (chan bs 3).
Proof.
  intros H. destruct (twelve bs H) as (?&?&?&?&?&?&?&?&?&?&?&?&->).
  unfold sample_word, nth_byte, chan, be_val. simpl.
  repeat split; f_equal; lia.
Qed.

Lemma chan_range bs k : bytes_ok bs → 0 ≤ chan bs k < 2 ^ 24.
Proof.
  intros H. unfold chan, be_val.
  assert (bytes_ok (reverse (take 3 (drop (3 * k) bs)))) as Hb.
  { apply bytes_ok_reverse. by apply Forall_take, Forall_drop. }
  pose proof (le_val_range _ Hb) as Hr. rewrite length_reverse, length_take in Hr.
  assert (256 ^ Z.of_nat (3 `min` length (drop (3 * k) bs)) ≤ 256 ^ 3) by (apply Z.pow_le_mono_r; lia).
  lia.
Qed.

Lemma write_loop_all fuel buff w s :
  0 ≤ w ≤ Z.of_nat (length buff) → Forall (fun a => 0 < a) (answers s) →
  (S (length (answers s)) < fuel)%nat →
  ∃ s', write_loop fuel buff w s = Ok (tt, s') ∧
    json_open s' = json_open s ∧ (json_open s = true →
    json s' = json s ++ drop (Z.to_nat w) buff ∧ stdin_out s' = stdin_out s).
Proof.
  revert w s. induction fuel as [|f IH]; intros w s Hw Ha Hf; [lia|]. cbn [write_loop].
  destruct (Z.ltb_spec w (Z.of_nat (length buff))) as [Hlt|Hge].
  2: { exists s. split; [done|]. split; [done|]. by rewrite drop_ge, app_nil_r by lia. }
  destruct s as [op js so [|a ans]]; cbn [answers json json_open stdin_out] in *.
  - eexists. erewrite bind_run by reflexivity. rewrite length_drop.
    rewrite (proj2 (Z.eqb_neq _ _)) by lia.
    destruct f as [|f']; [simpl in Hf; lia|]. cbn [write_loop].
    rewrite (proj2 (Z.ltb_ge _ _)) by lia. split; [reflexivity|].
    unfold append; cbn. destruct op; done.
  - inversion Ha; subst.
    set (n := Nat.min (Z.to_nat a) (length (drop (Z.to_nat w) buff))).
    assert (0 < n)%nat by (unfold n; rewrite length_drop; lia).
    assert (Z.of_nat n ≤ Z.of_nat (length buff) - w) by (unfold n; rewrite length_drop; lia).
    assert (write (drop (Z.to_nat w) buff) (mk_files op js so (a :: ans)) =
      Ok (Z.of_nat n, append (take n (drop (Z.to_nat w) buff)) (mk_files op js so ans))) as Ew.
    { unfold write. cbn [answers]. by rewrite (proj2 (Z.ltb_ge a 0)) by lia. }
    rewrite (bind_run _ _ _ _ _ Ew), (proj2 (Z.eqb_neq _ _)) by lia.
    destruct (IH (w + Z.of_nat n) (append (take n (drop (Z.to_nat w) buff)) (mk_files op js so ans)))
      as (s' & E & Hop & Hs'); [lia| | |].
    + by unfold append; destruct op.
    + unfold append; destruct op; simpl in *; lia.
    + exists s'. split; [exact E|]. split; [rewrite Hop; by unfold append; destruct op|].
      intros ->. destruct Hs' as [-> ->]; [done|]. unfold append; cbn. split; [|done].
      rewrite <- app_assoc. f_equal.
      replace (Z.to_nat (w + Z.of_nat n)) with (Z.to_nat w + n)%nat by lia.
      by rewrite <- drop_drop, take_drop.
Qed.

Lemma bytes_of_words_ok w : bytes_ok (bytes_of_words w).
Proof. unfold bytes_of_words. rewrite !bytes_ok_app. auto with cint. Qed.

Lemma received_datagram node s p :
  prepare_packet true s 0 (u8 node) = Some p → received (datagram node s) = p.
Proof.
  intros Hp. unfold received. rewrite <- (prepare_packet_bytes s 0 node p Hp).
  apply prepare_packet_ok in Hp as Hok.
  rewrite take_ge; [by apply packet_of_packet_bytes|].
  rewrite length_packet_bytes; [done|apply Hok].
Qed.

(** The line of a sample. *)
Definition sample_line (node : Z) (s : sample_t) : list Z :=
  json_line (u8 node) (u32 (seq_number s)) (u64 (CircBuffer.timestamp s))
    (reported24 (channel_of (data s) 0)) (reported24 (channel_of (data s) 1))
    (reported24 (channel_of (data s) 2)) (reported24 (channel_of (data s) 3)).

Lemma json_line_signed i q t a b c d a' b' c' d' :
  s32 a = s32 a' → s32 b = s32 b' → s32 c = s32 c' → s32 d = s32 d' →
  json_line i q t a b c d = json_line i q t a' b' c' d'.
Proof. intros Ha Hb Hc Hd. unfold json_line. by rewrite Ha, Hb, Hc, Hd. Qed.

Lemma write_json_sample node s first f :
  json_open f = true → answers f = [] →
  ∃ f', write_json (received (datagram node s)) first f = Ok (tt, f') ∧
    json_open f' = true ∧ answers f' = [] ∧
    json f' = json f ++ (if truthy first then newline else str "," ++ newline) ++ sample_line node s.
Proof.
  intros Hop Hans. erewrite (received_datagram node s) by reflexivity.
  pose proof (bytes_of_words_ok (data s)) as Hok.
  destruct (sample_words (bytes_of_words (data s)) (length_bytes_of_words _)) as (W1 & W2 & W3 & W4).
  unfold write_json. cbn [p_samples]. rewrite W1, W2, W3, W4.
  do 4 (rewrite (bind_run (lift (Ok _)) _ _ _ _ eq_refl)). unfold ntohpkt.
  cbn [p_samples p_id p_seq p_timestamp].
  destruct f as [op js so ans]; cbn [json json_open answers] in *; subst op ans.
  set (sep := if truthy first then newline else str "," ++ newline).
  rewrite (bind_run _ _ _ (Z.of_nat (length sep)) (mk_files true (js ++ sep) so [])).
  2: { unfold sep. by destruct (truthy first). }
  rewrite (bind_run get _ _ _ _ eq_refl). cbn [answers length].
  set (buff := json_line _ _ _ _ _ _ _).
  assert (buff = sample_line node s) as Hb.
  { unfold buff, sample_line. rewrite !bswap_bswap by (apply u64_range || apply u32_range).
    rewrite (u8_small (u8 node)) by apply u8_range.
    apply json_line_signed; apply to_signed_reported; by apply chan_range. }
  cbn [write_loop]. rewrite Hb. destruct (0 <? Z.of_nat (length (sample_line node s))) eqn:El.
  2: { exfalso. apply Z.ltb_ge in El. unfold sample_line, json_line, dquote in El. simpl in El. lia. }
  rewrite (bind_run _ _ _ (Z.of_nat (length (sample_line node s)))
             (mk_files true ((js ++ sep) ++ sample_line node s) so [])) by reflexivity.
  bool_props. rewrite (proj2 (Z.eqb_neq _ _)) by lia.
  rewrite (proj2 (Z.ltb_ge _ _)) by lia.
  eexists. split; [reflexivity|]. by rewrite <- app_assoc.
Qed.

(** The text of the samples received, the first of them after [first]. *)
Fixpoint lines (node : Z) (first : bool) (L : list sample_t) : list Z :=
  match L with
  | [] => []
  | s :: L' => (if first then str "," ++ newline else newline) ++ sample_line node s
                 ++ lines node false L'
  end.

Lemma serve_loop_lines node L first f :
  json_open f = true → answers f = [] →
  ∃ f', serve_loop (datagram node <$> L) first f = Ok (tt, f') ∧
    json f' = json f ++ lines node (negb (truthy first)) L.
Proof.
  revert first f. induction L as [|s L IH]; intros first f Hop Hans.
  - exists f. simpl. by rewrite app_nil_r.
  - cbn [fmap list_fmap serve_loop].
    replace (length (datagram node s) =? 0)%nat with false.
    2: { unfold datagram. by rewrite length_app, length_be_bytes. }
    destruct (write_json_sample node s first f Hop Hans) as (f1 & E1 & Hop1 & Ha1 & Hj1).
    rewrite (bind_run _ _ _ _ _ E1). destruct (IH 1 f1 Hop1 Ha1) as (f2 & E2 & Hj2).
    exists f2. split; [exact E2|]. rewrite Hj2, Hj1. cbn [lines]. rewrite <- !app_assoc.
    by destruct (truthy first).
Qed.

(** The samples that leave the node: those whose packet can be allocated and is taken
    by the socket; [n] is the number of the first. *)
Fixpoint sent_samples (packet_ok send_ok : Z → bool) (n : Z) (L : list sample_t) : list sample_t :=
  match L with
  | [] => []
  | s :: L' => (if packet_ok n && send_ok n then [s] else []) ++ sent_samples packet_ok send_ok (u32 (n + 1)) L'
  end.

Lemma delivered_sent packet_ok send_ok node n L :
  delivered packet_ok send_ok node n L = datagram node <$> sent_samples packet_ok send_ok n L.
Proof.
  revert n. induction L as [|s L IH]; intros n; [done|]. cbn [delivered sent_samples]. rewrite IH, fmap_app.
  by destruct (packet_ok n && send_ok n).
Qed.

(** C2: from the ring of a node to the file of the server: of the samples the node
    stores, each one whose packet can be allocated and is taken by the socket becomes
    one line of the file, in order, with the node, the sequence number, the time
    stamp and the four channels in two's complement on 24 bits, except that the most
    negative value 0x800000 is written as +8388608.  The sender keeps up with the
    ring and gets the block it reads samples into, the network loses nothing, and the
    file system takes every write whole. *)
Theorem samples_reach_json kmalloc packet_ok send_ok node rounds L st f :
  (∀ n, n ≤ CIRC_BUF_SIZE * sizeof_sample_t → kmalloc n = true) →
  circ_inv L (Z.of_nat (length L)) (s_ring st) → is_u32 (s_seq st) → s_sent st = [] →
  Forall (fun w => Z.of_nat (length w) < CIRC_BUF_SIZE) rounds → answers f = [] →
  ∃ st' f',
    main_loop kmalloc packet_ok send_ok node true true rounds st = Ok st' ∧
    serve true (s_sent st') f = Ok (tt, f') ∧
    json f' = json f ++ str "{" ++ lines node true (sent_samples packet_ok send_ok (s_seq st) (mjoin rounds)).
Proof.
  intros Hk Hinv Hseq Hsent Hr Hans.
  destruct (main_loop_delivers kmalloc packet_ok send_ok node rounds L st) as (st' & E & Hs & _); [done..|].
  rewrite Hsent, delivered_sent in Hs. cbn [app] in Hs.
  destruct f as [op js so ans]. simpl in Hans. subst ans.
  destruct (serve_loop_lines node (sent_samples packet_ok send_ok (s_seq st) (mjoin rounds)) 0 (mk_files true (js ++ str "{") so []))
    as (f' & E' & Hj); [done..|].
  exists st', f'. split; [done|]. rewrite Hs. split; [exact E'|]. rewrite Hj. simpl. by rewrite <- app_assoc.
Qed.

(** The second sample is refused by the socket; the third has a channel at the limit. *)
Lemma samples_reach_json_witness :
  let s := mk_sample 1350000 2 (0x03020100, 0x04030201, 0x0fffffff) in
  let l := mk_sample 1350001 4 (0x00000080, 0, 0) in
  ∃ st' f',
    main_loop (fun _ => true) (fun _ => true) (fun n => negb (n =? 1)) 7 true true [[s; s]; [l]] (mk_sender circ_init 0 [] 0) = Ok st' ∧
    serve true (s_sent st') (mk_files false [] [] []) = Ok (tt, f') ∧
    json f' = str "{" ++ str "," ++ newline ++ sample_line 7 s ++ newline ++ sample_line 7 l ∧
    channel_of (data l) 0 = 0x800000.
Proof.
  intros s l.
  destruct (samples_reach_json (fun _ => true) (fun _ => true) (fun n => negb (n =? 1)) 7 [[s; s]; [l]] [] (mk_sender circ_init 0 [] 0) (mk_files false [] [] []))
    as (st' & f' & H1 & H2 & H3).
  - reflexivity.
  - exact circ_init_inv.
  - simpl; lia.
  - reflexivity.
  - repeat constructor; done.
  - reflexivity.
  - exists st', f'. split; [exact H1|]. split; [exact H2|]. split; [rewrite H3; reflexivity|reflexivity].
Defined.

(** The conversion of a channel to a signed number is two's complement on 24 bits,
    except at the negative limit, which is reported as +8388608. *)
Theorem to_signed_value x :
  0 ≤ x < 2 ^ 24 →
  s32 (to_signed x) = if x =? 0x800000 then 0x800000 else signed24 x.
Proof.
  intros Hx. destruct (Z.eqb_spec x 0x800000) as [->|Hne]; [reflexivity|].
  rewrite to_signed_spec by done. unfold signed24. apply swrap_small; [lia|].
  case_test; bool_props; lia.
Qed.

Lemma to_signed_value_witness : s32 (to_signed 0xfffffe) = -2 ∧ s32 (to_signed 0x800000) = 8388608.
Proof. split; [apply (to_signed_value 0xfffffe)|apply (to_signed_value 0x800000)]; lia. Defined.

(** A line reaches the file whole, however the file system splits the writes: for
    any sequence of partial writes of at least a byte the loop ends with all of
    the line appended. *)
Theorem write_loop_complete buff s :
  Forall (fun a => 0 < a) (answers s) → json_open s = true →
  ∃ s', write_loop (S (S (length (answers s)))) buff 0 s = Ok (tt, s') ∧
    json s' = json s ++ buff.
Proof.
  intros Ha Hop. destruct (write_loop_all (S (S (length (answers s)))) buff 0 s) as (s' & E & _ & H);
    [lia|done|lia|].
  exists s'. split; [done|]. by destruct (H Hop).
Qed.

Lemma write_loop_complete_witness :
  ∃ s', write_loop 4 (str "abcde") 0 (mk_files true (str "x") [] [2; 1]) = Ok (tt, s') ∧
    json s' = str "xabcde".
Proof.
  apply (write_loop_complete (str "abcde") (mk_files true (str "x") [] [2; 1]));
    [repeat constructor|reflexivity].
Defined.

(** The reader of [/proc/geophone] and the server extract the same four numbers from
    the twelve bytes of a sample. *)
Theorem readers_agree bs :
  bytes_ok bs → length bs = 12%nat →
  (two_complement <$> separate_channels bs) =
    mapM (fun i => x ← sample_word bs (i + 2) (i + 1) i; Ok (to_signed x)) [0; 3; 6; 9].
Proof.
  intros Hok Hlen. destruct (twelve bs Hlen) as (b0&b1&b2&b3&b4&b5&b6&b7&b8&b9&b10&b11&->).
  assert (∀ a b c, is_u8 a → is_u8 b → is_u8 c →
    u32 (Z.shiftl a 16 + Z.shiftl b 8 + c) = le_val [c; b; a; 0]) as E.
  { intros a b c ? ? ?. rewrite !Z.shiftl_mul_pow2 by lia. simpl. rewrite u32_small; lia. }
  unfold bytes_ok in Hok. rewrite !Forall_cons in Hok.
  transitivity (Ok (to_signed <$>
    [u32 (Z.shiftl b0 16 + Z.shiftl b1 8 + b2); u32 (Z.shiftl b3 16 + Z.shiftl b4 8 + b5);
     u32 (Z.shiftl b6 16 + Z.shiftl b7 8 + b8); u32 (Z.shiftl b9 16 + Z.shiftl b10 8 + b11)]));
    [reflexivity|].
  rewrite !E by tauto. reflexivity.
Qed.

Lemma readers_agree_witness :
  (two_complement <$> separate_channels [0xff; 0xff; 0xfe; 0; 0; 1; 0x80; 0; 1; 0; 1; 0])
    = Ok [4294967294; 1; 4286578689; 256].
Proof.
  rewrite (readers_agree [0xff; 0xff; 0xfe; 0; 0; 1; 0x80; 0; 1; 0; 1; 0]);
    [reflexivity|repeat constructor; done|reflexivity].
Defined.
