(* ===== verification/UserReader.v ===== *)
(** * The user-space reader and the fake sender

    Models [interruption/userland_reader.c], which reads samples from the proc
    entry and prints their channels, and [fake_sender/fake_sender.c], which sends
    numbered packets to the server; both build on the conversions in [Receiver]. *)

From S2P Require Import Prelude CString CircBuffer Sender Receiver.

(** ** userland_reader.c *)

Definition BUFFER_SIZE : nat := 250.

(** A file: what is left to read, and whether an end of file was met. *)
Record file : Type := mk_file { pending : list Z; at_eof : bool }.

(** [(unsigned char) getc(ifp)]: [EOF] is -1. *)
Definition getc : stm file Z := fun f =>
  match pending f with
  | b :: bs => Ok (b, mk_file bs (at_eof f))
  | [] => Ok (u8 (-1), mk_file [] true)
  end.

Fixpoint read_octets (n : nat) : stm file (list Z) :=
  match n with
  | O => mret []
  | S n' => b ← getc; bs ← read_octets n'; mret (b :: bs)
  end.
Definition read_sample : stm file (list Z) := read_octets (Z.to_nat sizeof_sample_t).

(** The channels of a sample, from its bytes. *)
Definition channels_of (sample : list Z) : result (list Z) :=
  c ← separate_channels (drop 12 sample); Ok (two_complement c).

(** [for (i = 0, read_samples = 0; i < BUFFER_SIZE && !feof(ifp); ...)]: [n]
    samples left. *)
Fixpoint read_loop (n : nat) : stm file (list (list Z)) :=
  match n with
  | O => mret []
  | S n' =>
      f ← get;
      if at_eof f then mret []
      else
        s ← read_sample;
        c ← lift (channels_of s);
        cs ← read_loop n';
        mret (c :: cs)
  end.

(** The channels printed, sample by sample; [None] is a proc entry that cannot be
    opened. *)
Definition reader_main (ifp : option (list Z)) : result (list (list Z)) :=
  match ifp with
  | None => Crash (ProcessExit 1)
  | Some bs => '(cs, _) ← read_loop BUFFER_SIZE (mk_file bs false); Ok cs
  end.

(** ** fake_sender.c *)

Definition PORT : Z := 57844.

(** [bind_port]: the socket, and the address [inet_aton] makes of the argument. *)
Definition bind_port (socket : bool) (inet_aton : list Z → option Z) (server_ip : list Z) : result (Z * Z) :=
  if socket then
    match inet_aton server_ip with Some a => Ok (a, bswap 2 PORT) | None => Crash (ProcessExit 1) end
  else Crash (ProcessExit 1).

(** The loop, for [n] turns: the packets given to [sendto], whose result is only
    printed. [stack] is what the samples of a packet are. *)
Fixpoint fake_loop (n : nat) (stack : nat → list Z) (seq : Z) (number : list Z) : list packet_t :=
  match n with
  | O => []
  | S n' => create_fake_packet (stack n) seq number :: fake_loop n' stack (u32 (seq + 1)) number
  end.

Definition fake_main (n : nat) (socket : bool) (inet_aton : list Z → option Z) (stack : nat → list Z)
    (argv : list (list Z)) : result ((Z * Z) * list packet_t) :=
  match argv with
  | [_; server_ip; number] =>
      addr ← bind_port socket inet_aton server_ip;
      Ok (addr, fake_loop n stack 0 number)
  | _ => Crash (ProcessExit 1)
  end.

(** ** The reader prints what the entry holds *)

Lemma read_octets_all bs rest :
  read_octets (length bs) (mk_file (bs ++ rest) false) = Ok (bs, mk_file rest false).
Proof.
  induction bs as [|b bs IH]; [done|]. cbn [length read_octets app].
  rewrite (bind_run getc _ (mk_file (b :: bs ++ rest) false) b _ eq_refl). by rewrite (bind_run _ _ _ _ _ IH).
Qed.
Lemma read_octets_eof n e : (0 < n)%nat →
  read_octets n (mk_file [] e) = Ok (replicate n 255, mk_file [] true).
Proof.
  intros Hn. destruct n as [|n]; [lia|]. clear Hn. revert e. induction n as [|n IH]; intros e; [done|].
  specialize (IH true). remember (S n) as k. cbn [read_octets].
  rewrite (bind_run getc _ (mk_file [] e) 255 (mk_file [] true) eq_refl). by rewrite (bind_run _ _ _ _ _ IH).
Qed.

(** What is read behind the end of the file. *)
Definition eof_sample : list Z := replicate (Z.to_nat sizeof_sample_t) 255.

Lemma read_loop_run n blocks cs :
  Forall (fun s => length s = Z.to_nat sizeof_sample_t) blocks →
  mapM channels_of (take n (blocks ++ [eof_sample])) = Ok cs →
  ∃ f, read_loop n (mk_file (concat blocks) false) = Ok (cs, f).
Proof.
  revert n cs. induction blocks as [|s blocks IH]; intros n cs Hb Hcs.
  - destruct n as [|n]; [injection Hcs as <-; by eexists|]. cbn [app take] in Hcs.
    rewrite take_nil in Hcs. cbn [read_loop concat]. rewrite (bind_run get _ _ _ _ eq_refl). cbn [at_eof].
    rewrite (bind_run read_sample _ _ _ _ (read_octets_eof 24 false ltac:(lia))).
    fold eof_sample. cbn [mapM] in Hcs. destruct (channels_of eof_sample) as [c|] eqn:Ec; [|done].
    change (replicate 24 255) with eof_sample. rewrite Ec. rewrite (bind_run (lift (Ok c)) _ _ _ _ eq_refl).
    injection Hcs as <-. exists (mk_file [] true). by destruct n.
  - apply Forall_cons in Hb as [Hs Hb]. destruct n as [|n]; [injection Hcs as <-; by eexists|].
    cbn [app take] in Hcs. cbn [read_loop concat]. rewrite (bind_run get _ _ _ _ eq_refl). cbn [at_eof].
    unfold read_sample. rewrite <- Hs. rewrite (bind_run _ _ _ _ _ (read_octets_all s (concat blocks))).
    cbn [mapM] in Hcs. destruct (channels_of s) as [c|] eqn:Ec; [|done].
    rewrite result_bind_Ok in Hcs. destruct (mapM channels_of (take n (blocks ++ [eof_sample]))) as [cs'|] eqn:Em; [|done].
    injection Hcs as <-. rewrite (bind_run (lift (Ok c)) _ _ _ _ eq_refl).
    destruct (IH n cs' Hb Em) as [f Ef]. rewrite (bind_run _ _ _ _ _ Ef). by eexists.
Qed.

(** The four channels of the twelve data bytes of a sample, as they are printed. *)
Definition printed (sample : list Z) : list Z :=
  let word i := le_val [nth (i + 2) sample 0; nth (i + 1) sample 0; nth i sample 0] in
  (fun x => if x <=? 0x800000 then x else u32 (x - 0x1000000)) <$> [word 12%nat; word 15%nat; word 18%nat; word 21%nat].

Definition sample_ok (s : list Z) : Prop := length s = Z.to_nat sizeof_sample_t ∧ bytes_ok s.

Lemma to_signed_printed x : 0 ≤ x < 2 ^ 24 → to_signed x = if x <=? 0x800000 then x else u32 (x - 0x1000000).
Proof.
  intros Hx. unfold to_signed. destruct (Z.ltb_spec 0x800000 x), (Z.leb_spec x 0x800000); try lia.
  unfold Z.lnot. rewrite (land_ones_mod _ 24) by done.
  replace (u32 (u32 (Z.pred (- x)) + 1) mod 2 ^ 24) with (2 ^ 24 - x) by (unfold u32; dlia).
  change (u32 (-1)) with 4294967295. unfold u32. dlia.
Qed.

Lemma word_of_bytes a b c : is_u8 a → is_u8 b → is_u8 c →
  to_signed (u32 (Z.shiftl a 16 + Z.shiftl b 8 + c)) =
    (fun x => if x <=? 0x800000 then x else u32 (x - 0x1000000)) (le_val [c; b; a]).
Proof.
  intros. cbv beta. rewrite !Z.shiftl_mul_pow2 by lia. rewrite u32_small by lia.
  assert (a * 2 ^ 16 + b * 2 ^ 8 + c = le_val [c; b; a]) as -> by (simpl; lia).
  apply to_signed_printed. simpl. lia.
Qed.

Lemma channels_of_printed s : sample_ok s → channels_of s = Ok (printed s).
Proof.
  intros [Hl Hb]. change (Z.to_nat sizeof_sample_t) with 24%nat in Hl.
  do 24 (destruct s as [|? s]; [discriminate|]). destruct s; [|discriminate].
  unfold bytes_ok in Hb. rewrite !Forall_cons in Hb. destruct_and!.
  unfold printed. cbn [fmap list_fmap nth Nat.add]. rewrite <- !word_of_bytes by done. reflexivity.
Qed.

(** The reader prints the channels of the first 250 samples of the entry, and when
    there are fewer one more sample of bytes 0xff, because the end of the file is only
    noticed after a read behind it. *)
Theorem reader_prints samples :
  Forall sample_ok samples →
  reader_main (Some (concat samples)) = Ok (printed <$> take BUFFER_SIZE (samples ++ [eof_sample])).
Proof.
  intros Hs. unfold reader_main.
  assert (Forall sample_ok (take BUFFER_SIZE (samples ++ [eof_sample]))) as Hall.
  { apply Forall_take, Forall_app. split; [done|]. apply Forall_singleton. split; [done|]. by apply Forall_replicate. }
  assert (mapM channels_of (take BUFFER_SIZE (samples ++ [eof_sample])) =
          Ok (printed <$> take BUFFER_SIZE (samples ++ [eof_sample]))) as Em.
  { induction Hall as [|s l H _ IH]; [done|]. cbn [mapM]. by rewrite (channels_of_printed s H), result_bind_Ok, IH. }
  destruct (read_loop_run BUFFER_SIZE samples _ ltac:(eapply Forall_impl; [exact Hs|by intros s []]) Em) as [f ->].
  done.
Qed.

Lemma reader_prints_witness :
  reader_main (Some (sample_bytes (mk_sample 0 1 (0x01FEFFFF, 0, 0)))) =
    Ok [[4294967294; 65536; 0; 0]; [4294967295; 4294967295; 4294967295; 4294967295]].
Proof.
  rewrite <- (app_nil_r (sample_bytes _)).
  apply (reader_prints [sample_bytes (mk_sample 0 1 (0x01FEFFFF, 0, 0))]).
  repeat constructor; vm_compute; done.
Defined.

(** The server reads the packets of the fake sender as numbered from 0 on. *)
Lemma fake_loop_numbers n stack seq number :
  0 ≤ seq → seq + Z.of_nat n < 2 ^ 32 →
  (fun p => (p_timestamp (ntohpkt p), p_seq (ntohpkt p), p_id p)) <$> fake_loop n stack seq number =
    (fun k => (k, k, u8 (atoi number))) <$> seqZ seq (Z.of_nat n).
Proof.
  revert seq. induction n as [|n IH]; intros seq Hs Hn; [done|].
  rewrite Nat2Z.inj_succ, seqZ_cons by lia. cbn [fake_loop fmap list_fmap]. f_equal.
  - unfold create_fake_packet, ntohpkt. cbn [p_timestamp p_seq p_id].
    rewrite u64_small, !bswap_bswap by (simpl; lia). done.
  - rewrite u32_small by lia. rewrite IH by lia. do 2 f_equal; lia.
Qed.
