(* ===== verification/Klist.v ===== *)
(** * Kernel memory and the doubly linked lists of the framework

    Models the memory the interceptor framework allocates with [kmalloc] and
    [fred_framework/klist.c], the generic doubly linked list with iterators that
    every other part of the framework is built on. *)

From S2P Require Import Prelude.

(** ** Memory

    A pointer is NULL or an address; an address holds one object. *)
Definition loc : Type := nat.
Definition ptr : Type := option loc.

Inductive obj : Type :=
| ONode (data front back : ptr)
| OList (first last : ptr)
| OIter (list cur : ptr)
| OSpecs (filter_by protocol dst_addr src_addr dst_port src_port : Z)
| OFilter (priority filter_at : Z) (r specs : ptr) (apply : Z)
| ORule (id : Z) (interceptor : ptr) (number_of_filters : Z) (filters : ptr)
| OArray (elems : list ptr)
| ODesc (name : list Z) (create_rule_cb : Z)
| OBytes (bytes : list Z)
| OAgg (ip : Z) (start : ptr) (len head : Z) (depth : Z)
| OQNode (data next before : ptr)
| OQueue (first last : ptr).

Record mem : Type := mk_mem {
  objs : gmap loc obj;
  next : loc;              (* addresses from here on are free *)
  fails : list bool        (* whether the next allocations fail; then none do *)
}.

Definition kmalloc (o : obj) : stm mem ptr := fun m =>
  match fails m with
  | true :: fs => Ok (None, mk_mem (objs m) (next m) fs)
  | _ => Ok (Some (next m), mk_mem (<[next m := o]> (objs m)) (S (next m)) (tl (fails m)))
  end.

Definition load (p : ptr) : stm mem obj := fun m =>
  match p with
  | None => Crash NullDeref
  | Some l => match objs m !! l with Some o => Ok (o, m) | None => Crash BadAccess end
  end.

Definition store (p : ptr) (o : obj) : stm mem unit := fun m =>
  match p with
  | None => Crash NullDeref
  | Some l => match objs m !! l with
              | Some _ => Ok (tt, mk_mem (<[l := o]> (objs m)) (next m) (fails m))
              | None => Crash BadAccess
              end
  end.

Definition kfree (p : ptr) : stm mem unit := fun m =>
  match p with
  | None => Ok (tt, m)
  | Some l => match objs m !! l with
              | Some _ => Ok (tt, mk_mem (delete l (objs m)) (next m) (fails m))
              | None => Crash BadAccess
              end
  end.

Definition is_null (p : ptr) : bool := match p with None => true | Some _ => false end.
Definition ptr_eqb (p q : ptr) : bool := bool_decide (p = q).

(** Typed accesses. *)
Definition get_node (p : ptr) : stm mem (ptr * ptr * ptr) :=
  o ← load p; match o with ONode d f b => mret (d, f, b) | _ => throw BadAccess end.
Definition get_list (p : ptr) : stm mem (ptr * ptr) :=
  o ← load p; match o with OList f l => mret (f, l) | _ => throw BadAccess end.
Definition get_iter (p : ptr) : stm mem (ptr * ptr) :=
  o ← load p; match o with OIter l c => mret (l, c) | _ => throw BadAccess end.

Definition set_front (p v : ptr) : stm mem unit :=
  '(d, _, b) ← get_node p; store p (ONode d v b).
Definition set_back (p v : ptr) : stm mem unit :=
  '(d, f, _) ← get_node p; store p (ONode d f v).
Definition set_first (p v : ptr) : stm mem unit :=
  '(_, l) ← get_list p; store p (OList v l).
Definition set_last (p v : ptr) : stm mem unit :=
  '(f, _) ← get_list p; store p (OList f v).
Definition set_cur (p v : ptr) : stm mem unit :=
  '(l, _) ← get_iter p; store p (OIter l v).

(** ** klist.c *)

(** The test is the wrong way round: nothing is freed. *)
Definition free_klist_node (kn : ptr) : stm mem unit :=
  if is_null kn then kfree kn else mret tt.

Definition make_klist_node (data : ptr) : stm mem ptr := kmalloc (ONode data None None).
Definition make_klist : stm mem ptr := kmalloc (OList None None).

Definition add_klist_node_to_klist (kl kn : ptr) : stm mem unit :=
  '(first, last) ← get_list kl;
  if is_null first then store kl (OList kn kn)
  else
    set_back kn last;;
    set_front last kn;;
    set_last kl kn.

Definition remove_klist_node_from_klist (kl kn : ptr) : stm mem unit :=
  if is_null kn || is_null kl then mret tt
  else
    '(first, last) ← get_list kl;
    if ptr_eqb first kn && ptr_eqb kn last then
      store kl (OList None None);;
      free_klist_node kn
    else if ptr_eqb first kn then
      '(_, front, _) ← get_node kn;
      set_first kl front;;
      '(first, _) ← get_list kl;
      set_back first None;;
      free_klist_node kn
    else if ptr_eqb last kn then
      '(_, _, back) ← get_node kn;
      set_last kl back;;
      '(_, last) ← get_list kl;
      set_front last None;;
      free_klist_node kn
    else
      '(_, front, back) ← get_node kn;
      set_front back front;;
      '(_, front, back) ← get_node kn;
      set_back front back;;
      free_klist_node kn.

(** [cb] is the callback on the data, when there is one. *)
Fixpoint free_klist_loop (fuel : nat) (kl : ptr) (cb : option (ptr → stm mem unit)) (it : ptr)
    : stm mem unit :=
  match fuel with
  | O => throw Diverges
  | S n =>
      if is_null it then mret tt
      else
        '(data, front, _) ← get_node it;
        set_first kl front;;
        match cb with Some f => f data | None => mret tt end;;
        kfree it;;
        '(it, _) ← get_list kl;
        free_klist_loop n kl cb it
  end.

(** The nodes of a list are distinct objects, so their number bounds the loop. *)
Definition free_klist (kl : ptr) (cb : option (ptr → stm mem unit)) : stm mem unit :=
  if is_null kl then mret tt
  else
    '(it, _) ← get_list kl;
    m ← get;
    free_klist_loop (S (size (objs m))) kl cb it;;
    kfree kl.

Definition make_klist_iterator (kl : ptr) : stm mem ptr :=
  if is_null kl then mret None
  else
    '(first, _) ← get_list kl;
    kmalloc (OIter kl first).

Definition klist_iterator_has_next (ki : ptr) : stm mem bool :=
  if is_null ki then mret false
  else '(_, cur) ← get_iter ki; mret (negb (is_null cur)).

Definition klist_iterator_next (ki : ptr) : stm mem ptr :=
  if is_null ki then mret None
  else
    '(_, cur) ← get_iter ki;
    if is_null cur then mret None
    else
      '(_, front, _) ← get_node cur;
      set_cur ki front;;
      mret cur.

Definition free_klist_iterator (ki : ptr) : stm mem unit := kfree ki.

Definition klist_iterator_peek (ki : ptr) : stm mem ptr :=
  '(_, cur) ← get_iter ki; mret cur.

Definition klist_iterator_remove_current (ki : ptr) : stm mem ptr :=
  '(list, cur) ← get_iter ki;
  if is_null cur then mret None
  else
    '(dt, front, _) ← get_node cur;
    set_cur ki front;;
    remove_klist_node_from_klist list cur;;
    mret dt.

Definition klist_iterator_insert_before (ki data : ptr) : stm mem unit :=
  new ← make_klist_node data;
  '(list, cur) ← get_iter ki;
  '(first, _) ← get_list list;
  (if ptr_eqb cur first then set_first list new else mret tt);;
  set_front new cur;;
  '(_, _, back) ← get_node cur;
  set_back new back;;
  (if is_null back then mret tt else set_front back new);;
  set_back cur new.

(** ** What a list in memory is

    [dll h kl l]: the list object [kl] holds the nodes and data [l], linked both
    ways. *)
Definition prev (ns : list loc) (i : nat) : ptr :=
  match i with O => None | S j => ns !! j end.

Definition dll (h : gmap loc obj) (kl : loc) (l : list (loc * ptr)) : Prop :=
  h !! kl = Some (OList (head l.*1) (last l.*1)) ∧
  NoDup l.*1 ∧
  ∀ i n d, l !! i = Some (n, d) → h !! n = Some (ONode d (l.*1 !! S i) (prev l.*1 i)).

(** The objects at addresses of [h] outside [F] are as they were. *)
Definition preserves (F : list loc) (h h' : gmap loc obj) : Prop :=
  ∀ x, x ∉ F → x ∈ dom h → h' !! x = h !! x.

Definition mem_ok (m : mem) : Prop := ∀ x, (next m ≤ x)%nat → objs m !! x = None.

(** ** Running list code *)

Definition upd (m : mem) (l : loc) (o : obj) : mem :=
  mk_mem (<[l := o]> (objs m)) (next m) (fails m).

Section Run.
Context (m : mem) (l : loc).

Lemma store_run o o' : objs m !! l = Some o → store (Some l) o' m = Ok (tt, upd m l o').
Proof. intros H. unfold store. by rewrite H. Qed.
Lemma load_run o : objs m !! l = Some o → load (Some l) m = Ok (o, m).
Proof. intros H. unfold load. by rewrite H. Qed.
Lemma get_node_run d f b :
  objs m !! l = Some (ONode d f b) → get_node (Some l) m = Ok (d, f, b, m).
Proof. intros H. unfold get_node. by rewrite (bind_run _ _ _ _ _ (load_run _ H)). Qed.
Lemma get_list_run f b : objs m !! l = Some (OList f b) → get_list (Some l) m = Ok (f, b, m).
Proof. intros H. unfold get_list. by rewrite (bind_run _ _ _ _ _ (load_run _ H)). Qed.
Lemma get_iter_run f b : objs m !! l = Some (OIter f b) → get_iter (Some l) m = Ok (f, b, m).
Proof. intros H. unfold get_iter. by rewrite (bind_run _ _ _ _ _ (load_run _ H)). Qed.
Lemma set_front_run d f b v :
  objs m !! l = Some (ONode d f b) → set_front (Some l) v m = Ok (tt, upd m l (ONode d v b)).
Proof.
  intros H. unfold set_front. rewrite (bind_run _ _ _ _ _ (get_node_run _ _ _ H)).
  by apply (store_run (ONode d f b)).
Qed.
Lemma set_back_run d f b v :
  objs m !! l = Some (ONode d f b) → set_back (Some l) v m = Ok (tt, upd m l (ONode d f v)).
Proof.
  intros H. unfold set_back. rewrite (bind_run _ _ _ _ _ (get_node_run _ _ _ H)).
  by apply (store_run (ONode d f b)).
Qed.
Lemma set_first_run f b v :
  objs m !! l = Some (OList f b) → set_first (Some l) v m = Ok (tt, upd m l (OList v b)).
Proof.
  intros H. unfold set_first. rewrite (bind_run _ _ _ _ _ (get_list_run _ _ H)).
  by apply (store_run (OList f b)).
Qed.
Lemma set_last_run f b v :
  objs m !! l = Some (OList f b) → set_last (Some l) v m = Ok (tt, upd m l (OList f v)).
Proof.
  intros H. unfold set_last. rewrite (bind_run _ _ _ _ _ (get_list_run _ _ H)).
  by apply (store_run (OList f b)).
Qed.
Lemma set_cur_run f b v :
  objs m !! l = Some (OIter f b) → set_cur (Some l) v m = Ok (tt, upd m l (OIter f v)).
Proof.
  intros H. unfold set_cur. rewrite (bind_run _ _ _ _ _ (get_iter_run _ _ H)).
  by apply (store_run (OIter f b)).
Qed.
End Run.

(** Look up an address of an updated heap, using the inequalities in the context. *)
Ltac heap_lookup :=
  cbn [objs upd]; repeat (rewrite lookup_insert_ne by congruence);
  first [rewrite lookup_insert_eq; reflexivity | eassumption].

(** Run the first statement of the goal. *)
Ltac krun1 :=
  first
  [ erewrite bind_run by (first
      [ eapply get_node_run; heap_lookup | eapply get_list_run; heap_lookup
      | eapply get_iter_run; heap_lookup | eapply set_front_run; heap_lookup
      | eapply set_back_run; heap_lookup | eapply set_first_run; heap_lookup
      | eapply set_last_run; heap_lookup | eapply set_cur_run; heap_lookup
      | eapply store_run; heap_lookup ])
  | rewrite (bind_run (mret _) _ _ _ _ eq_refl)
  | erewrite get_node_run by heap_lookup | erewrite get_list_run by heap_lookup
  | erewrite get_iter_run by heap_lookup | erewrite set_front_run by heap_lookup
  | erewrite set_back_run by heap_lookup | erewrite set_first_run by heap_lookup
  | erewrite set_last_run by heap_lookup | erewrite set_cur_run by heap_lookup
  | erewrite store_run by heap_lookup ].
Ltac krun := repeat (krun1; cbn [is_null ptr_eqb negb]).

(** ** Lists in memory *)

Section Dll.
Context (h : gmap loc obj) (kl : loc) (l : list (loc * ptr)).

Lemma fmap_lookup_fst i n d : l !! i = Some (n, d) → l.*1 !! i = Some n.
Proof. intros H. by rewrite list_lookup_fmap, H. Qed.

Lemma dll_inj i j n d d' :
  dll h kl l → l !! i = Some (n, d) → l !! j = Some (n, d') → i = j.
Proof.
  intros (_ & Hnd & _) Hi Hj. eapply NoDup_lookup; [exact Hnd| |];
    by rewrite list_lookup_fmap; simplify_option_eq.
Qed.

Lemma dll_list_ne i n d : dll h kl l → l !! i = Some (n, d) → n ≠ kl.
Proof. intros (Hkl & _ & Hn) Hi ->. apply Hn in Hi. congruence. Qed.

Lemma dll_frame h' :
  dll h kl l → (∀ x, x ∈ kl :: l.*1 → h' !! x = h !! x) → dll h' kl l.
Proof.
  intros (Hkl & Hnd & Hn) Hf. split; [rewrite Hf; [done|constructor]|]. split; [done|].
  intros i n d Hi. rewrite Hf; [by apply Hn|]. right.
  apply list_elem_of_lookup. exists i. by apply fmap_lookup_fst in Hi.
Qed.

Lemma dll_preserves F h' :
  dll h kl l → preserves F h h' → kl ∉ F → (∀ n, n ∈ l.*1 → n ∉ F) → dll h' kl l.
Proof.
  intros Hd Hp Hkl Hn. apply dll_frame; [done|]. intros x Hx. apply Hp.
  - apply elem_of_cons in Hx as [->|Hx]; [done|by apply Hn].
  - destruct Hd as (Hk & _ & Hnodes). apply elem_of_dom.
    apply elem_of_cons in Hx as [->|Hx]; [by eexists|].
    apply list_elem_of_fmap in Hx as ([n d] & -> & Hx).
    apply list_elem_of_lookup in Hx as [i Hi]. apply Hnodes in Hi. by eexists.
Qed.
End Dll.

Lemma preserves_refl F h : preserves F h h.
Proof. by intros x. Qed.
Lemma preserves_insert F h h' x o : preserves F h h' → x ∈ F → preserves F h (<[x := o]> h').
Proof.
  intros Hp Hx y Hy Hd. rewrite lookup_insert_ne; [by apply Hp|]. by intros ->.
Qed.
Lemma preserves_trans F h1 h2 h3 : preserves F h1 h2 → preserves F h2 h3 → preserves F h1 h3.
Proof.
  intros H12 H23 x Hx Hd. rewrite (H23 x Hx); [by apply H12|].
  apply elem_of_dom. rewrite (H12 x Hx Hd). by apply elem_of_dom.
Qed.
Lemma preserves_fresh F h x o : h !! x = None → preserves F h (<[x := o]> h).
Proof.
  intros Hx y _ Hd. rewrite lookup_insert_ne; [done|]. intros ->. apply elem_of_dom in Hd as [? Hd].
  congruence.
Qed.

(** The updates of the goal are all inside the footprint. *)
Ltac preserve :=
  cbn [objs upd]; repeat (apply preserves_insert; [|rewrite ?elem_of_cons; tauto]); apply preserves_refl.

(** *** Adding a node at the end *)

Lemma dll_snoc h h' kl l n d :
  dll h kl l → n ∉ l.*1 →
  h' !! kl = Some (OList (head (l ++ [(n, d)]).*1) (Some n)) →
  h' !! n = Some (ONode d None (last l.*1)) →
  (∀ i n0 d0, l !! i = Some (n0, d0) →
     h' !! n0 = Some (ONode d0 (if decide (S i = length l) then Some n else l.*1 !! S i)
                        (prev l.*1 i))) →
  dll h' kl (l ++ [(n, d)]).
Proof.
  intros (Hkl & Hnd & Hn) Hfresh Hkl' Hn' Hold. unfold dll. rewrite fmap_app in *.
  change ([(n, d)].*1) with [n] in *. split_and!.
  - by rewrite last_snoc.
  - apply NoDup_app. split; [done|]. split; [|by apply NoDup_singleton].
    intros x Hx [->|Hx']%elem_of_cons; [done|by apply elem_of_nil in Hx'].
  - intros i n0 d0 [Hi|[Hi Hi']]%lookup_app_Some.
    + pose proof (lookup_lt_Some _ _ _ Hi) as Hlt. rewrite (Hold _ _ _ Hi). f_equal. f_equal.
      * case_decide.
        -- rewrite lookup_app_r, length_fmap by (rewrite length_fmap; lia).
           by replace (S i - length l)%nat with 0%nat by lia.
        -- rewrite lookup_app_l by (rewrite length_fmap; lia). done.
      * destruct i as [|i]; [done|]. simpl. by rewrite lookup_app_l by (rewrite length_fmap; lia).
    + apply list_lookup_singleton_Some in Hi' as [Hi0 [= <- <-]].
      rewrite Hn'. assert (i = length l) as -> by lia. f_equal. f_equal.
      * symmetry. apply lookup_ge_None. rewrite length_app, length_fmap. simpl. lia.
      * destruct (length l) as [|k] eqn:E; [by destruct l|]. simpl.
        rewrite lookup_app_l by (rewrite length_fmap; lia).
        by rewrite last_lookup, length_fmap, E.
Qed.

Lemma mem_ok_lt m x o : mem_ok m → objs m !! x = Some o → (x < next m)%nat.
Proof. intros Hm Hx. destruct (Nat.lt_ge_cases x (next m)); [done|]. by rewrite Hm in Hx. Qed.

(** A check by evaluation, for concrete memories. *)
Lemma mem_ok_check m :
  bool_decide (map_Forall (fun x _ => (x < next m)%nat) (objs m)) = true → mem_ok m.
Proof.
  intros H%bool_decide_eq_true x Hx. destruct (objs m !! x) as [o|] eqn:E; [|done].
  apply H in E. lia.
Qed.

Lemma mem_ok_upd m x o : mem_ok m → (x < next m)%nat → mem_ok (upd m x o).
Proof.
  intros Hm Hx y Hy. cbn [objs upd next] in *. rewrite lookup_insert_ne by lia. by apply Hm.
Qed.

(** What an operation that allocates nothing leaves alone besides the heap. *)
Definition same_alloc (m m' : mem) : Prop :=
  next m' = next m ∧ fails m' = fails m ∧ (mem_ok m → mem_ok m').

Lemma same_alloc_refl m : same_alloc m m.
Proof. done. Qed.
Lemma same_alloc_upd m m' x o o' :
  same_alloc m m' → objs m !! x = Some o → same_alloc m (upd m' x o').
Proof.
  intros (H1 & H2 & H3) Hx. split; [done|]. split; [done|]. intros Hm.
  apply mem_ok_upd; [by apply H3|]. rewrite H1. by eapply mem_ok_lt.
Qed.
Ltac same_allocated := repeat (eapply same_alloc_upd; [|eassumption]); apply same_alloc_refl.


Lemma fst_elem {l : list (loc * ptr)} {i n d} : l !! i = Some (n, d) → n ∈ l.*1.
Proof. intros H. apply list_elem_of_lookup. exists i. by apply (fmap_lookup_fst l i n d). Qed.

Lemma last_entry (l : list (loc * ptr)) :
  l ≠ [] → ∃ n d, last l.*1 = Some n ∧ l !! pred (length l) = Some (n, d).
Proof.
  intros Hl. destruct (last l) as [[n d]|] eqn:E; [|by apply last_None in E].
  exists n, d. rewrite fmap_last, E. split; [done|]. by rewrite <- last_lookup.
Qed.

Lemma add_klist_node_dll m kl l n d :
  dll (objs m) kl l → objs m !! n = Some (ONode d None None) → n ∉ l.*1 →
  ∃ m', add_klist_node_to_klist (Some kl) (Some n) m = Ok (tt, m') ∧ same_alloc m m' ∧
    dll (objs m') kl (l ++ [(n, d)]) ∧ preserves (kl :: n :: l.*1) (objs m) (objs m').
Proof.
  intros Hd Hn Hfr. pose proof Hd as (Hkl & Hnd & Hnodes).
  assert (n ≠ kl) as Hne by congruence.
  destruct (decide (l = [])) as [->|Hl].
  - simpl in Hkl.
    eexists. split; [unfold add_klist_node_to_klist; krun; reflexivity|]. split; [same_allocated|].
    split; [|preserve].
    cbn [objs upd]. apply (dll_snoc (objs m) _ kl [] n d); [done..|by simplify_map_eq|by simplify_map_eq|done].
  - destruct (last_entry l Hl) as (nl & dl & Hlast & Hil).
    pose proof (Hnodes _ _ _ Hil) as Hnl. pose proof (dll_list_ne _ _ _ _ _ _ Hd Hil) as Hkn.
    assert (n ≠ nl) as Hnn by (intros ->; apply Hfr; by apply (fst_elem Hil)).
    assert (∃ n0, head l.*1 = Some n0) as [n0 Hhd] by (destruct l as [|[]]; [done|by eexists]).
    rewrite Hhd, Hlast in Hkl.
    eexists. split; [unfold add_klist_node_to_klist; krun; reflexivity|]. split; [same_allocated|].
    pose proof (fst_elem Hil). split; [|preserve].
    cbn [objs upd]. apply (dll_snoc (objs m) _ kl l n d); [done|done| | |].
    + rewrite lookup_insert_eq. do 2 f_equal. by destruct l as [|[]].
    + rewrite Hlast. by simplify_map_eq.
    + intros i n1 d1 Hi. pose proof (Hnodes _ _ _ Hi) as Hn1.
      assert (n1 ≠ kl) by by eapply dll_list_ne. assert (n1 ≠ n) by (intros ->; apply Hfr, (fst_elem Hi)).
      destruct (decide (S i = length l)) as [E|E].
      * assert (i = pred (length l)) as -> by lia. rewrite Hil in Hi. injection Hi as <- <-.
        by simplify_map_eq.
      * assert (n1 ≠ nl) by (intros ->; pose proof (dll_inj _ _ _ _ _ _ _ _ Hd Hi Hil);
          pose proof (lookup_lt_Some _ _ _ Hi); lia).
        by simplify_map_eq.
Qed.

(** *** Removing the node at a position *)

Lemma NoDup_delete {A} (l : list A) i : NoDup l → NoDup (delete i l).
Proof.
  rewrite !NoDup_alt. intros H j k x Hj Hk. rewrite list_lookup_delete in Hj, Hk.
  pose proof (H _ _ _ Hj Hk). repeat case_decide; lia.
Qed.

Lemma dll_delete h h' kl l i n d :
  dll h kl l → l !! i = Some (n, d) →
  h' !! kl = Some (OList (if decide (i = 0%nat) then l.*1 !! 1%nat else head l.*1)
                     (if decide (S i = length l) then prev l.*1 i else last l.*1)) →
  (∀ j n0 d0, l !! j = Some (n0, d0) → j ≠ i →
     h' !! n0 = Some (ONode d0 (if decide (S j = i) then l.*1 !! S i else l.*1 !! S j)
                        (if decide (j = S i) then prev l.*1 i else prev l.*1 j))) →
  dll h' kl (delete i l).
Proof.
  intros (Hkl & Hnd & Hn) Hi Hkl' Hold. pose proof (lookup_lt_Some _ _ _ Hi) as Hlt.
  unfold dll. rewrite list_fmap_delete. split_and!.
  - rewrite Hkl'. do 2 f_equal.
    + rewrite !head_lookup, list_lookup_delete. repeat case_decide; lia || (subst; done).
    + rewrite !last_lookup, list_lookup_delete, length_delete, length_fmap.
      2: { exists n. by apply (fmap_lookup_fst l i n d). }
      destruct (length l) as [|[|k]] eqn:E; [lia| |].
      * assert (i = 0%nat) as -> by lia. case_decide; [|lia]. simpl. symmetry.
        apply lookup_ge_None. rewrite length_fmap. lia.
      * simpl. destruct (decide (S i = S (S k))).
        -- assert (i = S k) as -> by lia. simpl. by rewrite decide_True by lia.
        -- by rewrite decide_False by lia.
  - by apply NoDup_delete.
  - intros j n0 d0 Hj. rewrite list_lookup_delete in Hj.
    rewrite (Hold _ _ _ Hj) by (case_decide; lia). clear Hj Hold Hkl'. do 2 f_equal.
    + rewrite list_lookup_delete.
      destruct (decide (j < i)%nat) as [Hji|Hji]; repeat case_decide; try lia; do 2 f_equal; lia.
    + destruct (decide (j < i)%nat) as [Hji|Hji]; case_decide; try lia.
      * destruct j as [|j]; [done|]. cbn [prev]. rewrite list_lookup_delete.
        by rewrite decide_True by lia.
      * destruct j as [|j]; [by destruct i; [|lia]|]. cbn [prev]. rewrite list_lookup_delete.
        assert (i = S j) as -> by lia. by rewrite decide_True by lia.
      * destruct j as [|j]; [lia|]. cbn [prev]. rewrite list_lookup_delete.
        by rewrite decide_False by lia.
Qed.

(** *** Inserting a node before a position *)

Definition insert_at {A} (i : nat) (x : A) (l : list A) : list A := take i l ++ x :: drop i l.

Lemma lookup_insert_at {A} i (x : A) l j :
  (i ≤ length l)%nat →
  insert_at i x l !! j = if decide (j < i)%nat then l !! j
                         else if decide (j = i) then Some x else l !! pred j.
Proof.
  intros Hi. unfold insert_at. repeat case_decide.
  - rewrite lookup_app_l by (rewrite length_take; lia). by rewrite lookup_take_lt.
  - subst. rewrite lookup_app_r by (rewrite length_take; lia).
    rewrite length_take. by replace (i - i `min` length l)%nat with 0%nat by lia.
  - rewrite lookup_app_r by (rewrite length_take; lia). rewrite length_take.
    replace (j - i `min` length l)%nat with (S (j - S i)) by lia. simpl.
    rewrite lookup_drop. f_equal. lia.
Qed.

Lemma length_insert_at {A} i (x : A) l : length (insert_at i x l) = S (length l).
Proof. unfold insert_at. rewrite length_app. simpl. rewrite length_take, length_drop. lia. Qed.

Lemma fmap_insert_at {A B} (f : A → B) i x l : f <$> insert_at i x l = insert_at i (f x) (f <$> l).
Proof. unfold insert_at. by rewrite fmap_app, fmap_take, fmap_cons, fmap_drop. Qed.

Lemma NoDup_insert_at {A} i (x : A) l :
  (i ≤ length l)%nat → NoDup l → x ∉ l → NoDup (insert_at i x l).
Proof.
  intros Hi Hnd Hx. unfold insert_at. rewrite <- Permutation_middle, take_drop.
  by constructor.
Qed.

Lemma dll_insert_at h h' kl l i n d n1 d1 :
  dll h kl l → l !! i = Some (n1, d1) → n ∉ l.*1 →
  h' !! kl = Some (OList (if decide (i = 0%nat) then Some n else head l.*1) (last l.*1)) →
  h' !! n = Some (ONode d (Some n1) (prev l.*1 i)) →
  (∀ j n0 d0, l !! j = Some (n0, d0) →
     h' !! n0 = Some (ONode d0 (if decide (S j = i) then Some n else l.*1 !! S j)
                        (if decide (j = i) then Some n else prev l.*1 j))) →
  dll h' kl (insert_at i (n, d) l).
Proof.
  intros (Hkl & Hnd & Hn) Hi Hfr Hkl' Hn' Hold. pose proof (lookup_lt_Some _ _ _ Hi) as Hlt.
  unfold dll. rewrite fmap_insert_at. cbn [fst].
  assert (i ≤ length l.*1)%nat as Hle by (rewrite length_fmap; lia). split_and!.
  - rewrite Hkl'. clear Hkl' Hold Hn'. do 2 f_equal.
    + rewrite !head_lookup, lookup_insert_at by done. by repeat case_decide; try lia.
    + rewrite !last_lookup, lookup_insert_at, length_insert_at, length_fmap by done. simpl.
      repeat case_decide; try lia. done.
  - by apply NoDup_insert_at.
  - intros j n0 d0. rewrite lookup_insert_at by lia. clear Hkl'.
    destruct (decide (j < i)%nat); [|destruct (decide (j = i))]; intros Hj.
    + rewrite (Hold _ _ _ Hj). clear Hold. do 2 f_equal.
      * rewrite lookup_insert_at by done. repeat case_decide; try lia; done.
      * case_decide; [lia|]. destruct j as [|j]; [done|]. cbn [prev].
        rewrite lookup_insert_at by done. case_decide; [done|lia].
    + injection Hj as <- <-. subst j. rewrite Hn'. clear Hold. do 2 f_equal.
      * rewrite lookup_insert_at by done. repeat case_decide; try lia. simpl.
        symmetry. by apply (fmap_lookup_fst l i n1 d1).
      * destruct i as [|i]; [done|]. cbn [prev]. rewrite lookup_insert_at by done.
        case_decide; [done|lia].
    + destruct j as [|j]; [lia|]. simpl in Hj. rewrite (Hold _ _ _ Hj). clear Hold. do 2 f_equal.
      * rewrite lookup_insert_at by done. repeat case_decide; try lia. done.
      * cbn [prev]. rewrite lookup_insert_at by done. repeat case_decide; try lia; try done.
        destruct j as [|j]; [lia|done].
Qed.

Lemma ptr_eqb_refl p : ptr_eqb p p = true.
Proof. by apply bool_decide_eq_true. Qed.
Lemma ptr_eqb_ne p q : p ≠ q → ptr_eqb p q = false.
Proof. intros. by apply bool_decide_eq_false. Qed.

Lemma neighbour (l : list (loc * ptr)) i : (i < length l)%nat → ∃ n d, l !! i = Some (n, d) ∧ l.*1 !! i = Some n.
Proof.
  intros Hi. destruct (lookup_lt_is_Some_2 l i Hi) as [[n d] H].
  exists n, d. split; [done|]. by apply (fmap_lookup_fst l i n d).
Qed.

(** Pointers to distinct positions differ. *)
Lemma dll_ne h kl l i j n d n' d' :
  dll h kl l → l !! i = Some (n, d) → l !! j = Some (n', d') → i ≠ j → n ≠ n'.
Proof. intros Hd Hi Hj Hij ->. apply Hij. by eapply dll_inj. Qed.

Section Remove.
Context (m : mem) (kl : loc) (l : list (loc * ptr)) (i : nat) (n : loc) (d : ptr).
Context (Hd : dll (objs m) kl l) (Hi : l !! i = Some (n, d)).

(** The pointers of the list object, for a position. *)
Lemma first_is : ptr_eqb (head l.*1) (Some n) = bool_decide (i = 0%nat).
Proof.
  rewrite head_lookup. pose proof (lookup_lt_Some _ _ _ Hi).
  destruct (neighbour l 0) as (n0 & d0 & H0 & ->); [lia|].
  case_bool_decide as E.
  - subst. rewrite H0 in Hi. injection Hi as -> ->. apply ptr_eqb_refl.
  - apply ptr_eqb_ne. intros [= ->]. apply E. by eapply dll_inj.
Qed.

Lemma last_is : ptr_eqb (last l.*1) (Some n) = bool_decide (S i = length l).
Proof.
  rewrite last_lookup, length_fmap. pose proof (lookup_lt_Some _ _ _ Hi).
  destruct (neighbour l (pred (length l))) as (n0 & d0 & H0 & ->); [lia|].
  case_bool_decide as E.
  - assert (i = pred (length l)) as Ei by lia. rewrite <- Ei, Hi in H0.
    injection H0 as <- <-. apply ptr_eqb_refl.
  - apply ptr_eqb_ne. intros [= ->]. pose proof (dll_inj _ _ _ _ _ _ _ _ Hd Hi H0). lia.
Qed.

Ltac nodes Hnodes :=
  let j := fresh "j" in let n0 := fresh "n" in let d0 := fresh "d" in
  let Hj := fresh "Hj" in let Hji := fresh "Hji" in
  intros j n0 d0 Hj Hji; pose proof (Hnodes _ _ _ Hj);
  assert (n0 ≠ kl) by (by eapply dll_list_ne); cbn [objs upd].

(** The outcome of removing the node: it is unlinked, but stays allocated. *)
Definition removed : Prop :=
  ∃ m', remove_klist_node_from_klist (Some kl) (Some n) m = Ok (tt, m') ∧ same_alloc m m' ∧
    dll (objs m') kl (delete i l) ∧ preserves (kl :: l.*1) (objs m) (objs m') ∧
    is_Some (objs m' !! n).

(** Run the tests of the function on the two list pointers. *)
Lemma remove_tests f b :
  objs m !! kl = Some (OList (head l.*1) (last l.*1)) →
  bool_decide (i = 0%nat) = f → bool_decide (S i = length l) = b →
  remove_klist_node_from_klist (Some kl) (Some n) m =
    (if f && b then store (Some kl) (OList None None);; free_klist_node (Some n)
     else if f then
       '(_, front, _) ← get_node (Some n); set_first (Some kl) front;;
       '(first, _) ← get_list (Some kl); set_back first None;; free_klist_node (Some n)
     else if b then
       '(_, _, back) ← get_node (Some n); set_last (Some kl) back;;
       '(_, last) ← get_list (Some kl); set_front last None;; free_klist_node (Some n)
     else
       '(_, front, back) ← get_node (Some n); set_front back front;;
       '(_, front, back) ← get_node (Some n); set_back front back;; free_klist_node (Some n)) m.
Proof.
  intros Hkl Hf Hb. unfold remove_klist_node_from_klist. cbn [is_null orb].
  rewrite (bind_run _ _ _ _ _ (get_list_run m kl _ _ Hkl)).
  assert (ptr_eqb (Some n) (last l.*1) = b) as ->.
  { rewrite <- Hb, <- last_is. unfold ptr_eqb. apply bool_decide_ext. by split. }
  by rewrite first_is, last_is, Hf, Hb.
Qed.

Lemma remove_only : i = 0%nat → S i = length l → removed.
Proof using Hd Hi.
  intros E0 E1. pose proof Hd as (Hkl & _ & Hnodes). pose proof (Hnodes _ _ _ Hi) as Hn.
  pose proof (dll_list_ne _ _ _ _ _ _ Hd Hi) as Hnk. unfold removed.
  rewrite (remove_tests true true) by (done || by apply bool_decide_eq_true). cbn [andb]. krun.
  eexists. split; [reflexivity|]. split; [same_allocated|]. split_and!.
  - apply (dll_delete (objs m) _ kl l i n d Hd Hi).
    + cbn [objs upd]. rewrite lookup_insert_eq, !decide_True, E0 by done. simpl. do 2 f_equal.
      symmetry. apply lookup_ge_None. rewrite length_fmap. lia.
    + intros j n0 d0 Hj Hji. pose proof (lookup_lt_Some _ _ _ Hj). lia.
  - preserve.
  - cbn [objs upd]. rewrite lookup_insert_ne by done. by eexists.
Qed.

Lemma remove_first : i = 0%nat → S i ≠ length l → removed.
Proof using Hd Hi.
  intros E0 E1. pose proof Hd as (Hkl & _ & Hnodes). pose proof (Hnodes _ _ _ Hi) as Hn.
  pose proof (lookup_lt_Some _ _ _ Hi). pose proof (dll_list_ne _ _ _ _ _ _ Hd Hi) as Hnk.
  unfold removed. rewrite (remove_tests true false) by
    (done || by apply bool_decide_eq_true || by apply bool_decide_eq_false). cbn [andb].
  destruct (neighbour l (S i)) as (n1 & d1 & H1 & H1'); [lia|].
  pose proof (Hnodes _ _ _ H1) as Hn1. rewrite H1' in Hn.
  pose proof (dll_list_ne _ _ _ _ _ _ Hd H1). pose proof (fst_elem H1).
  assert (n ≠ n1) by (eapply (dll_ne _ _ l i (S i)); [done..|lia]). krun.
  eexists. split; [reflexivity|]. split; [same_allocated|]. split_and!.
  - apply (dll_delete (objs m) _ kl l i n d Hd Hi).
    + cbn [objs upd]. rewrite lookup_insert_ne, lookup_insert_eq by done.
      rewrite decide_True, decide_False by done. by rewrite E0 in H1'; rewrite H1'.
    + nodes Hnodes. rewrite (decide_False (P := S j = i)) by lia.
      destruct (decide (j = S i)) as [->|].
      * rewrite H1 in Hj. injection Hj as <- <-. rewrite lookup_insert_eq. by rewrite E0.
      * assert (n0 ≠ n1) by (by eapply (dll_ne _ _ l j (S i))). by rewrite !lookup_insert_ne.
  - preserve.
  - cbn [objs upd]. rewrite !lookup_insert_ne by congruence. by eexists.
Qed.

Lemma remove_last : i ≠ 0%nat → S i = length l → removed.
Proof using Hd Hi.
  intros E0 E1. pose proof Hd as (Hkl & _ & Hnodes). pose proof (Hnodes _ _ _ Hi) as Hn.
  pose proof (lookup_lt_Some _ _ _ Hi). pose proof (dll_list_ne _ _ _ _ _ _ Hd Hi) as Hnk.
  unfold removed. rewrite (remove_tests false true) by
    (done || by apply bool_decide_eq_true || by apply bool_decide_eq_false). cbn [andb].
  destruct (neighbour l (pred i)) as (n1 & d1 & H1 & H1'); [lia|].
  assert (prev l.*1 i = Some n1) as Hp by (destruct i; [done|exact H1']).
  pose proof (Hnodes _ _ _ H1) as Hn1. rewrite Hp in Hn.
  pose proof (dll_list_ne _ _ _ _ _ _ Hd H1). pose proof (fst_elem H1).
  assert (n ≠ n1) by (eapply (dll_ne _ _ l i (pred i)); [done..|lia]). krun.
  eexists. split; [reflexivity|]. split; [same_allocated|]. split_and!.
  - apply (dll_delete (objs m) _ kl l i n d Hd Hi).
    + cbn [objs upd]. rewrite lookup_insert_ne, lookup_insert_eq by done.
      by rewrite decide_False, decide_True, Hp by done.
    + nodes Hnodes. pose proof (lookup_lt_Some _ _ _ Hj).
      rewrite (decide_False (P := j = S i)) by lia.
      destruct (decide (S j = i)) as [Ej|Ej].
      * assert (j = pred i) as -> by lia. rewrite H1 in Hj. injection Hj as <- <-.
        rewrite lookup_insert_eq. do 2 f_equal. symmetry. apply lookup_ge_None.
        rewrite length_fmap. lia.
      * assert (n0 ≠ n1) by (eapply (dll_ne _ _ l j (pred i)); [done..|lia]).
        by rewrite !lookup_insert_ne.
  - preserve.
  - cbn [objs upd]. rewrite !lookup_insert_ne by congruence. by eexists.
Qed.

Lemma remove_middle : i ≠ 0%nat → S i ≠ length l → removed.
Proof using Hd Hi.
  intros E0 E1. pose proof Hd as (Hkl & _ & Hnodes). pose proof (Hnodes _ _ _ Hi) as Hn.
  pose proof (lookup_lt_Some _ _ _ Hi). pose proof (dll_list_ne _ _ _ _ _ _ Hd Hi) as Hnk.
  unfold removed. rewrite (remove_tests false false) by
    (done || by apply bool_decide_eq_false). cbn [andb].
  destruct (neighbour l (pred i)) as (n1 & d1 & H1 & H1'); [lia|].
  destruct (neighbour l (S i)) as (n2 & d2 & H2 & H2'); [lia|].
  assert (prev l.*1 i = Some n1) as Hp by (destruct i; [done|exact H1']).
  pose proof (Hnodes _ _ _ H1) as Hn1. pose proof (Hnodes _ _ _ H2) as Hn2. rewrite Hp, H2' in Hn.
  pose proof (dll_list_ne _ _ _ _ _ _ Hd H1). pose proof (fst_elem H1).
  pose proof (dll_list_ne _ _ _ _ _ _ Hd H2). pose proof (fst_elem H2).
  assert (n ≠ n1) by (eapply (dll_ne _ _ l i (pred i)); [done..|lia]).
  assert (n ≠ n2) by (eapply (dll_ne _ _ l i (S i)); [done..|lia]).
  assert (n1 ≠ n2) by (eapply (dll_ne _ _ l (pred i) (S i)); [done..|lia]). krun.
  eexists. split; [reflexivity|]. split; [same_allocated|]. split_and!.
  - apply (dll_delete (objs m) _ kl l i n d Hd Hi).
    + cbn [objs upd]. rewrite !lookup_insert_ne by done. by rewrite !decide_False by done.
    + nodes Hnodes. destruct (decide (S j = i)) as [Ej|Ej].
      * assert (j = pred i) as -> by lia. rewrite H1 in Hj. injection Hj as <- <-.
        rewrite lookup_insert_ne, lookup_insert_eq, H2' by done.
        by rewrite decide_False by lia.
      * assert (n0 ≠ n1) by (eapply (dll_ne _ _ l j (pred i)); [done..|lia]).
        destruct (decide (j = S i)) as [->|Ej2].
        -- rewrite H2 in Hj. injection Hj as <- <-. by rewrite lookup_insert_eq, Hp.
        -- assert (n0 ≠ n2) by (by eapply (dll_ne _ _ l j (S i))). by rewrite !lookup_insert_ne.
  - preserve.
  - cbn [objs upd]. rewrite !lookup_insert_ne by congruence. by eexists.
Qed.

Lemma remove_klist_node_dll : removed.
Proof using Hd Hi.
  destruct (decide (i = 0%nat)), (decide (S i = length l));
    [apply remove_only|apply remove_first|apply remove_last|apply remove_middle]; done.
Qed.
End Remove.

(** *** Iterators: [it] stands before position [i] of [l] *)

Definition at_pos (h : gmap loc obj) (it kl : loc) (l : list (loc * ptr)) (i : nat) : Prop :=
  h !! it = Some (OIter (Some kl) (l.*1 !! i)) ∧ it ≠ kl ∧ it ∉ l.*1.

Lemma at_pos_ne h it kl l i j n d : at_pos h it kl l i → l !! j = Some (n, d) → n ≠ it.
Proof. intros (_ & _ & H) Hj ->. by apply H, (fst_elem Hj). Qed.

Lemma kmalloc_run m o :
  fails m = [] → kmalloc o m = Ok (Some (next m), mk_mem (<[next m := o]> (objs m)) (S (next m)) []).
Proof. intros H. unfold kmalloc. by rewrite H. Qed.

Lemma fresh_not_in m kl l : mem_ok m → dll (objs m) kl l → next m ≠ kl ∧ next m ∉ l.*1.
Proof.
  intros Hm (Hkl & _ & Hn). split.
  - intros E. rewrite Hm in Hkl; [done|lia].
  - intros Hin. apply list_elem_of_fmap in Hin as ([n d] & E & Hin). simpl in E.
    apply list_elem_of_lookup in Hin as [i Hi]. apply Hn in Hi. rewrite Hm in Hi; [done|lia].
Qed.

Lemma mem_ok_alloc m o : mem_ok m → mem_ok (mk_mem (<[next m := o]> (objs m)) (S (next m)) []).
Proof. intros Hm x Hx. simpl in *. rewrite lookup_insert_ne by lia. apply Hm. lia. Qed.

Lemma make_klist_iterator_run m kl l :
  mem_ok m → fails m = [] → dll (objs m) kl l →
  ∃ m', make_klist_iterator (Some kl) m = Ok (Some (next m), m') ∧ mem_ok m' ∧ fails m' = [] ∧
    dll (objs m') kl l ∧ at_pos (objs m') (next m) kl l 0 ∧
    objs m' = <[next m := OIter (Some kl) (head l.*1)]> (objs m).
Proof.
  intros Hm Hf Hd. pose proof Hd as (Hkl & _). destruct (fresh_not_in m kl l Hm Hd) as [H1 H2].
  unfold make_klist_iterator. cbn [is_null]. krun1. cbn [is_null]. rewrite kmalloc_run by done.
  eexists. split; [reflexivity|]. split; [by apply mem_ok_alloc|]. split; [done|].
  cbn [objs]. split; [|split; [split; [by rewrite lookup_insert_eq, head_lookup|done]|done]].
  eapply dll_frame; [done|]. intros x Hx. rewrite lookup_insert_ne; [done|].
  intros E. rewrite <- E in Hx. apply elem_of_cons in Hx as [?|?]; congruence.
Qed.

Lemma has_next_run m it kl l i :
  at_pos (objs m) it kl l i →
  klist_iterator_has_next (Some it) m = Ok (bool_decide (i < length l)%nat, m).
Proof.
  intros (Hit & _). unfold klist_iterator_has_next. cbn [is_null]. krun.
  unfold mret, stm_ret. do 2 f_equal. case_bool_decide as E.
  - by destruct (neighbour l i E) as (? & ? & _ & ->).
  - rewrite (proj2 (lookup_ge_None l.*1 i)); [done|]. rewrite length_fmap. lia.
Qed.

Lemma peek_run m it kl l i n d :
  at_pos (objs m) it kl l i → l !! i = Some (n, d) → klist_iterator_peek (Some it) m = Ok (Some n, m).
Proof.
  intros (Hit & _) Hi. rewrite (fmap_lookup_fst l i n d Hi) in Hit.
  unfold klist_iterator_peek. by krun.
Qed.

Lemma next_run m it kl l i n d :
  dll (objs m) kl l → at_pos (objs m) it kl l i → l !! i = Some (n, d) →
  klist_iterator_next (Some it) m =
    Ok (Some n, upd m it (OIter (Some kl) (l.*1 !! S i))).
Proof.
  intros Hd Hp Hi. pose proof (at_pos_ne _ _ _ _ _ _ _ _ Hp Hi) as Hne.
  destruct Hp as (Hit & _). rewrite (fmap_lookup_fst l i n d Hi) in Hit.
  destruct Hd as (_ & _ & Hn). apply Hn in Hi. unfold klist_iterator_next. cbn [is_null]. by krun.
Qed.

Lemma dll_upd_other m kl l it o :
  dll (objs m) kl l → it ≠ kl → it ∉ l.*1 → dll (objs (upd m it o)) kl l.
Proof.
  intros Hd H1 H2. eapply dll_frame; [exact Hd|]. intros x Hx. cbn [objs upd].
  rewrite lookup_insert_ne; [done|]. intros E. rewrite <- E in Hx. apply elem_of_cons in Hx as [?|?]; congruence.
Qed.

Lemma at_pos_upd m it kl l i j :
  at_pos (objs m) it kl l i → at_pos (objs (upd m it (OIter (Some kl) (l.*1 !! j)))) it kl l j.
Proof. intros (_ & H1 & H2). split; [|done]. cbn [objs upd]. by rewrite lookup_insert_eq. Qed.

Lemma remove_current_run m it kl l i n d :
  dll (objs m) kl l → at_pos (objs m) it kl l i → l !! i = Some (n, d) →
  ∃ m', klist_iterator_remove_current (Some it) m = Ok (d, m') ∧ same_alloc m m' ∧
    dll (objs m') kl (delete i l) ∧ at_pos (objs m') it kl (delete i l) i ∧
    preserves (it :: kl :: l.*1) (objs m) (objs m') ∧ is_Some (objs m' !! n).
Proof.
  intros Hd Hp Hi. pose proof (at_pos_ne _ _ _ _ _ _ _ _ Hp Hi) as Hne.
  pose proof Hp as (Hit & Hk & Hl). rewrite (fmap_lookup_fst l i n d Hi) in Hit.
  pose proof Hd as (_ & _ & Hn). pose proof (Hn _ _ _ Hi) as Hni.
  unfold klist_iterator_remove_current. krun.
  set (m1 := upd m it (OIter (Some kl) (l.*1 !! S i))).
  destruct (remove_klist_node_dll m1 kl l i n d) as (m2 & E & Ha & Hd2 & Hpr & Hs);
    [by apply dll_upd_other|done|].
  rewrite (bind_run _ _ _ _ _ E). exists m2. split; [done|]. split.
  { destruct Ha as (Hn2 & Hf2 & Hm2). split; [done|]. split; [done|]. intros Hm. apply Hm2.
    apply mem_ok_upd; [done|]. by eapply mem_ok_lt. }
  split; [done|]. split; [split; [|split; [done|]]|split; [|done]].
  - rewrite (Hpr it); [|by rewrite elem_of_cons; intros [?|?]|].
    + unfold m1. cbn [objs upd]. rewrite lookup_insert_eq, list_fmap_delete, list_lookup_delete.
      by rewrite decide_False by lia.
    + apply elem_of_dom. unfold m1. cbn [objs upd]. by rewrite lookup_insert_eq.
  - intros Hin. apply Hl. rewrite list_fmap_delete in Hin. by apply list_elem_of_delete_inv in Hin.
  - intros x Hx Hdx. apply not_elem_of_cons in Hx as [Hx1 Hx2].
    rewrite (Hpr x Hx2); unfold m1; cbn [objs upd].
    + by rewrite lookup_insert_ne.
    + apply elem_of_dom. rewrite lookup_insert_ne by done. by apply elem_of_dom.
Qed.

Lemma preserves_insert_fresh F h h' x o :
  preserves F h h' → h !! x = None → preserves F h (<[x := o]> h').
Proof.
  intros Hp Hx y Hy Hd. rewrite lookup_insert_ne; [by apply Hp|].
  intros ->. apply elem_of_dom in Hd as [? Hd]. congruence.
Qed.

Section InsertBefore.
Context (m : mem) (it kl : loc) (l : list (loc * ptr)) (i : nat) (n1 : loc) (d1 d : ptr).
Context (Hm : mem_ok m) (Hf : fails m = []) (Hd : dll (objs m) kl l).
Context (Hp : at_pos (objs m) it kl l i) (Hi : l !! i = Some (n1, d1)).

Let n : loc := next m.
Let m1 : mem := mk_mem (<[n := ONode d None None]> (objs m)) (S n) [].

(** The nodes of the list are old, so none is the new one. *)
Lemma old_ne j n0 d0 : l !! j = Some (n0, d0) → n0 ≠ n ∧ n0 ≠ kl ∧ n0 ≠ it ∧ (n0 < n)%nat.
Proof using Hm Hd Hp.
  intros Hj. pose proof Hd as (_ & _ & Hnodes). pose proof (mem_ok_lt _ _ _ Hm (Hnodes _ _ _ Hj)).
  split_and!; [unfold n; lia|by eapply dll_list_ne|by eapply at_pos_ne|done].
Qed.

Definition inserted : Prop :=
  ∃ m', klist_iterator_insert_before (Some it) d m = Ok (tt, m') ∧ mem_ok m' ∧ fails m' = [] ∧
    dll (objs m') kl (insert_at i (n, d) l) ∧ preserves (kl :: l.*1) (objs m) (objs m').

(** The run up to the test of the list's first node. *)
Lemma insert_before_start b :
  bool_decide (i = 0%nat) = b →
  klist_iterator_insert_before (Some it) d m =
    ((if b then set_first (Some kl) (Some n) else mret tt);;
     set_front (Some n) (Some n1);;
     '(_, _, back) ← get_node (Some n1);
     set_back (Some n) back;;
     (if is_null back then mret tt else set_front back (Some n));;
     set_back (Some n1) (Some n)) m1.
Proof using Hm Hf Hd Hp Hi.
  intros Hb. pose proof Hd as (Hkl & _). pose proof Hp as (Hit & Hik & _).
  rewrite (fmap_lookup_fst l i n1 d1 Hi) in Hit.
  pose proof (mem_ok_lt _ _ _ Hm Hkl). pose proof (mem_ok_lt _ _ _ Hm Hit).
  unfold klist_iterator_insert_before, make_klist_node.
  rewrite (bind_run _ _ _ _ _ (kmalloc_run m _ Hf)).
  assert (objs m1 !! it = Some (OIter (Some kl) (Some n1))) as Hit1.
  { unfold m1. cbn [objs]. rewrite lookup_insert_ne by (unfold n; lia). done. }
  assert (objs m1 !! kl = Some (OList (head l.*1) (last l.*1))) as Hkl1.
  { unfold m1. cbn [objs]. rewrite lookup_insert_ne by (unfold n; lia). done. }
  rewrite (bind_run _ _ _ _ _ (get_iter_run m1 it _ _ Hit1)).
  rewrite (bind_run _ _ _ _ _ (get_list_run m1 kl _ _ Hkl1)).
  assert (ptr_eqb (Some n1) (head l.*1) = b) as ->; [|done].
  rewrite <- Hb, <- (first_is m kl l i n1 d1 Hd Hi). unfold ptr_eqb. apply bool_decide_ext. by split.
Qed.

Lemma m1_ok : mem_ok m1.
Proof using Hm. unfold m1. apply (mem_ok_alloc m). done. Qed.

Ltac finish_ok := repeat (apply mem_ok_upd; [|unfold m1, n in *; cbn [next upd] in *; lia]); apply m1_ok.
Ltac finish_preserve :=
  cbn [objs upd]; repeat first
    [apply preserves_insert; [|rewrite ?elem_of_cons; tauto]
    |apply preserves_insert_fresh; [|by apply Hm]]; apply preserves_refl.

Lemma insert_before_first : i = 0%nat → inserted.
Proof using Hm Hf Hd Hp Hi.
  intros E0. pose proof Hd as (Hkl & _ & Hnodes). pose proof (Hnodes _ _ _ Hi) as Hn1.
  rewrite E0 in Hn1. cbn [prev] in Hn1. destruct (old_ne _ _ _ Hi) as (? & ? & ? & ?).
  pose proof (mem_ok_lt _ _ _ Hm Hkl). pose proof (fst_elem Hi).
  assert (n ≠ kl) by (unfold n; lia). assert (n ∉ l.*1) by apply (fresh_not_in m kl l Hm Hd).
  unfold inserted. rewrite (insert_before_start true) by (by apply bool_decide_eq_true).
  assert (objs m1 !! kl = Some (OList (head l.*1) (last l.*1))) by (unfold m1; heap_lookup).
  assert (objs m1 !! n = Some (ONode d None None)) by (unfold m1; heap_lookup).
  assert (objs m1 !! n1 = Some (ONode d1 (l.*1 !! 1%nat) None)) by (unfold m1; heap_lookup).
  krun. eexists. split; [reflexivity|]. split; [finish_ok|]. split; [done|].
  split; [|unfold m1; finish_preserve].
  apply (dll_insert_at (objs m) _ kl l i n d n1 d1 Hd Hi); [done| | |].
  - rewrite decide_True by done. heap_lookup.
  - rewrite E0. heap_lookup.
  - intros j n0 d0 Hj. destruct (old_ne _ _ _ Hj) as (? & ? & ? & ?).
    rewrite (decide_False (P := S j = i)) by lia. cbn [objs upd].
    destruct (decide (j = i)) as [->|].
    + rewrite Hi in Hj. injection Hj as <- <-. rewrite lookup_insert_eq. by rewrite E0.
    + assert (n0 ≠ n1) by (by eapply (dll_ne _ _ l j i)). unfold m1. cbn [objs].
      rewrite !lookup_insert_ne by done. by apply Hnodes.
Qed.

Lemma insert_before_later : i ≠ 0%nat → inserted.
Proof using Hm Hf Hd Hp Hi.
  intros E0. pose proof Hd as (Hkl & _ & Hnodes). pose proof (Hnodes _ _ _ Hi) as Hn1.
  pose proof (lookup_lt_Some _ _ _ Hi). destruct (neighbour l (pred i)) as (np & dp & Hj & Hj'); [lia|].
  assert (prev l.*1 i = Some np) as Hpv by (destruct i; [done|exact Hj']). rewrite Hpv in Hn1.
  pose proof (Hnodes _ _ _ Hj) as Hnp. pose proof (mem_ok_lt _ _ _ Hm Hkl).
  destruct (old_ne _ _ _ Hi) as (? & ? & ? & ?), (old_ne _ _ _ Hj) as (? & ? & ? & ?).
  assert (np ≠ n1) by (eapply (dll_ne _ _ l (pred i) i); [done..|lia]).
  pose proof (fst_elem Hi). pose proof (fst_elem Hj).
  assert (n ≠ kl) by (unfold n; lia). assert (n ∉ l.*1) by apply (fresh_not_in m kl l Hm Hd).
  unfold inserted. rewrite (insert_before_start false) by (by apply bool_decide_eq_false).
  rewrite (bind_run _ _ m1 tt m1) by done.
  assert (objs m1 !! n = Some (ONode d None None)) by (unfold m1; heap_lookup).
  assert (objs m1 !! n1 = Some (ONode d1 (l.*1 !! S i) (Some np))) by (unfold m1; heap_lookup).
  assert (objs m1 !! np = Some (ONode dp (l.*1 !! S (pred i)) (prev l.*1 (pred i))))
    by (unfold m1; heap_lookup).
  krun. eexists. split; [reflexivity|]. split; [finish_ok|]. split; [done|].
  split; [|unfold m1; finish_preserve].
  apply (dll_insert_at (objs m) _ kl l i n d n1 d1 Hd Hi); [done| | |].
  - rewrite decide_False by done. unfold m1. heap_lookup.
  - rewrite Hpv. heap_lookup.
  - intros j n0 d0 Hl. destruct (old_ne _ _ _ Hl) as (? & ? & ? & ?). cbn [objs upd].
    destruct (decide (j = i)) as [->|Hji].
    + rewrite Hi in Hl. injection Hl as <- <-.
      rewrite (decide_False (P := S i = i)), lookup_insert_eq by lia. done.
    + assert (n0 ≠ n1) by (by eapply (dll_ne _ _ l j i)). rewrite lookup_insert_ne by done.
      destruct (decide (S j = i)) as [Ej|Ej].
      * assert (j = pred i) as -> by lia. rewrite Hj in Hl. injection Hl as <- <-.
        by rewrite lookup_insert_eq.
      * assert (n0 ≠ np) by (eapply (dll_ne _ _ l j (pred i)); [done..|lia]).
        unfold m1. cbn [objs]. rewrite !lookup_insert_ne by done. by apply Hnodes.
Qed.

Lemma insert_before_run : inserted.
Proof using Hm Hf Hd Hp Hi.
  destruct (decide (i = 0%nat)); [by apply insert_before_first|by apply insert_before_later].
Qed.
End InsertBefore.

(** *** Freeing a list *)

(** The nodes linked forward only, which is what the loop of [free_klist] keeps. *)
Definition forward (h : gmap loc obj) (l : list (loc * ptr)) : Prop :=
  NoDup l.*1 ∧ ∀ i n d, l !! i = Some (n, d) → ∃ b, h !! n = Some (ONode d (l.*1 !! S i) b).

Lemma forward_tail h h' n d l :
  forward h ((n, d) :: l) → (∀ x, x ∈ l.*1 → h' !! x = h !! x) → forward h' l.
Proof.
  intros [Hnd Hl] Hf. inversion Hnd; subst. split; [done|].
  intros i n0 d0 Hi. destruct (Hl (S i) n0 d0 Hi) as [b Hb]. exists b.
  rewrite Hf; [exact Hb|]. by apply (fst_elem Hi).
Qed.

Lemma free_klist_loop_run l fuel m kl last0 :
  (length l < fuel)%nat → forward (objs m) l → kl ∉ l.*1 →
  objs m !! kl = Some (OList (head l.*1) last0) →
  ∃ m', free_klist_loop fuel (Some kl) None (head l.*1) m = Ok (tt, m') ∧
    objs m' !! kl = Some (OList None last0) ∧
    (∀ x, x ∈ l.*1 → objs m' !! x = None) ∧
    (∀ x, x ∉ kl :: l.*1 → objs m' !! x = objs m !! x).
Proof.
  revert fuel m. induction l as [|[n d] l IH]; intros [|fuel] m Hlt Hfw Hkl Hk; try (simpl in Hlt; lia).
  { exists m. split; [done|]. split; [done|]. split; [|done].
    intros x Hx. by apply elem_of_nil in Hx. }
  pose proof Hfw as [Hnd Hl]. destruct (Hl 0%nat n d eq_refl) as [b Hn]. simpl in Hn.
  apply not_elem_of_cons in Hkl as [Hne Hkl].
  inversion Hnd as [|? ? Hnin Hnd']; subst. cbn [free_klist_loop fmap list_fmap fst head is_null].
  krun1. cbn [is_null]. krun1. cbn [is_null].
  rewrite (bind_run (mret _) _ _ _ _ eq_refl).
  set (m2 := mk_mem (delete n (<[kl := OList (l.*1 !! 0%nat) last0]> (objs m))) (next m) (fails m)).
  rewrite (bind_run (kfree (Some n)) _ _ tt m2)
    by (unfold kfree, upd; cbn [objs next fails]; by rewrite lookup_insert_ne, Hn by done).
  assert (objs m2 !! kl = Some (OList (head l.*1) last0)) as Hk2.
  { unfold m2. cbn [objs]. by rewrite lookup_delete_ne, lookup_insert_eq, head_lookup by done. }
  rewrite (bind_run _ _ _ _ _ (get_list_run m2 kl _ _ Hk2)).
  destruct (IH fuel m2) as (m' & E & Hk' & Hfree & Hsame); [simpl in Hlt; lia| |done|done|].
  { apply (forward_tail (objs m) _ n d); [done|]. intros x Hx. unfold m2. cbn [objs].
    rewrite lookup_delete_ne by (by intros ->). by rewrite lookup_insert_ne by (by intros ->). }
  exists m'. split; [exact E|]. split; [done|]. split.
  - intros x [->|Hx]%elem_of_cons; [|by apply Hfree].
    rewrite Hsame; [|by rewrite elem_of_cons; intros [?|?]]. unfold m2. cbn [objs].
    apply lookup_delete_eq.
  - intros x Hx. rewrite !not_elem_of_cons in Hx. destruct Hx as (? & ? & ?).
    rewrite Hsame by (by rewrite not_elem_of_cons). unfold m2. cbn [objs].
    by rewrite lookup_delete_ne, lookup_insert_ne by congruence.
Qed.

Lemma dll_length_le h kl l : dll h kl l → (length l < size h)%nat.
Proof.
  intros Hd. pose proof Hd as (Hkl & Hnd & Hn).
  assert (NoDup (kl :: l.*1)) as Hnd'.
  { constructor; [|done]. intros Hin. apply list_elem_of_fmap in Hin as ([n d] & E & Hin).
    apply list_elem_of_lookup in Hin as [i Hi]. by apply (dll_list_ne h kl l i n d Hd Hi). }
  assert (list_to_set (kl :: l.*1) ⊆ dom h) as Hsub.
  { intros x Hx. apply elem_of_list_to_set, elem_of_cons in Hx. apply elem_of_dom.
    destruct Hx as [->|Hx]; [by eexists|]. apply list_elem_of_fmap in Hx as ([n d] & -> & Hx).
    apply list_elem_of_lookup in Hx as [i Hi]. eexists. by apply (Hn i n d). }
  apply subseteq_size in Hsub. rewrite size_list_to_set, size_dom in Hsub by done.
  simpl in Hsub. rewrite length_fmap in Hsub. lia.
Qed.

(** Freeing a list returns the list object and every node to the allocator and
    touches nothing else; the loop ends because the list is not circular. *)
Theorem free_klist_frees_all m kl l :
  dll (objs m) kl l →
  ∃ m', free_klist (Some kl) None m = Ok (tt, m') ∧
    (∀ x, x ∈ kl :: l.*1 → objs m' !! x = None) ∧
    (∀ x, x ∉ kl :: l.*1 → objs m' !! x = objs m !! x).
Proof.
  intros Hd. pose proof Hd as (Hkl & Hnd & Hn). unfold free_klist. cbn [is_null].
  rewrite (bind_run _ _ _ _ _ (get_list_run m kl _ _ Hkl)).
  rewrite (bind_run get _ _ _ _ eq_refl). pose proof (dll_length_le _ _ _ Hd).
  assert (kl ∉ l.*1) as Hni.
  { intros Hin. apply list_elem_of_fmap in Hin as ([n d] & E & Hin).
    apply list_elem_of_lookup in Hin as [i Hi]. by apply (dll_list_ne _ kl l i n d Hd Hi). }
  destruct (free_klist_loop_run l (S (size (objs m))) m kl (last l.*1))
    as (m1 & E & Hk & Hfree & Hsame); [lia| |done|done|].
  { split; [done|]. intros i n d Hi. eexists. by apply Hn. }
  rewrite (bind_run _ _ _ _ _ E). unfold kfree. rewrite Hk. eexists. split; [reflexivity|].
  cbn [objs]. split.
  - intros x [->|Hx]%elem_of_cons; [apply lookup_delete_eq|].
    rewrite lookup_delete_ne by (by intros ->). by apply Hfree.
  - intros x Hx. rewrite lookup_delete_ne; [by apply Hsame|].
    intros ->. apply Hx. constructor.
Qed.

Lemma add_new_node_dll m kl l x :
  mem_ok m → fails m = [] → dll (objs m) kl l →
  ∃ m', (new ← make_klist_node x; add_klist_node_to_klist (Some kl) new) m = Ok (tt, m') ∧
    mem_ok m' ∧ fails m' = [] ∧ dll (objs m') kl (l ++ [(next m, x)]) ∧
    preserves (kl :: l.*1) (objs m) (objs m').
Proof.
  intros Hm Hf Hd. destruct (fresh_not_in m kl l Hm Hd) as [H1 H2]. unfold make_klist_node.
  rewrite (bind_run _ _ _ _ _ (kmalloc_run m _ Hf)).
  set (m1 := mk_mem (<[next m := ONode x None None]> (objs m)) (S (next m)) []).
  assert (dll (objs m1) kl l) as Hd1.
  { eapply dll_frame; [exact Hd|]. intros y Hy. unfold m1. cbn [objs].
    rewrite lookup_insert_ne; [done|]. intros E. rewrite <- E in Hy.
    apply elem_of_cons in Hy as [?|?]; congruence. }
  destruct (add_klist_node_dll m1 kl l (next m) x) as (m2 & E & (Hn & Hf2 & Hm2) & Hd2 & Hp);
    [done|by unfold m1; cbn [objs]; rewrite lookup_insert_eq|done|].
  exists m2. split; [done|]. split; [|split; [by rewrite Hf2|split; [done|]]].
  - apply Hm2. by apply (mem_ok_alloc m).
  - intros y Hy Hdy. rewrite Hp.
    + unfold m1. cbn [objs]. rewrite lookup_insert_ne; [done|]. intros <-.
      apply elem_of_dom in Hdy as [o Ho]. by rewrite Hm in Ho.
    + rewrite !not_elem_of_cons in *. destruct Hy. split; [done|]. split; [|done].
      intros ->. apply elem_of_dom in Hdy as [o Ho]. by rewrite Hm in Ho.
    + apply elem_of_dom. unfold m1. cbn [objs]. apply elem_of_dom in Hdy.
      destruct (decide (y = next m)) as [->|]; [by rewrite lookup_insert_eq|by rewrite lookup_insert_ne].
Qed.

(** C12: the list operations implement a sequence: adding a node appends, inserting before
    an iterator inserts at its position, and removing the iterator's node
    deletes it, returns its data and leaves the iterator on the next one; but
    the removed node is never freed. *)
Theorem klist_refines_sequence m it kl l i n d x :
  mem_ok m → fails m = [] → dll (objs m) kl l → at_pos (objs m) it kl l i → l !! i = Some (n, d) →
  (∃ m', (new ← make_klist_node x; add_klist_node_to_klist (Some kl) new) m = Ok (tt, m') ∧
     dll (objs m') kl (l ++ [(next m, x)])) ∧
  (∃ m', klist_iterator_insert_before (Some it) x m = Ok (tt, m') ∧
     dll (objs m') kl (insert_at i (next m, x) l)) ∧
  (∃ m', klist_iterator_remove_current (Some it) m = Ok (d, m') ∧
     dll (objs m') kl (delete i l) ∧ at_pos (objs m') it kl (delete i l) i ∧
     is_Some (objs m' !! n)).
Proof.
  intros Hm Hf Hd Hp Hi. split_and!.
  - destruct (add_new_node_dll m kl l x Hm Hf Hd) as (m' & ? & _ & _ & ? & _). by exists m'.
  - destruct (insert_before_run m it kl l i n d x Hm Hf Hd Hp Hi) as (m' & ? & _ & _ & ? & _).
    by exists m'.
  - destruct (remove_current_run m it kl l i n d Hd Hp Hi) as (m' & ? & _ & ? & ? & _ & ?).
    by exists m'.
Qed.

(** A list of two nodes with an iterator on the second one. *)
Definition sample_mem : mem :=
  mk_mem {[ 0%nat := OList (Some 1%nat) (Some 2%nat); 1%nat := ONode (Some 10%nat) (Some 2%nat) None;
            2%nat := ONode (Some 20%nat) None (Some 1%nat); 3%nat := OIter (Some 0%nat) (Some 2%nat) ]} 4%nat [].
Definition sample_list : list (loc * ptr) := [(1%nat, Some 10%nat); (2%nat, Some 20%nat)].

Lemma sample_dll : dll (objs sample_mem) 0%nat sample_list.
Proof.
  split; [done|]. split; [by apply (bool_decide_unpack _)|].
  intros [|[|i]] n d Hi; [injection Hi as <- <-; done..|done].
Qed.

Lemma sample_mem_ok : mem_ok sample_mem.
Proof.
  intros x Hx. cbn [objs next sample_mem] in *.
  rewrite !lookup_insert_ne by lia. by rewrite lookup_singleton_ne by lia.
Qed.

Lemma klist_refines_sequence_witness :
  ∃ m', klist_iterator_remove_current (Some 3%nat) sample_mem = Ok (Some 20%nat, m') ∧
    dll (objs m') 0%nat [(1%nat, Some 10%nat)].
Proof.
  destruct (klist_refines_sequence sample_mem 3%nat 0%nat sample_list 1%nat 2%nat (Some 20%nat) None)
    as (_ & _ & m' & H & Hd & _);
    [exact sample_mem_ok|reflexivity|exact sample_dll| |reflexivity|].
  - split; [reflexivity|]. split; [lia|]. by apply (bool_decide_unpack _).
  - exists m'. split; [exact H|exact Hd].
Defined.

Lemma free_klist_frees_all_witness :
  ∃ m', free_klist (Some 0%nat) None sample_mem = Ok (tt, m') ∧ objs m' !! 1%nat = None.
Proof.
  destruct (free_klist_frees_all sample_mem 0%nat sample_list sample_dll) as (m' & H & Hx & _).
  exists m'. split; [exact H|]. apply Hx. right. left.
Defined.
