(* ===== verification/Chains.v ===== *)
(** * Filters, chains and netfilter hooks

    Models [fred_framework/filter.c] and [filter.h], [chains.c] (the five lists
    of filters, one per entry point of the network stack) and [hooks.c] (the
    matching of packets and the five netfilter hooks). *)

From S2P Require Import Prelude Klist.

Definition FILTER_BY_L4_PROTO : Z := 0x01.
Definition FILTER_BY_DST_PORT : Z := 0x02.
Definition FILTER_BY_SRC_PORT : Z := 0x04.
Definition FILTER_BY_DST_ADDR : Z := 0x08.
Definition FILTER_BY_SRC_ADDR : Z := 0x10.
Definition FILTER_PRIO_FIRST : Z := 0xFF.
Definition FILTER_PRIO_UNSPECIFIED : Z := 0x7F.
Definition FILTER_PRIO_LAST : Z := 0x00.
Definition FILTER_AT_LOCAL_IN : Z := 0x01.
Definition FILTER_AT_LOCAL_OUT : Z := 0x02.
Definition FILTER_AT_FWD : Z := 0x04.
Definition FILTER_AT_POST_RT : Z := 0x08.
Definition FILTER_AT_PRE_RT : Z := 0x10.

Definition MAX_FILTERS_PER_CHAIN : Z := 10.
Definition LOCAL_OUT_CHAIN : nat := 0.
Definition LOCAL_IN_CHAIN : nat := 1.
Definition FORWARD_CHAIN : nat := 2.
Definition PRE_ROUTING_CHAIN : nat := 3.
Definition POST_ROUTING_CHAIN : nat := 4.
Definition CHAINS_SIZE : nat := 5.

Definition AGREGATED_APPLICATION_ENCAP_UDP_PROTO : Z := 143.
Definition AGREGATED_IP_ENCAP_IP_PROTO : Z := 144.
Definition IPPROTO_UDP : Z := 17.

(** The framework module: its memory and its global variables. *)
Record fw : Type := mk_fw {
  fmem : mem;
  chains : list (ptr * Z);       (* filters, len *)
  int_list : ptr;
  manager_rule_list : ptr;
  next_rule_id : Z;              (* the static counter of [make_rule] *)
  proc_dirty : bool              (* [proc_contents.dirty] *)
}.

Definition set_fmem (m : mem) (s : fw) : fw :=
  mk_fw m (chains s) (int_list s) (manager_rule_list s) (next_rule_id s) (proc_dirty s).
Definition set_chains (c : list (ptr * Z)) (s : fw) : fw :=
  mk_fw (fmem s) c (int_list s) (manager_rule_list s) (next_rule_id s) (proc_dirty s).

Definition on_mem {A} (c : stm mem A) : stm fw A := fun s =>
  match c (fmem s) with Ok (a, m) => Ok (a, set_fmem m s) | Crash e => Crash e end.

(** An array access out of range is an error. *)
Definition get_chain (chain : nat) : stm fw (ptr * Z) := fun s =>
  match chains s !! chain with Some c => Ok (c, s) | None => Crash OutOfBounds end.
Definition set_chain (chain : nat) (c : ptr * Z) : stm fw unit := fun s =>
  match chains s !! chain with
  | Some _ => Ok (tt, set_chains (<[chain := c]> (chains s)) s)
  | None => Crash OutOfBounds
  end.

(** ** filter.c *)

Record filter_rec : Type := mk_filter {
  f_priority : Z; f_filter_at : Z; f_rule : ptr; f_specs : ptr; f_apply : Z
}.
Record specs_rec : Type := mk_specs {
  sp_filter_by : Z; sp_protocol : Z; sp_dst_addr : Z; sp_src_addr : Z;
  sp_dst_port : Z; sp_src_port : Z
}.

Definition get_filter (p : ptr) : stm mem filter_rec :=
  o ← load p;
  match o with
  | OFilter prio at_ r sp ap => mret (mk_filter prio at_ r sp ap)
  | _ => throw BadAccess
  end.
Definition get_specs (p : ptr) : stm mem specs_rec :=
  o ← load p;
  match o with
  | OSpecs fb pr da sa dp sp => mret (mk_specs fb pr da sa dp sp)
  | _ => throw BadAccess
  end.

Definition create_filter_specs (filter_by dst_addr src_addr dst_port src_port proto : Z)
    : stm mem ptr :=
  kmalloc (OSpecs filter_by (u8 proto) dst_addr src_addr dst_port src_port).
Definition free_filter_specs (sp : ptr) : stm mem unit := kfree sp.
Definition create_filter (prio : Z) (sp r : ptr) (filter_at nf_hook : Z) : stm mem ptr :=
  kmalloc (OFilter prio filter_at r sp nf_hook).
Definition free_filter (fg : ptr) : stm mem unit := kfree fg.

(** ** chains.c *)

Fixpoint init_chains_loop (n : nat) : stm fw (list (ptr * Z)) :=
  match n with
  | O => mret []
  | S n' => kl ← on_mem make_klist; rest ← init_chains_loop n'; mret ((kl, 0) :: rest)
  end.
Definition init_chains : stm fw unit :=
  c ← init_chains_loop CHAINS_SIZE; modify (set_chains c).

(** The list has fewer nodes than the memory has objects. *)
Definition loop_fuel : stm fw nat := gets (fun s => S (size (objs (fmem s)))).

Fixpoint unregister_loop (fuel : nat) (chain : nat) (f it : ptr) : stm fw unit :=
  match fuel with
  | O => throw Diverges
  | S n =>
      more ← on_mem (klist_iterator_has_next it);
      if (more : bool) then
        kn ← on_mem (klist_iterator_peek it);
        '(t, _, _) ← on_mem (get_node kn);
        if ptr_eqb t f then
          on_mem (klist_iterator_remove_current it);;
          '(fs, len) ← get_chain chain;
          set_chain chain (fs, u8 (len - 1))
        else
          on_mem (klist_iterator_next it);;
          unregister_loop n chain f it
      else mret tt
  end.

Definition __unregister_filter (chain : nat) (f : ptr) : stm fw unit :=
  '(filters, _) ← get_chain chain;
  it ← on_mem (make_klist_iterator filters);
  fuel ← loop_fuel;
  unregister_loop fuel chain f it;;
  on_mem (free_klist_iterator it).

(** The chain a filter belongs to. *)
Definition chain_of (filter_at : Z) : option nat :=
  if filter_at =? FILTER_AT_LOCAL_IN then Some LOCAL_IN_CHAIN
  else if filter_at =? FILTER_AT_LOCAL_OUT then Some LOCAL_OUT_CHAIN
  else if filter_at =? FILTER_AT_FWD then Some FORWARD_CHAIN
  else if filter_at =? FILTER_AT_POST_RT then Some POST_ROUTING_CHAIN
  else if filter_at =? FILTER_AT_PRE_RT then Some PRE_ROUTING_CHAIN
  else None.

Definition unregister_filter (f : ptr) : stm fw unit :=
  fr ← on_mem (get_filter f);
  match chain_of (f_filter_at fr) with
  | Some c => __unregister_filter c f
  | None => mret tt
  end.

(** [true] when the filter was inserted before another. *)
Fixpoint register_loop (fuel : nat) (chain : nat) (f : ptr) (prio : Z) (it : ptr) : stm fw bool :=
  match fuel with
  | O => throw Diverges
  | S n =>
      more ← on_mem (klist_iterator_has_next it);
      if (more : bool) then
        kn ← on_mem (klist_iterator_peek it);
        '(temp, _, _) ← on_mem (get_node kn);
        tr ← on_mem (get_filter temp);
        if f_priority tr <? prio then
          on_mem (klist_iterator_insert_before it f);;
          '(fs, len) ← get_chain chain;
          set_chain chain (fs, u8 (len + 1));;
          on_mem (free_klist_iterator it);;
          mret true
        else
          on_mem (klist_iterator_next it);;
          register_loop n chain f prio it
      else mret false
  end.

Definition __register_filter (chain : nat) (f : ptr) : stm fw Z :=
  '(filters, len) ← get_chain chain;
  if len =? MAX_FILTERS_PER_CHAIN then mret 0
  else
    it ← on_mem (make_klist_iterator filters);
    fr ← on_mem (get_filter f);
    fuel ← loop_fuel;
    inserted ← register_loop fuel chain f (f_priority fr) it;
    if (inserted : bool) then mret 1
    else
      on_mem (free_klist_iterator it);;
      '(filters, len) ← get_chain chain;
      set_chain chain (filters, u8 (len + 1));;
      on_mem (kn ← make_klist_node f; add_klist_node_to_klist filters kn);;
      mret 1.

Definition register_filter (f : ptr) : stm fw Z :=
  fr ← on_mem (get_filter f);
  match chain_of (f_filter_at fr) with
  | Some c => __register_filter c f
  | None => mret 0
  end.

(** ** hooks.c *)

(** A packet is the bytes from its IP header on; its multi-byte fields are read
    as the little-endian processor does, without conversion. *)
Definition rd16 (skb : list Z) (i : Z) : result Z := bs ← sub_bytes skb i 2; Ok (le_val bs).
Definition rd32 (skb : list Z) (i : Z) : result Z := bs ← sub_bytes skb i 4; Ok (le_val bs).
Definition ip_ihl (skb : list Z) (ip : Z) : result Z :=
  b ← nth_byte skb ip; Ok (Z.land b 0xf).
Definition ip_protocol (skb : list Z) (ip : Z) : result Z := nth_byte skb (ip + 9).
Definition ip_saddr (skb : list Z) (ip : Z) : result Z := rd32 skb (ip + 12).
Definition ip_daddr (skb : list Z) (ip : Z) : result Z := rd32 skb (ip + 16).
Definition udp_source (skb : list Z) (udp : Z) : result Z := rd16 skb udp.
Definition udp_dest (skb : list Z) (udp : Z) : result Z := rd16 skb (udp + 2).

Definition filters_by (sp : specs_rec) (bit : Z) : bool := truthy (Z.land (sp_filter_by sp) bit).

Definition match_src_addr (sp : specs_rec) (skb : list Z) : result bool :=
  if filters_by sp FILTER_BY_SRC_ADDR then
    a ← ip_saddr skb 0; Ok (sp_src_addr sp =? a)
  else Ok true.

Definition match_dst_addr (sp : specs_rec) (skb : list Z) : result bool :=
  if filters_by sp FILTER_BY_DST_ADDR then
    a ← ip_daddr skb 0; Ok (sp_dst_addr sp =? a)
  else Ok true.

Definition match_ports (sp : specs_rec) (skb : list Z) : result bool :=
  proto ← ip_protocol skb 0;
  ip ← (if proto =? AGREGATED_IP_ENCAP_IP_PROTO
        then ihl ← ip_ihl skb 0; Ok (Z.shiftl ihl 2) else Ok 0);
  proto ← ip_protocol skb ip;
  if (proto =? AGREGATED_APPLICATION_ENCAP_UDP_PROTO) || (proto =? IPPROTO_UDP) then
    ihl ← ip_ihl skb ip;
    let udp := ip + Z.shiftl ihl 2 in
    dok ← (if filters_by sp FILTER_BY_DST_PORT
           then d ← udp_dest skb udp; Ok (sp_dst_port sp =? d) else Ok true);
    if negb dok then Ok false
    else if filters_by sp FILTER_BY_SRC_PORT
         then s ← udp_source skb udp; Ok (sp_src_port sp =? s) else Ok true
  else Ok false.

Definition match_filter (sp : specs_rec) (skb : list Z) : result bool :=
  a ← match_src_addr sp skb;
  if negb a then Ok false
  else
    b ← match_dst_addr sp skb;
    if negb b then Ok false else match_ports sp skb.

Definition NF_DROP : Z := 0.
Definition NF_ACCEPT : Z := 1.
Definition NF_STOLEN : Z := 2.

Section Hooks.
(** The interceptors: a callback gets the specification of its filter, the
    hook and the packet, and gives a verdict; it may change the packet and
    the interceptors' own state [E]. *)
Context {E : Type} (apply : Z → specs_rec → Z → list Z → E → Z * list Z * E).

Fixpoint hook_loop (fuel : nat) (hooknum : Z) (it : ptr) (skb : list Z) (e : E)
    : stm mem (Z * list Z * E) :=
  match fuel with
  | O => throw Diverges
  | S n =>
      more ← klist_iterator_has_next it;
      if (more : bool) then
        kn ← klist_iterator_next it;
        '(f, _, _) ← get_node kn;
        fr ← get_filter f;
        sp ← get_specs (f_specs fr);
        matched ← lift (match_filter sp skb);
        if (matched : bool) then
          let '(retval, skb, e) := apply (f_apply fr) sp hooknum skb e in
          if retval =? NF_ACCEPT then hook_loop n hooknum it skb e
          else free_klist_iterator it;; mret (retval, skb, e)
        else hook_loop n hooknum it skb e
      else
        free_klist_iterator it;; mret (NF_ACCEPT, skb, e)
  end.

Definition run_chain (chain : nat) (hooknum : Z) (skb : list Z) (e : E) : stm fw (Z * list Z * E) :=
  '(filters, len) ← get_chain chain;
  if len =? 0 then mret (NF_ACCEPT, skb, e)
  else
    it ← on_mem (make_klist_iterator filters);
    fuel ← loop_fuel;
    on_mem (hook_loop fuel hooknum it skb e).

Definition nf_ip_local_out_hook := run_chain LOCAL_OUT_CHAIN.
Definition nf_ip_local_in_hook := run_chain LOCAL_IN_CHAIN.
Definition nf_ip_forward_hook := run_chain FORWARD_CHAIN.
Definition nf_ip_pre_routing_hook := run_chain PRE_ROUTING_CHAIN.
Definition nf_ip_post_routing_hook := run_chain POST_ROUTING_CHAIN.
End Hooks.

(** ** What a chain is

    The filters of a chain with their priorities, in the order of the list. *)
Definition holds (h : gmap loc obj) (fs : list (loc * Z)) (l : list (loc * ptr)) : Prop :=
  l.*2 = (fun x => Some x.1) <$> fs ∧
  Forall (fun x => ∃ at_ r sp ap, h !! x.1 = Some (OFilter x.2 at_ r sp ap)) fs.

Definition chain_rep (s : fw) (k : nat) (kl : loc) (l : list (loc * ptr)) (fs : list (loc * Z)) : Prop :=
  chains s !! k = Some (Some kl, Z.of_nat (length fs)) ∧
  dll (objs (fmem s)) kl l ∧ holds (objs (fmem s)) fs l.

(** Where a filter of priority [p] goes: before the first one of a lower
    priority. *)
Fixpoint pos (p : Z) (fs : list (loc * Z)) : nat :=
  match fs with
  | [] => 0
  | x :: fs' => if x.2 <? p then 0 else S (pos p fs')
  end.

Definition by_priority (fs : list (loc * Z)) : Prop := StronglySorted (fun a b => b.2 ≤ a.2) fs.

(** ** Lemmas *)

Lemma on_mem_run {A} (c : stm mem A) s a m :
  c (fmem s) = Ok (a, m) → on_mem c s = Ok (a, set_fmem m s).
Proof. intros H. unfold on_mem. by rewrite H. Qed.

Lemma get_chain_run k c s : chains s !! k = Some c → get_chain k s = Ok (c, s).
Proof. intros H. unfold get_chain. by rewrite H. Qed.
Lemma set_chain_run k c c' s :
  chains s !! k = Some c → set_chain k c' s = Ok (tt, set_chains (<[k := c']> (chains s)) s).
Proof. intros H. unfold set_chain. by rewrite H. Qed.

Lemma get_filter_run m l prio at_ r sp ap :
  objs m !! l = Some (OFilter prio at_ r sp ap) →
  get_filter (Some l) m = Ok (mk_filter prio at_ r sp ap, m).
Proof. intros H. unfold get_filter. by rewrite (bind_run _ _ _ _ _ (load_run _ _ _ H)). Qed.

Lemma get_specs_run m l a b c d e f :
  objs m !! l = Some (OSpecs a b c d e f) →
  get_specs (Some l) m = Ok (mk_specs a b c d e f, m).
Proof. intros H. unfold get_specs. by rewrite (bind_run _ _ _ _ _ (load_run _ _ _ H)). Qed.

Lemma pos_le p fs : (pos p fs ≤ length fs)%nat.
Proof. induction fs as [|x fs IH]; simpl; [done|]. case_test; lia. Qed.

Lemma by_priority_insert fs x : by_priority fs → by_priority (insert_at (pos x.2 fs) x fs).
Proof.
  unfold by_priority, insert_at. induction 1 as [|y fs Hs IH Hy]; simpl; [repeat constructor|].
  destruct (Z.ltb_spec y.2 x.2) as [Hlt|Hge]; simpl.
  - repeat constructor; [done|done|lia|]. eapply Forall_impl; [exact Hy|]. simpl. intros z Hz. lia.
  - constructor; [exact IH|]. rewrite Forall_app, Forall_cons.
    rewrite <- (take_drop (pos x.2 fs) fs) in Hy. apply Forall_app in Hy as [? ?]. done.
Qed.

(** The filter at a position of the list. *)
Lemma holds_at h fs (l : list (loc * ptr)) i n (d : ptr) :
  holds h fs l → l !! i = Some (n, d) →
  ∃ f p at_ r sp ap, fs !! i = Some (f, p) ∧ d = Some f ∧ h !! f = Some (OFilter p at_ r sp ap).
Proof.
  intros [Hl Hf] Hi. assert (l.*2 !! i = Some d) as E by (by rewrite list_lookup_fmap, Hi).
  rewrite Hl, list_lookup_fmap in E.
  destruct (fs !! i) as [[f p]|] eqn:Ef; [|done]. simpl in E. injection E as <-.
  rewrite Forall_lookup in Hf. destruct (Hf _ _ Ef) as (a & r & sp & ap & H).
  by exists f, p, a, r, sp, ap.
Qed.

Lemma holds_length h fs l : holds h fs l → length fs = length l.
Proof. intros [Hl _]. apply (f_equal length) in Hl. by rewrite !length_fmap in Hl. Qed.

(** Filters are not nodes, so list operations keep them. *)
Lemma holds_kept h h' fs l F :
  holds h fs l → preserves F h h' →
  (∀ x p at_ r sp ap, h !! x = Some (OFilter p at_ r sp ap) → x ∉ F) → holds h' fs l.
Proof.
  intros [Hl Hf] Hp HF. split; [done|]. eapply Forall_impl; [exact Hf|].
  intros x (a & r & sp & ap & H). exists a, r, sp, ap. rewrite Hp; [done|by eapply HF|].
  by apply elem_of_dom.
Qed.

Lemma dll_no_filter h kl l x p at_ r sp ap :
  dll h kl l → h !! x = Some (OFilter p at_ r sp ap) → x ∉ kl :: l.*1.
Proof.
  intros (Hkl & _ & Hn) Hx [->|Hin]%elem_of_cons; [congruence|].
  apply list_elem_of_fmap in Hin as ([n d] & -> & Hin). apply list_elem_of_lookup in Hin as [i Hi].
  apply Hn in Hi. simpl in Hx. congruence.
Qed.

Lemma holds_upd_iter m fs l it kl i o :
  holds (objs m) fs l → at_pos (objs m) it kl l i → holds (objs (upd m it o)) fs l.
Proof.
  intros [Hl Hf] (Hit & _). split; [done|]. eapply Forall_impl; [exact Hf|].
  intros x (a & r & sp & ap & H). exists a, r, sp, ap. cbn [objs upd].
  rewrite lookup_insert_ne; [done|congruence].
Qed.

Lemma pos_step p fs i x :
  fs !! i = Some x → pos p (drop i fs) = if x.2 <? p then 0%nat else S (pos p (drop (S i) fs)).
Proof. intros H. by rewrite (drop_S fs x i H). Qed.

(** What the loops keep: the globals other than the memory and the chains. *)
Definition others (s s' : fw) : Prop :=
  int_list s' = int_list s ∧ manager_rule_list s' = manager_rule_list s ∧
  next_rule_id s' = next_rule_id s ∧ proc_dirty s' = proc_dirty s.

Lemma others_mem s s' m : others s s' → others s (set_fmem m s').
Proof. done. Qed.
Lemma others_chains s s' c : others s s' → others s (set_chains c s').
Proof. done. Qed.

(** Walking: one step of the iterator keeps everything but the iterator. *)
Lemma step_iter s it kl l i n d fs :
  mem_ok (fmem s) → dll (objs (fmem s)) kl l → at_pos (objs (fmem s)) it kl l i →
  holds (objs (fmem s)) fs l → l !! i = Some (n, d) →
  ∃ m', on_mem (klist_iterator_next (Some it)) s = Ok (Some n, set_fmem m' s) ∧
    mem_ok m' ∧ fails m' = fails (fmem s) ∧ dll (objs m') kl l ∧ at_pos (objs m') it kl l (S i) ∧
    holds (objs m') fs l ∧ preserves [it] (objs (fmem s)) (objs m').
Proof.
  intros Hm Hd Hp Hh Hi. pose proof (next_run _ _ _ _ _ _ _ Hd Hp Hi) as E.
  pose proof Hp as (Hit & H1 & H2).
  eexists. split; [by apply on_mem_run, E|].
  split; [apply mem_ok_upd; [done|by eapply mem_ok_lt]|]. split; [done|].
  split; [by apply dll_upd_other|]. split; [by eapply at_pos_upd|].
  split; [by eapply holds_upd_iter|]. cbn [objs upd]. apply preserves_insert; [apply preserves_refl|left].
Qed.

Lemma preserves_weaken F F' h h' : preserves F h h' → F ⊆ F' → preserves F' h h'.
Proof. intros H HF x Hx. apply H. intros Hin. by apply Hx, HF. Qed.

Lemma kfree_run m x o :
  objs m !! x = Some o → kfree (Some x) m = Ok (tt, mk_mem (delete x (objs m)) (next m) (fails m)).
Proof. intros H. unfold kfree. by rewrite H. Qed.

Lemma mem_ok_delete m x : mem_ok m → mem_ok (mk_mem (delete x (objs m)) (next m) (fails m)).
Proof. intros Hm y Hy. cbn [objs next] in *. apply lookup_delete_None. right. by apply Hm. Qed.

Lemma dll_delete_other h kl l it : dll h kl l → it ≠ kl → it ∉ l.*1 → dll (delete it h) kl l.
Proof.
  intros Hd H1 H2. eapply dll_frame; [exact Hd|]. intros x Hx. rewrite lookup_delete_ne; [done|].
  intros ->. apply elem_of_cons in Hx as [?|?]; congruence.
Qed.

Lemma elem_of_insert_at {A} i (x y : A) l : x ∈ insert_at i y l ↔ x = y ∨ x ∈ l.
Proof. unfold insert_at. by rewrite <- Permutation_middle, take_drop, elem_of_cons. Qed.

Section Register.
Context (k : nat) (f : loc) (p : Z) (it kl : loc) (l : list (loc * ptr)) (fs : list (loc * Z)).
Context (len : Z).

Record walking (s : fw) (i : nat) : Prop := {
  w_mem : mem_ok (fmem s);
  w_fails : fails (fmem s) = [];
  w_dll : dll (objs (fmem s)) kl l;
  w_pos : at_pos (objs (fmem s)) it kl l i;
  w_holds : holds (objs (fmem s)) fs l;
  w_chain : chains s !! k = Some (Some kl, len)
}.

(** The end of the walk: an insertion before position [j], with the iterator
    freed, or the end of the list. *)
Definition walked (s : fw) (j : nat) (s' : fw) : Prop :=
  mem_ok (fmem s') ∧ fails (fmem s') = [] ∧ others s s' ∧
  preserves (it :: kl :: l.*1) (objs (fmem s)) (objs (fmem s')) ∧
  if bool_decide (j < length l)%nat
  then chains s' = <[k := (Some kl, u8 (len + 1))]> (chains s) ∧
       ∃ n, dll (objs (fmem s')) kl (insert_at j (n, Some f) l)
  else chains s' = chains s ∧ dll (objs (fmem s')) kl l ∧ is_Some (objs (fmem s') !! it).

Lemma walked_step s s1 i j s' :
  walked s1 j s' → others s s1 → chains s1 = chains s →
  preserves [it] (objs (fmem s)) (objs (fmem s1)) → i = j → walked s i s'.
Proof.
  intros (H1 & H2 & H3 & H4 & H5) Ho Hc Hp ->. unfold walked. rewrite Hc in H5. split_and!; try done.
  - unfold others in *. intuition congruence.
  - eapply preserves_trans; [|exact H4]. eapply preserves_weaken; [exact Hp|].
    intros x Hx. apply list_elem_of_singleton in Hx as ->. left.
Qed.

Lemma register_insert s i n d :
  walking s i → l !! i = Some (n, d) →
  ∃ s', (on_mem (klist_iterator_insert_before (Some it) (Some f));;
         '(fs, len) ← get_chain k;
         set_chain k (fs, u8 (len + 1));;
         on_mem (free_klist_iterator (Some it));;
         mret true) s = Ok (true, s') ∧ walked s i s'.
Proof.
  intros [Hm Hf Hd Hp Hh Hc] Hi.
  destruct (insert_before_run (fmem s) it kl l i n d (Some f) Hm Hf Hd Hp Hi)
    as (m1 & E1 & Hm1 & Hf1 & Hd1 & Hp1).
  rewrite (bind_run _ _ _ _ _ (on_mem_run _ _ _ _ E1)).
  rewrite (bind_run _ _ _ _ _ (get_chain_run k _ (set_fmem m1 s) Hc)).
  rewrite (bind_run _ _ _ _ _ (set_chain_run k _ (Some kl, u8 (len + 1)) (set_fmem m1 s) Hc)).
  pose proof Hp as (Hit & Hik & Hil).
  assert (objs m1 !! it = Some (OIter (Some kl) (l.*1 !! i))) as Hit1.
  { rewrite Hp1; [done|by rewrite not_elem_of_cons|by apply elem_of_dom]. }
  erewrite (bind_run (on_mem _)) by (apply on_mem_run, (kfree_run m1 it _ Hit1)).
  eexists. split; [reflexivity|]. pose proof (lookup_lt_Some _ _ _ Hi).
  split; [by apply mem_ok_delete|]. split; [done|]. split; [done|]. split.
  - intros x Hx Hdx. rewrite !not_elem_of_cons in Hx. cbn [fmem set_chains set_fmem objs].
    destruct Hx as (? & ? & ?). rewrite lookup_delete_ne by done.
    apply Hp1; [by rewrite not_elem_of_cons|done].
  - rewrite bool_decide_eq_true_2 by done. split; [done|]. eexists. cbn [fmem set_chains set_fmem objs].
    apply dll_delete_other; [exact Hd1|done|]. rewrite fmap_insert_at, elem_of_insert_at.
    intros [E|?]; [|done]. cbn [fst] in E. pose proof (mem_ok_lt _ _ _ Hm Hit). lia.
Qed.

Lemma register_loop_walk s i fuel :
  walking s i → (length l - i < fuel)%nat → (i ≤ length l)%nat →
  ∃ s', register_loop fuel k (Some f) p (Some it) s =
          Ok (bool_decide (i + pos p (drop i fs) < length l)%nat, s') ∧
    walked s (i + pos p (drop i fs)) s'.
Proof.
  revert s i. induction fuel as [|fuel IH]; intros s i Hw Hfuel Hi; [lia|].
  pose proof Hw as [Hm Hf Hd Hp Hh Hc]. cbn [register_loop].
  rewrite (bind_run _ _ _ _ _ (on_mem_run _ _ _ _ (has_next_run _ _ _ _ _ Hp))).
  pose proof (holds_length _ _ _ Hh) as Hlen.
  case_bool_decide as Hlt.
  2: { assert (i = length l) as -> by lia. rewrite drop_ge by lia. cbn [pos].
       rewrite Nat.add_0_r, bool_decide_eq_false_2 by lia. eexists. split; [reflexivity|].
       pose proof Hp as (Hit & _). destruct s as [sm ? ? ? ? ?].
       do 3 (split; [done|]). split; [apply preserves_refl|].
       rewrite bool_decide_eq_false_2 by lia. split; [done|]. split; [done|]. by eexists. }
  destruct (neighbour l i Hlt) as (n & d & Hin & _).
  destruct (holds_at _ _ _ _ _ _ Hh Hin) as (g & q & at_ & r & sp & ap & Hfs & -> & Hg).
  pose proof Hd as (_ & _ & Hn). pose proof (Hn _ _ _ Hin) as Hnode.
  destruct s as [sm sc si sr sid sd]. cbn [fmem set_fmem chains] in *.
  change (set_fmem sm (mk_fw sm sc si sr sid sd)) with (mk_fw sm sc si sr sid sd).
  rewrite (bind_run _ _ _ _ _ (on_mem_run _ (mk_fw sm sc si sr sid sd) _ _ (peek_run sm _ _ _ _ _ _ Hp Hin))).
  rewrite (bind_run _ _ _ _ _ (on_mem_run _ (mk_fw sm sc si sr sid sd) _ _ (get_node_run sm n _ _ _ Hnode))).
  rewrite (bind_run _ _ _ _ _ (on_mem_run _ (mk_fw sm sc si sr sid sd) _ _ (get_filter_run sm g _ _ _ _ _ Hg))).
  change (set_fmem sm (mk_fw sm sc si sr sid sd)) with (mk_fw sm sc si sr sid sd).
  rewrite (pos_step p fs i (g, q) Hfs). cbn [f_priority snd]. destruct (q <? p) eqn:Eq.
  - rewrite Nat.add_0_r, (bool_decide_eq_true_2 (i < length l)%nat) by done.
    by apply (register_insert _ i n (Some g)).
  - destruct (step_iter (mk_fw sm sc si sr sid sd) it kl l i n (Some g) fs Hm Hd Hp Hh Hin)
      as (m1 & E1 & Hm1 & Hf1 & Hd1 & Hp1 & Hh1 & Hpr1).
    rewrite (bind_run _ _ _ _ _ E1).
    destruct (IH (set_fmem m1 (mk_fw sm sc si sr sid sd)) (S i)) as (s' & E & Hwk); [|lia|lia|].
    { split; try done. cbn. by rewrite Hf1. }
    rewrite E. replace (i + S (pos p (drop (S i) fs)))%nat with (S i + pos p (drop (S i) fs))%nat by lia.
    eexists. split; [reflexivity|]. by eapply walked_step.
Qed.
End Register.

Lemma insert_at_end {A} (x : A) l i : i = length l → insert_at i x l = l ++ [x].
Proof. intros ->. unfold insert_at. by rewrite take_ge, drop_ge by lia. Qed.

(** Dropping a fresh address from a footprint. *)
Lemma preserves_drop h h' h'' it F :
  h !! it = None → preserves F h h' → preserves (it :: F) h' h'' → preserves F h h''.
Proof.
  intros Hit H1 H2 x Hx Hd. assert (x ≠ it) by (intros ->; apply elem_of_dom in Hd as [? ?]; congruence).
  rewrite H2; [by apply H1|by rewrite not_elem_of_cons|].
  apply elem_of_dom. rewrite H1 by done. by apply elem_of_dom.
Qed.

Lemma holds_insert h fs l j n f p at_ r sp ap :
  holds h fs l → h !! f = Some (OFilter p at_ r sp ap) →
  holds h (insert_at j (f, p) fs) (insert_at j (n, Some f) l).
Proof.
  intros [Hl Hf] H. split; [by rewrite !fmap_insert_at, Hl|].
  rewrite Forall_forall. intros x [->|Hx]%elem_of_insert_at; [by exists at_, r, sp, ap|].
  rewrite Forall_forall in Hf. by apply Hf.
Qed.

Section RegisterFilter.
Context (s : fw) (k : nat) (kl : loc) (l : list (loc * ptr)) (fs : list (loc * Z)).
Context (f : loc) (p at_ : Z) (r sp : ptr) (ap : Z).
Context (Hm : mem_ok (fmem s)) (Hf : fails (fmem s) = []) (Hc : chain_rep s k kl l fs).
Context (Hfil : objs (fmem s) !! f = Some (OFilter p at_ r sp ap)).
Context (Hroom : (length fs < 10)%nat).

(** The outcome: the chain with the filter at its place. *)
Definition registered (s' : fw) : Prop :=
  mem_ok (fmem s') ∧ fails (fmem s') = [] ∧ others s s' ∧
  preserves (kl :: l.*1) (objs (fmem s)) (objs (fmem s')) ∧
  (∀ k', k' ≠ k → chains s' !! k' = chains s !! k') ∧
  ∃ l', chain_rep s' k kl l' (insert_at (pos p fs) (f, p) fs).

Lemma registered_rep s' n :
  mem_ok (fmem s') → fails (fmem s') = [] → others s s' →
  preserves (kl :: l.*1) (objs (fmem s)) (objs (fmem s')) →
  chains s' = <[k := (Some kl, u8 (Z.of_nat (length fs) + 1))]> (chains s) →
  dll (objs (fmem s')) kl (insert_at (pos p fs) (n, Some f) l) → registered s'.
Proof using Hc Hfil Hroom.
  destruct Hc as (Hk & Hd & Hh). intros H1 H2 H3 H4 H5 H6. do 4 (split; [done|]).
  split; [intros k' Hk'; rewrite H5; by apply list_lookup_insert_ne|].
  eexists. split; [|split; [exact H6|]].
  - rewrite H5, list_lookup_insert_eq by (by eapply lookup_lt_Some).
    rewrite length_insert_at, u8_small by lia. do 2 f_equal. lia.
  - apply (holds_insert _ _ _ _ _ f p at_ r sp ap).
    + eapply holds_kept; [exact Hh|exact H4|]. intros. by eapply dll_no_filter.
    + rewrite H4; [done|by eapply dll_no_filter|by apply elem_of_dom].
Qed.

Lemma register_filter_run :
  ∃ s', __register_filter k (Some f) s = Ok (1, s') ∧ registered s'.
Proof using Hm Hf Hc Hfil Hroom.
  pose proof Hc as (Hk & Hd & Hh). unfold __register_filter.
  rewrite (bind_run _ _ _ _ _ (get_chain_run k _ s Hk)).
  rewrite (proj2 (Z.eqb_neq (Z.of_nat (length fs)) MAX_FILTERS_PER_CHAIN)) by
    (unfold MAX_FILTERS_PER_CHAIN; lia).
  destruct (make_klist_iterator_run (fmem s) kl l Hm Hf Hd) as (m1 & E1 & Hm1 & Hf1 & Hd1 & Hp1 & Ho1).
  rewrite (bind_run _ _ _ _ _ (on_mem_run _ _ _ _ E1)). set (it := next (fmem s)) in *.
  assert (objs (fmem s) !! it = None) as Hfresh by (by apply Hm).
  assert (preserves (kl :: l.*1) (objs (fmem s)) (objs m1)) as Hpr1
    by (rewrite Ho1; by apply preserves_fresh).
  assert (objs m1 !! f = Some (OFilter p at_ r sp ap)) as Hfil1.
  { rewrite Hpr1; [done|exact (dll_no_filter _ _ _ _ _ _ _ _ _ Hd Hfil)|by apply elem_of_dom]. }
  rewrite (bind_run _ _ _ _ _ (on_mem_run _ (set_fmem m1 s) _ _ (get_filter_run m1 f _ _ _ _ _ Hfil1))).
  rewrite (bind_run _ _ _ _ _ (eq_refl : loop_fuel _ = Ok (S (size (objs m1)), set_fmem m1 s))).
  destruct (register_loop_walk k f p it kl l fs (Z.of_nat (length fs)) (set_fmem m1 s) 0
              (S (size (objs m1)))) as (s2 & E2 & Hm2 & Hf2 & Ho2 & Hp2 & Hw); [|..].
  { split; try done. eapply holds_kept; [exact Hh|exact Hpr1|]. intros. by eapply (dll_no_filter (objs (fmem s))). }
  { pose proof (dll_length_le _ _ _ Hd1). lia. } { lia. }
  change (drop 0 fs) with fs in *. rewrite Nat.add_0_l in *. cbn [f_priority]. rewrite (bind_run _ _ _ _ _ E2).
  pose proof (preserves_drop _ _ _ _ _ Hfresh Hpr1 Hp2) as Hpr.
  pose proof (pos_le p fs) as Hle. pose proof (holds_length _ _ _ Hh) as Hlen.
  case_bool_decide as Hj.
  - eexists. split; [reflexivity|]. destruct Hw as (Hch & n & Hdn). by eapply registered_rep.
  - destruct Hw as (Hch & Hdn & [oit Hit]).
    rewrite (bind_run _ _ _ _ _ (on_mem_run _ s2 _ _ (kfree_run (fmem s2) it oit Hit))).
    set (m3 := mk_mem _ _ _). change (chains (set_fmem m1 s)) with (chains s) in Hch.
    assert (chains (set_fmem m3 s2) !! k = Some (Some kl, Z.of_nat (length fs))) as Hk3
      by (cbn [chains set_fmem]; by rewrite Hch).
    rewrite (bind_run _ _ _ _ _ (get_chain_run k _ (set_fmem m3 s2) Hk3)).
    rewrite (bind_run _ _ _ _ _ (set_chain_run k _ (Some kl, u8 (Z.of_nat (length fs) + 1))
                                   (set_fmem m3 s2) Hk3)).
    destruct Hp1 as (_ & Hik & Hil).
    destruct (add_new_node_dll m3 kl l (Some f)) as (m4 & E4 & Hm4 & Hf4 & Hd4 & Hp4);
      [by apply mem_ok_delete|done|by apply dll_delete_other|].
    erewrite (bind_run (on_mem _)) by (apply on_mem_run, E4).
    eexists. split; [reflexivity|]. apply (registered_rep _ (next m3)); [done|done| | | |].
    + exact Ho2.
    + cbn [fmem set_fmem set_chains]. intros x Hx Hdx. rewrite Hp4; [|done|].
      * unfold m3. cbn [objs]. rewrite lookup_delete_ne; [by apply Hpr|].
        intros ->. apply elem_of_dom in Hdx as [? ?]. congruence.
      * apply elem_of_dom. unfold m3. cbn [objs]. rewrite lookup_delete_ne.
        -- rewrite Hpr by done. by apply elem_of_dom.
        -- intros ->. apply elem_of_dom in Hdx as [? ?]. congruence.
    + cbn [chains set_fmem set_chains]. by rewrite Hch.
    + cbn [fmem set_fmem set_chains]. rewrite (insert_at_end (next m3, Some f) l (pos p fs)); [exact Hd4|].
      apply Nat.le_antisymm; [exact (Nat.le_trans _ _ _ Hle (Nat.eq_le_incl _ _ Hlen))|by apply Nat.nlt_ge].
Qed.
End RegisterFilter.

(** Another chain is not touched. *)
Lemma chain_rep_other s s' kl l k' kl' l' fs' :
  preserves (kl :: l.*1) (objs (fmem s)) (objs (fmem s')) →
  chains s' !! k' = chains s !! k' → dll (objs (fmem s)) kl l →
  (∀ x, x ∈ kl' :: l'.*1 → x ∉ kl :: l.*1) →
  chain_rep s k' kl' l' fs' → chain_rep s' k' kl' l' fs'.
Proof.
  intros Hp Hc Hd Hdis (Hk & Hd' & Hh). split; [exact (eq_trans Hc Hk)|]. split.
  - eapply dll_preserves; [exact Hd'|exact Hp|apply Hdis; left|]. intros n Hn. apply Hdis. by right.
  - eapply holds_kept; [exact Hh|exact Hp|]. intros. by eapply (dll_no_filter (objs (fmem s))).
Qed.

(** C6: registering a filter puts it before the first filter of lower priority of the
    chain of its entry point, so the chain stays sorted by priority, with equal
    priorities in the order of registration; the other chains are not touched;
    and an eleventh filter is refused. *)
Theorem register_filter_keeps_order s k kl l fs f p at_ r sp ap :
  mem_ok (fmem s) → fails (fmem s) = [] → chain_rep s k kl l fs → by_priority fs →
  objs (fmem s) !! f = Some (OFilter p at_ r sp ap) → chain_of at_ = Some k →
  ((length fs < 10)%nat →
   ∃ s' l', register_filter (Some f) s = Ok (1, s') ∧
     chain_rep s' k kl l' (insert_at (pos p fs) (f, p) fs) ∧
     by_priority (insert_at (pos p fs) (f, p) fs) ∧
     ∀ k' kl' l0 fs', k' ≠ k → (∀ x, x ∈ kl' :: l0.*1 → x ∉ kl :: l.*1) →
       chain_rep s k' kl' l0 fs' → chain_rep s' k' kl' l0 fs') ∧
  (length fs = 10%nat → register_filter (Some f) s = Ok (0, s)).
Proof.
  intros Hm Hf Hc Hs Hfil Hat. pose proof Hc as (Hk & Hd & Hh). unfold register_filter.
  assert (set_fmem (fmem s) s = s) as Hid by (by destruct s).
  rewrite (bind_run _ _ _ _ _ (on_mem_run _ s _ _ (get_filter_run (fmem s) f _ _ _ _ _ Hfil))).
  cbn [f_filter_at]. rewrite Hat, Hid. split.
  - intros Hroom. destruct (register_filter_run s k kl l fs f p at_ r sp ap Hm Hf Hc Hfil Hroom)
      as (s' & E & _ & _ & _ & Hp & Hch & l' & Hrep).
    exists s', l'. split; [done|]. split; [done|]. split; [by apply (by_priority_insert fs (f, p))|].
    intros k' kl' l0 fs' Hne Hdis Hrep'. eapply chain_rep_other; [exact Hp|by apply Hch|exact Hd|done|done].
  - intros Hfull. unfold __register_filter. rewrite (bind_run _ _ _ _ _ (get_chain_run k _ s Hk)).
    by rewrite Hfull.
Qed.

(** The five chains after [init_chains], and a filter for the forward chain. *)
Definition booted (fils : list obj) : fw :=
  match init_chains (mk_fw (mk_mem (list_to_map (zip (seq 0 (length fils)) fils)) (length fils) [])
                       [] None None 0 true) with
  | Ok (_, s) => s
  | Crash _ => mk_fw (mk_mem ∅ 0%nat []) [] None None 0 true
  end.
Definition two_filters : fw :=
  booted [OFilter 10 FILTER_AT_FWD None None 0; OFilter 20 FILTER_AT_FWD None None 1].

Lemma two_filters_mem_ok : mem_ok (fmem two_filters).
Proof. apply mem_ok_check. vm_compute. reflexivity. Qed.

Lemma register_filter_keeps_order_witness :
  ∃ s' l', register_filter (Some 1%nat) two_filters = Ok (1, s') ∧
    chain_rep s' FORWARD_CHAIN 4%nat l' [(1%nat, 20)].
Proof.
  destruct (register_filter_keeps_order two_filters FORWARD_CHAIN 4%nat [] [] 1%nat 20 FILTER_AT_FWD None None 1)
    as [H _]; [exact two_filters_mem_ok|reflexivity| |constructor|reflexivity|reflexivity|].
  - split; [reflexivity|]. split; [split; [reflexivity|split; [constructor|done]]|]. split; [done|constructor].
  - destruct H as (s' & l' & E & Hrep & _); [simpl; lia|]. exists s', l'. split; [exact E|exact Hrep].
Defined.

(** ** Unregistering *)

Fixpoint idx (f : loc) (fs : list (loc * Z)) : nat :=
  match fs with
  | [] => 0
  | x :: fs' => if bool_decide (x.1 = f) then 0 else S (idx f fs')
  end.

Lemma idx_step f fs i x :
  fs !! i = Some x → idx f (drop i fs) = if bool_decide (x.1 = f) then 0%nat else S (idx f (drop (S i) fs)).
Proof. intros H. by rewrite (drop_S fs x i H). Qed.

Lemma idx_le f fs : (idx f fs ≤ length fs)%nat.
Proof. induction fs as [|x fs IH]; simpl; [done|]. case_test; lia. Qed.

Lemma delete_ge {A} (l : list A) i : (length l ≤ i)%nat → delete i l = l.
Proof. revert i. induction l as [|x l IH]; intros [|i] H; simpl in *; try done; [lia|]. by rewrite IH by lia. Qed.

Lemma idx_insert_at f p i fs :
  (i ≤ length fs)%nat → f ∉ fs.*1 → idx f (insert_at i (f, p) fs) = i.
Proof.
  revert i. induction fs as [|x fs IH]; intros [|i] Hi Hf; simpl in *; try lia.
  - by rewrite bool_decide_eq_true_2.
  - by rewrite bool_decide_eq_true_2.
  - apply not_elem_of_cons in Hf as [Hx Hf]. rewrite bool_decide_eq_false_2 by congruence.
    unfold insert_at in *. simpl. f_equal. apply IH; [lia|done].
Qed.

Lemma delete_insert_at {A} i (x : A) l : (i ≤ length l)%nat → delete i (insert_at i x l) = l.
Proof.
  intros Hi. unfold insert_at.
  assert (i = length (take i l)) as E by (rewrite length_take; lia).
  rewrite E at 1. by rewrite delete_middle, take_drop.
Qed.

Section Unregister.
Context (k : nat) (f it kl : loc) (l : list (loc * ptr)) (fs : list (loc * Z)) (len : Z).

Definition unwalked (s : fw) (j : nat) (s' : fw) : Prop :=
  mem_ok (fmem s') ∧ others s s' ∧
  preserves (it :: kl :: l.*1) (objs (fmem s)) (objs (fmem s')) ∧
  is_Some (objs (fmem s') !! it) ∧ dll (objs (fmem s')) kl (delete j l) ∧
  chains s' = if bool_decide (j < length l)%nat
              then <[k := (Some kl, u8 (len - 1))]> (chains s) else chains s.

Lemma unregister_loop_walk s i fuel :
  walking k it kl l fs len s i → (length l - i < fuel)%nat → (i ≤ length l)%nat →
  ∃ s', unregister_loop fuel k (Some f) (Some it) s = Ok (tt, s') ∧
    unwalked s (i + idx f (drop i fs)) s'.
Proof.
  revert s i. induction fuel as [|fuel IH]; intros s i Hw Hfuel Hi; [lia|].
  pose proof Hw as [Hm Hf Hd Hp Hh Hc]. cbn [unregister_loop].
  rewrite (bind_run _ _ _ _ _ (on_mem_run _ _ _ _ (has_next_run _ _ _ _ _ Hp))).
  pose proof (holds_length _ _ _ Hh) as Hlen. pose proof Hp as (Hit & Hik & Hil).
  destruct s as [sm sc si sr sid sd]. cbn [fmem set_fmem chains] in *.
  change (set_fmem sm (mk_fw sm sc si sr sid sd)) with (mk_fw sm sc si sr sid sd).
  case_bool_decide as Hlt.
  2: { assert (i = length l) as -> by lia. rewrite drop_ge by lia. cbn [idx].
       rewrite Nat.add_0_r. eexists. split; [reflexivity|]. do 2 (split; [done|]).
       split; [apply preserves_refl|]. split; [by eexists|].
       rewrite bool_decide_eq_false_2 by lia. split; [by rewrite delete_ge by lia|done]. }
  destruct (neighbour l i Hlt) as (n & d & Hin & _).
  destruct (holds_at _ _ _ _ _ _ Hh Hin) as (g & q & at_ & r & sp & ap & Hfs & -> & Hg).
  pose proof Hd as (_ & _ & Hn). pose proof (Hn _ _ _ Hin) as Hnode.
  rewrite (bind_run _ _ _ _ _ (on_mem_run _ (mk_fw sm sc si sr sid sd) _ _ (peek_run sm _ _ _ _ _ _ Hp Hin))).
  rewrite (bind_run _ _ _ _ _ (on_mem_run _ (mk_fw sm sc si sr sid sd) _ _ (get_node_run sm n _ _ _ Hnode))).
  change (set_fmem sm (mk_fw sm sc si sr sid sd)) with (mk_fw sm sc si sr sid sd).
  rewrite (idx_step f fs i (g, q) Hfs). cbn [fst].
  assert (ptr_eqb (Some g) (Some f) = bool_decide (g = f)) as ->
    by (unfold ptr_eqb; apply bool_decide_ext; naive_solver).
  case_bool_decide as Eg.
  - destruct (remove_current_run sm it kl l i n (Some g) Hd Hp Hin)
      as (m1 & E1 & (Hn1 & Hf1 & Hm1) & Hd1 & Hp1 & Hpr1 & _).
    rewrite (bind_run _ _ _ _ _ (on_mem_run _ (mk_fw sm sc si sr sid sd) _ _ E1)).
    rewrite (bind_run _ _ _ _ _ (get_chain_run k _ (set_fmem m1 (mk_fw sm sc si sr sid sd)) Hc)).
    rewrite Nat.add_0_r. eexists.
    split; [exact (set_chain_run k _ (Some kl, u8 (len - 1)) (set_fmem m1 (mk_fw sm sc si sr sid sd)) Hc)|].
    split; [by apply Hm1|]. split; [done|].
    split; [done|]. split; [destruct Hp1 as (? & _); by eexists|]. split; [done|].
    by rewrite bool_decide_eq_true_2.
  - destruct (step_iter (mk_fw sm sc si sr sid sd) it kl l i n (Some g) fs Hm Hd Hp Hh Hin)
      as (m1 & E1 & Hm1 & Hf1 & Hd1 & Hp1 & Hh1 & Hpr1).
    rewrite (bind_run _ _ _ _ _ E1).
    destruct (IH (set_fmem m1 (mk_fw sm sc si sr sid sd)) (S i)) as (s' & E & H1 & H2 & H3 & H4); [|lia|lia|].
    { split; try done. cbn. by rewrite Hf1. }
    rewrite E, Nat.add_succ_r. eexists. split; [reflexivity|]. split; [done|]. split; [done|].
    split; [|exact H4]. eapply preserves_trans; [|exact H3].
    eapply preserves_weaken; [exact Hpr1|]. intros x Hx. apply list_elem_of_singleton in Hx as ->. left.
Qed.
End Unregister.

Lemma by_priority_delete fs i : by_priority fs → by_priority (delete i fs).
Proof.
  unfold by_priority. intros H. revert i. induction H as [|x fs Hs IH Hx]; intros [|i]; simpl; try constructor; auto.
  rewrite Forall_forall in *. intros y Hy. apply Hx. by apply list_elem_of_delete_inv in Hy.
Qed.

Lemma holds_delete h fs l i : holds h fs l → holds h (delete i fs) (delete i l).
Proof.
  intros [Hl Hf]. split; [by rewrite !list_fmap_delete, Hl|].
  rewrite Forall_forall in *. intros x Hx. apply Hf. by apply list_elem_of_delete_inv in Hx.
Qed.

Lemma unregister_filter_run s k kl l fs f p at_ r sp ap :
  mem_ok (fmem s) → fails (fmem s) = [] → chain_rep s k kl l fs → (length fs ≤ 10)%nat →
  objs (fmem s) !! f = Some (OFilter p at_ r sp ap) → chain_of at_ = Some k →
  ∃ s', unregister_filter (Some f) s = Ok (tt, s') ∧
    chain_rep s' k kl (delete (idx f fs) l) (delete (idx f fs) fs) ∧
    mem_ok (fmem s') ∧ preserves (kl :: l.*1) (objs (fmem s)) (objs (fmem s')).
Proof.
  intros Hm Hf (Hk & Hd & Hh) Hmax Hfil Hat. unfold unregister_filter.
  assert (set_fmem (fmem s) s = s) as Hid by (by destruct s).
  rewrite (bind_run _ _ _ _ _ (on_mem_run _ s _ _ (get_filter_run (fmem s) f _ _ _ _ _ Hfil))).
  cbn [f_filter_at]. rewrite Hat, Hid. unfold __unregister_filter.
  rewrite (bind_run _ _ _ _ _ (get_chain_run k _ s Hk)).
  destruct (make_klist_iterator_run (fmem s) kl l Hm Hf Hd) as (m1 & E1 & Hm1 & Hf1 & Hd1 & Hp1 & Ho1).
  rewrite (bind_run _ _ _ _ _ (on_mem_run _ _ _ _ E1)). set (it := next (fmem s)) in *.
  assert (objs (fmem s) !! it = None) as Hfresh by (by apply Hm).
  assert (preserves (kl :: l.*1) (objs (fmem s)) (objs m1)) as Hpr1 by (rewrite Ho1; by apply preserves_fresh).
  assert (holds (objs m1) fs l) as Hh1
    by (eapply holds_kept; [exact Hh|exact Hpr1|]; intros; by eapply (dll_no_filter (objs (fmem s)))).
  rewrite (bind_run _ _ _ _ _ (eq_refl : loop_fuel _ = Ok (S (size (objs m1)), set_fmem m1 s))).
  destruct (unregister_loop_walk k f it kl l fs (Z.of_nat (length fs)) (set_fmem m1 s) 0
              (S (size (objs m1)))) as (s2 & E2 & Hm2 & Ho2 & Hp2 & [oit Hit] & Hd2 & Hch); [done| |lia|].
  { pose proof (dll_length_le _ _ _ Hd1). lia. }
  rewrite (bind_run _ _ _ _ _ E2). change (drop 0 fs) with fs in *. rewrite Nat.add_0_l in *.
  eexists. split; [exact (on_mem_run _ s2 _ _ (kfree_run (fmem s2) it oit Hit))|].
  pose proof (preserves_drop _ _ _ _ _ Hfresh Hpr1 Hp2) as Hpr. destruct Hp1 as (_ & Hik & Hil).
  pose proof (idx_le f fs). pose proof (holds_length _ _ _ Hh) as Hlen.
  assert (preserves (kl :: l.*1) (objs (fmem s)) (delete it (objs (fmem s2)))) as Hprd.
  { intros x Hx Hdx. rewrite lookup_delete_ne; [by apply Hpr|].
    intros ->. apply elem_of_dom in Hdx as [? ?]. congruence. }
  split; [|split; [by apply mem_ok_delete|exact Hprd]]. split.
  - cbn [chains set_fmem]. rewrite Hch. case_bool_decide as Hj.
    + rewrite list_lookup_insert_eq by (by eapply lookup_lt_Some).
      rewrite length_delete by (apply lookup_lt_is_Some; lia). rewrite u8_small by lia.
      do 2 f_equal. lia.
    + rewrite delete_ge by lia. exact Hk.
  - cbn [fmem set_fmem objs]. split.
    + apply dll_delete_other; [done|done|]. rewrite list_fmap_delete. intros Hin.
      by apply list_elem_of_delete_inv in Hin.
    + apply holds_delete. eapply holds_kept; [exact Hh|exact Hprd|].
      intros; by eapply (dll_no_filter (objs (fmem s))).
Qed.

(** Registering a filter and unregistering it leaves the chain as it was. *)
Theorem register_unregister s k kl l fs f p at_ r sp ap :
  mem_ok (fmem s) → fails (fmem s) = [] → chain_rep s k kl l fs → (length fs < 10)%nat →
  objs (fmem s) !! f = Some (OFilter p at_ r sp ap) → chain_of at_ = Some k → f ∉ fs.*1 →
  ∃ s1 s2 l2, register_filter (Some f) s = Ok (1, s1) ∧ unregister_filter (Some f) s1 = Ok (tt, s2) ∧
    chain_rep s2 k kl l2 fs.
Proof.
  intros Hm Hf Hc Hroom Hfil Hat Hnew. pose proof Hc as (Hk & Hd & Hh).
  destruct (register_filter_run s k kl l fs f p at_ r sp ap Hm Hf Hc Hfil Hroom)
    as (s1 & E1 & Hm1 & Hf1 & _ & Hp1 & _ & l1 & Hrep).
  assert (set_fmem (fmem s) s = s) as Hid by (by destruct s).
  pose proof (pos_le p fs).
  destruct (unregister_filter_run s1 k kl l1 _ f p at_ r sp ap Hm1 Hf1 Hrep) as (s2 & E2 & Hrep2 & _);
    [rewrite length_insert_at; lia| |done|].
  { rewrite Hp1; [done|by eapply dll_no_filter|by apply elem_of_dom]. }
  exists s1, s2. rewrite idx_insert_at, delete_insert_at in Hrep2 by done. eexists.
  split; [|split; [exact E2|exact Hrep2]].
  unfold register_filter.
  rewrite (bind_run _ _ _ _ _ (on_mem_run _ s _ _ (get_filter_run (fmem s) f _ _ _ _ _ Hfil))).
  cbn [f_filter_at]. by rewrite Hat, Hid.
Qed.

Lemma register_unregister_witness :
  ∃ s1 s2 l2, register_filter (Some 1%nat) two_filters = Ok (1, s1) ∧
    unregister_filter (Some 1%nat) s1 = Ok (tt, s2) ∧ chain_rep s2 FORWARD_CHAIN 4%nat l2 [].
Proof.
  apply (register_unregister two_filters FORWARD_CHAIN 4%nat [] [] 1%nat 20 FILTER_AT_FWD None None 1);
    [exact two_filters_mem_ok|reflexivity| |simpl; lia|reflexivity|reflexivity|by apply not_elem_of_nil].
  split; [reflexivity|]. split; [split; [reflexivity|split; [constructor|done]]|]. split; [done|constructor].
Defined.

(** ** The hooks *)

(** The callback and the specification of a filter. *)
Definition filter_view (h : gmap loc obj) (f : loc) : option (Z * specs_rec) :=
  match h !! f with
  | Some (OFilter _ _ _ (Some sp) ap) =>
      match h !! sp with
      | Some (OSpecs fb pr da sa dp sp) => Some (ap, mk_specs fb pr da sa dp sp)
      | _ => None
      end
  | _ => None
  end.

Section HookSpec.
Context {E : Type} (apply : Z → specs_rec → Z → list Z → E → Z * list Z * E).

(** What a hook promises: the filters that match the packet get it one after
    the other, in the order of the chain, until one does not accept it. *)
Fixpoint chain_verdict (vs : list (Z * specs_rec)) (hooknum : Z) (skb : list Z) (e : E)
    : result (Z * list Z * E) :=
  match vs with
  | [] => Ok (NF_ACCEPT, skb, e)
  | (ap, sp) :: vs' =>
      matched ← match_filter sp skb;
      if (matched : bool) then
        let '(v, skb, e) := apply ap sp hooknum skb e in
        if v =? NF_ACCEPT then chain_verdict vs' hooknum skb e else Ok (v, skb, e)
      else chain_verdict vs' hooknum skb e
  end.

Context (h : gmap loc obj) (it kl : loc) (l : list (loc * ptr)) (vs : list (Z * specs_rec)).
Context (Hd : dll h kl l) (Hfresh : h !! it = None).
Context (Hv : Forall2 (fun (x : loc * ptr) v => ∃ f, x.2 = Some f ∧ filter_view h f = Some v) l vs).

Lemma iter_pos i c : at_pos (<[it := OIter (Some kl) (l.*1 !! i)]> c) it kl l i ↔ it ≠ kl ∧ it ∉ l.*1.
Proof. unfold at_pos. rewrite lookup_insert_eq. by split; [intros (_ & ?)|]. Qed.

Lemma it_not_in : it ≠ kl ∧ it ∉ l.*1.
Proof using Hd Hfresh.
  pose proof Hd as (Hkl & _ & Hn). split; [congruence|]. intros Hin.
  apply list_elem_of_fmap in Hin as ([n d] & -> & Hin). apply list_elem_of_lookup in Hin as [i Hi].
  apply Hn in Hi. simpl in *. congruence.
Qed.

Lemma hook_loop_walk i fuel hooknum skb e nx fl :
  (length l - i < fuel)%nat → (i ≤ length l)%nat →
  hook_loop apply fuel hooknum (Some it) skb e
    (mk_mem (<[it := OIter (Some kl) (l.*1 !! i)]> h) nx fl) =
  match chain_verdict (drop i vs) hooknum skb e with
  | Ok x => Ok (x, mk_mem h nx fl)
  | Crash c => Crash c
  end.
Proof using Hd Hfresh Hv.
  destruct it_not_in as [Hik Hil].
  revert i skb e. induction fuel as [|fuel IH]; intros i skb e Hfuel Hi; [lia|]. cbn [hook_loop].
  set (m := mk_mem (<[it := OIter (Some kl) (l.*1 !! i)]> h) nx fl).
  assert (at_pos (objs m) it kl l i) as Hp by (by apply iter_pos).
  assert (dll (objs m) kl l) as Hdm by (by apply (dll_upd_other (mk_mem h nx fl))).
  assert (∀ o, delete it (<[it := o]> h) = h) as Hdel by (intros o; by rewrite delete_insert_id).
  assert (∀ x : Z * list Z * E, (free_klist_iterator (Some it);; mret x) m = Ok (x, mk_mem h nx fl)) as Hfree.
  { intros x. unfold free_klist_iterator.
    rewrite (bind_run _ _ _ _ _ (kfree_run m it _ (proj1 Hp))). unfold m. cbn [objs next fails].
    by rewrite Hdel. }
  rewrite (bind_run _ _ _ _ _ (has_next_run m it kl l i Hp)). pose proof (Forall2_length _ _ _ Hv).
  case_bool_decide as Hlt.
  2: { rewrite (drop_ge vs) by lia. cbn [chain_verdict]. apply Hfree. }
  destruct (neighbour l i Hlt) as (n & d & Hin & _).
  rewrite (bind_run _ _ _ _ _ (next_run m it kl l i n d Hdm Hp Hin)).
  set (m1 := upd m it _). pose proof Hdm as (_ & _ & Hnodes). pose proof (Hnodes _ _ _ Hin) as Hnode.
  assert (n ≠ it) by (by eapply at_pos_ne).
  assert (objs m1 !! n = objs m !! n) as Hn1 by (unfold m1; cbn [objs upd]; by rewrite lookup_insert_ne).
  rewrite <- Hn1 in Hnode. rewrite (bind_run _ _ _ _ _ (get_node_run m1 n _ _ _ Hnode)).
  destruct (Forall2_lookup_l _ _ _ _ _ Hv Hin) as ([ap sp] & Hvi & f & Ed & Hview).
  cbn [snd] in Ed. subst d.
  unfold filter_view in Hview. destruct (h !! f) as [[]|] eqn:Hf; try done.
  destruct specs as [spl|]; [|done]. destruct (h !! spl) as [[]|] eqn:Hsp; try done.
  injection Hview as <- <-.
  assert (objs m1 !! f = h !! f) as Hf1 by (unfold m1, m; cbn [objs upd]; by rewrite !lookup_insert_ne by congruence).
  assert (objs m1 !! spl = h !! spl) as Hsp1 by (unfold m1, m; cbn [objs upd]; by rewrite !lookup_insert_ne by congruence).
  rewrite <- Hf1 in Hf. rewrite <- Hsp1 in Hsp.
  rewrite (bind_run _ _ _ _ _ (get_filter_run m1 f _ _ _ _ _ Hf)). cbn [f_specs f_apply].
  rewrite (bind_run _ _ _ _ _ (get_specs_run m1 spl _ _ _ _ _ _ Hsp)).
  rewrite (drop_S vs _ i Hvi). cbn [chain_verdict].
  assert (m1 = mk_mem (<[it := OIter (Some kl) (l.*1 !! S i)]> h) nx fl) as Hm1.
  { unfold m1, upd, m. cbn [objs next fails]. f_equal. apply insert_insert_eq. }
  destruct (match_filter _ skb) as [[|]|c] eqn:Em; [| |done]; rewrite result_bind_Ok.
  - rewrite (bind_run (lift (Ok _)) _ _ _ _ eq_refl).
    destruct (apply _ _ hooknum skb e) as [[v skb'] e'].
    destruct (v =? NF_ACCEPT); [rewrite Hm1; apply IH; lia|]. unfold free_klist_iterator.
    rewrite Hm1. erewrite bind_run by (eapply kfree_run; cbn [objs]; apply lookup_insert_eq).
    cbn [objs next fails]. by rewrite Hdel.
  - rewrite (bind_run (lift (Ok _)) _ _ _ _ eq_refl), Hm1. apply IH; lia.
Qed.
End HookSpec.

(** C11: every hook gives the verdict of its chain: the callbacks of the matching filters
    run in priority order until one does not accept; and it leaves the memory
    as it found it, whatever the packet. *)
Theorem hook_runs_chain {E} (apply : Z → specs_rec → Z → list Z → E → Z * list Z * E)
    s k kl l vs hooknum skb e :
  mem_ok (fmem s) → fails (fmem s) = [] →
  chains s !! k = Some (Some kl, Z.of_nat (length l)) → dll (objs (fmem s)) kl l →
  Forall2 (fun (x : loc * ptr) v => ∃ f, x.2 = Some f ∧ filter_view (objs (fmem s)) f = Some v) l vs →
  ∃ nx fl,
    run_chain apply k hooknum skb e s =
    match chain_verdict apply vs hooknum skb e with
    | Ok x => Ok (x, set_fmem (mk_mem (objs (fmem s)) nx fl) s)
    | Crash c => Crash c
    end.
Proof.
  intros Hm Hf Hk Hd Hv. unfold run_chain. rewrite (bind_run _ _ _ _ _ (get_chain_run k _ s Hk)).
  destruct (Z.eqb_spec (Z.of_nat (length l)) 0) as [E0|E0].
  - destruct l; [|simpl in E0; lia]. inversion Hv; subst.
    exists (next (fmem s)), (fails (fmem s)). by destruct s as [[] ? ? ? ? ?].
  - destruct (make_klist_iterator_run (fmem s) kl l Hm Hf Hd) as (m1 & E1 & Hm1 & Hf1 & Hd1 & Hp1 & Ho1).
    rewrite (bind_run _ _ _ _ _ (on_mem_run _ _ _ _ E1)).
    rewrite (bind_run _ _ _ _ _ (eq_refl : loop_fuel _ = Ok (S (size (objs m1)), set_fmem m1 s))).
    exists (next m1), (fails m1). unfold on_mem. cbn [fmem set_fmem].
    pose proof (dll_length_le _ _ _ Hd1).
    assert (m1 = mk_mem (<[next (fmem s) := OIter (Some kl) (l.*1 !! 0%nat)]> (objs (fmem s))) (next m1) (fails m1)) as Em.
    { destruct m1 as [o1 x1 f1]. cbn [objs] in Ho1. by rewrite Ho1, head_lookup. }
    rewrite Em at 2.
    rewrite (hook_loop_walk apply (objs (fmem s)) (next (fmem s)) kl l vs Hd (Hm _ (Nat.le_refl _)) Hv 0) by lia.
    change (drop 0 vs) with vs. by destruct (chain_verdict apply vs hooknum skb e).
Qed.

(** A chain with one filter, for UDP packets to port 80, that drops them. *)
Definition one_filter : fw :=
  mk_fw (mk_mem {[ 0%nat := OList (Some 1%nat) (Some 1%nat); 1%nat := ONode (Some 2%nat) None None;
                   2%nat := OFilter 5 FILTER_AT_FWD None (Some 3%nat) 7;
                   3%nat := OSpecs FILTER_BY_DST_PORT 17 0 0 0x5000 0 ]} 4%nat [])
    [(None, 0); (None, 0); (Some 0%nat, 1); (None, 0); (None, 0)] None None 0 false.
Definition to_port_80 : list Z :=
  [0x45; 0; 0; 28; 0; 0; 0; 0; 64; 17; 0; 0; 10; 0; 0; 1; 10; 0; 0; 2; 0x12; 0x34; 0; 80; 0; 8; 0; 0].
Definition drop_all (ap : Z) (sp : specs_rec) (hooknum : Z) (skb : list Z) (e : unit)
    : Z * list Z * unit := (NF_DROP, skb, e).

Lemma hook_runs_chain_witness :
  ∃ s', nf_ip_forward_hook drop_all 2 to_port_80 tt one_filter = Ok (NF_DROP, to_port_80, tt, s').
Proof.
  destruct (hook_runs_chain drop_all one_filter FORWARD_CHAIN 0%nat [(1%nat, Some 2%nat)]
              [(7, mk_specs FILTER_BY_DST_PORT 17 0 0 0x5000 0)] 2 to_port_80 tt) as (nx & fl & H).
  - apply mem_ok_check. reflexivity.
  - reflexivity.
  - reflexivity.
  - split; [reflexivity|]. split; [apply NoDup_singleton|].
    intros [|i] n d Hi; [injection Hi as <- <-; reflexivity|done].
  - repeat constructor. exists 2%nat. split; reflexivity.
  - eexists. unfold nf_ip_forward_hook. rewrite H. reflexivity.
Defined.

(** A UDP packet matches a filter exactly when each address and port the
    specification selects is the packet's; the protocol of the specification
    is never looked at, even when the specification selects it. *)
Theorem match_filter_fields sp skb ihl saddr daddr sport dport :
  ip_protocol skb 0 = Ok IPPROTO_UDP → ip_ihl skb 0 = Ok ihl →
  ip_saddr skb 0 = Ok saddr → ip_daddr skb 0 = Ok daddr →
  udp_source skb (Z.shiftl ihl 2) = Ok sport → udp_dest skb (Z.shiftl ihl 2) = Ok dport →
  match_filter sp skb =
    Ok ((negb (filters_by sp FILTER_BY_SRC_ADDR) || (sp_src_addr sp =? saddr)) &&
        (negb (filters_by sp FILTER_BY_DST_ADDR) || (sp_dst_addr sp =? daddr)) &&
        (negb (filters_by sp FILTER_BY_DST_PORT) || (sp_dst_port sp =? dport)) &&
        (negb (filters_by sp FILTER_BY_SRC_PORT) || (sp_src_port sp =? sport))).
Proof.
  intros Hp Hi Hs Hd Hsp Hdp. unfold match_filter, match_src_addr, match_dst_addr, match_ports.
  rewrite Hs, Hd, Hp, !result_bind_Ok.
  change (IPPROTO_UDP =? AGREGATED_IP_ENCAP_IP_PROTO) with false. cbv iota. rewrite !result_bind_Ok, Hp.
  rewrite !result_bind_Ok. change (IPPROTO_UDP =? AGREGATED_APPLICATION_ENCAP_UDP_PROTO) with false.
  change (IPPROTO_UDP =? IPPROTO_UDP) with true. cbv iota beta delta [orb].
  rewrite Hi, !result_bind_Ok, Z.add_0_l, Hsp, Hdp, !result_bind_Ok.
  destruct (filters_by sp FILTER_BY_SRC_ADDR), (sp_src_addr sp =? saddr);
  destruct (filters_by sp FILTER_BY_DST_ADDR), (sp_dst_addr sp =? daddr);
  destruct (filters_by sp FILTER_BY_DST_PORT), (sp_dst_port sp =? dport);
  destruct (filters_by sp FILTER_BY_SRC_PORT), (sp_src_port sp =? sport); reflexivity.
Qed.

Lemma match_filter_fields_witness :
  match_filter (mk_specs (Z.lor FILTER_BY_L4_PROTO FILTER_BY_DST_PORT) 6 0 0 0x5000 0) to_port_80 = Ok true.
Proof.
  rewrite (match_filter_fields _ to_port_80 5 0x0100000a 0x0200000a 0x3412 0x5000); reflexivity.
Defined.
