(* ===== verification/Managers.v ===== *)
(** * Rules and the two managers

    Models [fred_framework/rule.c], [rule_manager.c], [interceptor_manager.c] and
    [main.c]: rules (sets of filters an interceptor creates for one
    specification), the list of rules, the list of interceptors, and the start
    and stop of the framework. *)

From S2P Require Import Prelude CString Klist Chains.

Definition set_lists (ints rules : ptr) (s : fw) : fw :=
  mk_fw (fmem s) (chains s) ints rules (next_rule_id s) (proc_dirty s).
Definition set_rule_id (n : Z) (s : fw) : fw :=
  mk_fw (fmem s) (chains s) (int_list s) (manager_rule_list s) n (proc_dirty s).

(** [mess_proc_entry] of [proc_entry.c]. *)
Definition mess_proc_entry : stm fw unit :=
  modify (fun s => mk_fw (fmem s) (chains s) (int_list s) (manager_rule_list s) (next_rule_id s) true).

(** ** rule.c *)

Record rule_rec : Type := mk_rule {
  r_id : Z; r_interceptor : ptr; r_number_of_filters : Z; r_filters : ptr
}.
Definition get_rule (p : ptr) : stm mem rule_rec :=
  o ← load p;
  match o with
  | ORule id i n fs => mret (mk_rule id i n fs)
  | _ => throw BadAccess
  end.
Definition get_elem (p : ptr) (i : nat) : stm mem ptr :=
  o ← load p;
  match o with
  | OArray es => match es !! i with Some e => mret e | None => throw OutOfBounds end
  | _ => throw BadAccess
  end.
Definition get_desc (p : ptr) : stm mem (list Z * Z) :=
  o ← load p;
  match o with ODesc name cb => mret (name, cb) | _ => throw BadAccess end.

(** [for (i = 0; i < n; free_filter(filters[i++]))]: [todo] filters left. *)
Fixpoint free_filters_loop (todo i : nat) (filters : ptr) : stm fw unit :=
  match todo with
  | O => mret tt
  | S todo' =>
      f ← on_mem (get_elem filters i);
      unregister_filter f;;
      (if (i =? 0)%nat then
         f0 ← on_mem (get_elem filters 0);
         fr ← on_mem (get_filter f0);
         on_mem (free_filter_specs (f_specs fr))
       else mret tt);;
      f ← on_mem (get_elem filters i);
      on_mem (free_filter f);;
      free_filters_loop todo' (S i) filters
  end.

Definition free_rule_and_unregister_filters (r : ptr) : stm fw unit :=
  if is_null r then mret tt
  else
    rr ← on_mem (get_rule r);
    free_filters_loop (Z.to_nat (r_number_of_filters rr)) 0 (r_filters rr);;
    on_mem (kfree r).

(** A rule whose array cannot be allocated is not freed. *)
Definition make_rule (nfilters : Z) : stm fw ptr :=
  r ← on_mem (kmalloc (ORule 0 None 0 None));
  if is_null r then mret None
  else
    fs ← on_mem (kmalloc (OArray (replicate (Z.to_nat nfilters) None)));
    if is_null fs then mret None
    else
      s ← get;
      on_mem (store r (ORule (next_rule_id s) None (u32 nfilters) fs));;
      modify (set_rule_id (u32 (next_rule_id s + 1)));;
      mret r.

(** ** rule_manager.c *)

Definition start_rule_manager : stm fw Z :=
  kl ← on_mem make_klist;
  modify (fun s => set_lists (int_list s) kl s);;
  mret (if is_null kl then 0 else 1).

(** [free_klist] with [free_rule_cb], whose callback runs framework code. *)
Fixpoint free_rule_list_loop (fuel : nat) (kl it : ptr) : stm fw unit :=
  match fuel with
  | O => throw Diverges
  | S n =>
      if is_null it then mret tt
      else
        '(data, front, _) ← on_mem (get_node it);
        on_mem (set_first kl front);;
        free_rule_and_unregister_filters data;;
        on_mem (kfree it);;
        '(it, _) ← on_mem (get_list kl);
        free_rule_list_loop n kl it
  end.
Definition stop_rule_manager : stm fw unit :=
  s ← get;
  let kl := manager_rule_list s in
  if is_null kl then mret tt
  else
    '(it, _) ← on_mem (get_list kl);
    fuel ← loop_fuel;
    free_rule_list_loop fuel kl it;;
    on_mem (kfree kl).

Fixpoint register_filters_loop (todo i : nat) (filters : ptr) : stm fw unit :=
  match todo with
  | O => mret tt
  | S todo' =>
      f ← on_mem (get_elem filters i);
      register_filter f;;
      register_filters_loop todo' (S i) filters
  end.

Definition register_rule (r : ptr) : stm fw unit :=
  s ← get;
  if is_null (manager_rule_list s) then mret tt
  else
    kn ← on_mem (make_klist_node r);
    if is_null kn then mret tt
    else
      on_mem (add_klist_node_to_klist (manager_rule_list s) kn);;
      rr ← on_mem (get_rule r);
      register_filters_loop (Z.to_nat (r_number_of_filters rr)) 0 (r_filters rr);;
      mess_proc_entry.

(** The loop never advances past a rule of another interceptor. *)
Fixpoint unregister_rules_loop (fuel : nat) (name : list Z) (it : ptr) : stm fw unit :=
  match fuel with
  | O => throw Diverges
  | S n =>
      more ← on_mem (klist_iterator_has_next it);
      if (more : bool) then
        kn ← on_mem (klist_iterator_peek it);
        '(r, _, _) ← on_mem (get_node kn);
        rr ← on_mem (get_rule r);
        '(iname, _) ← on_mem (get_desc (r_interceptor rr));
        (if streq name iname then
           r ← on_mem (klist_iterator_remove_current it);
           (if is_null r then mret tt else free_rule_and_unregister_filters r);;
           mess_proc_entry
         else mret tt);;
        unregister_rules_loop n name it
      else mret tt
  end.
Definition unregister_rules_for_interceptor (name : list Z) : stm fw unit :=
  s ← get;
  it ← on_mem (make_klist_iterator (manager_rule_list s));
  fuel ← loop_fuel;
  unregister_rules_loop fuel name it.

Definition get_rules_iterator : stm fw ptr :=
  s ← get; on_mem (make_klist_iterator (manager_rule_list s)).

Fixpoint unregister_rule_loop (fuel : nat) (id : Z) (it : ptr) : stm fw unit :=
  match fuel with
  | O => throw Diverges
  | S n =>
      more ← on_mem (klist_iterator_has_next it);
      if (more : bool) then
        kn ← on_mem (klist_iterator_peek it);
        '(r, _, _) ← on_mem (get_node kn);
        rr ← on_mem (get_rule r);
        if r_id rr =? id then
          r ← on_mem (klist_iterator_remove_current it);
          (if is_null r then mret tt else free_rule_and_unregister_filters r);;
          mess_proc_entry;;
          on_mem (free_klist_iterator it)
        else
          on_mem (klist_iterator_next it);;
          unregister_rule_loop n id it
      else on_mem (free_klist_iterator it)
  end.
Definition unregister_rule (id : Z) : stm fw unit :=
  it ← get_rules_iterator;
  fuel ← loop_fuel;
  unregister_rule_loop fuel id it.

(** ** interceptor_manager.c *)

Definition start_interceptor_manager : stm fw Z :=
  kl ← on_mem make_klist;
  modify (fun s => set_lists kl (manager_rule_list s) s);;
  mret (if is_null kl then 0 else 1).

Definition stop_interceptor_manager : stm fw unit :=
  s ← get;
  if is_null (int_list s) then mret tt else on_mem (free_klist (int_list s) None).

Definition add_interceptor_to_list (l interceptor : ptr) : stm mem unit :=
  n ← make_klist_node interceptor; add_klist_node_to_klist l n.

Definition register_interceptor (i : ptr) : stm fw Z :=
  s ← get;
  if is_null (int_list s) then mret 0
  else on_mem (add_interceptor_to_list (int_list s) i);; mess_proc_entry;; mret 1.

(** The last node looked at: the one found, or the last of the list. *)
Fixpoint find_interceptor_loop (fuel : nat) (name : list Z) (it kn : ptr) : stm mem ptr :=
  match fuel with
  | O => throw Diverges
  | S n =>
      more ← klist_iterator_has_next it;
      if (more : bool) then
        kn ← klist_iterator_next it;
        '(id, _, _) ← get_node kn;
        '(iname, _) ← get_desc id;
        if streq name iname then mret kn else find_interceptor_loop n name it kn
      else mret kn
  end.

Definition unregister_interceptor (name : list Z) : stm fw Z :=
  s ← get;
  if is_null (int_list s) then mret 0
  else
    i ← on_mem (make_klist_iterator (int_list s));
    fuel ← loop_fuel;
    kn ← on_mem (find_interceptor_loop fuel name i None);
    if is_null kn then mret 0
    else
      unregister_rules_for_interceptor name;;
      s ← get;
      on_mem (remove_klist_node_from_klist (int_list s) kn);;
      on_mem (free_klist_iterator i);;
      mess_proc_entry;;
      mret 1.

Definition get_interceptor_iterator : stm fw ptr :=
  s ← get; on_mem (make_klist_iterator (int_list s)).

Section CreateRule.
(** The callbacks of the interceptors: the rule one creates for a
    specification. *)
Context (create_rule_for_specs_cb : Z → ptr → stm fw ptr).

Fixpoint create_rule_loop (fuel : nat) (name : list Z) (sp i : ptr) : stm fw Z :=
  match fuel with
  | O => throw Diverges
  | S n =>
      more ← on_mem (klist_iterator_has_next i);
      if (more : bool) then
        kn ← on_mem (klist_iterator_next i);
        '(id, _, _) ← on_mem (get_node kn);
        '(iname, cb) ← on_mem (get_desc id);
        if streq name iname then
          r ← create_rule_for_specs_cb cb sp;
          if is_null r then on_mem (free_klist_iterator i);; mret 0
          else register_rule r;; on_mem (free_klist_iterator i);; mret 1
        else create_rule_loop n name sp i
      else on_mem (free_klist_iterator i);; mret 0
  end.

Definition create_rule (interceptor_name : list Z) (sp : ptr) : stm fw Z :=
  s ← get;
  if is_null (int_list s) then mret 0
  else
    i ← on_mem (make_klist_iterator (int_list s));
    fuel ← loop_fuel;
    create_rule_loop fuel interceptor_name sp i.
End CreateRule.

Definition remove_rule (rule_id : Z) : stm fw unit := unregister_rule rule_id.

(** ** main.c: the parts of [init_module] and [cleanup_module] that keep state *)

Definition init_module : stm fw Z :=
  init_chains;;
  a ← start_interceptor_manager;
  if a =? 0 then mret (-12)
  else
    b ← start_rule_manager;
    mret (if b =? 0 then -12 else 0).

Definition cleanup_module : stm fw unit :=
  stop_interceptor_manager;; stop_rule_manager.

(** ** Lemmas *)

Lemma get_rule_run m l id i n fs :
  objs m !! l = Some (ORule id i n fs) → get_rule (Some l) m = Ok (mk_rule id i n fs, m).
Proof. intros H. unfold get_rule. by rewrite (bind_run _ _ _ _ _ (load_run _ _ _ H)). Qed.
Lemma get_desc_run m l name cb :
  objs m !! l = Some (ODesc name cb) → get_desc (Some l) m = Ok (name, cb, m).
Proof. intros H. unfold get_desc. by rewrite (bind_run _ _ _ _ _ (load_run _ _ _ H)). Qed.

Lemma on_mem_same {A} (c : stm mem A) s a : c (fmem s) = Ok (a, fmem s) → on_mem c s = Ok (a, s).
Proof. intros H. unfold on_mem. rewrite H. by destruct s. Qed.

(** C22: [unregister_rules_for_interceptor] never returns when it meets a rule of another
    interceptor: no bound on the turns of its loop is enough. *)
Theorem unregister_rules_diverges fuel name s it kl l i n r rid rint nf fs iname cb :
  dll (objs (fmem s)) kl l → at_pos (objs (fmem s)) it kl l i → l !! i = Some (n, Some r) →
  objs (fmem s) !! r = Some (ORule rid (Some rint) nf fs) →
  objs (fmem s) !! rint = Some (ODesc iname cb) → name ≠ iname →
  unregister_rules_loop fuel name (Some it) s = Crash Diverges.
Proof.
  intros Hd Hp Hi Hr Hint Hne. pose proof Hd as (_ & _ & Hn). pose proof (Hn _ _ _ Hi) as Hnode.
  pose proof (lookup_lt_Some _ _ _ Hi).
  induction fuel as [|fuel IH]; [done|]. cbn [unregister_rules_loop].
  rewrite (bind_run _ _ _ _ _ (on_mem_same _ s _ (has_next_run _ _ _ _ _ Hp))).
  rewrite bool_decide_eq_true_2 by done.
  rewrite (bind_run _ _ _ _ _ (on_mem_same _ s _ (peek_run _ _ _ _ _ _ _ Hp Hi))).
  rewrite (bind_run _ _ _ _ _ (on_mem_same _ s _ (get_node_run _ n _ _ _ Hnode))).
  rewrite (bind_run _ _ _ _ _ (on_mem_same _ s _ (get_rule_run _ r _ _ _ _ Hr))). cbn [r_interceptor].
  rewrite (bind_run _ _ _ _ _ (on_mem_same _ s _ (get_desc_run _ rint _ _ Hint))).
  unfold streq. rewrite bool_decide_eq_false_2 by done.
  by rewrite (bind_run (mret tt) _ _ _ _ eq_refl).
Qed.

(** One rule, of interceptor "a", and an iterator on it. *)
Definition rule_of_a : fw :=
  mk_fw (mk_mem {[ 0%nat := OList (Some 1%nat) (Some 1%nat); 1%nat := ONode (Some 2%nat) None None;
                   2%nat := ORule 0 (Some 3%nat) 0 None; 3%nat := ODesc (str "a") 0;
                   4%nat := OIter (Some 0%nat) (Some 1%nat) ]} 5%nat [])
    [] None (Some 0%nat) 1 false.

Lemma unregister_rules_diverges_witness :
  unregister_rules_loop 1000 (str "b") (Some 4%nat) rule_of_a = Crash Diverges.
Proof.
  apply (unregister_rules_diverges 1000 (str "b") rule_of_a 4%nat 0%nat [(1%nat, Some 2%nat)] 0 1%nat 2%nat
           0 3%nat 0 None (str "a") 0); try reflexivity; try done.
  - split; [reflexivity|]. split; [apply NoDup_singleton|].
    intros [|i] n d Hi; [injection Hi as <- <-; reflexivity|done].
  - split; [reflexivity|]. split; [lia|]. by apply (bool_decide_unpack _).
Defined.

(** The interceptors of a list, with their names. *)
Definition named (h : gmap loc obj) (l : list (loc * ptr)) (names : list (list Z)) : Prop :=
  Forall2 (fun (x : loc * ptr) name => ∃ d cb, x.2 = Some d ∧ h !! d = Some (ODesc name cb)) l names.

Lemma named_iter h l names it o :
  named h l names → h !! it = None → named (<[it := o]> h) l names.
Proof.
  intros H Hit. eapply Forall2_impl; [exact H|]. intros x name (d & cb & E & Hd).
  exists d, cb. split; [done|]. rewrite lookup_insert_ne; congruence.
Qed.

Section Find.
Context (h : gmap loc obj) (it kl : loc) (l : list (loc * ptr)) (names : list (list Z)).
Context (name : list Z) (nx : loc) (fl : list bool).
Context (Hd : dll h kl l) (Hfresh : h !! it = None) (Hn : named h l names) (Hno : name ∉ names).

Definition find_mem (i : nat) : mem := mk_mem (<[it := OIter (Some kl) (l.*1 !! i)]> h) nx fl.

Lemma find_interceptor_none fuel i kn :
  (length l - i < fuel)%nat → (i ≤ length l)%nat → (i ≠ 0%nat → kn = l.*1 !! pred i) →
  find_interceptor_loop fuel name (Some it) (if decide (i = 0%nat) then None else kn) (find_mem i) =
    Ok (last l.*1, find_mem (length l)).
Proof using Hd Hfresh Hn Hno.
  destruct (it_not_in h it kl l Hd Hfresh) as [Hik Hil].
  revert i kn. induction fuel as [|fuel IH]; intros i kn Hfuel Hi Hkn; [lia|].
  assert (at_pos (objs (find_mem i)) it kl l i) as Hp by (by apply iter_pos).
  assert (dll (objs (find_mem i)) kl l) as Hdm by (by apply (dll_upd_other (mk_mem h nx fl))).
  cbn [find_interceptor_loop]. rewrite (bind_run _ _ _ _ _ (has_next_run _ _ _ _ _ Hp)).
  case_bool_decide as Hlt.
  2: { assert (i = length l) as -> by lia. unfold mret, stm_ret. do 2 f_equal.
       rewrite last_lookup, length_fmap. case_decide as E0; [by rewrite E0, (nil_length_inv l E0)|by apply Hkn]. }
  destruct (neighbour l i Hlt) as (n & d & Hin & Hin').
  rewrite (bind_run _ _ _ _ _ (next_run _ it kl l i n d Hdm Hp Hin)).
  assert (upd (find_mem i) it (OIter (Some kl) (l.*1 !! S i)) = find_mem (S i)) as ->.
  { unfold upd, find_mem. cbn [objs next fails]. f_equal. apply insert_insert_eq. }
  assert (dll (objs (find_mem (S i))) kl l) as Hdm' by (by apply (dll_upd_other (mk_mem h nx fl))).
  pose proof Hdm' as (_ & _ & Hnodes).
  rewrite (bind_run _ _ _ _ _ (get_node_run _ n _ _ _ (Hnodes _ _ _ Hin))).
  pose proof (named_iter _ _ _ it (OIter (Some kl) (l.*1 !! S i)) Hn Hfresh) as Hn'.
  destruct (Forall2_lookup_l _ _ _ _ _ Hn' Hin) as (nm & Hnm & dl & cb & Ed & Hdesc).
  cbn [snd] in Ed. subst d. rewrite (bind_run _ _ _ _ _ (get_desc_run (find_mem (S i)) dl _ _ Hdesc)).
  unfold streq. rewrite bool_decide_eq_false_2.
  2: { intros ->. apply Hno. by eapply list_elem_of_lookup_2. }
  specialize (IH (S i) (Some n)). rewrite decide_False in IH by lia. apply IH; [lia|lia|by intros _].
Qed.
End Find.

Lemma unregister_no_rules name s rl :
  mem_ok (fmem s) → fails (fmem s) = [] → manager_rule_list s = Some rl → dll (objs (fmem s)) rl [] →
  ∃ m', unregister_rules_for_interceptor name s = Ok (tt, set_fmem m' s) ∧
    objs m' = <[next (fmem s) := OIter (Some rl) None]> (objs (fmem s)).
Proof.
  intros Hm Hf Hr Hd. unfold unregister_rules_for_interceptor.
  rewrite (bind_run get _ _ _ _ eq_refl), Hr.
  destruct (make_klist_iterator_run (fmem s) rl [] Hm Hf Hd) as (m1 & E1 & Hm1 & Hf1 & Hd1 & Hp1 & Ho1).
  rewrite (bind_run _ _ _ _ _ (on_mem_run _ _ _ _ E1)).
  rewrite (bind_run _ _ _ _ _ (eq_refl : loop_fuel _ = Ok (S (size (objs m1)), set_fmem m1 s))).
  cbn [unregister_rules_loop].
  rewrite (bind_run _ _ _ _ _ (on_mem_same _ (set_fmem m1 s) _ (has_next_run _ _ _ _ _ Hp1))).
  exists m1. split; [done|exact Ho1].
Qed.

(** Asked to unregister a name no interceptor has, the manager unregisters the
    interceptor that was registered last, and reports success. *)
Theorem unregister_unknown_interceptor s kl l names name rl :
  mem_ok (fmem s) → fails (fmem s) = [] → int_list s = Some kl → dll (objs (fmem s)) kl l →
  named (objs (fmem s)) l names → name ∉ names → l ≠ [] →
  manager_rule_list s = Some rl → dll (objs (fmem s)) rl [] →
  ∃ s', unregister_interceptor name s = Ok (1, s') ∧
    dll (objs (fmem s')) kl (delete (pred (length l)) l).
Proof.
  intros Hm Hf Hi Hd Hn Hno Hl Hr Hdr. unfold unregister_interceptor.
  rewrite (bind_run get _ _ _ _ eq_refl), Hi. cbn [is_null].
  destruct (make_klist_iterator_run (fmem s) kl l Hm Hf Hd) as (m1 & E1 & Hm1 & Hf1 & Hd1 & Hp1 & Ho1).
  rewrite (bind_run _ _ _ _ _ (on_mem_run _ _ _ _ E1)). set (it := next (fmem s)) in *.
  assert (objs (fmem s) !! it = None) as Hfresh by (by apply Hm).
  rewrite (bind_run _ _ _ _ _ (eq_refl : loop_fuel _ = Ok (S (size (objs m1)), set_fmem m1 s))).
  pose proof (dll_length_le _ _ _ Hd1). rewrite head_lookup in Ho1.
  assert (m1 = find_mem (objs (fmem s)) it kl l (next m1) (fails m1) 0) as Em.
  { unfold find_mem. destruct m1 as [o1 x1 f1]. cbn [objs] in Ho1. by rewrite Ho1. }
  pose proof (find_interceptor_none (objs (fmem s)) it kl l names name (next m1) (fails m1) Hd Hfresh
                Hn Hno (S (size (objs m1))) 0 None) as Hfind.
  rewrite <- Em in Hfind. set (m2 := find_mem _ _ _ _ _ _ (length l)) in Hfind.
  rewrite (bind_run _ _ _ _ _ (on_mem_run _ (set_fmem m1 s) _ _ (Hfind ltac:(lia) ltac:(lia) ltac:(done)))).
  destruct (last_entry l Hl) as (nl & dl & Hlast & Hil). rewrite Hlast. cbn [is_null].
  destruct (it_not_in _ it kl l Hd Hfresh) as [Hik Hini].
  assert (it ≠ rl) as Hir by (destruct Hdr; congruence).
  assert (mem_ok m2) as Hm2.
  { intros x Hx. unfold m2, find_mem in *. cbn [objs next] in *. specialize (Hm1 x Hx).
    rewrite Ho1 in Hm1. destruct (decide (x = it)) as [->|]; [by rewrite lookup_insert_eq in Hm1|].
    by rewrite lookup_insert_ne in *. }
  destruct (unregister_no_rules name (set_fmem m2 (set_fmem m1 s)) rl) as (m3 & E3 & Ho3);
    [done|exact Hf1|done|by apply (dll_upd_other (fmem s) rl []); [..|apply not_elem_of_nil]|].
  rewrite (bind_run _ _ _ _ _ E3), (bind_run get _ _ _ _ eq_refl). cbn [int_list set_fmem]. rewrite Hi.
  cbn [fmem set_fmem] in Ho3.
  assert (dll (objs m2) kl l) as Hd2 by (by apply (dll_upd_other (fmem s))).
  assert (objs m2 !! next m2 = None) as Hfr2 by (by apply Hm2).
  assert (dll (objs m3) kl l) as Hd3.
  { rewrite Ho3. destruct (it_not_in _ _ _ _ Hd2 Hfr2) as [? ?]. by apply (dll_upd_other m2). }
  destruct (remove_klist_node_dll m3 kl l _ nl dl Hd3 Hil) as (m4 & E4 & _ & Hd4 & Hpr4 & _).
  erewrite (bind_run (on_mem _)) by (apply on_mem_run, E4).
  assert (objs m2 !! it = Some (OIter (Some kl) (l.*1 !! length l))) as Hit2 by apply lookup_insert_eq.
  assert (objs m4 !! it = Some (OIter (Some kl) (l.*1 !! length l))) as Hit.
  { assert (objs m3 !! it = objs m2 !! it) as E by (rewrite Ho3, lookup_insert_ne; congruence).
    rewrite Hpr4; [congruence|by rewrite not_elem_of_cons|]. apply elem_of_dom. rewrite E. by eexists. }
  erewrite (bind_run (on_mem _)) by (eapply on_mem_run, (kfree_run m4), Hit).
  eexists. split; [reflexivity|]. cbn [fmem set_fmem objs]. apply dll_delete_other; [done|done|].
  rewrite list_fmap_delete. intros Hin. by apply list_elem_of_delete_inv in Hin.
Qed.

(** Two interceptors and no rules. *)
Definition two_interceptors : fw :=
  mk_fw (mk_mem {[ 0%nat := OList (Some 1%nat) (Some 2%nat); 1%nat := ONode (Some 3%nat) (Some 2%nat) None;
                   2%nat := ONode (Some 4%nat) None (Some 1%nat); 3%nat := ODesc (str "aggregation") 0;
                   4%nat := ODesc (str "deaggregation") 0; 5%nat := OList None None ]} 6%nat [])
    [] (Some 0%nat) (Some 5%nat) 0 false.

Lemma unregister_unknown_interceptor_witness :
  ∃ s', unregister_interceptor (str "synch") two_interceptors = Ok (1, s') ∧
    dll (objs (fmem s')) 0%nat [(1%nat, Some 3%nat)].
Proof.
  apply (unregister_unknown_interceptor two_interceptors 0%nat
           [(1%nat, Some 3%nat); (2%nat, Some 4%nat)] [str "aggregation"; str "deaggregation"]
           (str "synch") 5%nat); try reflexivity; try done.
  - by apply mem_ok_check.
  - split; [reflexivity|]. split; [by apply (bool_decide_unpack _)|].
    intros [|[|i]] n d Hi; [injection Hi as <- <-; reflexivity..|done].
  - repeat constructor; [exists 3%nat, 0|exists 4%nat, 0]; split; reflexivity.
  - by apply (bool_decide_unpack _).
  - split; [reflexivity|]. split; [constructor|done].
Defined.
