(* ===== verification/Registry.v ===== *)
(** * Registering rules from user space

    Models [fred_framework/proc_registry.c] (the parser of the requests written
    to [/proc/interceptor_registry]) and the programs that write them:
    [interceptor_shell/operations.c], [cmd_line_parser.c], [mkrule.c] and
    [rmrule.c]. *)

From S2P Require Import Prelude CString Klist Chains Managers.

Definition colon : Z := 58.
Definition MAX_REGISTRY_LINE : Z := 800.

(** ** The C library *)

(** [simple_strtol] of the kernel in base 10, for a 32-bit [long]. *)
Definition simple_strtol (bs : list Z) : Z :=
  match bs with
  | c :: bs' => if c =? 45 then s32 (- digits_val bs' 0) else s32 (digits_val bs 0)
  | [] => 0
  end.

(** [inet_pton(AF_INET, ...)]: the four numbers of a dotted quad, as the bytes
    of [s_addr], none with a leading zero; [None] where it returns 0 and leaves the
    address alone. *)
Fixpoint split_on (sep : Z) (bs cur : list Z) : list (list Z) :=
  match bs with
  | [] => [cur]
  | c :: bs' => if c =? sep then cur :: split_on sep bs' [] else split_on sep bs' (cur ++ [c])
  end.
Definition octet (bs : list Z) : option Z :=
  if forallb isdigit bs && negb (bool_decide (bs = [])) && (length bs <=? 3)%nat
     && (digits_val bs 0 <=? 255) && (match bs with c :: _ :: _ => negb (c =? 48) | _ => true end)
  then Some (digits_val bs 0) else None.
Definition inet_pton (bs : list Z) : option Z :=
  match split_on 46 bs [] with
  | [a; b; c; d] =>
      a ← octet a; b ← octet b; c ← octet c; d ← octet d; Some (le_val [a; b; c; d])
  | _ => None
  end.

(** ** operations.c *)

Definition htons (z : Z) : Z := bswap 2 (u16 z).

(** The characters a field gets, with the separator after it. *)
Definition proto_field (protocol : option (list Z)) : list Z :=
  match protocol with
  | None => [colon]
  | Some p =>
      (if streq (str "UDP") p then dec_d IPPROTO_UDP ++ [colon] else []) ++
      (if streq (str "NETAGG") p then dec_d AGREGATED_IP_ENCAP_IP_PROTO ++ [colon] else []) ++
      (if streq (str "APPAGG") p then dec_d AGREGATED_APPLICATION_ENCAP_UDP_PROTO ++ [colon] else [])
  end.
(** An address that cannot be converted counts as 0.0.0.0: the result of
    [inet_pton] is only checked against negative values. *)
Definition addr_field (addr : option (list Z)) : list Z :=
  match addr with
  | None => [colon]
  | Some a => dec_d (s32 (default 0 (inet_pton a))) ++ [colon]
  end.
Definition dport_field (port : option (list Z)) : list Z :=
  match port with None => [colon] | Some p => dec_d (htons (atoi p)) ++ [colon] end.
Definition sport_field (port : option (list Z)) : list Z :=
  match port with None => [] | Some p => dec_d (htons (atoi p)) end.

(** [buffer] is an array of 800 zeroed characters. *)
Definition fill (s : list Z) : result (list Z) :=
  if Z.of_nat (length s) <=? 800 then Ok (s ++ replicate (800 - length s) 0) else Crash OutOfBounds.

(** Returned: the result, and what was written to the proc file, if anything;
    [opens] and [writes]: whether the calls on the file succeed. *)
Definition write_to_proc (opens writes : bool) (op : Z)
    (interceptor_name protocol daddr saddr dport sport ruleid : option (list Z))
    : result (Z * option (list Z)) :=
  let send (s : list Z) :=
    buffer ← fill s;
    if negb opens then Ok (0, None) else if negb writes then Ok (0, None) else Ok (1, Some buffer) in
  if op =? ch "R" then
    match interceptor_name with
    | None => Crash NullDeref
    | Some name =>
        send ([op; colon] ++ name ++ [colon] ++ proto_field protocol ++ addr_field daddr
                ++ addr_field saddr ++ dport_field dport ++ sport_field sport)
    end
  else if op =? ch "U" then
    match ruleid with
    | None => Ok (0, None)
    | Some id => send ([op; colon] ++ dec_d (atoi id))
    end
  else Ok (0, None).

(** ** cmd_line_parser.c *)

Record parsed_args : Type := mk_args {
  iname : option (list Z); a_daddr : option (list Z); a_saddr : option (list Z);
  a_dport : option (list Z); a_sport : option (list Z); a_proto : option (list Z);
  a_ruleid : option (list Z)
}.
Definition no_args : parsed_args := mk_args None None None None None None None.

(** Pairs of option and value; unknown options are skipped. *)
Fixpoint parse_pairs (args : list (list Z)) (pa : parsed_args) : parsed_args :=
  match args with
  | o :: v :: args' =>
      let v := Some v in
      parse_pairs args'
        (if streq (str "-n") o then mk_args v (a_daddr pa) (a_saddr pa) (a_dport pa) (a_sport pa) (a_proto pa) (a_ruleid pa)
         else if streq (str "-p") o then mk_args (iname pa) (a_daddr pa) (a_saddr pa) (a_dport pa) (a_sport pa) v (a_ruleid pa)
         else if streq (str "-da") o then mk_args (iname pa) v (a_saddr pa) (a_dport pa) (a_sport pa) (a_proto pa) (a_ruleid pa)
         else if streq (str "-sa") o then mk_args (iname pa) (a_daddr pa) v (a_dport pa) (a_sport pa) (a_proto pa) (a_ruleid pa)
         else if streq (str "-dp") o then mk_args (iname pa) (a_daddr pa) (a_saddr pa) v (a_sport pa) (a_proto pa) (a_ruleid pa)
         else if streq (str "-sp") o then mk_args (iname pa) (a_daddr pa) (a_saddr pa) (a_dport pa) v (a_proto pa) (a_ruleid pa)
         else if streq (str "-id") o then mk_args (iname pa) (a_daddr pa) (a_saddr pa) (a_dport pa) (a_sport pa) (a_proto pa) v
         else pa)
  | _ => pa
  end.

(** [argv] includes the program's name. *)
Definition parse_args (argv : list (list Z)) : option parsed_args :=
  let argc := length argv in
  if (argc =? 1)%nat || Nat.even argc then None
  else
    let pa := parse_pairs (tl argv) no_args in
    match iname pa, a_ruleid pa with
    | None, None => None
    | _, _ => Some pa
    end.

(** ** mkrule.c and rmrule.c: the exit status and the request. *)
Definition mkrule (opens writes : bool) (argv : list (list Z)) : result (Z * option (list Z)) :=
  match parse_args argv with
  | None => Ok (-1, None)
  | Some pa =>
      '(r, w) ← write_to_proc opens writes (ch "R") (iname pa) (a_proto pa) (a_daddr pa) (a_saddr pa)
                  (a_dport pa) (a_sport pa) None;
      Ok (if r =? 0 then -1 else 0, w)
  end.
Definition rmrule (opens writes : bool) (argv : list (list Z)) : result (Z * option (list Z)) :=
  match parse_args argv with
  | None => Ok (-1, None)
  | Some pa =>
      '(r, w) ← write_to_proc opens writes (ch "U") None None None None None None (a_ruleid pa);
      Ok (if r =? 0 then -1 else 0, w)
  end.

(** ** proc_registry.c *)

(** [for (start = end = i; *end != ':' && *end != '\0'; end++)]: the end. *)
Fixpoint scan_loop (fuel : nat) (req : list Z) (i : Z) : result Z :=
  match fuel with
  | O => Crash Diverges
  | S n =>
      c ← nth_byte req i;
      if (c =? colon) || (c =? 0) then Ok i else scan_loop n req (i + 1)
  end.
(** Every turn moves one character further in the buffer. *)
Definition scan (req : list Z) (i : Z) : result Z := scan_loop (S (length req)) req i.

(** The field from [start], with its end. *)
Definition field (req : list Z) (start : Z) : result (Z * list Z) :=
  stop ← scan req start; bs ← sub_bytes req start (stop - start); Ok (stop, bs).

(** [memcpy] into a zeroed array of [n] characters. *)
Definition into_array (n : Z) (bs : list Z) : result (list Z) :=
  if Z.of_nat (length bs) <=? n then Ok (bs ++ replicate (Z.to_nat n - length bs) 0)
  else Crash OutOfBounds.

(** [simple_strtol] reads on until it meets a character that is no digit. *)
Definition strtol_array (arr : list Z) : result Z :=
  let digits := match arr with c :: arr' => if c =? 45 then arr' else arr | [] => [] end in
  if forallb isdigit digits then Crash OutOfBounds else Ok (simple_strtol arr).

(** [if (start != end) { memcpy(...); ... = simple_strtol(...); }]: the
    variables keep their initial 0 when the field is empty. *)
Definition number (n : Z) (bs : list Z) : result Z :=
  if bool_decide (bs = []) then Ok 0 else arr ← into_array n bs; strtol_array arr.

Record spec_req : Type := mk_spec_req {
  q_name : list Z; q_filter_by : Z; q_daddr : Z; q_saddr : Z; q_dport : Z; q_sport : Z;
  q_proto : Z
}.

(** [memset(arr, 0, n)] on an array of [size] characters, done for the fields that are
    given. *)
Definition clear_array (size n : Z) (bs : list Z) : result unit :=
  if bool_decide (bs = []) || (n <=? size) then Ok tt else Crash OutOfBounds.

(** [filter_by |= flag] for the fields that are given. *)
Definition flag (f : Z) (bs : list Z) : Z := if bool_decide (bs = []) then 0 else f.

(** The fields after the name, which ends at [e]. *)
Definition parse_fields (req : list Z) (e : Z) (name : list Z) : result spec_req :=
  '(e, proto) ← field req (e + 1);
  ipproto ← number 4 proto;
  '(e, da) ← field req (e + 1);
  daddr ← number 16 da;
  _ ← clear_array 16 16 da;
  '(e, sa) ← field req (e + 1);
  saddr ← number 16 sa;
  '(e, dp) ← field req (e + 1);
  dport ← number 6 dp;
  _ ← clear_array 6 7 dp;
  '(e, sp) ← field req (e + 1);
  sport ← number 6 sp;
  Ok (mk_spec_req name
    (Z.lor (flag FILTER_BY_L4_PROTO proto) (Z.lor (flag FILTER_BY_DST_ADDR da)
    (Z.lor (flag FILTER_BY_SRC_ADDR sa) (Z.lor (flag FILTER_BY_DST_PORT dp)
           (flag FILTER_BY_SRC_PORT sp)))))
    (u32 daddr) (u32 saddr) (u16 dport) (u16 sport) (u8 ipproto)).

Definition parse_unregister (req : list Z) : result (option Z) :=
  '(_, id) ← field req 2;
  if bool_decide (id = []) then Ok None
  else ruleid ← number 20 id; Ok (Some (u32 ruleid)).

Section WithCallbacks.
Context (create_rule_for_specs_cb : Z → ptr → stm fw ptr).

(** The name is copied to a block that is never freed. *)
Definition parse_request (req : list Z) : stm fw unit :=
  c ← lift (nth_byte req 0);
  if c =? ch "R" then
    '(e, name) ← lift (field req 2);
    if bool_decide (name = []) then mret tt
    else
      block ← on_mem (kmalloc (OBytes name));
      if is_null block then mret tt
      else
        q ← lift (parse_fields req e name);
        sp ← on_mem (create_filter_specs (q_filter_by q) (q_daddr q) (q_saddr q) (q_dport q)
                       (q_sport q) (q_proto q));
        create_rule create_rule_for_specs_cb (q_name q) sp;;
        mret tt
  else if c =? ch "U" then
    id ← lift (parse_unregister req);
    match id with None => mret tt | Some id => remove_rule id end
  else mret tt.

(** [copied]: whether [copy_from_user] succeeds. *)
Definition procfile_write (copied : bool) (buffer : list Z) : stm fw Z :=
  let count := Z.of_nat (length buffer) in
  if MAX_REGISTRY_LINE <? count then mret (-12)
  else if negb copied then mret (-14)
  else
    parse_request (buffer ++ replicate (Z.to_nat MAX_REGISTRY_LINE - length buffer) 0);;
    mret count.
End WithCallbacks.

(** ** Lemmas *)

(** A field without separators. *)
Definition clean (bs : list Z) : Prop := Forall (fun c => c ≠ colon ∧ c ≠ 0) bs.

Lemma nth_byte_app pre c post : nth_byte (pre ++ c :: post) (Z.of_nat (length pre)) = Ok c.
Proof.
  unfold nth_byte. rewrite (proj2 (Z.ltb_ge _ _)), Nat2Z.id by lia. by rewrite list_lookup_middle.
Qed.

Lemma scan_loop_field fuel pre fld c post :
  clean fld → c = colon ∨ c = 0 → (length fld < fuel)%nat →
  scan_loop fuel (pre ++ fld ++ c :: post) (Z.of_nat (length pre)) =
    Ok (Z.of_nat (length pre) + Z.of_nat (length fld)).
Proof.
  intros Hf Hc. revert pre fuel. induction Hf as [|x fld [Hx1 Hx2] Hf IH]; intros pre [|fuel] Hlt;
    try (simpl in Hlt; lia); cbn [scan_loop].
  - change ([] ++ c :: post) with (c :: post). rewrite nth_byte_app, result_bind_Ok.
    replace ((c =? colon) || (c =? 0)) with true; [f_equal; simpl; lia|].
    symmetry. apply orb_true_iff. destruct Hc as [->| ->]; [left|right]; apply Z.eqb_refl.
  - rewrite <- app_comm_cons, nth_byte_app, result_bind_Ok.
    rewrite (proj2 (Z.eqb_neq x colon)), (proj2 (Z.eqb_neq x 0)) by done. cbn [orb].
    specialize (IH (pre ++ [x]) fuel). rewrite length_app, <- app_assoc in IH. simpl in IH.
    replace (Z.of_nat (length pre) + 1) with (Z.of_nat (length pre + 1)) by lia.
    rewrite IH by (simpl in Hlt; lia). f_equal. simpl. lia.
Qed.

Lemma field_at pre fld c post i :
  clean fld → c = colon ∨ c = 0 → i = Z.of_nat (length pre) →
  field (pre ++ fld ++ c :: post) i = Ok (i + Z.of_nat (length fld), fld).
Proof.
  intros Hf Hc ->. unfold field, scan. rewrite scan_loop_field by (done || rewrite !length_app; simpl; lia).
  rewrite result_bind_Ok. unfold sub_bytes.
  replace ((0 <=? _) && _ && _) with true.
  2: { symmetry. rewrite !andb_true_iff, !Z.leb_le, !length_app. simpl. lia. }
  rewrite result_bind_Ok. do 2 f_equal. rewrite Nat2Z.id, Z.add_simpl_l, Nat2Z.id.
  by apply slice_app.
Qed.

Lemma clean_digits bs : Forall (fun c => isdigit c = true) bs → clean bs.
Proof.
  intros H. eapply Forall_impl; [exact H|]. intros c Hc. simpl.
  destruct (digit_not_special c Hc) as (_ & _ & _ & ?). split; [|done].
  intros ->. vm_compute in Hc. done.
Qed.

Lemma clean_dec_d n : clean (dec_d n).
Proof.
  unfold dec_d. destruct (Z.ltb_spec n 0); [constructor; [done|]|]; apply clean_digits, dec_aux_digits; lia.
Qed.

Lemma dec_d_nonnil n : dec_d n ≠ [].
Proof. unfold dec_d. case_test; [done|]. apply dec_aux_nonnil. Qed.

Lemma digits_val_dec_u n rest : 0 ≤ n < 10 ^ 20 → stops rest → digits_val (dec_u n ++ rest) 0 = n.
Proof.
  intros Hn Hr. unfold dec_u. rewrite digits_val_app, digits_val_stops by (done || (apply dec_aux_digits; lia)).
  destruct (digits_val_dec_aux 20 n 0) as (k & _ & ->); lia.
Qed.

(** The kernel reads back what [itoa] wrote. *)
Lemma strtol_dec_d n rest : - 2 ^ 31 ≤ n < 2 ^ 31 → stops rest → simple_strtol (dec_d n ++ rest) = n.
Proof.
  intros Hn Hr. unfold dec_d. destruct (Z.ltb_spec n 0).
  - simpl. rewrite digits_val_dec_u by (lia || done). rewrite Z.opp_involutive. apply swrap_small; lia.
  - destruct (dec_u_head n) as (c & ds & E & Hc); [done|].
    pose proof (digits_val_dec_u n rest ltac:(lia) Hr) as Hv. rewrite E in Hv |- *.
    unfold simple_strtol. simpl app in *. destruct (digit_not_special c Hc) as (_ & Hm & _).
    rewrite (proj2 (Z.eqb_neq c 45)) by done. rewrite Hv. apply swrap_small; lia.
Qed.

Lemma stops_zeros k : stops (replicate k 0).
Proof. by destruct k. Qed.

(** The request line with its fields. *)
Definition line (name f1 f2 f3 f4 f5 : list Z) : list Z :=
  [ch "R"; colon] ++ name ++ [colon] ++ f1 ++ [colon] ++ f2 ++ [colon] ++ f3 ++ [colon] ++ f4
    ++ [colon] ++ f5.

(** A field that was left out, or the decimal of its value. *)
Definition number_field (bs : list Z) (v lim : Z) : Prop :=
  bs = [] ∧ v = 0 ∨ bs = dec_d v ∧ - 2 ^ 31 ≤ v < 2 ^ 31 ∧ Z.of_nat (length (dec_d v)) < lim.

Lemma not_all_digits bs k : (0 < k)%nat → forallb isdigit (bs ++ replicate k 0) = false.
Proof. destruct k; [lia|]. intros _. rewrite forallb_app. simpl. apply andb_false_r. Qed.

Lemma number_field_value n bs v : number_field bs v n → number n bs = Ok v.
Proof.
  unfold number. intros [[-> ->]|(-> & Hv & Hl)]; [done|].
  rewrite bool_decide_eq_false_2 by apply dec_d_nonnil. unfold into_array.
  rewrite (proj2 (Z.leb_le _ _)), result_bind_Ok by lia. unfold strtol_array.
  rewrite strtol_dec_d by (done || apply stops_zeros).
  assert (0 < Z.to_nat n - length (dec_d v))%nat as Hk by lia. revert Hk.
  generalize (Z.to_nat n - length (dec_d v))%nat as k. intros k Hk.
  unfold dec_d. destruct (Z.ltb_spec v 0) as [H|H].
  - cbn [app]. rewrite Z.eqb_refl. by rewrite not_all_digits.
  - destruct (dec_u_head v) as (c & ds & E & Hc); [done|]. rewrite E. cbn [app].
    destruct (digit_not_special c Hc) as (_ & Hm & _).
    rewrite (proj2 (Z.eqb_neq c 45)) by done. cbn [forallb]. by rewrite not_all_digits, andb_false_r.
Qed.

Lemma number_field_clean bs v n : number_field bs v n → clean bs.
Proof. intros [[-> _]|(-> & _)]; [constructor|apply clean_dec_d]. Qed.

Lemma clear_array_fits size n bs : n ≤ size → clear_array size n bs = Ok tt.
Proof. intros H. unfold clear_array. by rewrite (proj2 (Z.leb_le _ _) H), orb_true_r. Qed.

Section Line.
Context (name f1 f2 f3 f4 f5 : list Z) (v1 v2 v3 v4 v5 : Z) (k : nat).
Context (Hn : clean name) (H1 : number_field f1 v1 4) (H2 : number_field f2 v2 16).
Context (H3 : number_field f3 v3 16) (H4 : number_field f4 v4 6) (H5 : number_field f5 v5 6).

Let buf : list Z := line name f1 f2 f3 f4 f5 ++ replicate (S k) 0.

Lemma buf_field pre fld c post i :
  buf = pre ++ fld ++ c :: post → clean fld → c = colon ∨ c = 0 → i = Z.of_nat (length pre) →
  field buf i = Ok (i + Z.of_nat (length fld), fld).
Proof. intros -> ? ? ?. by apply (field_at pre fld c post). Qed.

Ltac at_field pre fld c post :=
  rewrite (buf_field pre fld c post);
  [rewrite result_bind_Ok; erewrite number_field_value by eassumption; rewrite result_bind_Ok
  |unfold buf, line; repeat match goal with p := _ : list Z |- _ => subst p end;
   rewrite <- !app_assoc; reflexivity
  |by eapply number_field_clean|auto
  |repeat match goal with p := _ : list Z |- _ => subst p end; rewrite !length_app; simpl; lia].

Lemma parse_line_name : field buf 2 = Ok (2 + Z.of_nat (length name), name).
Proof using Hn.
  apply (buf_field [ch "R"; colon] name colon
    (f1 ++ [colon] ++ f2 ++ [colon] ++ f3 ++ [colon] ++ f4 ++ [colon] ++ f5 ++ replicate (S k) 0)); auto.
  unfold buf, line. rewrite <- !app_assoc. reflexivity.
Qed.

(** With a destination port the array for the ports is overrun. *)
Lemma parse_line :
  parse_fields buf (2 + Z.of_nat (length name)) name =
  if bool_decide (f4 = []) then
    Ok (mk_spec_req name
      (Z.lor (flag FILTER_BY_L4_PROTO f1) (Z.lor (flag FILTER_BY_DST_ADDR f2)
      (Z.lor (flag FILTER_BY_SRC_ADDR f3) (Z.lor (flag FILTER_BY_DST_PORT f4)
             (flag FILTER_BY_SRC_PORT f5)))))
      (u32 v2) (u32 v3) (u16 v4) (u16 v5) (u8 v1))
  else Crash OutOfBounds.
Proof using Hn H1 H2 H3 H4 H5.
  set (z := replicate k 0). set (p0 := [ch "R"; colon] ++ name ++ [colon]).
  set (p1 := p0 ++ f1 ++ [colon]). set (p2 := p1 ++ f2 ++ [colon]).
  set (p3 := p2 ++ f3 ++ [colon]). set (p4 := p3 ++ f4 ++ [colon]). unfold parse_fields.
  at_field p0 f1 colon (f2 ++ [colon] ++ f3 ++ [colon] ++ f4 ++ [colon] ++ f5 ++ 0 :: z).
  at_field p1 f2 colon (f3 ++ [colon] ++ f4 ++ [colon] ++ f5 ++ 0 :: z).
  rewrite (clear_array_fits 16 16), result_bind_Ok by lia.
  at_field p2 f3 colon (f4 ++ [colon] ++ f5 ++ 0 :: z).
  at_field p3 f4 colon (f5 ++ 0 :: z).
  unfold clear_array. change (7 <=? 6) with false. rewrite orb_false_r. destruct (bool_decide (f4 = [])); [rewrite result_bind_Ok|done].
  at_field p4 f5 0 z. reflexivity.
Qed.
End Line.

(** ** What the shell writes, the kernel reads *)

(** The values the fields of a request stand for; 0 when they are left out. *)
Definition addr_value (addr : option (list Z)) : Z :=
  match addr with None => 0 | Some a => default 0 (inet_pton a) end.
Definition port_value (port : option (list Z)) : Z :=
  match port with None => 0 | Some p => htons (atoi p) end.
Definition given {A} (f : Z) (o : option A) : Z := match o with None => 0 | Some _ => f end.

(** The protocols the shell knows. *)
Inductive protocol_number : option (list Z) → Z → Prop :=
| proto_none : protocol_number None 0
| proto_udp : protocol_number (Some (str "UDP")) IPPROTO_UDP
| proto_netagg : protocol_number (Some (str "NETAGG")) AGREGATED_IP_ENCAP_IP_PROTO
| proto_appagg : protocol_number (Some (str "APPAGG")) AGREGATED_APPLICATION_ENCAP_UDP_PROTO.

Definition text (o : option (list Z)) (v : Z) : list Z := match o with None => [] | Some _ => dec_d v end.

Lemma octet_range bs v : octet bs = Some v → is_u8 v.
Proof.
  unfold octet. destruct (_ && _) eqn:E; [|done]. intros [= <-]. bool_props. split; [|lia].
  assert (∀ l acc, 0 ≤ acc → 0 ≤ digits_val l acc) as Hpos; [|by apply Hpos].
  intros l. induction l as [|c l IH]; intros acc Ha; simpl; [done|].
  destruct (isdigit c) eqn:Ec; [|done]. apply IH. unfold isdigit in Ec. bool_props. lia.
Qed.

Lemma addr_value_range addr : is_u32 (addr_value addr).
Proof.
  destruct addr as [a|]; [|done]. simpl. unfold inet_pton.
  destruct (split_on 46 a []) as [|x1 [|x2 [|x3 [|x4 [|]]]]]; simpl; try lia.
  destruct (octet x1) eqn:E1; simpl; [|lia]. destruct (octet x2) eqn:E2; simpl; [|lia].
  destruct (octet x3) eqn:E3; simpl; [|lia]. destruct (octet x4) eqn:E4; simpl; [|lia].
  apply octet_range in E1, E2, E3, E4. lia.
Qed.

Lemma port_value_range port : is_u16 (port_value port).
Proof. destruct port; [|done]. apply (bswap_range 2). Qed.

Lemma u32_s32 v : is_u32 v → u32 (s32 v) = v.
Proof. unfold u32, s32, swrap. intros. change (2 ^ (32 - 1)) with (2 ^ 31). dlia. Qed.

Lemma s32_range z : - 2 ^ 31 ≤ s32 z < 2 ^ 31.
Proof. by apply (swrap_range 32). Qed.

Lemma addr_number addr : number_field (text addr (s32 (addr_value addr))) (s32 (addr_value addr)) 16.
Proof.
  destruct addr as [a|]; [right|by left]. pose proof (s32_range (addr_value (Some a))) as H.
  split; [done|]. split; [done|].
  pose proof (dec_d_length (s32 (addr_value (Some a))) 10 ltac:(lia)). lia.
Qed.

Lemma port_number port : number_field (text port (port_value port)) (port_value port) 6.
Proof.
  destruct port as [p|]; [right|by left]. pose proof (port_value_range (Some p)) as H.
  split; [done|]. split; [lia|]. pose proof (dec_d_length_pos (port_value (Some p)) 5). lia.
Qed.

Lemma proto_number proto pn : protocol_number proto pn → number_field (text proto pn) pn 4.
Proof. intros []; [by left|right..]; (split; [done|by vm_compute]). Qed.

Lemma flag_text f o v : flag f (text o v) = given f o.
Proof. destruct o; [|done]. unfold flag. simpl. by rewrite bool_decide_eq_false_2 by apply dec_d_nonnil. Qed.

Lemma addr_field_text addr : addr_field addr = text addr (s32 (addr_value addr)) ++ [colon].
Proof. by destruct addr. Qed.
Lemma dport_field_text port : dport_field port = text port (port_value port) ++ [colon].
Proof. by destruct port. Qed.
Lemma sport_field_text port : sport_field port = text port (port_value port).
Proof. by destruct port. Qed.
Lemma proto_field_text proto pn : protocol_number proto pn → proto_field proto = text proto pn ++ [colon].
Proof. by intros []. Qed.

Lemma number_field_length bs v n : 0 ≤ n → number_field bs v n → Z.of_nat (length bs) ≤ n.
Proof. intros ? [[-> _]|(-> & _ & ?)]; simpl; lia. Qed.

(** The request of the shell is a [line] of the values, filled up with zeroes. *)
Lemma write_to_proc_line name proto pn daddr saddr dport sport id :
  (length name ≤ 700)%nat → protocol_number proto pn →
  ∃ k, length (line name (text proto pn) (text daddr (s32 (addr_value daddr)))
           (text saddr (s32 (addr_value saddr))) (text dport (port_value dport))
           (text sport (port_value sport)) ++ replicate (S k) 0) = 800%nat ∧
    write_to_proc true true (ch "R") (Some name) proto daddr saddr dport sport id =
      Ok (1, Some (line name (text proto pn) (text daddr (s32 (addr_value daddr)))
           (text saddr (s32 (addr_value saddr))) (text dport (port_value dport))
           (text sport (port_value sport)) ++ replicate (S k) 0)).
Proof.
  intros Hl Hp. unfold write_to_proc. change (ch "R" =? ch "R") with true. cbv iota beta zeta.
  rewrite (proto_field_text proto pn), !addr_field_text, dport_field_text, sport_field_text by done.
  rewrite <- !app_assoc.
  pose proof (number_field_length _ _ 4 ltac:(lia) (proto_number proto pn Hp)).
  pose proof (number_field_length _ _ 16 ltac:(lia) (addr_number daddr)).
  pose proof (number_field_length _ _ 16 ltac:(lia) (addr_number saddr)).
  pose proof (number_field_length _ _ 6 ltac:(lia) (port_number dport)).
  pose proof (number_field_length _ _ 6 ltac:(lia) (port_number sport)).
  match goal with |- context [fill ?x] => set (l := x) end.
  assert (length l < 800)%nat as Hlt by (unfold l; rewrite !length_app; simpl; lia).
  exists (799 - length l)%nat. change (line _ _ _ _ _ _) with l. split.
  - rewrite length_app, length_replicate. lia.
  - unfold fill. rewrite (proj2 (Z.leb_le _ _)), result_bind_Ok by lia. cbn [negb].
    do 5 f_equal. lia.
Qed.

(** [parse_request] on a line: what is left to do once it is taken apart. *)
Lemma parse_request_line cb req e name r s :
  nth_byte req 0 = Ok (ch "R") → field req 2 = Ok (e, name) → name ≠ [] →
  parse_fields req e name = r →
  parse_request cb req s =
    (block ← on_mem (kmalloc (OBytes name));
     if is_null block then mret tt
     else
       q ← lift r;
       sp ← on_mem (create_filter_specs (q_filter_by q) (q_daddr q) (q_saddr q) (q_dport q)
                      (q_sport q) (q_proto q));
       create_rule cb (q_name q) sp;; mret tt) s.
Proof.
  intros Hc Hf Hn <-. unfold parse_request.
  erewrite bind_run by (unfold lift; rewrite Hc; reflexivity). rewrite Z.eqb_refl.
  erewrite bind_run by (unfold lift; rewrite Hf; reflexivity). cbv beta iota.
  by rewrite bool_decide_eq_false_2 by done.
Qed.

Lemma text_nil o v : bool_decide (text o v = []) = match o with None => true | Some _ => false end.
Proof. destruct o; [|done]. apply bool_decide_eq_false_2, dec_d_nonnil. Qed.

(** C15: round trip of a rule request.  For a name without separators and a
    protocol the shell knows, the line [mkrule] writes to the proc file is taken
    apart by the kernel.  Without a destination port it gives the name, the selected
    fields and their values as given on the command line (addresses and ports in
    network byte order, 0 where left out), and with these a rule is created; with a
    destination port the kernel clears seven characters of its array of six, past
    the end.  When the block for the name cannot be allocated nothing is done. *)
Theorem rule_request_roundtrip cb name proto pn daddr saddr dport sport id s :
  clean name → name ≠ [] → (length name ≤ 700)%nat → protocol_number proto pn →
  ∃ buf, write_to_proc true true (ch "R") (Some name) proto daddr saddr dport sport id = Ok (1, Some buf) ∧
    procfile_write cb true buf s =
      (block ← on_mem (kmalloc (OBytes name));
       if is_null block then mret 800
       else
         match dport with
         | Some _ => throw OutOfBounds
         | None =>
             sp ← on_mem (create_filter_specs
                    (Z.lor (given FILTER_BY_L4_PROTO proto) (Z.lor (given FILTER_BY_DST_ADDR daddr)
                    (Z.lor (given FILTER_BY_SRC_ADDR saddr) (given FILTER_BY_SRC_PORT sport))))
                    (addr_value daddr) (addr_value saddr) 0 (port_value sport) pn);
             create_rule cb name sp;; mret 800
         end) s.
Proof.
  intros Hc Hn Hl Hp. destruct (write_to_proc_line name proto pn daddr saddr dport sport id Hl Hp)
    as (k & Hlen & Hw). eexists. split; [exact Hw|].
  unfold procfile_write. rewrite Hlen. change (MAX_REGISTRY_LINE <? Z.of_nat 800) with false.
  change (Z.to_nat MAX_REGISTRY_LINE - 800)%nat with 0%nat. cbn [negb]. rewrite app_nil_r.
  erewrite stm_bind_head by (eapply parse_request_line; [reflexivity|by apply parse_line_name|done|
    by apply parse_line; auto using proto_number, addr_number, port_number]).
  rewrite text_nil, stm_bind_assoc. apply stm_bind_ext. intros block s' _. destruct (is_null block); [done|].
  destruct dport as [dp|]; [done|]. rewrite (stm_bind_assoc (lift _)), (bind_run (lift (Ok _)) _ _ _ _ eq_refl).
  cbn [q_name q_filter_by q_daddr q_saddr q_dport q_sport q_proto].
  rewrite !flag_text, !u32_s32, !u16_small, u8_small
    by (auto using addr_value_range, port_value_range; destruct Hp; by vm_compute).
  rewrite stm_bind_assoc. apply stm_bind_ext. intros sp s2 _. by rewrite stm_bind_assoc.
Qed.

Lemma rule_request_roundtrip_witness :
  ∃ buf, write_to_proc true true (ch "R") (Some (str "aggregation")) (Some (str "UDP")) (Some (str "10.0.0.1"))
      None None (Some (str "57843")) None = Ok (1, Some buf) ∧
    procfile_write (fun _ _ => mret None) true buf
      (mk_fw (mk_mem {[ 0%nat := OList None None ]} 1%nat []) [] (Some 0%nat) None 0 false) =
    Ok (800, mk_fw (mk_mem {[ 0%nat := OList None None; 1%nat := OBytes (str "aggregation");
        2%nat := OSpecs 13 17 16777226 0 0 62433 ]} 4%nat [])
        [] (Some 0%nat) None 0 false).
Proof.
  destruct (rule_request_roundtrip (fun _ _ => mret None) (str "aggregation") (Some (str "UDP")) IPPROTO_UDP
    (Some (str "10.0.0.1")) None None (Some (str "57843")) None
    (mk_fw (mk_mem {[ 0%nat := OList None None ]} 1%nat []) [] (Some 0%nat) None 0 false)) as (buf & Hw & Hk).
  - apply (bool_decide_unpack _). by vm_compute.
  - done.
  - simpl. lia.
  - constructor.
  - exists buf. split; [exact Hw|]. rewrite Hk. vm_compute. reflexivity.
Defined.

Lemma atoi_range bs : - 2 ^ 31 ≤ atoi bs < 2 ^ 31.
Proof. unfold atoi. destruct (skip_spaces bs); [lia|]. repeat case_test; apply s32_range. Qed.

(** Round trip of a removal: the number given to [rmrule] is the one of the
    rule the kernel removes (as an unsigned number). *)
Theorem removal_roundtrip cb id s :
  ∃ buf, write_to_proc true true (ch "U") None None None None None None (Some id) = Ok (1, Some buf) ∧
    procfile_write cb true buf s = (remove_rule (u32 (atoi id));; mret 800) s.
Proof.
  pose proof (dec_d_length (atoi id) 10 ltac:(pose proof (atoi_range id); lia)) as Hlen.
  unfold write_to_proc. change (ch "U" =? ch "R") with false. change (ch "U" =? ch "U") with true.
  cbv iota beta zeta. unfold fill. rewrite (proj2 (Z.leb_le _ _)), result_bind_Ok by (simpl; lia).
  cbn [negb]. eexists. split; [reflexivity|].
  set (k := (799 - length ([ch "U"; colon] ++ dec_d (atoi id)))%nat).
  replace (800 - _)%nat with (S k) by (subst k; simpl; lia).
  set (buf := _ ++ replicate (S k) 0).
  assert (length buf = 800%nat) as Hb.
  { unfold buf, k. rewrite length_app, length_replicate. simpl. lia. }
  unfold procfile_write. rewrite Hb. change (MAX_REGISTRY_LINE <? Z.of_nat 800) with false.
  change (Z.to_nat MAX_REGISTRY_LINE - 800)%nat with 0%nat. cbn [negb]. rewrite app_nil_r.
  apply stm_bind_head. unfold parse_request. erewrite bind_run by reflexivity.
  change (ch "U" =? ch "R") with false. change (ch "U" =? ch "U") with true. cbv iota.
  assert (parse_unregister buf = Ok (Some (u32 (atoi id)))) as Hp.
  { unfold parse_unregister, buf. rewrite <- app_assoc.
    change (replicate (S k) 0) with (0 :: replicate k 0).
    rewrite field_at, result_bind_Ok by (auto using clean_dec_d).
    rewrite bool_decide_eq_false_2 by apply dec_d_nonnil.
    erewrite number_field_value; [reflexivity|]. right. split; [done|]. split; [apply atoi_range|lia]. }
  by erewrite bind_run by (unfold lift; rewrite Hp; reflexivity).
Qed.

(** A protocol name the shell does not know leaves out its field together
    with the separator, so the destination address arrives in the place of the
    protocol; with more than four characters it is copied past the end of the
    kernel's [proto_s]. *)
Theorem unknown_protocol_overflows name p a saddr dport sport id :
  clean name → name ≠ [] → (length name ≤ 700)%nat →
  p ≠ str "UDP" → p ≠ str "NETAGG" → p ≠ str "APPAGG" →
  (4 < length (dec_d (s32 (addr_value (Some a)))))%nat →
  ∃ buf e, write_to_proc true true (ch "R") (Some name) (Some p) (Some a) saddr dport sport id = Ok (1, Some buf) ∧
    field buf 2 = Ok (e, name) ∧ parse_fields buf e name = Crash OutOfBounds.
Proof.
  intros Hc Hn Hl H1 H2 H3 Hlong. unfold write_to_proc. change (ch "R" =? ch "R") with true.
  cbv iota beta zeta. unfold proto_field, streq. rewrite !bool_decide_eq_false_2 by congruence.
  rewrite !addr_field_text, dport_field_text, sport_field_text, <- !app_assoc.
  pose proof (number_field_length _ _ 16 ltac:(lia) (addr_number (Some a))).
  pose proof (number_field_length _ _ 16 ltac:(lia) (addr_number saddr)).
  pose proof (number_field_length _ _ 6 ltac:(lia) (port_number dport)).
  pose proof (number_field_length _ _ 6 ltac:(lia) (port_number sport)).
  set (da := text (Some a) (s32 (addr_value (Some a)))) in *.
  match goal with |- context [fill ?x] => set (l := x) end.
  assert (length l < 800)%nat as Hlt by (unfold l; rewrite !length_app; cbn [length]; lia).
  unfold fill. rewrite (proj2 (Z.leb_le _ _)), result_bind_Ok by lia. cbn [negb].
  exists (l ++ replicate (800 - length l) 0), (2 + Z.of_nat (length name)). split; [done|].
  set (rest := text saddr (s32 (addr_value saddr)) ++ [colon] ++ text dport (port_value dport) ++ [colon]
                 ++ text sport (port_value sport) ++ replicate (800 - length l) 0).
  assert (l ++ replicate (800 - length l) 0 =
          [ch "R"; colon] ++ name ++ colon :: da ++ colon :: rest) as ->.
  { unfold l, rest. rewrite <- !app_assoc. reflexivity. }
  split; [apply field_at; auto|].
  unfold parse_fields.
  replace ([ch "R"; colon] ++ name ++ colon :: da ++ colon :: rest)
    with (([ch "R"; colon] ++ name ++ [colon]) ++ da ++ colon :: rest) by (by rewrite <- !app_assoc).
  rewrite field_at, result_bind_Ok; [|apply clean_dec_d|auto|rewrite !length_app; simpl; lia].
  unfold number, into_array. rewrite bool_decide_eq_false_2 by apply dec_d_nonnil.
  change (dec_d (s32 (addr_value (Some a)))) with da in Hlong.
  by rewrite (proj2 (Z.leb_gt _ _)) by lia.
Qed.

Lemma unknown_protocol_overflows_witness :
  ∃ buf e, write_to_proc true true (ch "R") (Some (str "aggregation")) (Some (str "TCP"))
      (Some (str "192.168.0.1")) None None None None = Ok (1, Some buf) ∧
    field buf 2 = Ok (e, str "aggregation") ∧ parse_fields buf e (str "aggregation") = Crash OutOfBounds.
Proof.
  apply unknown_protocol_overflows; [|done| |done..|].
  - apply (bool_decide_unpack _). by vm_compute.
  - simpl. lia.
  - vm_compute. lia.
Defined.
