(* ===== verification/ProcListing.v ===== *)
(** * The listing of the framework in /proc

    Models [fred_framework/proc_entry.c]: the text with the interceptors, the
    rules and their filters, which is kept in a buffer and made again when the
    framework has changed.  The driver's listing of its filters
    ([rt2501/sources/Module/proc_filters.c], [DriverListing]) has the same buffer
    with the same operations. *)

From S2P Require Import Prelude CString Klist Chains Managers.

(** ** The buffer

    [file_buffer] is [None] for NULL; [grants] are the outcomes of the next
    allocations (none left: they succeed). *)
Record cache : Type := mk_cache {
  buffer_size : Z; buffer_offset : Z; file_buffer : option (list Z); grants : list bool
}.

Definition granted (c : cache) : bool := match grants c with b :: _ => b | [] => true end.

(** The size is doubled; what was in the buffer is not copied. *)
Definition realloc_proc_contents : stm cache unit := modify (fun c =>
  if granted c then
    let size := u32 (Z.shiftl (buffer_size c) 1) in
    mk_cache size (buffer_offset c) (Some (replicate (Z.to_nat size) 0)) (tail (grants c))
  else mk_cache (buffer_size c) (buffer_offset c) None (tail (grants c))).

Definition append_to_buffer (bs : list Z) : stm cache unit :=
  c ← get;
  b ← unless_null (file_buffer c);
  b ← lift (set_bytes b (buffer_offset c) bs);
  put (mk_cache (buffer_size c) (u32 (buffer_offset c + Z.of_nat (length bs))) (Some b) (grants c)).

(** [if (proc_contents.buffer_size - proc_contents.buffer_offset < n) realloc_proc_contents();] *)
Definition ensure (n : Z) : stm cache unit :=
  c ← get; if u32 (buffer_size c - buffer_offset c) <? n then realloc_proc_contents else mret tt.

(** [memset(proc_contents.file_buffer, 0, proc_contents.buffer_size)]. *)
Definition clear_buffer : stm cache unit :=
  c ← get;
  b ← unless_null (file_buffer c);
  b ← lift (set_bytes b 0 (replicate (Z.to_nat (buffer_size c)) 0));
  put (mk_cache (buffer_size c) (buffer_offset c) (Some b) (grants c)).

Definition create_proc_contents (grants : list bool) : cache :=
  match grants with
  | false :: g => mk_cache 0 0 None g
  | _ => mk_cache 1024 0 (Some (replicate 1024 0)) (tail grants)
  end.

(** ** Texts *)

Definition tab : list Z := [9].
Definition nl : list Z := [10].

(** [sprintf] of [t] into an array of [n] bytes that are 0. *)
Definition in_array (n : nat) (t : list Z) : result (list Z) :=
  if (length t <? n)%nat then Ok (t ++ replicate (n - length t) 0) else Crash OutOfBounds.

Definition quad (a b c d : Z) : list Z :=
  dec_d a ++ str "." ++ dec_d b ++ str "." ++ dec_d c ++ str "." ++ dec_d d.
(** [%d.%d.%d.%d] of [NIPQUAD(addr)]: the bytes in the order of memory. *)
Definition nipquad (addr : Z) : list Z :=
  match le_bytes 4 addr with [a; b; c; d] => quad a b c d | _ => [] end.

Definition priority_text (prio : Z) : list Z :=
  (if prio =? FILTER_PRIO_FIRST then str "MAX"
   else if prio =? FILTER_PRIO_LAST then str "MIN"
   else if prio =? FILTER_PRIO_UNSPECIFIED then str "USP"
   else str "UNK") ++ tab.
Definition filter_at_text (at_ : Z) : list Z :=
  if at_ =? FILTER_AT_LOCAL_IN then str "Local in" ++ tab
  else if at_ =? FILTER_AT_LOCAL_OUT then str "Local out" ++ tab
  else if at_ =? FILTER_AT_FWD then str "Forward" ++ tab
  else if at_ =? FILTER_AT_PRE_RT then str "Pre rt" ++ tab
  else if at_ =? FILTER_AT_POST_RT then str "Post rt" ++ tab
  else [].
Definition protocol_text (proto : Z) : list Z :=
  if proto =? IPPROTO_UDP then str "UDP" ++ tab ++ tab
  else if proto =? AGREGATED_APPLICATION_ENCAP_UDP_PROTO then str "APPAGG" ++ tab
  else if proto =? AGREGATED_IP_ENCAP_IP_PROTO then str "NETAGG" ++ tab
  else str "--" ++ tab ++ tab.

(** The address and port columns, as arrays of 17 and 7 bytes. *)
Definition dst_addr_column (sp : specs_rec) : result (list Z) :=
  in_array 17 (if filters_by sp FILTER_BY_DST_ADDR then nipquad (sp_dst_addr sp) ++ tab else str "--" ++ tab).
Definition src_addr_column (sp : specs_rec) : result (list Z) :=
  in_array 17 (if filters_by sp FILTER_BY_SRC_ADDR then nipquad (sp_src_addr sp) ++ tab else str "--" ++ tab ++ tab).
Definition dst_port_column (sp : specs_rec) : result (list Z) :=
  in_array 7 (if filters_by sp FILTER_BY_DST_PORT then dec_d (bswap 2 (sp_dst_port sp)) ++ tab else str "--" ++ tab).
Definition src_port_column (sp : specs_rec) : result (list Z) :=
  in_array 7 (if filters_by sp FILTER_BY_SRC_PORT then dec_d (bswap 2 (sp_src_port sp)) else str "--").

(** ** The listing *)

Definition listing : Type := fw * cache.
Definition on_fw {A} (m : stm fw A) : stm listing A := fun s =>
  match m s.1 with Ok (a, f) => Ok (a, (f, s.2)) | Crash c => Crash c end.
Definition on_cache {A} (m : stm cache A) : stm listing A := fun s =>
  match m s.2 with Ok (a, c) => Ok (a, (s.1, c)) | Crash e => Crash e end.

Definition append (bs : list Z) : stm listing unit := on_cache (append_to_buffer bs).

Definition fill_buffer_with_filter (f : ptr) : stm listing unit :=
  on_cache (ensure 68);;
  fr ← on_fw (on_mem (get_filter f));
  append (priority_text (f_priority fr));;
  append (filter_at_text (f_filter_at fr));;
  sp ← on_fw (on_mem (get_specs (f_specs fr)));
  append (protocol_text (sp_protocol sp));;
  t ← lift (dst_addr_column sp); append t;;
  t ← lift (src_addr_column sp); append t;;
  t ← lift (dst_port_column sp); append t;;
  t ← lift (src_port_column sp); append t;;
  append nl.

Fixpoint list_filters (todo i : nat) (filters : ptr) : stm listing unit :=
  match todo with
  | O => mret tt
  | S todo' =>
      append tab;;
      f ← on_fw (on_mem (get_elem filters i));
      fill_buffer_with_filter f;;
      list_filters todo' (S i) filters
  end.

Definition listing_header : list Z := str "List of available interceptors and registered filters:" ++ nl.
Definition columns_header : list Z :=
  tab ++ str "Prio" ++ tab ++ str "At" ++ tab ++ str "Protocol" ++ tab ++ str "Dst" ++ tab ++ tab ++ str "Src" ++ tab ++ tab ++
  str "Dport" ++ tab ++ tab ++ str "Sport" ++ nl.

(** [for (i = ...; klist_iterator_has_next(i);) { ... = klist_iterator_next(i)->data; body }]. *)
Fixpoint for_each (fuel : nat) (i : ptr) (body : ptr → stm listing unit) : stm listing unit :=
  match fuel with
  | O => throw Diverges
  | S n =>
      more ← on_fw (on_mem (klist_iterator_has_next i));
      if (more : bool) then
        kn ← on_fw (on_mem (klist_iterator_next i));
        '(data, _, _) ← on_fw (on_mem (get_node kn));
        body data;;
        for_each n i body
      else mret tt
  end.

Definition list_interceptor (id : ptr) : stm listing unit :=
  '(name, _) ← on_fw (on_mem (get_desc id));
  on_cache (ensure (strlen name + 3));;
  append (str "* ");;
  append (cstr name);;
  append nl.

(** [ruleid] is an array of 10 bytes. *)
Definition list_rule (r : ptr) : stm listing unit :=
  rr ← on_fw (on_mem (get_rule r));
  '(name, _) ← on_fw (on_mem (get_desc (r_interceptor rr)));
  ruleid ← lift (in_array 10 (dec_u (r_id rr)));
  on_cache (ensure (strlen name + 15 + strlen ruleid));;
  append nl;;
  append (str ">> Rule ");;
  append (cstr ruleid);;
  append (str " for ");;
  append (cstr name);;
  append nl;;
  on_cache (ensure 39);;
  append columns_header;;
  list_filters (Z.to_nat (r_number_of_filters rr)) 0 (r_filters rr).

Definition set_clean : stm fw unit := modify (fun s =>
  mk_fw (fmem s) (chains s) (int_list s) (manager_rule_list s) (next_rule_id s) false).

(** [buffer_offset] is not set back. *)
Definition fill_proc_contents : stm listing unit :=
  on_cache clear_buffer;;
  append listing_header;;
  i ← on_fw get_interceptor_iterator;
  fuel ← on_fw loop_fuel;
  for_each fuel i list_interceptor;;
  on_fw (on_mem (free_klist_iterator i));;
  i ← on_fw get_rules_iterator;
  fuel ← on_fw loop_fuel;
  for_each fuel i list_rule;;
  on_fw (on_mem (free_klist_iterator i));;
  on_fw set_clean.

(** The bytes handed out and the result; [eof] is set with the result 0. *)
Definition copy_out (c : cache) (offset buffer_length : Z) : result (list Z * Z) :=
  let left := u32 (buffer_offset c + 1 - offset) in
  let n := if u32 buffer_length <? left then buffer_length else left in
  if n =? 0 then Ok ([], 0)
  else match file_buffer c with
       | None => Crash NullDeref
       | Some b => bs ← sub_bytes b offset n; Ok (bs, n)
       end.
Definition procfile_read (offset buffer_length : Z) : stm listing (list Z * Z) :=
  s ← get;
  (if proc_dirty s.1 then fill_proc_contents else mret tt);;
  s ← get;
  lift (copy_out s.2 offset buffer_length).

(** [create_interceptor_proc_entry]; [clear_interceptor_proc_entry] frees the
    buffer. *)
Definition create_interceptor_proc_entry (grants : list bool) : stm listing unit := fun s =>
  Ok (tt, (mk_fw (fmem s.1) (chains s.1) (int_list s.1) (manager_rule_list s.1) (next_rule_id s.1) true,
           create_proc_contents grants)).
Definition clear_interceptor_proc_entry : stm listing unit := fun s =>
  Ok (tt, (s.1, mk_cache (buffer_size s.2) (buffer_offset s.2) None (grants s.2))).

(** ** What is printed

    [shown off size t g]: the text [t] from the offset [off] on in a buffer of
    [size] bytes that is 0 otherwise. *)
Definition shown (off size : nat) (t : list Z) (g : list bool) : cache :=
  mk_cache (Z.of_nat size) (Z.of_nat (off + length t))
    (Some (replicate off 0 ++ t ++ replicate (size - off - length t) 0)) g.

(** No check asks for more than 70 bytes beyond what is then written. *)
Definition slack : nat := 70.

(** [m] takes the framework from [f] to [f'] and appends [t], where [t] and the
    slack fit. *)
Definition prints (f f' : fw) (m : stm listing unit) (t : list Z) : Prop :=
  ∀ off size x g, (off + length x + length t + slack ≤ size)%nat → Z.of_nat size < 2 ^ 31 →
    m (f, shown off size x g) = Ok (tt, (f', shown off size (x ++ t) g)).

Lemma set_bytes_middle a b c n :
  length b = length n → set_bytes (a ++ b ++ c) (Z.of_nat (length a)) n = Ok (a ++ n ++ c).
Proof.
  intros E. unfold set_bytes. rewrite !length_app, Nat2Z.id, take_app_length.
  rewrite <- drop_drop, drop_app_length, <- E, drop_app_length.
  rewrite (proj2 (Z.leb_le _ _)), (proj2 (Z.leb_le _ _)) by lia. done.
Qed.

Lemma shown_append off size x g t :
  (off + length x + length t ≤ size)%nat → Z.of_nat size < 2 ^ 31 →
  append_to_buffer t (shown off size x g) = Ok (tt, shown off size (x ++ t) g).
Proof.
  intros Hfit Hs. unfold append_to_buffer, shown.
  rewrite (bind_run get _ _ _ _ eq_refl). cbn [file_buffer unless_null buffer_offset buffer_size grants].
  rewrite (bind_run (mret _) _ _ _ _ eq_refl).
  replace (size - off - length x)%nat with (length t + (size - off - length (x ++ t)))%nat by (rewrite length_app; lia).
  rewrite replicate_add, app_assoc.
  pose proof (set_bytes_middle (replicate off 0 ++ x) (replicate (length t) 0)
                (replicate (size - off - length (x ++ t)) 0) t (length_replicate _ _)) as E.
  rewrite (length_app (replicate off 0)), length_replicate in E.
  erewrite bind_run by (unfold lift; rewrite E; reflexivity).
  unfold put. rewrite <- !app_assoc, u32_small by (rewrite length_app in *; lia). repeat f_equal. rewrite length_app. lia.
Qed.

Lemma clear_shown size b off g :
  length b = size → clear_buffer (mk_cache (Z.of_nat size) off (Some b) g) =
    Ok (tt, mk_cache (Z.of_nat size) off (Some (replicate size 0)) g).
Proof.
  intros Hb. unfold clear_buffer. rewrite (bind_run get _ _ _ _ eq_refl).
  cbn [file_buffer unless_null buffer_size]. rewrite (bind_run (mret _) _ _ _ _ eq_refl), Nat2Z.id.
  pose proof (set_bytes_middle [] b [] (replicate size 0)) as E. rewrite !app_nil_r in E.
  cbn [app length] in E. change (Z.of_nat 0) with 0 in E.
  by erewrite bind_run by (unfold lift; rewrite E by (by rewrite length_replicate); reflexivity).
Qed.

Section Prints.
Context (f : fw).

Lemma prints_nil : prints f f (mret tt) [].
Proof. intros off size x g _ _. by rewrite app_nil_r. Qed.

Lemma prints_append t : prints f f (append t) t.
Proof.
  intros off size x g Hfit Hs. unfold append, on_cache. cbn [fst snd].
  by rewrite shown_append by (unfold slack in *; lia).
Qed.

Lemma prints_seq f1 f2 m m' t t' :
  prints f f1 m t → prints f1 f2 m' t' → prints f f2 (m;; m') (t ++ t').
Proof.
  intros Hm Hm' off size x g Hfit Hs. rewrite length_app in Hfit.
  rewrite (bind_run _ _ _ _ _ (Hm off size x g ltac:(lia) Hs)).
  rewrite Hm' by (rewrite ?length_app; lia). by rewrite app_assoc.
Qed.

Lemma prints_then f2 t m' t' : prints f f2 m' t' → prints f f2 (append t;; m') (t ++ t').
Proof. apply prints_seq, prints_append. Qed.

Lemma prints_ensure n f2 m t :
  n ≤ Z.of_nat (length t + slack) → prints f f2 m t → prints f f2 (on_cache (ensure n);; m) t.
Proof.
  intros Hn Hm off size x g Hfit Hs. rewrite <- (Hm off size x g Hfit Hs).
  apply (bind_run (on_cache (ensure n)) (fun _ => m) _ tt). unfold on_cache, ensure. cbn [fst snd].
  rewrite (bind_run get _ _ _ _ eq_refl). cbn [buffer_size buffer_offset shown].
  rewrite u32_small by (unfold slack in *; lia).
  by rewrite (proj2 (Z.ltb_ge _ _)) by (unfold slack in *; lia).
Qed.

Lemma prints_fw {A} (m : stm fw A) a f1 f2 k t :
  m f = Ok (a, f1) → prints f1 f2 (k a) t → prints f f2 (on_fw m ≫= k) t.
Proof.
  intros E Hk off size x g Hfit Hs. rewrite <- (Hk off size x g Hfit Hs).
  apply (bind_run (on_fw m) k). unfold on_fw. cbn [fst snd]. by rewrite E.
Qed.

Lemma prints_mem {A} (m : stm mem A) a f2 k t :
  m (fmem f) = Ok (a, fmem f) → prints f f2 (k a) t → prints f f2 (on_fw (on_mem m) ≫= k) t.
Proof. intros E. apply prints_fw, on_mem_same, E. Qed.

Lemma prints_lift {A} (r : result A) a f2 k t :
  r = Ok a → prints f f2 (k a) t → prints f f2 (lift r ≫= k) t.
Proof. intros -> Hk off size x g Hfit Hs. rewrite <- (Hk off size x g Hfit Hs). by apply (bind_run (lift (Ok a)) k). Qed.
End Prints.

(** ** Rows

    What the columns hold, with the NUL bytes that fill the arrays. *)
Definition pad (n : nat) (t : list Z) : list Z := t ++ replicate (n - length t) 0.

Lemma in_array_pad n t : (length t < n)%nat → in_array n t = Ok (pad n t).
Proof. intros H. unfold in_array. by rewrite (proj2 (Nat.ltb_lt _ _) H). Qed.

Lemma length_pad n t : (length t ≤ n)%nat → length (pad n t) = n.
Proof. intros. unfold pad. rewrite length_app, length_replicate. lia. Qed.

Definition addr_text (given : bool) (addr : Z) (none : list Z) : list Z :=
  if given then nipquad addr ++ tab else none.
Definition port_text (given : bool) (port : Z) (after none : list Z) : list Z :=
  if given then dec_d (bswap 2 port) ++ after else none.

Definition filter_row (fr : filter_rec) (sp : specs_rec) : list Z :=
  priority_text (f_priority fr) ++ filter_at_text (f_filter_at fr) ++ protocol_text (sp_protocol sp) ++
  pad 17 (addr_text (filters_by sp FILTER_BY_DST_ADDR) (sp_dst_addr sp) (str "--" ++ tab)) ++
  pad 17 (addr_text (filters_by sp FILTER_BY_SRC_ADDR) (sp_src_addr sp) (str "--" ++ tab ++ tab)) ++
  pad 7 (port_text (filters_by sp FILTER_BY_DST_PORT) (sp_dst_port sp) tab (str "--" ++ tab)) ++
  pad 7 (port_text (filters_by sp FILTER_BY_SRC_PORT) (sp_src_port sp) [] (str "--")) ++ nl.

Lemma length_nipquad addr : (length (nipquad addr) ≤ 15)%nat.
Proof.
  unfold nipquad. pose proof (le_bytes_ok 4 addr) as H. pose proof (length_le_bytes 4 addr) as E.
  destruct (le_bytes 4 addr) as [|a [|b [|c [|d [|]]]]]; try discriminate.
  assert (∀ x, x ∈ [a; b; c; d] → (length (dec_d x) ≤ 3)%nat) as Hl.
  { intros x Hx. unfold bytes_ok in H. rewrite Forall_forall in H. apply dec_d_length_pos; [|lia].
    specialize (H x Hx). simpl. lia. }
  unfold quad. rewrite !length_app. cbn [length str].
  pose proof (Hl a ltac:(repeat constructor)). pose proof (Hl b ltac:(repeat constructor)).
  pose proof (Hl c ltac:(repeat constructor)). pose proof (Hl d ltac:(repeat constructor)). lia.
Qed.

Lemma length_addr_text given addr none :
  (length none < 17)%nat → (length (addr_text given addr none) < 17)%nat.
Proof.
  intros. unfold addr_text. destruct given; [|done]. rewrite length_app.
  pose proof (length_nipquad addr). cbn [length tab]. lia.
Qed.

Lemma length_port_text given port after none :
  (length none < 7)%nat → (length after ≤ 1)%nat → (length (port_text given port after none) < 7)%nat.
Proof.
  intros. unfold port_text. destruct given; [|done]. rewrite length_app.
  pose proof (bswap_range 2 port) as Hr.
  pose proof (dec_d_length_pos (bswap 2 port) 5 ltac:(simpl in *; lia) ltac:(lia)). lia.
Qed.

Lemma src_port_ok sp : src_port_column sp =
  Ok (pad 7 (port_text (filters_by sp FILTER_BY_SRC_PORT) (sp_src_port sp) [] (str "--"))).
Proof.
  rewrite <- in_array_pad by (apply length_port_text; simpl; lia).
  unfold src_port_column, port_text. by rewrite app_nil_r.
Qed.

(** The row of a filter takes at most 70 bytes. *)
Lemma length_filter_row fr sp : (57 ≤ length (filter_row fr sp) ≤ 70)%nat.
Proof.
  unfold filter_row. rewrite !length_app, !length_pad
    by first [apply Nat.lt_le_incl, length_addr_text; simpl; lia
             |apply Nat.lt_le_incl, length_port_text; simpl; lia].
  assert (length (priority_text (f_priority fr)) = 4)%nat as -> by (unfold priority_text; repeat case_match; done).
  assert (length (filter_at_text (f_filter_at fr)) ≤ 10)%nat by (unfold filter_at_text; repeat case_match; simpl; lia).
  assert (4 ≤ length (protocol_text (sp_protocol sp)) ≤ 7)%nat by (unfold protocol_text; repeat case_match; simpl; lia).
  cbn [length nl]. lia.
Qed.

(** ** What the framework holds *)

Definition filter_in (h : gmap loc obj) (p : ptr) (v : filter_rec * specs_rec) : Prop :=
  ∃ l sl, p = Some l ∧ f_specs v.1 = Some sl ∧
    h !! l = Some (OFilter (f_priority v.1) (f_filter_at v.1) (f_rule v.1) (f_specs v.1) (f_apply v.1)) ∧
    h !! sl = Some (OSpecs (sp_filter_by v.2) (sp_protocol v.2) (sp_dst_addr v.2) (sp_src_addr v.2)
                      (sp_dst_port v.2) (sp_src_port v.2)).

Record rule_view : Type := mk_rule_view {
  v_id : Z; v_name : list Z; v_filters : list (filter_rec * specs_rec)
}.
(** Identifiers of at most 9 digits, which [ruleid] has room for. *)
Definition rule_in (h : gmap loc obj) (x : loc * ptr) (v : rule_view) : Prop :=
  ∃ r i cb fs es, x.2 = Some r ∧ 0 ≤ v_id v < 10 ^ 9 ∧
    h !! r = Some (ORule (v_id v) (Some i) (Z.of_nat (length (v_filters v))) (Some fs)) ∧
    h !! i = Some (ODesc (v_name v) cb) ∧ h !! fs = Some (OArray es) ∧
    Forall2 (filter_in h) es (v_filters v).

Definition interceptor_text (name : list Z) : list Z := str "* " ++ cstr name ++ nl.
Definition rule_text (v : rule_view) : list Z :=
  nl ++ str ">> Rule " ++ dec_u (v_id v) ++ str " for " ++ cstr (v_name v) ++ nl ++ columns_header ++
  concat (map (fun '(fr, sp) => tab ++ filter_row fr sp) (v_filters v)).
Definition listing_text (names : list (list Z)) (rules : list rule_view) : list Z :=
  listing_header ++ concat (map interceptor_text names) ++ concat (map rule_text rules).

(** ** The parts of the listing print their text *)

Section Parts.
Context (f : fw).

Lemma get_elem_run m l es i e :
  objs m !! l = Some (OArray es) → es !! i = Some e → get_elem (Some l) i m = Ok (e, m).
Proof. intros H E. unfold get_elem. rewrite (bind_run _ _ _ _ _ (load_run _ _ _ H)). by rewrite E. Qed.

Lemma filter_prints p v :
  filter_in (objs (fmem f)) p v → prints f f (fill_buffer_with_filter p) (filter_row v.1 v.2).
Proof.
  destruct v as [[prio at_ r spp ap] sp]. intros (l & sl & -> & Es & Hl & Hs). cbn [fst snd f_specs f_priority f_filter_at f_rule f_apply] in *. subst spp.
  unfold fill_buffer_with_filter. apply prints_ensure; [unfold slack; lia|].
  eapply prints_mem; [by eapply get_filter_run|]. cbn [f_specs f_priority f_filter_at].
  do 2 apply prints_then. eapply prints_mem; [by eapply get_specs_run|]. destruct sp as [fb pr da sa dp sp].
  apply prints_then.
  eapply prints_lift; [apply in_array_pad, length_addr_text; simpl; lia|apply prints_then].
  eapply prints_lift; [apply in_array_pad, length_addr_text; simpl; lia|apply prints_then].
  eapply prints_lift; [apply in_array_pad, length_port_text; simpl; lia|apply prints_then].
  eapply prints_lift; [apply src_port_ok|].
  apply prints_then, prints_append.
Qed.

Lemma filters_prints fs es vs :
  objs (fmem f) !! fs = Some (OArray es) → Forall2 (filter_in (objs (fmem f))) es vs →
  ∀ vs' i, drop i vs = vs' →
  prints f f (list_filters (length vs') i (Some fs)) (concat (map (fun '(fr, sp) => tab ++ filter_row fr sp) vs')).
Proof.
  intros Hfs Hall vs'. induction vs' as [|v vs' IH]; intros i Hi; [apply prints_nil|].
  assert (vs !! i = Some v) as Hv by (rewrite <- (Nat.add_0_r i), <- lookup_drop, Hi; done).
  destruct (Forall2_lookup_r _ _ _ _ _ Hall Hv) as (e & He & Hf).
  cbn [list_filters length map concat]. destruct v as [fr sp]. rewrite <- !app_assoc.
  apply prints_then. eapply prints_mem; [by eapply get_elem_run|].
  apply prints_seq with f; [by apply (filter_prints _ (fr, sp))|]. apply IH.
  rewrite <- Nat.add_1_r, <- drop_drop, Hi. done.
Qed.

Lemma interceptor_prints d name cb :
  objs (fmem f) !! d = Some (ODesc name cb) → prints f f (list_interceptor (Some d)) (interceptor_text name).
Proof.
  intros Hd. unfold list_interceptor. eapply prints_mem; [by eapply get_desc_run|].
  apply prints_ensure; [unfold interceptor_text, strlen; rewrite !length_app; cbn [length str nl]; lia|].
  do 2 apply prints_then. apply prints_append.
Qed.

Lemma rule_prints x v : rule_in (objs (fmem f)) x v → prints f f (list_rule x.2) (rule_text v).
Proof.
  intros (r & i & cb & fs & es & -> & Hid & Hr & Hi & Hfs & Hall). unfold list_rule.
  eapply prints_mem; [by eapply get_rule_run|]. cbn [r_interceptor r_id r_number_of_filters r_filters].
  eapply prints_mem; [by eapply get_desc_run|].
  pose proof (dec_aux_length 20 (v_id v) 9 Hid ltac:(lia)) as Hlen.
  eapply prints_lift; [apply in_array_pad; unfold dec_u; lia|].
  assert (cstr (pad 10 (dec_u (v_id v))) = dec_u (v_id v)) as E.
  { unfold pad. destruct (10 - length _)%nat eqn:E; [unfold dec_u in E; lia|]. apply cstr_app_nul, dec_u_no_nul. lia. }
  unfold strlen, rule_text. rewrite E. apply prints_ensure.
  { rewrite !length_app. unfold strlen. cbn [length str nl]. lia. }
  do 6 apply prints_then. apply prints_ensure; [unfold slack; lia|]. apply prints_then.
  rewrite Nat2Z.id. by apply (filters_prints fs es (v_filters v)).
Qed.
End Parts.

(** ** The loops over the lists *)

Lemma filter_in_fresh h it o p v : filter_in h p v → h !! it = None → filter_in (<[it := o]> h) p v.
Proof.
  intros (l & sl & ? & ? & Hl & Hs) Hit. exists l, sl. do 2 (split; [done|]).
  split; (rewrite lookup_insert_ne; [done|congruence]).
Qed.

Lemma rule_in_fresh h it o x v : rule_in h x v → h !! it = None → rule_in (<[it := o]> h) x v.
Proof.
  intros (r & i & cb & fs & es & ? & ? & ? & ? & ? & Hall) Hit. exists r, i, cb, fs, es.
  do 2 (split; [done|]). do 3 (split; [rewrite lookup_insert_ne; [done|congruence]|]).
  eapply Forall2_impl; [exact Hall|]. intros. by apply filter_in_fresh.
Qed.

Section Loops.
Context (f : fw) (it kl : loc) (l : list (loc * ptr)) (nx : loc) (fl : list bool).
Context (Hd : dll (objs (fmem f)) kl l) (Hfresh : objs (fmem f) !! it = None).

(** The framework with the iterator at [it] before the [i]-th node. *)
Definition during (i : nat) : fw := set_fmem (find_mem (objs (fmem f)) it kl l nx fl i) f.

Lemma during_pos i : at_pos (objs (fmem (during i))) it kl l i.
Proof using Hd Hfresh. apply iter_pos. by eapply it_not_in. Qed.
Lemma during_dll i : dll (objs (fmem (during i))) kl l.
Proof using Hd Hfresh.
  destruct (it_not_in _ it kl l Hd Hfresh). by apply (dll_upd_other (mk_mem (objs (fmem f)) nx fl)).
Qed.
Lemma during_next i n d :
  l !! i = Some (n, d) → on_mem (klist_iterator_next (Some it)) (during i) = Ok (Some n, during (S i)).
Proof using Hd Hfresh.
  intros Hi. rewrite (on_mem_run _ _ _ _ (next_run _ it kl l i n d (during_dll i) (during_pos i) Hi)).
  unfold during, set_fmem, upd, find_mem. cbn [fmem objs next fails chains int_list manager_rule_list next_rule_id proc_dirty].
  by rewrite insert_insert_eq.
Qed.
Lemma during_done : on_mem (free_klist_iterator (Some it)) (during (length l)) =
  Ok (tt, set_fmem (mk_mem (objs (fmem f)) nx fl) f).
Proof using Hfresh.
  unfold during, on_mem, free_klist_iterator. cbn [fmem set_fmem].
  rewrite (kfree_run _ _ _ (lookup_insert_eq _ _ _)). unfold find_mem. cbn [objs next fails].
  by rewrite delete_insert_id.
Qed.

Lemma for_each_prints body ts :
  Forall2 (fun x t => ∀ i, prints (during i) (during i) (body x.2) t) l ts →
  ∀ fuel i, (length l - i < fuel)%nat → (i ≤ length l)%nat →
  prints (during i) (during (length l)) (for_each fuel (Some it) body) (concat (drop i ts)).
Proof using Hd Hfresh.
  intros Hall. pose proof (Forall2_length _ _ _ Hall) as Hlen.
  induction fuel as [|fuel IH]; intros i Hfuel Hi; [lia|]. cbn [for_each].
  eapply prints_mem; [exact (has_next_run _ _ _ _ _ (during_pos i))|]. case_bool_decide as Hlt.
  2: { assert (i = length l) as -> by lia. rewrite drop_ge by lia. apply prints_nil. }
  destruct (neighbour l i Hlt) as (n & d & Hin & _).
  destruct (Forall2_lookup_l _ _ _ _ _ Hall Hin) as (t & Ht & Hp).
  eapply prints_fw; [exact (during_next i n d Hin)|].
  eapply prints_mem; [exact (get_node_run _ _ _ _ _ (proj2 (proj2 (during_dll (S i))) _ _ _ Hin))|].
  rewrite (drop_S _ _ _ Ht). cbn [concat]. eapply prints_seq; [apply Hp|]. apply IH; lia.
Qed.
End Loops.

(** A loop with its iterator made and freed. *)
Lemma list_prints f kl l get_it body ts f2 k t :
  mem_ok (fmem f) → fails (fmem f) = [] → dll (objs (fmem f)) kl l →
  get_it f = on_mem (make_klist_iterator (Some kl)) f →
  (∀ f', (∃ o, objs (fmem f') = <[next (fmem f) := o]> (objs (fmem f))) →
     Forall2 (fun x t => prints f' f' (body x.2) t) l ts) →
  prints (set_fmem (mk_mem (objs (fmem f)) (S (next (fmem f))) []) f) f2 k t →
  prints f f2 (i ← on_fw get_it; fuel ← on_fw loop_fuel; for_each fuel i body;;
               on_fw (on_mem (free_klist_iterator i));; k) (concat ts ++ t).
Proof.
  intros Hm Hf Hd Hget Hall Hk.
  assert (objs (fmem f) !! next (fmem f) = None) as Hfresh by (by apply Hm).
  destruct (make_klist_iterator_run (fmem f) kl l Hm Hf Hd) as (m1 & E1 & _ & Hf1 & _ & _ & Ho1).
  set (it := next (fmem f)) in *.
  assert (set_fmem m1 f = during f it kl l (next m1) [] 0) as Em.
  { unfold during, find_mem. destruct m1 as [o1 x1 f1]. cbn [objs fails next] in *. rewrite Ho1, Hf1. by rewrite head_lookup. }
  eapply prints_fw; [rewrite Hget; apply on_mem_run, E1|]. rewrite Em.
  eapply prints_fw; [reflexivity|].
  assert (Forall2 (fun x t => ∀ i, prints (during f it kl l (next m1) [] i) (during f it kl l (next m1) [] i) (body x.2) t) l ts) as Hall'.
  { apply Forall2_same_length_lookup_2; [by eapply Forall2_length, (Hall (during f it kl l 0%nat [] 0)); eexists|].
    intros j x y Hx Hy i. specialize (Hall (during f it kl l (next m1) [] i) ltac:(by eexists)).
    by eapply (Forall2_lookup_lr _ _ _ _ _ _ Hall). }
  pose proof (dll_length_le _ _ _ (during_dll f it kl l (next m1) [] Hd Hfresh 0)).
  eapply prints_seq; [apply (for_each_prints f it kl l (next m1) [] Hd Hfresh body ts Hall'); lia|].
  eapply prints_fw; [by apply during_done|].
  replace (next m1) with (S it); [exact Hk|].
  revert E1. unfold make_klist_iterator. cbn [is_null].
  rewrite (bind_run _ _ _ _ _ (get_list_run _ _ _ _ (proj1 Hd))), kmalloc_run by done. by intros [= <-].
Qed.

(** ** The whole listing *)

(** The framework holds the interceptors [names] and the rules [rules]. *)
Record lists (f : fw) (names : list (list Z)) (rules : list rule_view) : Prop := mk_lists {
  l_mem : mem_ok (fmem f);
  l_fails : fails (fmem f) = [];
  l_interceptors : ∃ kl l, int_list f = Some kl ∧ dll (objs (fmem f)) kl l ∧ named (objs (fmem f)) l names;
  l_rules : ∃ kl l, manager_rule_list f = Some kl ∧ dll (objs (fmem f)) kl l ∧
              Forall2 (rule_in (objs (fmem f))) l rules
}.

(** The framework after two more allocations that were freed, not dirty. *)
Definition listed (f : fw) : fw :=
  mk_fw (mk_mem (objs (fmem f)) (S (S (next (fmem f)))) []) (chains f) (int_list f) (manager_rule_list f)
    (next_rule_id f) false.

Lemma mem_ok_next m k : mem_ok m → (next m ≤ k)%nat → mem_ok (mk_mem (objs m) k []).
Proof. intros Hm Hk x Hx. cbn [next objs] in *. apply Hm. lia. Qed.

Lemma listed_lists f names rules : lists f names rules → lists (listed f) names rules.
Proof. intros [Hm Hf Hi Hr]. split; [by apply mem_ok_next; [|lia]|done..]. Qed.

Lemma contents_prints f names rules :
  lists f names rules →
  prints f (listed f)
    (append listing_header;;
     i ← on_fw get_interceptor_iterator; fuel ← on_fw loop_fuel; for_each fuel i list_interceptor;;
     on_fw (on_mem (free_klist_iterator i));;
     i ← on_fw get_rules_iterator; fuel ← on_fw loop_fuel; for_each fuel i list_rule;;
     on_fw (on_mem (free_klist_iterator i));;
     on_fw set_clean) (listing_text names rules).
Proof.
  intros [Hm Hf (kl & l & Ekl & Hd & Hn) (rl & rs & Erl & Hdr & Hr)]. unfold listing_text.
  assert (objs (fmem f) !! next (fmem f) = None) as Hfresh by (by apply Hm).
  apply prints_then. eapply (list_prints f kl l); [done..| | |].
  - unfold get_interceptor_iterator. by rewrite (bind_run get _ _ _ _ eq_refl), Ekl.
  - intros f' [o Ho]. rewrite Forall2_fmap_r. eapply Forall2_impl; [exact Hn|].
    intros x name (d & cb & -> & Hx). apply (interceptor_prints f' d name cb).
    rewrite Ho, lookup_insert_ne; congruence.
  - rewrite <- (app_nil_r (concat (map rule_text rules))).
    eapply (list_prints _ rl rs); [by apply mem_ok_next; [|lia]|done|done| | |].
    + unfold get_rules_iterator. rewrite (bind_run get _ _ _ _ eq_refl). cbn [manager_rule_list set_fmem]. by rewrite Erl.
    + intros f' [o Ho]. rewrite Forall2_fmap_r. eapply Forall2_impl; [exact Hr|].
      intros x v Hx. apply rule_prints. rewrite Ho. cbn [fmem set_fmem objs next]. apply rule_in_fresh; [done|].
      apply Hm. lia.
    + intros off size x g _ _. by rewrite app_nil_r.
Qed.

Lemma fill_proc_contents_run f names rules off size b g :
  lists f names rules → length b = size → (off + length (listing_text names rules) + slack ≤ size)%nat →
  Z.of_nat size < 2 ^ 31 →
  fill_proc_contents (f, mk_cache (Z.of_nat size) (Z.of_nat off) (Some b) g) =
    Ok (tt, (listed f, shown off size (listing_text names rules) g)).
Proof.
  intros Hl Hb Hfit Hs. unfold fill_proc_contents.
  assert (on_cache clear_buffer (f, mk_cache (Z.of_nat size) (Z.of_nat off) (Some b) g) =
          Ok (tt, (f, shown off size [] g))) as Eclear.
  { unfold on_cache. cbn [fst snd]. rewrite clear_shown by done.
    unfold shown. cbn [length]. rewrite Nat.add_0_r, Nat.sub_0_r. do 5 f_equal.
    cbn [app]. rewrite <- replicate_add. f_equal. lia. }
  rewrite (bind_run _ _ _ _ _ Eclear).
  exact (contents_prints f names rules Hl off size [] g ltac:(cbn [length]; lia) Hs).
Qed.

Lemma copy_out_shown off size t g o n :
  (off + length t < size)%nat → Z.of_nat size < 2 ^ 31 → (o ≤ off + length t + 1)%nat → 0 ≤ n < 2 ^ 31 →
  let whole := replicate off 0 ++ t ++ [0] in
  let got := take (Z.to_nat n) (drop o whole) in
  copy_out (shown off size t g) (Z.of_nat o) n = Ok (got, Z.of_nat (length got)).
Proof.
  intros Hfit Hs Ho Hn whole got. unfold copy_out, shown. cbn [buffer_offset file_buffer].
  assert (length whole = off + length t + 1)%nat as Hw.
  { unfold whole. rewrite !length_app, length_replicate. simpl. lia. }
  assert (Z.of_nat (length got) = n `min` (Z.of_nat (off + length t) + 1 - Z.of_nat o)) as Hgot.
  { unfold got. rewrite length_take, length_drop, Hw. lia. }
  rewrite !u32_small by lia.
  replace (if n <? _ then n else _) with (Z.of_nat (length got)) by (rewrite Hgot; case_test; bool_props; lia).
  case_test; bool_props.
  { assert (got = []) as -> by (apply nil_length_inv; lia). done. }
  assert (replicate off 0 ++ t ++ replicate (size - off - length t) 0 =
          whole ++ replicate (size - off - length t - 1) 0) as ->.
  { unfold whole. destruct (size - off - length t)%nat eqn:Es; [lia|]. rewrite <- !app_assoc. cbn. by rewrite Nat.sub_0_r. }
  unfold sub_bytes. rewrite length_app, length_replicate, Hw, !Nat2Z.id.
  rewrite !(proj2 (Z.leb_le _ _)) by lia. cbn [andb]. rewrite result_bind_Ok. do 2 f_equal.
  rewrite drop_app_le, take_app_le by (rewrite ?length_drop; unfold got; rewrite ?length_take, ?length_drop; lia).
  unfold got. rewrite length_take. destruct (Nat.le_ge_cases (Z.to_nat n) (length (drop o whole))).
  - by rewrite Nat.min_l.
  - by rewrite Nat.min_r, !take_ge.
Qed.

(** C18: when the listing fits in the buffer with the 70 bytes of a row to spare, and the
    rules have identifiers below 10^9 (elsewhere the buffer grows without its contents,
    [growing_forgets], or is overrun, [long_row_overflows]), reading the proc entry after
    the framework has changed builds the listing of every
    registered interceptor and of every rule with its filters, and hands out the bytes
    asked for, up to a final NUL; the framework's lists are as before and the text is kept
    until the next change.  The listing is preceded by as many NUL bytes as the buffer held
    before: none the first time, all of the earlier listings later on. *)
Theorem listing_read f names rules off size b g o n :
  lists f names rules → proc_dirty f = true → length b = size →
  (off + length (listing_text names rules) + slack ≤ size)%nat → Z.of_nat size < 2 ^ 31 →
  (o ≤ off + length (listing_text names rules) + 1)%nat → 0 ≤ n < 2 ^ 31 →
  let whole := replicate off 0 ++ listing_text names rules ++ [0] in
  let got := take (Z.to_nat n) (drop o whole) in
  procfile_read (Z.of_nat o) n (f, mk_cache (Z.of_nat size) (Z.of_nat off) (Some b) g) =
    Ok (got, Z.of_nat (length got), (listed f, shown off size (listing_text names rules) g)) ∧
  lists (listed f) names rules.
Proof.
  intros Hl Hdirty Hb Hfit Hs Ho Hn whole got. split; [|by apply listed_lists]. unfold procfile_read.
  rewrite (bind_run get _ _ _ _ eq_refl). cbn [fst]. rewrite Hdirty.
  rewrite (bind_run _ _ _ _ _ (fill_proc_contents_run f names rules off size b g Hl Hb Hfit Hs)).
  rewrite (bind_run get _ _ _ _ eq_refl). unfold lift. cbn [snd].
  by rewrite copy_out_shown by (unfold slack in *; lia).
Qed.

(** Two interceptors, and a rule of the first with one filter. *)
Definition one_rule : fw :=
  mk_fw (mk_mem (<[ 5%nat := OList (Some 6%nat) (Some 6%nat) ]> (<[ 6%nat := ONode (Some 7%nat) None None ]>
    (<[ 7%nat := ORule 12 (Some 3%nat) 1 (Some 8%nat) ]> (<[ 8%nat := OArray [Some 9%nat] ]>
    (<[ 9%nat := OFilter FILTER_PRIO_FIRST FILTER_AT_LOCAL_OUT (Some 7%nat) (Some 10%nat) 0 ]>
    (<[ 10%nat := OSpecs FILTER_BY_DST_PORT IPPROTO_UDP 0 0 (bswap 2 5000) 0 ]>
    (objs (fmem two_interceptors)))))))) 11%nat [])
    [] (Some 0%nat) (Some 5%nat) 13 true.
Definition its_rule : rule_view :=
  mk_rule_view 12 (str "aggregation")
    [(mk_filter FILTER_PRIO_FIRST FILTER_AT_LOCAL_OUT (Some 7%nat) (Some 10%nat) 0,
      mk_specs FILTER_BY_DST_PORT IPPROTO_UDP 0 0 (bswap 2 5000) 0)].

Lemma listing_read_witness :
  procfile_read 55 13 (one_rule, create_proc_contents []) =
    Ok (str "* aggregation", 13,
        (listed one_rule, shown 0 1024 (listing_text [str "aggregation"; str "deaggregation"] [its_rule]) [])).
Proof.
  refine (proj1 (listing_read one_rule [str "aggregation"; str "deaggregation"] [its_rule] 0 1024
           (replicate 1024 0) [] 55 13 _ _ _ _ _ _ _)).
  - split.
    + apply mem_ok_check. by vm_compute.
    + reflexivity.
    + exists 0%nat, [(1%nat, Some 3%nat); (2%nat, Some 4%nat)]. split; [reflexivity|]. split; [|].
      * split; [reflexivity|]. split; [apply (bool_decide_unpack _); by vm_compute|].
        intros [|[|i]] n d [= <- <-]; reflexivity.
      * repeat constructor; eexists _, _; split; reflexivity.
    + exists 5%nat, [(6%nat, Some 7%nat)]. split; [reflexivity|]. split.
      * split; [reflexivity|]. split; [apply NoDup_singleton|]. intros [|i] n d [= <- <-]; reflexivity.
      * constructor; [|constructor]. exists 7%nat, 3%nat, 0, 8%nat, [Some 9%nat].
        do 2 (split; [first [reflexivity|simpl; lia]|]). do 3 (split; [reflexivity|]).
        constructor; [|constructor]. exists 9%nat, 10%nat. repeat (split; [reflexivity|]). reflexivity.
  - reflexivity.
  - reflexivity.
  - apply Nat.leb_le. by vm_compute.
  - by vm_compute.
  - apply Nat.leb_le. by vm_compute.
  - lia.
Defined.

(** ** Where the buffer is too small *)

Lemma set_bytes_full b i n :
  Z.of_nat (length b) < i + Z.of_nat (length n) → set_bytes b i n = Crash OutOfBounds.
Proof.
  intros H. unfold set_bytes. by rewrite (proj2 (Z.leb_gt _ _) H), andb_false_r.
Qed.

(** C25: the offset is never set back and the header is written without a look at the room
    left: whatever the framework holds, the read after a change writes outside the buffer
    once the earlier listings have left fewer than 55 bytes of it. *)
Theorem relisting_overflows f size off b g o n :
  proc_dirty f = true → length b = Z.to_nat size → 0 ≤ size → size < off + 55 →
  procfile_read o n (f, mk_cache size off (Some b) g) = Crash OutOfBounds.
Proof.
  intros Hdirty Hb Hs Hfull. unfold procfile_read. rewrite (bind_run get _ _ _ _ eq_refl).
  cbn [fst]. rewrite Hdirty. unfold fill_proc_contents.
  pose proof (clear_shown (Z.to_nat size) b off g Hb) as E. rewrite Z2Nat.id in E by done.
  unfold on_cache at 1, mbind, stm_bind. cbn [fst snd]. rewrite E.
  unfold append, on_cache, append_to_buffer. cbn [fst snd]. rewrite (bind_run get _ _ _ _ eq_refl).
  cbn [file_buffer unless_null buffer_offset]. rewrite (bind_run (mret _) _ _ _ _ eq_refl).
  unfold mbind, stm_bind, lift.
  by rewrite set_bytes_full by (rewrite length_replicate, Z2Nat.id by done; exact Hfull).
Qed.

(** A change and a read, [n] times. *)
Fixpoint relist (n : nat) : stm listing unit :=
  match n with
  | O => mret tt
  | S n' => on_fw mess_proc_entry;; procfile_read 0 100;; relist n'
  end.

(** An empty framework is listed 18 times; then the buffer of 1024 bytes is full. *)
Lemma relisting_overflows_witness :
  let empty := mk_fw (mk_mem {[ 0%nat := OList None None; 1%nat := OList None None ]} 2%nat [])
                 [] (Some 0%nat) (Some 1%nat) 0 true in
  match relist 18 (empty, create_proc_contents []) with
  | Ok (_, (f, c)) =>
      procfile_read 0 100 (mk_fw (fmem f) (chains f) (int_list f) (manager_rule_list f) (next_rule_id f) true, c) =
        Crash OutOfBounds
  | Crash _ => False
  end.
Proof.
  intros empty. destruct (relist 18 _) as [[[] [f c]]|e] eqn:E; vm_compute in E; [|discriminate].
  injection E as <- <-. apply (relisting_overflows _ 1024 990); [reflexivity|by vm_compute|lia|lia].
Defined.

(** When a name no longer fits, the buffer of twice the size that replaces the old one
    does not get its contents: everything listed so far reads as NUL bytes. *)
Theorem growing_forgets f off size x d name cb :
  objs (fmem f) !! d = Some (ODesc name cb) → (off + length x ≤ size)%nat → Z.of_nat size < 2 ^ 30 →
  Z.of_nat size - Z.of_nat (off + length x) < strlen name + 3 →
  (off + length x + length (interceptor_text name) ≤ 2 * size)%nat →
  list_interceptor (Some d) (f, shown off size x []) =
    Ok (tt, (f, shown (off + length x) (2 * size) (interceptor_text name) [])).
Proof.
  intros Hd Hfit Hs Hfull Hroom. unfold list_interceptor.
  rewrite (bind_run (on_fw _) _ _ (name, cb) (f, shown off size x []))
    by (unfold on_fw; cbn [fst snd]; by rewrite (on_mem_same _ _ _ (get_desc_run _ _ _ _ Hd))).
  assert (on_cache (ensure (strlen name + 3)) (f, shown off size x []) =
          Ok (tt, (f, shown (off + length x) (2 * size) [] []))) as E.
  { unfold on_cache, ensure. cbn [fst snd]. rewrite (bind_run get _ _ _ _ eq_refl).
    cbn [buffer_size buffer_offset shown]. rewrite u32_small by lia.
    rewrite (proj2 (Z.ltb_lt _ _)) by lia. unfold realloc_proc_contents, modify, granted. cbn [grants shown tail buffer_size buffer_offset].
    rewrite Z.shiftl_mul_pow2, u32_small by lia. unfold shown. cbn [length app]. do 4 f_equal.
    - lia.
    - lia.
    - rewrite <- replicate_add. f_equal. f_equal. lia. }
  rewrite (bind_run _ _ _ _ _ E). unfold interceptor_text in *. rewrite !length_app in Hroom.
  assert (∀ t y, (off + length x + length y + length t ≤ 2 * size)%nat →
    append t (f, shown (off + length x) (2 * size) y []) =
      Ok (tt, (f, shown (off + length x) (2 * size) (y ++ t) []))) as Happ.
  { intros t y Ht. unfold append, on_cache. cbn [fst snd]. by rewrite shown_append by lia. }
  cbn [length str nl] in Hroom.
  rewrite (bind_run _ _ _ _ _ (Happ (str "* ") [] ltac:(cbn [length str]; lia))).
  rewrite (bind_run _ _ _ _ _ (Happ (cstr name) (str "* ") ltac:(cbn [length str]; lia))).
  rewrite (Happ nl) by (rewrite length_app; cbn [length str nl]; lia). by rewrite <- app_assoc.
Qed.

Lemma growing_forgets_witness :
  list_interceptor (Some 3%nat) (two_interceptors, shown 0 64 listing_header []) =
    Ok (tt, (two_interceptors, shown 55 128 (interceptor_text (str "aggregation")) [])).
Proof.
  apply (growing_forgets two_interceptors 0 64 listing_header 3%nat (str "aggregation") 0).
  - reflexivity.
  - simpl. lia.
  - lia.
  - vm_compute. reflexivity.
  - simpl. lia.
Defined.

(** Rows of 70 bytes are written where room for 68 was found. *)
Example long_row_overflows :
  let f := mk_filter FILTER_PRIO_FIRST FILTER_AT_LOCAL_OUT None (Some 1%nat) 0 in
  let sp := mk_specs 0 AGREGATED_APPLICATION_ENCAP_UDP_PROTO 0 0 0 0 in
  length (filter_row f sp) = 70%nat ∧
  fill_buffer_with_filter (Some 0%nat)
    (mk_fw (mk_mem {[ 0%nat := OFilter FILTER_PRIO_FIRST FILTER_AT_LOCAL_OUT None (Some 1%nat) 0;
                      1%nat := OSpecs 0 AGREGATED_APPLICATION_ENCAP_UDP_PROTO 0 0 0 0 ]} 2%nat []) [] None None 0 true,
     shown 60 128 [] []) = Crash OutOfBounds.
Proof. by vm_compute. Qed.
