(* ===== verification/Framework.v ===== *)
(** * Loading and unloading the framework

    Models [init_module] and [cleanup_module] of [fred_framework/main.c] as a
    whole, with [init_hooks] and [free_hooks] of [hooks.c] and the entries of
    [proc_registry.c] and [proc_entry.c] in [/proc], over the parts in [Chains],
    [Managers] and [ProcListing]. *)

From S2P Require Import Prelude CString Klist Chains Managers ProcListing.

(** ** State

    What the module has registered with the kernel: the hooks, each with the
    point of the stack it is called at and the function it calls, and the names in
    [/proc]. *)

(** The functions of [hooks.c] that a [struct nf_hook_ops] can point to. *)
Inductive hook_fn : Type :=
| local_out_hook | local_in_hook | forward_hook | pre_routing_hook | post_routing_hook.
#[export] Instance hook_fn_eq_dec : EqDecision hook_fn.
Proof. solve_decision. Defined.
(** [hooknum] and [hook] of a [struct nf_hook_ops]. *)
Definition nf_hook_ops : Type := Z * hook_fn.

Record host : Type := mk_host {
  lst : listing;
  nf_hooks : list nf_hook_ops;
  proc_entries : list (list Z)
}.
Definition on_lst {A} (m : stm listing A) : stm host A := fun s =>
  match m (lst s) with Ok (a, l) => Ok (a, mk_host l (nf_hooks s) (proc_entries s)) | Crash e => Crash e end.
Definition on_framework {A} (m : stm fw A) : stm host A := on_lst (on_fw m).

(** ** hooks.c *)

Definition ip_pre_routing : Z := 0.
Definition ip_local_in : Z := 1.
Definition ip_forward : Z := 2.
Definition ip_local_out : Z := 3.
Definition ip_post_routing : Z := 4.

Definition nf_register_hook (h : nf_hook_ops) : stm host unit := modify (fun s =>
  mk_host (lst s) (nf_hooks s ++ [h]) (proc_entries s)).
Definition nf_unregister_hook (h : nf_hook_ops) : stm host unit := modify (fun s =>
  mk_host (lst s) (filter (fun h' => h' ≠ h) (nf_hooks s)) (proc_entries s)).

Definition nf_ip_local_out : nf_hook_ops := (ip_local_out, local_out_hook).
Definition nf_ip_local_in : nf_hook_ops := (ip_local_in, local_in_hook).
Definition nf_ip_forward : nf_hook_ops := (ip_forward, forward_hook).
Definition nf_ip_pre_routing : nf_hook_ops := (ip_pre_routing, pre_routing_hook).
Definition nf_ip_post_routing : nf_hook_ops := (ip_post_routing, post_routing_hook).

Definition init_hooks : stm host unit :=
  nf_register_hook nf_ip_local_out;;
  nf_register_hook nf_ip_local_in;;
  nf_register_hook nf_ip_forward;;
  nf_register_hook nf_ip_pre_routing;;
  nf_register_hook nf_ip_post_routing.
Definition free_hooks : stm host unit :=
  nf_unregister_hook nf_ip_local_out;;
  nf_unregister_hook nf_ip_local_in;;
  nf_unregister_hook nf_ip_forward;;
  nf_unregister_hook nf_ip_pre_routing;;
  nf_unregister_hook nf_ip_post_routing.

(** The kernel runs the hooks of a point in turn until one does not accept. *)
Section Netfilter.
Context {E : Type} (apply : Z → specs_rec → Z → list Z → E → Z * list Z * E).

Definition call_hook (f : hook_fn) : Z → list Z → E → stm fw (Z * list Z * E) :=
  match f with
  | local_out_hook => nf_ip_local_out_hook apply
  | local_in_hook => nf_ip_local_in_hook apply
  | forward_hook => nf_ip_forward_hook apply
  | pre_routing_hook => nf_ip_pre_routing_hook apply
  | post_routing_hook => nf_ip_post_routing_hook apply
  end.

Fixpoint run_hooks (hs : list nf_hook_ops) (point : Z) (skb : list Z) (e : E) : stm fw (Z * list Z * E) :=
  match hs with
  | [] => mret (NF_ACCEPT, skb, e)
  | (n, f) :: hs' =>
      if n =? point then
        '(v, skb, e) ← call_hook f point skb e;
        if v =? NF_ACCEPT then run_hooks hs' point skb e else mret (v, skb, e)
      else run_hooks hs' point skb e
  end.
Definition netfilter (point : Z) (skb : list Z) (e : E) : stm host (Z * list Z * E) :=
  s ← get; on_framework (run_hooks (nf_hooks s) point skb e).
End Netfilter.

(** ** The entries in /proc *)

Definition interceptor_list : list Z := str "interceptor_list".
Definition interceptor_registry : list Z := str "interceptor_registry".

(** [made]: whether [create_proc_entry] succeeds. *)
Definition create_entry (made : bool) (name : list Z) : stm host unit := modify (fun s =>
  mk_host (lst s) (nf_hooks s) (if made then proc_entries s ++ [name] else proc_entries s)).
Definition remove_proc_entry (name : list Z) : stm host unit := modify (fun s =>
  mk_host (lst s) (nf_hooks s) (filter (fun n => n ≠ name) (proc_entries s))).

Definition create_proc_registry (made : bool) : stm host unit := create_entry made interceptor_registry.
Definition remove_proc_registry : stm host unit := remove_proc_entry interceptor_registry.

(** ** main.c *)

(** The arguments: whether the two entries can be made, and the allocations of
    the listing. *)
Definition init_module (made_list made_registry : bool) (grants : list bool) : stm host Z :=
  on_lst (create_interceptor_proc_entry grants);;
  create_entry made_list interceptor_list;;
  create_proc_registry made_registry;;
  on_framework init_chains;;
  init_hooks;;
  a ← on_framework start_interceptor_manager;
  if a =? 0 then mret (-12)
  else
    b ← on_framework start_rule_manager;
    if b =? 0 then mret (-12) else mret 0.

Definition cleanup_module : stm host unit :=
  on_framework stop_interceptor_manager;;
  on_framework stop_rule_manager;;
  free_hooks;;
  on_lst clear_interceptor_proc_entry;;
  remove_proc_entry interceptor_list;;
  remove_proc_registry.

(** ** What loading leaves *)

Definition all_hooks : list nf_hook_ops :=
  [nf_ip_local_out; nf_ip_local_in; nf_ip_forward; nf_ip_pre_routing; nf_ip_post_routing].

(** What the framework promises, written out: the points of the stack in the numbering
    of netfilter (before routing 0, local input 1, forwarding 2, local output 3, after
    routing 4) with the numbers of their chains. *)
Definition chain_of_point : list (Z * nat) :=
  [(0, 3%nat); (1, 1%nat); (2, 2%nat); (3, 0%nat); (4, 4%nat)].

Lemma kmalloc_total o m : ∃ p m', kmalloc o m = Ok (p, m').
Proof. unfold kmalloc. destruct (fails m) as [|[] ?]; eauto. Qed.
Lemma make_klist_total f : ∃ p m', on_mem make_klist f = Ok (p, set_fmem m' f).
Proof.
  destruct (kmalloc_total (OList None None) (fmem f)) as (p & m' & E). exists p, m'. by apply on_mem_run.
Qed.

Lemma init_chains_loop_total n f : ∃ c m', init_chains_loop n f = Ok (c, set_fmem m' f).
Proof.
  revert f. induction n as [|n IH]; intros f; [exists [], (fmem f); by destruct f|]. cbn [init_chains_loop].
  destruct (make_klist_total f) as (p & m1 & E1). rewrite (bind_run _ _ _ _ _ E1).
  destruct (IH (set_fmem m1 f)) as (c & m2 & E2). rewrite (bind_run _ _ _ _ _ E2). by eexists _, _.
Qed.
Lemma init_chains_total f : ∃ f', init_chains f = Ok (tt, f').
Proof.
  unfold init_chains. destruct (init_chains_loop_total CHAINS_SIZE f) as (c & m & E).
  rewrite (bind_run _ _ _ _ _ E). by eexists.
Qed.

(** The managers give 1 with a list, or 0 without one. *)
Lemma start_interceptor_manager_run f :
  ∃ p m', start_interceptor_manager f =
    Ok (if is_null p then 0 else 1, set_lists p (manager_rule_list f) (set_fmem m' f)).
Proof.
  unfold start_interceptor_manager. destruct (make_klist_total f) as (p & m & E).
  rewrite (bind_run _ _ _ _ _ E), (bind_run (modify _) _ _ tt _ eq_refl). by eexists _, _.
Qed.
Lemma start_rule_manager_run f :
  ∃ p m', start_rule_manager f = Ok (if is_null p then 0 else 1, set_lists (int_list f) p (set_fmem m' f)).
Proof.
  unfold start_rule_manager. destruct (make_klist_total f) as (p & m & E).
  rewrite (bind_run _ _ _ _ _ E), (bind_run (modify _) _ _ tt _ eq_refl). by eexists _, _.
Qed.

Lemma on_framework_run {A} (m : stm fw A) s a f :
  m (lst s).1 = Ok (a, f) → on_framework m s = Ok (a, mk_host (f, (lst s).2) (nf_hooks s) (proc_entries s)).
Proof. intros E. unfold on_framework, on_lst, on_fw. by rewrite E. Qed.

(** Each point of the stack runs its own chain and nothing else. *)
Lemma netfilter_runs_chain {E} apply point chain skb (e : E) s :
  nf_hooks s = all_hooks → (point, chain) ∈ chain_of_point →
  netfilter apply point skb e s = on_framework (run_chain apply chain point skb e) s.
Proof.
  intros Hs Hin. unfold netfilter. rewrite (bind_run get _ _ _ _ eq_refl), Hs.
  unfold on_framework, on_lst, on_fw.
  assert (run_hooks apply all_hooks point skb e (lst s).1 = run_chain apply chain point skb e (lst s).1) as ->; [|done].
  unfold chain_of_point in Hin. rewrite !elem_of_cons, elem_of_nil in Hin.
  destruct Hin as [[= -> ->]|[[= -> ->]|[[= -> ->]|[[= -> ->]|[[= -> ->]|[]]]]]];
    cbn -[run_chain NF_ACCEPT];
    unfold nf_ip_local_out_hook, nf_ip_local_in_hook, nf_ip_forward_hook, nf_ip_pre_routing_hook,
      nf_ip_post_routing_hook, LOCAL_OUT_CHAIN, LOCAL_IN_CHAIN, FORWARD_CHAIN, PRE_ROUTING_CHAIN,
      POST_ROUTING_CHAIN, mbind, stm_bind;
    (destruct (run_chain _ _ _ _ _ _) as [[[[v skb'] e'] f]|]; [|done]);
    (destruct (Z.eqb_spec v NF_ACCEPT) as [->|]; done).
Qed.

(** C16: loading the framework registers five hooks, so that each point of the network stack
    runs exactly its own chain (before routing chain 3, local input 1, forwarding 2,
    local output 0, after routing 4), and makes the lists of interceptors and rules.  When
    one of the lists cannot be allocated the module is refused with -12, but its hooks
    stay registered with the kernel. *)
Theorem framework_loaded made_list made_registry grants s :
  nf_hooks s = [] →
  ∃ r s', init_module made_list made_registry grants s = Ok (r, s') ∧ length (nf_hooks s') = 5%nat ∧
    (r = 0 ∧ int_list (lst s').1 ≠ None ∧ manager_rule_list (lst s').1 ≠ None ∨
     r = -12 ∧ (int_list (lst s').1 = None ∨ manager_rule_list (lst s').1 = None)) ∧
    ∀ E apply point chain skb (e : E), (point, chain) ∈ chain_of_point →
      netfilter apply point skb e s' = on_framework (run_chain apply chain point skb e) s'.
Proof.
  intros Hs. unfold init_module. rewrite (bind_run (on_lst (create_interceptor_proc_entry grants)) _ s tt _ eq_refl).
  rewrite (bind_run (create_entry _ _) _ _ tt _ eq_refl), (bind_run (create_proc_registry _) _ _ tt _ eq_refl).
  cbn [lst nf_hooks proc_entries].
  match goal with |- context [(on_framework init_chains ≫= _) ?s1] => set (h1 := s1) end.
  destruct (init_chains_total (lst h1).1) as (f1 & E1). rewrite (bind_run _ _ _ _ _ (on_framework_run _ _ _ _ E1)).
  rewrite (bind_run init_hooks _ _ tt (mk_host (f1, (lst h1).2) all_hooks (proc_entries h1))).
  2: { unfold init_hooks. cbn. rewrite Hs. reflexivity. }
  destruct (start_interceptor_manager_run f1) as (p & m2 & E2).
  rewrite (bind_run _ _ _ _ _ (on_framework_run start_interceptor_manager (mk_host (f1, _) _ _) _ _ E2)).
  destruct p as [p|].
  2: { eexists _, _. split; [reflexivity|]. split; [done|]. split; [right; split; [done|by left]|].
       intros. by apply netfilter_runs_chain. }
  cbn [is_null Z.eqb]. set (f2 := set_lists _ _ _).
  destruct (start_rule_manager_run f2) as (q & m3 & E3).
  rewrite (bind_run _ _ _ _ _ (on_framework_run start_rule_manager (mk_host (f2, _) _ _) _ _ E3)).
  destruct q as [q|]; (eexists _, _; split; [reflexivity|]; split; [done|]; split; [|intros; by apply netfilter_runs_chain]).
  - left. done.
  - right. split; [done|by right].
Qed.

(** Without memory for the second list. *)
Lemma framework_loaded_witness :
  ∃ r s', init_module true true [] (mk_host (mk_fw (mk_mem ∅ 0%nat [false; false; false; false; false; false; true]) [] None None 0 false,
                                              mk_cache 0 0 None []) [] []) = Ok (r, s') ∧
    length (nf_hooks s') = 5%nat ∧
    (r = 0 ∧ int_list (lst s').1 ≠ None ∧ manager_rule_list (lst s').1 ≠ None ∨
     r = -12 ∧ (int_list (lst s').1 = None ∨ manager_rule_list (lst s').1 = None)) ∧
    ∀ E apply point chain skb (e : E), (point, chain) ∈ chain_of_point →
      netfilter apply point skb e s' = on_framework (run_chain apply chain point skb e) s'.
Proof. apply framework_loaded. reflexivity. Defined.

Example refused_but_hooked :
  match init_module true true [] (mk_host (mk_fw (mk_mem ∅ 0%nat [false; false; false; false; false; false; true]) [] None None 0 false,
                                            mk_cache 0 0 None []) [] []) with
  | Ok (r, s') => r = -12 ∧ nf_hooks s' = all_hooks
  | Crash _ => False
  end.
Proof. by vm_compute. Qed.

(** A completed unloading leaves neither hooks nor entries. *)
Lemma cleanup_removes s s' :
  cleanup_module s = Ok (tt, s') →
  (∀ h, h ∈ all_hooks → h ∉ nf_hooks s') ∧ (interceptor_list ∉ proc_entries s') ∧ (interceptor_registry ∉ proc_entries s').
Proof.
  unfold cleanup_module. intros H. apply bind_Ok in H as (? & s1 & _ & H). apply bind_Ok in H as (? & s2 & _ & H).
  rewrite (bind_run free_hooks _ s2 tt _ eq_refl) in H.
  rewrite (bind_run (on_lst clear_interceptor_proc_entry) _ (mk_host (lst s2) _ (proc_entries s2)) tt _ eq_refl) in H.
  rewrite (bind_run (remove_proc_entry _) _ _ tt _ eq_refl) in H. injection H as <-.
  cbn [nf_hooks proc_entries]. split.
  - intros h Hh. unfold all_hooks in Hh. rewrite !elem_of_cons, elem_of_nil in Hh.
    rewrite !list_elem_of_filter. destruct Hh as [->|[->|[->|[->|[->|[]]]]]]; tauto.
  - rewrite !list_elem_of_filter. tauto.
Qed.
