(* ===== verification/ByteBuffer.v ===== *)
(** * The aggregation buffers

    Models [interceptors/aggregation/byte_buffer.c]: a block that is filled with
    packets from its end towards its start, with a spin lock, and the checksum
    of [interceptors/utils.h]. *)

From S2P Require Import Prelude Klist.

(** ** utils.h *)

(** [buff] as 16-bit words of the processor; an odd last byte is not read. *)
Fixpoint csum_loop (nwords : nat) (buff : list Z) (sum : Z) : result Z :=
  match nwords with
  | O => Ok sum
  | S n =>
      match buff with
      | a :: b :: rest => csum_loop n rest (u32 (sum + le_val [a; b]))
      | _ => Crash OutOfBounds
      end
  end.
Definition csum (buff : list Z) (nwords : Z) : result Z :=
  sum ← csum_loop (Z.to_nat nwords) buff 0;
  let sum := u32 (Z.shiftr sum 16 + Z.land sum 0xffff) in
  let sum := u32 (sum + Z.shiftr sum 16) in
  Ok (u16 (Z.lnot sum)).

(** ** byte_buffer.c

    The pointers [head] and [end] of a buffer are offsets from [start]; [end] is
    the length of the block. [depth] counts how often the lock is held.

    [smp] tells which kernel the module runs on. [spin_lock_bh] on a
    multiprocessor waits for a lock that is held, also when the caller itself
    holds it; a uniprocessor kernel only counts. *)

Definition get_agg (b : ptr) : stm mem (Z * ptr * Z * Z * Z) :=
  o ← load b; match o with OAgg ip start len head d => mret (ip, start, len, head, d) | _ => throw BadAccess end.
Definition get_bytes (p : ptr) : stm mem (list Z) :=
  o ← load p; match o with OBytes bs => mret bs | _ => throw BadAccess end.

Section Locks.
Context (smp : bool).

Definition lock_buffer (b : ptr) : stm mem unit :=
  '(ip, start, len, head, d) ← get_agg b;
  if smp && (0 <? d) then throw Diverges else store b (OAgg ip start len head (d + 1)).
Definition unlock_buffer (b : ptr) : stm mem unit :=
  '(ip, start, len, head, d) ← get_agg b; store b (OAgg ip start len head (d - 1)).

(** The contents of a fresh block are never looked at before they are
    written; they count as zeroes here. *)
Definition create_aggregate_buffer (len ip : Z) : stm mem ptr :=
  b ← kmalloc (OAgg 0 None 0 0 0);
  if is_null b then mret None
  else
    start ← kmalloc (OBytes (replicate (Z.to_nat len) 0));
    if is_null start then kfree b;; mret None
    else store b (OAgg ip start len len 0);; mret b.

Definition free_buffer (b : ptr) : stm mem unit :=
  unlock_buffer b;;
  '(_, start, _, _, _) ← get_agg b;
  kfree start;;
  kfree b.

Definition buffer_len (b : ptr) : stm mem Z :=
  lock_buffer b;;
  '(_, _, len, _, _) ← get_agg b;
  unlock_buffer b;;
  mret len.

Definition buffer_data_len (b : ptr) : stm mem Z :=
  lock_buffer b;;
  '(_, _, len, head, _) ← get_agg b;
  unlock_buffer b;;
  mret (len - head).

(** The pointer returned is an offset in the block. *)
Definition peek_packet (b : ptr) : stm mem (option Z) :=
  lock_buffer b;;
  n ← buffer_data_len b;
  if n =? 0 then unlock_buffer b;; mret None
  else
    unlock_buffer b;;
    '(_, _, _, head, _) ← get_agg b;
    mret (Some head).

(** [bytes] are the [len] bytes at the pointer that is passed. *)
Definition push_bytes (b : ptr) (bytes : list Z) : stm mem Z :=
  lock_buffer b;;
  dl ← buffer_data_len b;
  bl ← buffer_len b;
  if dl + Z.of_nat (length bytes) <=? bl then
    '(ip, start, len, head, d) ← get_agg b;
    let head := head - Z.of_nat (length bytes) in
    store b (OAgg ip start len head d);;
    block ← get_bytes start;
    block ← lift (set_bytes block head bytes);
    store start (OBytes block);;
    unlock_buffer b;;
    mret 0
  else unlock_buffer b;; mret (-12).

Definition reset_buffer (b : ptr) : stm mem unit :=
  lock_buffer b;;
  '(ip, start, len, head, d) ← get_agg b;
  store b (OAgg ip start len len d);;
  unlock_buffer b.

(** The length and what is assigned to [*dst], if anything. *)
Definition mv_data (b : ptr) : stm mem (Z * option ptr) :=
  lock_buffer b;;
  '(ip, start, len, head, d) ← get_agg b;
  let n := len - head in
  if 0 <? n then
    block ← get_bytes start;
    bytes ← lift (sub_bytes block head n);
    buff ← kmalloc (OBytes bytes);
    if is_null buff then unlock_buffer b;; mret (0, None)
    else
      store b (OAgg ip start len len d);;
      unlock_buffer b;;
      mret (n, Some buff)
  else unlock_buffer b;; mret (0, None).
End Locks.

(** ** What a buffer holds

    [agg_at h b ip st block head d]: the buffer [b] for the address [ip], with
    the bytes [block] of which those from [head] on are in use. *)
Definition agg_at (h : gmap loc obj) (b : loc) (ip : Z) (st : loc) (block : list Z) (head d : Z) : Prop :=
  h !! b = Some (OAgg ip (Some st) (Z.of_nat (length block)) head d) ∧
  h !! st = Some (OBytes block) ∧ 0 ≤ head ≤ Z.of_nat (length block).

Definition content (block : list Z) (head : Z) : list Z := drop (Z.to_nat head) block.

Lemma length_content block head :
  0 ≤ head ≤ Z.of_nat (length block) → Z.of_nat (length (content block head)) = Z.of_nat (length block) - head.
Proof. intros. unfold content. rewrite length_drop. lia. Qed.

Lemma upd_upd m l o o' : upd (upd m l o) l o' = upd m l o'.
Proof. unfold upd. cbn [objs next fails]. by rewrite insert_insert_eq. Qed.
Lemma upd_id m l o : objs m !! l = Some o → upd m l o = m.
Proof. intros H. unfold upd. rewrite insert_id by done. by destruct m. Qed.

Lemma get_agg_run m b ip st len head d :
  objs m !! b = Some (OAgg ip st len head d) → get_agg (Some b) m = Ok (ip, st, len, head, d, m).
Proof. intros H. unfold get_agg. by rewrite (bind_run _ _ _ _ _ (load_run _ _ _ H)). Qed.
Lemma get_bytes_run m l bs : objs m !! l = Some (OBytes bs) → get_bytes (Some l) m = Ok (bs, m).
Proof. intros H. unfold get_bytes. by rewrite (bind_run _ _ _ _ _ (load_run _ _ _ H)). Qed.

Section Ops.
Context (m : mem) (b : loc) (ip : Z) (st : ptr) (len head d : Z).
Context (Hb : objs m !! b = Some (OAgg ip st len head d)).

Lemma lock_run smp :
  smp && (0 <? d) = false → lock_buffer smp (Some b) m = Ok (tt, upd m b (OAgg ip st len head (d + 1))).
Proof using Hb.
  intros Hs. unfold lock_buffer. rewrite (bind_run _ _ _ _ _ (get_agg_run _ _ _ _ _ _ _ Hb)), Hs.
  by eapply store_run.
Qed.
Lemma unlock_run : unlock_buffer (Some b) m = Ok (tt, upd m b (OAgg ip st len head (d - 1))).
Proof using Hb.
  unfold unlock_buffer. rewrite (bind_run _ _ _ _ _ (get_agg_run _ _ _ _ _ _ _ Hb)). by eapply store_run.
Qed.
End Ops.

Lemma upd_lookup m l o : objs (upd m l o) !! l = Some o.
Proof. apply lookup_insert_eq. Qed.

(** Run the next statement on the buffer. *)
Ltac brun1 :=
  first
  [ erewrite bind_run by (first
      [ eapply get_agg_run; first [apply upd_lookup | heap_lookup]
      | eapply lock_run; [first [apply upd_lookup | heap_lookup]|first [done | lia]]
      | eapply unlock_run; first [apply upd_lookup | heap_lookup]
      | eapply get_bytes_run; heap_lookup
      | eapply store_run; first [apply upd_lookup | heap_lookup] ])
  | erewrite unlock_run by (first [apply upd_lookup | heap_lookup]) ];
  rewrite ?upd_upd; cbv beta iota.
Ltac brun := repeat brun1.

Section Measures.
Context (m : mem) (b : loc) (ip : Z) (st : ptr) (len head d : Z).
Context (Hb : objs m !! b = Some (OAgg ip st len head d)).

Lemma buffer_len_run : buffer_len false (Some b) m = Ok (len, m).
Proof using Hb.
  unfold buffer_len. brun. rewrite Z.add_simpl_r, upd_id by done. reflexivity.
Qed.
Lemma buffer_data_len_run : buffer_data_len false (Some b) m = Ok (len - head, m).
Proof using Hb.
  unfold buffer_data_len. brun. rewrite Z.add_simpl_r, upd_id by done. reflexivity.
Qed.
End Measures.

Section Peek.
Context (m : mem) (b : loc) (ip : Z) (st : ptr) (len head d : Z).
Context (Hb : objs m !! b = Some (OAgg ip st len head d)).

Lemma peek_packet_run :
  peek_packet false (Some b) m = Ok (if len - head =? 0 then None else Some head, m).
Proof using Hb.
  unfold peek_packet. brun.
  erewrite bind_run by (eapply buffer_data_len_run, upd_lookup).
  destruct (len - head =? 0); brun; rewrite Z.add_simpl_r, upd_id by done; brun; reflexivity.
Qed.

Lemma reset_buffer_run : reset_buffer false (Some b) m = Ok (tt, upd m b (OAgg ip st len len d)).
Proof using Hb. unfold reset_buffer. brun. by rewrite Z.add_simpl_r. Qed.
End Peek.

Lemma set_bytes_push block head bytes :
  0 ≤ head ≤ Z.of_nat (length block) → Z.of_nat (length bytes) ≤ head →
  ∃ block', set_bytes block (head - Z.of_nat (length bytes)) bytes = Ok block' ∧
    length block' = length block ∧
    content block' (head - Z.of_nat (length bytes)) = bytes ++ content block head.
Proof.
  intros Hh Hl. unfold set_bytes. rewrite (proj2 (Z.leb_le _ _)), (proj2 (Z.leb_le _ _)) by lia.
  eexists. split; [reflexivity|]. set (i := Z.to_nat (head - Z.of_nat (length bytes))).
  assert (i + length bytes = Z.to_nat head)%nat as Hi by (unfold i; lia).
  split; [rewrite !length_app, length_take, length_drop; lia|].
  unfold content. rewrite drop_app_ge, length_take by (rewrite length_take; lia).
  replace (_ - _)%nat with 0%nat by lia. by rewrite drop_0, Hi.
Qed.

Section Push.
Context (m : mem) (b : loc) (ip : Z) (st : loc) (block : list Z) (head d : Z).
Context (Hb : agg_at (objs m) b ip st block head d).

Lemma agg_at_ne : b ≠ st.
Proof using Hb. destruct Hb as (H1 & H2 & _). congruence. Qed.

Lemma push_bytes_run bytes :
  Z.of_nat (length bytes) ≤ head →
  ∃ block', push_bytes false (Some b) bytes m =
      Ok (0, upd (upd m b (OAgg ip (Some st) (Z.of_nat (length block)) (head - Z.of_nat (length bytes)) d))
               st (OBytes block')) ∧
    length block' = length block ∧
    content block' (head - Z.of_nat (length bytes)) = bytes ++ content block head.
Proof using Hb.
  intros Hl. pose proof agg_at_ne as Hne. destruct Hb as (H1 & H2 & Hh).
  destruct (set_bytes_push block head bytes Hh Hl) as (block' & Hs & Hlen & Hc).
  exists block'. split; [|done]. unfold push_bytes. brun1.
  erewrite bind_run by (eapply buffer_data_len_run, upd_lookup).
  erewrite bind_run by (eapply buffer_len_run, upd_lookup).
  rewrite (proj2 (Z.leb_le _ _)) by lia. brun.
  erewrite bind_run by (unfold lift; rewrite Hs; reflexivity). brun1.
  erewrite bind_run by (eapply unlock_run; heap_lookup).
  unfold mret, stm_ret. do 2 f_equal. unfold upd. cbn [objs next fails]. f_equal.
  rewrite (insert_insert_ne _ b st), insert_insert_eq by done. by rewrite Z.add_simpl_r.
Qed.

Lemma push_bytes_full bytes :
  head < Z.of_nat (length bytes) → push_bytes false (Some b) bytes m = Ok (-12, m).
Proof using Hb.
  intros Hl. destruct Hb as (H1 & H2 & Hh). unfold push_bytes. brun1.
  erewrite bind_run by (eapply buffer_data_len_run, upd_lookup).
  erewrite bind_run by (eapply buffer_len_run, upd_lookup).
  rewrite (proj2 (Z.leb_gt _ _)) by lia. brun. by rewrite Z.add_simpl_r, upd_id.
Qed.

Lemma mv_data_run :
  mem_ok m → fails m = [] → head < Z.of_nat (length block) →
  mv_data false (Some b) m =
    Ok (Z.of_nat (length block) - head, Some (Some (next m)),
        upd (mk_mem (<[next m := OBytes (content block head)]> (objs m)) (S (next m)) [])
            b (OAgg ip (Some st) (Z.of_nat (length block)) (Z.of_nat (length block)) d)).
Proof using Hb.
  intros Hm Hf Hlt. pose proof agg_at_ne as Hne. destruct Hb as (H1 & H2 & Hh).
  pose proof (mem_ok_lt _ _ _ Hm H1). unfold mv_data. brun1. brun1.
  rewrite (proj2 (Z.ltb_lt _ _)) by lia. brun1.
  assert (sub_bytes block head (Z.of_nat (length block) - head) = Ok (content block head)) as Hs.
  { unfold sub_bytes. rewrite !(proj2 (Z.leb_le _ _)) by lia. cbn [andb]. f_equal. unfold content.
    apply take_ge. rewrite length_drop. lia. }
  erewrite bind_run by (unfold lift; rewrite Hs; reflexivity).
  erewrite bind_run by (apply kmalloc_run; exact Hf). cbn [is_null].
  erewrite bind_run by (eapply store_run; cbn [objs upd next]; rewrite lookup_insert_ne by lia; apply lookup_insert_eq).
  erewrite bind_run by (eapply unlock_run, upd_lookup). unfold mret, stm_ret. rewrite upd_upd.
  do 2 f_equal. unfold upd. cbn [objs next fails]. f_equal.
  rewrite Z.add_simpl_r. rewrite !(insert_insert_ne _ b (next m)) by lia. by rewrite insert_insert_eq.
Qed.
End Push.

(** ** The theorems *)

(** A buffer for [ip] with room for [cap] bytes that holds [data], its lock
    held [d] times. *)
Definition buffer (h : gmap loc obj) (b : loc) (ip : Z) (cap : nat) (data : list Z) (d : Z) : Prop :=
  ∃ st block head, agg_at h b ip st block head d ∧ length block = cap ∧ content block head = data.

Lemma buffer_empty_content block : content block (Z.of_nat (length block)) = [].
Proof. unfold content. rewrite Nat2Z.id. by apply drop_ge. Qed.

(** On a uniprocessor kernel a buffer is a bounded stack of packets.
    [push_bytes] puts bytes that fit in front of the contents and refuses others
    without a change; [peek_packet] finds the front unless the buffer is empty;
    [reset_buffer] empties it; [mv_data] moves the contents to a block of their
    own.  Every operation leaves the lock as it found it. *)
Theorem byte_buffer_refines_stack m b ip cap data d bytes :
  mem_ok m → fails m = [] → buffer (objs m) b ip cap data d →
  buffer_len false (Some b) m = Ok (Z.of_nat cap, m) ∧
  buffer_data_len false (Some b) m = Ok (Z.of_nat (length data), m) ∧
  (∃ p, peek_packet false (Some b) m = Ok (p, m) ∧ (p = None ↔ data = [])) ∧
  (if bool_decide (length bytes + length data ≤ cap)%nat
   then ∃ m', push_bytes false (Some b) bytes m = Ok (0, m') ∧ buffer (objs m') b ip cap (bytes ++ data) d
   else push_bytes false (Some b) bytes m = Ok (-12, m)) ∧
  (∃ m', reset_buffer false (Some b) m = Ok (tt, m') ∧ buffer (objs m') b ip cap [] d) ∧
  (data ≠ [] → ∃ m', mv_data false (Some b) m = Ok (Z.of_nat (length data), Some (Some (next m)), m') ∧
     objs m' !! next m = Some (OBytes data) ∧ buffer (objs m') b ip cap [] d) ∧
  (data = [] → mv_data false (Some b) m = Ok (0, None, m)).
Proof.
  intros Hm Hf (st & block & head & Ha & <- & <-). pose proof (agg_at_ne _ _ _ _ _ _ _ Ha) as Hne.
  pose proof Ha as (H1 & H2 & Hh). pose proof (length_content block head Hh) as Hl.
  pose proof (mem_ok_lt _ _ _ Hm H1). pose proof (mem_ok_lt _ _ _ Hm H2).
  split; [by eapply buffer_len_run|]. split; [rewrite Hl; by eapply buffer_data_len_run|].
  split; [|split; [|split; [|split]]].
  - eexists. split; [by eapply peek_packet_run|]. rewrite <- length_zero_iff_nil.
    destruct (Z.eqb_spec (Z.of_nat (length block) - head) 0); split; intros; (done || lia).
  - destruct (bool_decide_reflect (length bytes + length (content block head) ≤ length block)%nat) as [Hle|Hgt].
    + destruct (push_bytes_run _ _ _ _ _ _ _ Ha bytes) as (block' & Hr & Hlen & Hc); [lia|].
      eexists. split; [exact Hr|]. eexists st, block', _. split; [|split; [exact Hlen|exact Hc]].
      rewrite <- Hlen. split; [heap_lookup|]. split; [apply upd_lookup|]. lia.
    + eapply push_bytes_full; [exact Ha|]. lia.
  - eexists. split; [by eapply reset_buffer_run|]. exists st, block, (Z.of_nat (length block)).
    split; [|split; [done|apply buffer_empty_content]]. split; [apply upd_lookup|]. split; [heap_lookup|lia].
  - intros Hd. rewrite Hl. eexists. split; [eapply mv_data_run; try done; destruct (content block head) eqn:E;
      [done|simpl in Hl; lia]|]. split; [cbn [objs upd]; rewrite lookup_insert_ne by lia; apply lookup_insert_eq|].
    exists st, block, (Z.of_nat (length block)).
    split; [|split; [done|apply buffer_empty_content]]. split; [apply upd_lookup|].
    split; [|lia]. cbn [objs upd]. rewrite !lookup_insert_ne by lia. done.
  - intros Hd. rewrite Hd in Hl. simpl in Hl. unfold mv_data. brun.
    rewrite (proj2 (Z.ltb_ge _ _)) by lia. brun. by rewrite Z.add_simpl_r, upd_id.
Qed.

Definition one_buffer : mem :=
  mk_mem {[ 0%nat := OAgg 16777226 (Some 1%nat) 4 2 0; 1%nat := OBytes [0; 0; 7; 8] ]} 2%nat [].

Lemma byte_buffer_refines_stack_witness :
  ∃ m', push_bytes false (Some 0%nat) [5; 6] one_buffer = Ok (0, m') ∧
    buffer (objs m') 0%nat 16777226 4 [5; 6; 7; 8] 0.
Proof.
  destruct (byte_buffer_refines_stack one_buffer 0%nat 16777226 4 [7; 8] 0 [5; 6])
    as (_ & _ & _ & Hp & _).
  - by apply mem_ok_check.
  - reflexivity.
  - exists 1%nat, [0; 0; 7; 8], 2. split; [split; [reflexivity|split; [reflexivity|simpl; lia]]|done].
  - exact Hp.
Defined.

(** On a multiprocessor kernel [peek_packet] and [push_bytes] take the lock
    and then call functions that take it again: they never return. *)
Theorem smp_self_deadlock m b ip st len head bytes :
  objs m !! b = Some (OAgg ip st len head 0) →
  peek_packet true (Some b) m = Crash Diverges ∧ push_bytes true (Some b) bytes m = Crash Diverges.
Proof.
  intros Hb. assert (∀ m', objs m' !! b = Some (OAgg ip st len head 1) →
    buffer_data_len true (Some b) m' = Crash Diverges) as Hd.
  { intros m' Hm'. unfold buffer_data_len, lock_buffer, mbind, stm_bind.
    by rewrite (get_agg_run _ _ _ _ _ _ _ Hm'). }
  split; [unfold peek_packet|unfold push_bytes];
    rewrite (bind_run _ _ _ _ _ (lock_run _ _ _ _ _ _ _ Hb true eq_refl));
    unfold mbind at 1, stm_bind at 1; by rewrite Hd by apply upd_lookup.
Qed.

Lemma smp_self_deadlock_witness :
  peek_packet true (Some 0%nat) one_buffer = Crash Diverges ∧
  push_bytes true (Some 0%nat) [5; 6] one_buffer = Crash Diverges.
Proof. apply (smp_self_deadlock one_buffer 0%nat 16777226 (Some 1%nat) 4 2). reflexivity. Defined.

(** *** The checksum *)

(** The sum of the words of a header. *)
Fixpoint wsum (bs : list Z) : Z :=
  match bs with a :: b :: rest => le_val [a; b] + wsum rest | _ => 0 end.

Lemma wsum_bounds n bs :
  bytes_ok bs → length bs = (2 * n)%nat → 0 ≤ wsum bs ≤ 65535 * Z.of_nat n.
Proof.
  revert bs. induction n as [|n IH]; intros bs Hb Hl; [by destruct bs|].
  destruct bs as [|a [|b bs]]; [simpl in Hl; lia..|]. inversion Hb as [|? ? Ha Hb']; subst.
  inversion Hb'; subst. specialize (IH bs). simpl in Hl |- *. assert (length bs = 2 * n)%nat by lia.
  assert (0 ≤ wsum bs ≤ 65535 * Z.of_nat n) by auto. lia.
Qed.

Lemma csum_loop_wsum n bs acc :
  bytes_ok bs → length bs = (2 * n)%nat → 0 ≤ acc → acc + 65535 * Z.of_nat n < 2 ^ 32 →
  csum_loop n bs acc = Ok (acc + wsum bs).
Proof.
  revert bs acc. induction n as [|n IH]; intros bs acc Hb Hl Ha Hlt.
  { destruct bs; [|done]. simpl. by rewrite Z.add_0_r. }
  destruct bs as [|a [|b bs]]; [simpl in Hl; lia..|]. inversion Hb as [|? ? Ha' Hb']; subst.
  inversion Hb' as [|? ? Hb1 Hb2]; subst. cbn [csum_loop wsum]. simpl in Hl.
  assert (0 ≤ le_val [a; b] ≤ 65535) by (simpl; lia).
  rewrite u32_small by lia. rewrite IH by (lia || done). f_equal. lia.
Qed.

Lemma wsum_app xs ys n : length xs = (2 * n)%nat → wsum (xs ++ ys) = wsum xs + wsum ys.
Proof.
  revert xs. induction n as [|n IH]; intros xs Hl; [by destruct xs|].
  destruct xs as [|a [|b xs]]; [simpl in Hl; lia..|]. simpl in Hl |- *. rewrite IH by lia. lia.
Qed.

(** Folding the carries of a sum. *)
Definition fold16 (s : Z) : Z := let s' := s / 65536 + s mod 65536 in s' + s' / 65536.

Lemma csum_fold n bs :
  bytes_ok bs → length bs = (2 * n)%nat → (n ≤ 32)%nat →
  csum bs (Z.of_nat n) = Ok (65535 - fold16 (wsum bs) mod 65536).
Proof.
  intros Hb Hl Hn. unfold csum. rewrite Nat2Z.id.
  pose proof (wsum_bounds n bs Hb Hl). rewrite csum_loop_wsum, result_bind_Ok by (done || lia).
  rewrite !(land_ones_mod _ 16), !(shiftr_div _ 16 65536), Z.add_0_l by done. change (2 ^ 16) with 65536.
  unfold fold16. cbv zeta.
  rewrite (u32_small (wsum bs / 65536 + wsum bs mod 65536)) by dlia.
  set (s := wsum bs / 65536 + wsum bs mod 65536). assert (0 ≤ s < 2 ^ 17) by (subst s; dlia).
  rewrite (u32_small (s + s / 65536)) by dlia. f_equal. unfold u16, Z.lnot. dlia.
Qed.

Lemma csum_check n pre post c :
  bytes_ok pre → bytes_ok post → Nat.Even (length pre) →
  (length pre + 2 + length post = 2 * n)%nat → (n ≤ 32)%nat →
  csum (pre ++ [0; 0] ++ post) (Z.of_nat n) = Ok c →
  csum (pre ++ le_bytes 2 c ++ post) (Z.of_nat n) = Ok 0.
Proof.
  intros H1 H2 [k Hk] Hl Hn Hc.
  assert (∀ w, bytes_ok w → length w = 2%nat → bytes_ok (pre ++ w ++ post) ∧
    length (pre ++ w ++ post) = (2 * n)%nat ∧ wsum (pre ++ w ++ post) = wsum pre + wsum w + wsum post) as Hw.
  { intros w Hw Hlw. split; [by rewrite !bytes_ok_app|]. split; [rewrite !length_app; lia|].
    rewrite (wsum_app _ _ k), (wsum_app w post 1) by lia. lia. }
  destruct (Hw [0; 0]) as (A1 & A2 & A3); [by repeat constructor|done|].
  destruct (Hw (le_bytes 2 c)) as (B1 & B2 & B3); [apply le_bytes_ok|apply length_le_bytes|].
  rewrite csum_fold, A3 in Hc by done. injection Hc as Hc. rewrite csum_fold by done. f_equal.
  pose proof (wsum_bounds n _ A1 A2) as Hb. rewrite A3 in Hb. rewrite B3. clear A3 B3.
  change (wsum [0; 0]) with 0 in *. rewrite Z.add_0_r in Hb, Hc.
  set (s := wsum pre + wsum post) in *. set (f := fold16 s mod 65536) in *.
  assert (0 ≤ f < 65536) by (apply Z.mod_pos_bound; lia).
  assert (wsum (le_bytes 2 c) = c) as ->.
  { change (wsum (le_bytes 2 c)) with (le_val (le_bytes 2 c) + 0).
    rewrite le_val_le_bytes. change (256 ^ Z.of_nat 2) with 65536. rewrite Z.mod_small by lia. lia. }
  replace (wsum pre + c + wsum post) with (s + c) by (subst s; lia). subst c.
  assert (0 ≤ s ≤ 65535 * 32) as Hs by lia. clearbody s. unfold f, fold16. cbv zeta. clear -Hs. dlia.
Qed.

(** The checksum is right: stored in the header it was computed over (with
    zero in its place), the header sums up to a valid one, for every header of
    up to 64 bytes. *)
Theorem csum_valid n pre post c :
  bytes_ok pre → bytes_ok post → Nat.Even (length pre) →
  (length pre + 2 + length post = 2 * n)%nat → (n ≤ 32)%nat →
  csum (pre ++ [0; 0] ++ post) (Z.of_nat n) = Ok c →
  csum (pre ++ le_bytes 2 c ++ post) (Z.of_nat n) = Ok 0.
Proof. apply csum_check. Qed.

Lemma csum_valid_witness :
  csum ([0x45; 0; 0; 57; 0; 0; 0; 0; 60; 144] ++ le_bytes 2 13301 ++ [127; 0; 0; 1; 10; 0; 0; 1]) 10 = Ok 0.
Proof.
  apply (csum_valid 10 [0x45; 0; 0; 57; 0; 0; 0; 0; 60; 144] [127; 0; 0; 1; 10; 0; 0; 1]).
  - unfold bytes_ok. repeat constructor; lia.
  - unfold bytes_ok. repeat constructor; lia.
  - exists 5%nat. reflexivity.
  - reflexivity.
  - lia.
  - reflexivity.
Defined.
