(* ===== verification/Queue.v ===== *)
(** * The injection queue and its thread

    Models [interceptors/deaggregation/spin_lock_queue.c], the queue between the
    deaggregation hook and the thread that sends the packets again, and
    [injection_thread.c], that thread. *)

From S2P Require Import Prelude Klist Chains ByteBuffer.

(** ** spin_lock_queue.c

    Every operation holds the lock of the queue from its first access to the
    last one, so the operations of different processors follow each other. *)

Definition get_qnode (p : ptr) : stm mem (ptr * ptr * ptr) :=
  o ← load p; match o with OQNode d n b => mret (d, n, b) | _ => throw BadAccess end.
Definition get_queue (q : ptr) : stm mem (ptr * ptr) :=
  o ← load q; match o with OQueue f l => mret (f, l) | _ => throw BadAccess end.

Definition make_spin_lock_queue_node (data : ptr) : stm mem ptr := kmalloc (OQNode data None None).
Definition make_spin_lock_queue : stm mem ptr := kmalloc (OQueue None None).

Definition free_spin_lock_queue_node (node : ptr) : stm mem ptr :=
  '(data, _, _) ← get_qnode node; kfree node;; mret data.

Section FreeQueue.
Context (free_data_fn : option (ptr → stm mem unit)).

Fixpoint free_queue_loop (fuel : nat) (q it : ptr) : stm mem unit :=
  match fuel with
  | O => throw Diverges
  | S n =>
      if is_null it then mret tt
      else
        '(first, last) ← get_queue q;
        '(_, next, _) ← get_qnode first;
        store q (OQueue next last);;
        data ← free_spin_lock_queue_node it;
        (if is_null data then mret tt
         else match free_data_fn with Some f => f data | None => kfree data end);;
        '(it, _) ← get_queue q;
        free_queue_loop n q it
  end.

(** Every turn frees a node, so the number of objects bounds the loop. *)
Definition free_spin_lock_queue (q : ptr) : stm mem unit :=
  '(it, _) ← get_queue q;
  m ← get;
  free_queue_loop (S (size (objs m))) q it;;
  kfree q.
End FreeQueue.

Definition spin_lock_queue_enqueue (q data : ptr) : stm mem unit :=
  n ← make_spin_lock_queue_node data;
  if is_null n then mret tt
  else
    '(first, last) ← get_queue q;
    if is_null first then store q (OQueue n n)
    else
      '(d1, n1, _) ← get_qnode first;
      store first (OQNode d1 n1 n);;
      '(d, _, b) ← get_qnode n;
      store n (OQNode d first b);;
      store q (OQueue n last).

Definition spin_lock_queue_dequeue (q : ptr) : stm mem ptr :=
  '(first, last) ← get_queue q;
  if is_null first then mret None
  else if ptr_eqb first last then
    '(data, _, _) ← get_qnode last;
    store q (OQueue None None);;
    free_spin_lock_queue_node last;;
    mret data
  else
    '(data, _, before) ← get_qnode last;
    store q (OQueue first before);;
    free_spin_lock_queue_node last;;
    mret data.

(** ** injection_thread.c *)

Record injection : Type := mk_inj {
  imem : mem;
  queue : ptr;
  injector : bool;            (* the thread runs *)
  sent : list (list Z)        (* packets the raw socket accepted *)
}.

Definition on_imem {A} (c : stm mem A) : stm injection A := fun s =>
  match c (imem s) with
  | Ok (a, m) => Ok (a, mk_inj m (queue s) (injector s) (sent s))
  | Crash e => Crash e
  end.

(** [ntohs(ip->tot_len)] of the packet at offset [ip]. *)
Definition ip_tot_len (skb : list Z) (ip : Z) : result Z := v ← rd16 skb (ip + 2); Ok (bswap 2 v).

(** [accepts]: whether the socket takes the packet. *)
Definition send_it (accepts : bool) (packet : ptr) : stm injection unit :=
  bytes ← on_imem (get_bytes packet);
  len ← lift (ip_tot_len bytes 0);
  bytes ← lift (sub_bytes bytes 0 len);
  modify (fun s => mk_inj (imem s) (queue s) (injector s) (if accepts then sent s ++ [bytes] else sent s)).

(** One turn of the thread's loop. *)
Definition injector_turn (accepts : bool) : stm injection unit :=
  s ← get;
  packet ← on_imem (spin_lock_queue_dequeue (queue s));
  if is_null packet then mret tt
  else send_it accepts packet;; on_imem (kfree packet).

(** [main_loop]: [socket_ok] and [option_ok] tell whether the raw socket can be
    made, [turns] what the socket does in each turn until the thread is asked to
    stop. *)
Fixpoint injector_loop (turns : list bool) : stm injection unit :=
  match turns with
  | [] => mret tt
  | a :: turns' => injector_turn a;; injector_loop turns'
  end.
Definition main_loop (socket_ok option_ok : bool) (turns : list bool) : stm injection Z :=
  if negb socket_ok then mret 0
  else if negb option_ok then mret 0
  else injector_loop turns;; mret 0.

(** [thread_ok]: whether the thread can be started; when it cannot, the error
    code is passed to [kfree] as a pointer. *)
Definition start_injection_thread (thread_ok : bool) : stm injection Z :=
  q ← on_imem make_spin_lock_queue;
  modify (fun s => mk_inj (imem s) q (injector s) (sent s));;
  if is_null q then mret 0
  else if thread_ok then
    modify (fun s => mk_inj (imem s) (queue s) true (sent s));; mret 1
  else throw BadAccess.

(** The queue is freed first; only then the thread is asked to stop. *)
Definition free_injection_queue : stm injection unit :=
  s ← get;
  if injector s then on_imem (free_spin_lock_queue None (queue s)) else mret tt.
Definition stop_injection_thread : stm injection unit :=
  free_injection_queue;;
  modify (fun s => mk_inj (imem s) (queue s) false (sent s)).

(** The packet at offset [ip] of [bytes]. *)
Definition inject_packet (bytes : list Z) (ip : Z) : stm injection unit :=
  len ← lift (ip_tot_len bytes ip);
  packet ← lift (sub_bytes bytes ip len);
  new ← on_imem (kmalloc (OBytes packet));
  if is_null new then mret tt
  else
    s ← get;
    on_imem (spin_lock_queue_enqueue (queue s) new).

(** ** What a queue in memory is

    [qrep h q l]: the queue [q] holds the nodes and data [l], the newest first.
    The links towards the newer nodes are right, those towards the older ones
    as well except for the oldest node, whose [next] may be left over from a
    node that was taken. *)
Definition qrep (h : gmap loc obj) (q : loc) (l : list (loc * ptr)) : Prop :=
  h !! q = Some (OQueue (head l.*1) (last l.*1)) ∧
  NoDup l.*1 ∧
  ∀ i n d, l !! i = Some (n, d) → ∃ nx,
    h !! n = Some (OQNode d nx (prev l.*1 i)) ∧ ((S i < length l)%nat → nx = l.*1 !! S i).

Lemma get_qnode_run m p d n b :
  objs m !! p = Some (OQNode d n b) → get_qnode (Some p) m = Ok (d, n, b, m).
Proof. intros H. unfold get_qnode. by rewrite (bind_run _ _ _ _ _ (load_run _ _ _ H)). Qed.
Lemma get_queue_run m q f l : objs m !! q = Some (OQueue f l) → get_queue (Some q) m = Ok (f, l, m).
Proof. intros H. unfold get_queue. by rewrite (bind_run _ _ _ _ _ (load_run _ _ _ H)). Qed.

Definition del (m : mem) (l : loc) : mem := mk_mem (delete l (objs m)) (next m) (fails m).
Lemma free_run m l o : objs m !! l = Some o → kfree (Some l) m = Ok (tt, del m l).
Proof. apply kfree_run. Qed.
Lemma free_node_run m p d n b :
  objs m !! p = Some (OQNode d n b) → free_spin_lock_queue_node (Some p) m = Ok (d, del m p).
Proof.
  intros H. unfold free_spin_lock_queue_node. rewrite (bind_run _ _ _ _ _ (get_qnode_run _ _ _ _ _ H)).
  cbv beta iota. by rewrite (bind_run _ _ _ _ _ (free_run _ _ _ H)).
Qed.

Lemma mem_ok_del m l : mem_ok m → mem_ok (del m l).
Proof. apply mem_ok_delete. Qed.

Lemma qrep_ne h q l i n d : qrep h q l → l !! i = Some (n, d) → n ≠ q.
Proof. intros (Hq & _ & Hn) Hi ->. apply Hn in Hi as (nx & Hi & _). congruence. Qed.

Lemma qrep_lt m q l i n d : mem_ok m → qrep (objs m) q l → l !! i = Some (n, d) → (n < next m)%nat.
Proof. intros Hm (_ & _ & Hn) Hi. apply Hn in Hi as (nx & Hi & _). by eapply mem_ok_lt. Qed.

Lemma qrep_frame h h' q l : qrep h q l → (∀ x, x ∈ q :: l.*1 → h' !! x = h !! x) → qrep h' q l.
Proof.
  intros (Hq & Hnd & Hn) Hf. split; [rewrite Hf; [done|constructor]|]. split; [done|].
  intros i n d Hi. destruct (Hn _ _ _ Hi) as (nx & H & Hx). exists nx. split; [|done].
  rewrite Hf; [done|]. right. eapply fst_elem, Hi.
Qed.

(** *** Putting data in *)

Lemma prev_cons n ns i : prev (n :: ns) (S i) = if decide (i = 0%nat) then Some n else prev ns i.
Proof. destruct i; [done|]. by rewrite decide_False. Qed.

Section Enqueue.
Context (m : mem) (q : loc) (l : list (loc * ptr)) (d : ptr).
Context (Hm : mem_ok m) (Hf : fails m = []) (Hq : qrep (objs m) q l).

Let n := next m.

Lemma new_node_fresh : (n ∉ l.*1) ∧ n ≠ q.
Proof using Hm Hq.
  split.
  - intros ([n' d'] & E & Hi)%list_elem_of_fmap. apply list_elem_of_lookup in Hi as [i Hi].
    pose proof (qrep_lt _ _ _ _ _ _ Hm Hq Hi). simpl in E. unfold n in E. lia.
  - intros E. destruct Hq as (H & _). pose proof (mem_ok_lt _ _ _ Hm H). unfold n in E. lia.
Qed.

Lemma qrep_cons h' first' :
  h' !! q = Some (OQueue (Some n) (Some first')) → first' = default n (last l.*1) →
  h' !! n = Some (OQNode d (head l.*1) None) →
  (∀ n1 d1 nx b, l !! 0%nat = Some (n1, d1) → objs m !! n1 = Some (OQNode d1 nx b) →
     h' !! n1 = Some (OQNode d1 nx (Some n))) →
  (∀ i n1 d1, l !! S i = Some (n1, d1) → h' !! n1 = objs m !! n1) →
  qrep h' q ((n, d) :: l).
Proof using Hm Hq.
  intros H1 -> H2 H3 H4. destruct new_node_fresh as [Hn _]. destruct Hq as (_ & Hnd & Hnodes).
  split; [|split].
  - rewrite H1. rewrite fmap_cons, last_cons. simpl. by destruct (last l.*1).
  - rewrite fmap_cons. by constructor.
  - intros [|i] n1 d1 Hi.
    + injection Hi as <- <-. exists (head l.*1). split; [done|]. intros _. by rewrite fmap_cons, head_lookup.
    + simpl in Hi. destruct (Hnodes _ _ _ Hi) as (nx & E & Hx). exists nx. rewrite fmap_cons, prev_cons.
      split; [|intros Hlt; apply Hx; simpl in Hlt; lia].
      destruct i as [|i]; [by rewrite decide_True; [eapply H3|]|].
      rewrite decide_False by done. by rewrite (H4 _ _ _ Hi).
Qed.

Lemma enqueue_run :
  ∃ m', spin_lock_queue_enqueue (Some q) d m = Ok (tt, m') ∧ mem_ok m' ∧ fails m' = [] ∧
    next m' = S (next m) ∧ qrep (objs m') q ((n, d) :: l) ∧ preserves (q :: l.*1) (objs m) (objs m').
Proof using Hm Hf Hq.
  destruct new_node_fresh as [Hn Hnq]. pose proof Hq as (Hqo & Hnd & Hnodes).
  pose proof (mem_ok_lt _ _ _ Hm Hqo) as Hlt. pose proof (mem_ok_alloc m (OQNode d None None) Hm) as Hm1.
  unfold spin_lock_queue_enqueue. erewrite bind_run by (apply kmalloc_run; exact Hf). cbn [is_null].
  fold n. set (m1 := mk_mem (<[n := OQNode d None None]> (objs m)) (S n) []).
  assert (objs m1 !! q = Some (OQueue (head l.*1) (last l.*1))) as Hq1.
  { cbn [objs m1]. by rewrite lookup_insert_ne. }
  erewrite bind_run by (apply get_queue_run; exact Hq1). cbv beta iota.
  pose proof qrep_cons as Hcons. destruct l as [|[n1 d1] l'] eqn:El.
  - cbn [fmap list_fmap head is_null]. eexists. split; [eapply store_run; exact Hq1|].
    split; [apply mem_ok_upd; [done|cbn [next m1]; lia]|]. split; [done|]. split; [done|]. split.
    + eapply Hcons; try done; cbn [objs upd m1]; [apply lookup_insert_eq|].
      rewrite lookup_insert_ne, lookup_insert_eq; done.
    + cbn [objs upd m1]. apply preserves_insert; [|constructor]. apply preserves_fresh, Hm. done.
  - cbn [fmap list_fmap head is_null fst].
    destruct (Hnodes 0%nat n1 d1 eq_refl) as (nx & E1 & _).
    pose proof (qrep_ne _ _ _ 0%nat n1 d1 Hq eq_refl) as Hn1q.
    assert (n1 ≠ n) as Hn1n by (intros ->; apply Hn; constructor).
    erewrite bind_run by (apply get_qnode_run; cbn [objs m1]; rewrite lookup_insert_ne by done; exact E1).
    cbv beta iota.
    erewrite bind_run by (eapply store_run; cbn [objs m1]; rewrite lookup_insert_ne by done; exact E1).
    erewrite bind_run by (apply get_qnode_run; cbn [objs upd m1]; rewrite ?lookup_insert_ne by congruence; apply lookup_insert_eq). cbv beta iota.
    erewrite bind_run by (eapply store_run; cbn [objs upd m1]; rewrite ?lookup_insert_ne by congruence; apply lookup_insert_eq).
    eexists. split; [eapply store_run; cbn [objs upd m1]; rewrite !lookup_insert_ne by done; exact Hqo|].
    pose proof (mem_ok_lt _ _ _ Hm E1).
    split; [repeat (apply mem_ok_upd; [|cbn [next upd m1]; unfold n; lia]); done|].
    split; [done|]. split; [done|]. split.
    + eapply (Hcons _ (default n1 (last (fst <$> l')))); cbn [objs upd m1].
      * rewrite lookup_insert_eq. cbn [fmap list_fmap]. rewrite last_cons.
        destruct (last (fst <$> l')); reflexivity.
      * cbn [fmap list_fmap]. rewrite last_cons. by destruct (last (fst <$> l')).
      * rewrite lookup_insert_ne, lookup_insert_eq by done. done.
      * intros n2 d2 nx2 b2 Hi H2. injection Hi as <- <-. rewrite H2 in E1. injection E1 as <- _.
        by rewrite !lookup_insert_ne, lookup_insert_eq by done.
      * intros i n2 d2 Hi. pose proof (qrep_ne _ _ _ _ _ _ Hq Hi).
        assert (n2 ≠ n) by (intros ->; apply Hn; eapply fst_elem, Hi).
        assert (n2 ≠ n1).
        { intros ->. rewrite fmap_cons in Hnd. inversion Hnd as [|? ? Hx]; subst. apply Hx.
          eapply fst_elem. exact Hi. }
        by rewrite !lookup_insert_ne by done.
    + cbn [objs upd m1]. apply preserves_insert; [|constructor].
      apply preserves_insert_fresh; [|apply Hm; done].
      apply preserves_insert; [|right; constructor]. apply preserves_fresh, Hm. done.
Qed.
End Enqueue.

(** *** Taking the oldest data out *)

Lemma lookup_snoc_last {A} (l : list A) x : (l ++ [x]) !! length l = Some x.
Proof. by apply list_lookup_middle. Qed.

Lemma prev_app ns ns' i : (i ≤ length ns)%nat → prev (ns ++ ns') i = prev ns i.
Proof. destruct i as [|i]; [done|]. intros. simpl. apply lookup_app_l. lia. Qed.

Lemma prev_last ns : prev ns (length ns) = last ns.
Proof. rewrite last_lookup. by destruct ns. Qed.

Section Dequeue.
Context (m : mem) (q : loc) (l : list (loc * ptr)) (n : loc) (d : ptr).
Context (Hq : qrep (objs m) q (l ++ [(n, d)])).

Lemma fst_snoc : (l ++ [(n, d)]).*1 = l.*1 ++ [n].
Proof. by rewrite fmap_app. Qed.

Lemma oldest_not_in : n ∉ l.*1.
Proof using Hq.
  destruct Hq as (_ & Hnd & _). rewrite fst_snoc in Hnd. apply NoDup_app in Hnd as (_ & H & _).
  intros Hn. apply (H n Hn). constructor.
Qed.

Lemma qrep_removed :
  qrep (<[q := OQueue (head l.*1) (last l.*1)]> (delete n (objs m))) q l.
Proof using Hq.
  pose proof oldest_not_in as Hn. pose proof Hq as (Hqo & Hnd & Hnodes). split; [|split].
  - apply lookup_insert_eq.
  - rewrite fst_snoc in Hnd. by apply NoDup_app in Hnd as (? & _ & _).
  - intros i n1 d1 Hi. pose proof (lookup_lt_Some _ _ _ Hi) as Hlt.
    pose proof (lookup_app_l_Some l [(n, d)] _ _ Hi) as Hi'.
    destruct (Hnodes _ _ _ Hi') as (nx & E & Hx). exists nx.
    pose proof (qrep_ne _ _ _ _ _ _ Hq Hi').
    assert (n1 ≠ n) by (intros ->; apply Hn; eapply fst_elem, Hi).
    rewrite lookup_insert_ne, lookup_delete_ne by done. rewrite E, fst_snoc, prev_app by (rewrite length_fmap; lia).
    split; [done|]. intros Hs. rewrite Hx, fst_snoc by (rewrite length_app; lia).
    apply lookup_app_l. by rewrite length_fmap.
Qed.

Lemma dequeue_run :
  ∃ m', spin_lock_queue_dequeue (Some q) m = Ok (d, m') ∧ next m' = next m ∧ fails m' = fails m ∧
    (mem_ok m → mem_ok m') ∧ objs m' = <[q := OQueue (head l.*1) (last l.*1)]> (delete n (objs m)).
Proof using Hq.
  pose proof Hq as (Hqo & Hnd & Hnodes). pose proof oldest_not_in as Hn.
  destruct (Hnodes (length l) n d (lookup_snoc_last _ _)) as (nx & En & _).
  pose proof (qrep_ne _ _ _ _ _ _ Hq (lookup_snoc_last l (n, d))) as Hnq.
  rewrite fst_snoc in *. rewrite prev_app, <- (length_fmap fst l), prev_last in En by (by rewrite length_fmap).
  rewrite last_snoc in Hqo. unfold spin_lock_queue_dequeue.
  erewrite bind_run by (apply get_queue_run; exact Hqo). cbv beta iota.
  assert (∀ f b, f = head l.*1 → b = last l.*1 →
    ∃ m', (store (Some q) (OQueue f b);; free_spin_lock_queue_node (Some n);; mret d) m = Ok (d, m') ∧
      next m' = next m ∧ fails m' = fails m ∧ (mem_ok m → mem_ok m') ∧
      objs m' = <[q := OQueue (head l.*1) (last l.*1)]> (delete n (objs m))) as Hrun.
  { intros f b -> ->. erewrite bind_run by (eapply store_run; exact Hqo).
    erewrite bind_run by (eapply free_node_run; cbn [objs upd]; rewrite lookup_insert_ne by done; exact En).
    eexists. split; [reflexivity|]. split; [done|]. split; [done|].
    split; [intros Hm; apply mem_ok_del, mem_ok_upd; [done|]; by eapply mem_ok_lt|].
    cbn [objs del upd]. by rewrite delete_insert_ne. }
  destruct l as [|[n1 d1] l'] eqn:El.
  - cbn [fmap list_fmap app head is_null]. rewrite ptr_eqb_refl.
    erewrite bind_run by (apply get_qnode_run; exact En). cbv beta iota. by apply Hrun.
  - cbn [fmap list_fmap app head is_null fst].
    rewrite ptr_eqb_ne by (intros [= ->]; apply Hn; constructor).
    erewrite bind_run by (apply get_qnode_run; exact En). cbv beta iota. by apply Hrun.
Qed.
End Dequeue.

Lemma dequeue_empty m q :
  qrep (objs m) q [] → spin_lock_queue_dequeue (Some q) m = Ok (None, m).
Proof.
  intros (Hq & _). unfold spin_lock_queue_dequeue. by erewrite bind_run by (apply get_queue_run; exact Hq).
Qed.

(** *** Any sequence of operations *)

Inductive qop : Type := Enqueue (data : ptr) | Dequeue.

Fixpoint run_qops (q : ptr) (ops : list qop) : stm mem (list ptr) :=
  match ops with
  | [] => mret []
  | Enqueue d :: ops' => spin_lock_queue_enqueue q d;; run_qops q ops'
  | Dequeue :: ops' => d ← spin_lock_queue_dequeue q; rest ← run_qops q ops'; mret (d :: rest)
  end.

(** A first-in first-out queue, oldest element first: what the dequeues return. *)
Fixpoint fifo (pending : list ptr) (ops : list qop) : list ptr :=
  match ops with
  | [] => []
  | Enqueue d :: ops' => fifo (pending ++ [d]) ops'
  | Dequeue :: ops' =>
      match pending with
      | [] => None :: fifo [] ops'
      | d :: pending' => d :: fifo pending' ops'
      end
  end.

Lemma run_qops_fifo q ops m l :
  mem_ok m → fails m = [] → qrep (objs m) q l →
  ∃ m', run_qops (Some q) ops m = Ok (fifo (reverse l.*2) ops, m').
Proof.
  revert m l. induction ops as [|[d|] ops IH]; intros m l Hm Hf Hq; [by eexists| |]; cbn [run_qops fifo].
  - destruct (enqueue_run m q l d Hm Hf Hq) as (m1 & Hr & Hm1 & Hf1 & _ & Hq1 & _).
    rewrite (bind_run _ _ _ _ _ Hr). destruct (IH m1 _ Hm1 Hf1 Hq1) as (m' & ->).
    exists m'. by rewrite fmap_cons, reverse_cons.
  - destruct l as [|[n d] l _] using rev_ind.
    + rewrite (bind_run _ _ _ _ _ (dequeue_empty _ _ Hq)). destruct (IH m [] Hm Hf Hq) as (m' & Hr).
      exists m'. by rewrite (bind_run _ _ _ _ _ Hr).
    + destruct (dequeue_run _ _ _ _ _ Hq) as (m1 & Hr & _ & Hf1 & Hm1 & Ho).
      rewrite (bind_run _ _ _ _ _ Hr). destruct (IH m1 l) as (m' & Hr').
      * by apply Hm1.
      * by rewrite Hf1.
      * rewrite Ho. by eapply qrep_removed.
      * exists m'. rewrite (bind_run _ _ _ _ _ Hr'), fmap_app, reverse_app. reflexivity.
Qed.

(** C14: the queue is first in, first out: for every sequence of operations on a
    new queue the dequeues return the data in the order they were put in, and
    NULL when there are none. *)
Theorem spin_lock_queue_fifo m ops :
  mem_ok m → fails m = [] →
  ∃ q m', (q ← make_spin_lock_queue; out ← run_qops q ops; mret (q, out)) m = Ok (Some q, fifo [] ops, m').
Proof.
  intros Hm Hf. unfold make_spin_lock_queue. erewrite bind_run by (apply kmalloc_run; exact Hf).
  destruct (run_qops_fifo (next m) ops (mk_mem (<[next m := OQueue None None]> (objs m)) (S (next m)) []) [])
    as (m' & Hr).
  - by apply mem_ok_alloc.
  - done.
  - split; [apply lookup_insert_eq|]. split; [constructor|done].
  - exists (next m), m'. by rewrite (bind_run _ _ _ _ _ Hr).
Qed.

Lemma spin_lock_queue_fifo_witness :
  ∃ q m', (q ← make_spin_lock_queue;
           out ← run_qops q [Enqueue (Some 7%nat); Enqueue (Some 8%nat); Dequeue; Dequeue; Dequeue];
           mret (q, out)) (mk_mem ∅ 0%nat []) = Ok (Some q, [Some 7%nat; Some 8%nat; None], m').
Proof.
  apply (spin_lock_queue_fifo (mk_mem ∅ 0%nat [])
           [Enqueue (Some 7%nat); Enqueue (Some 8%nat); Dequeue; Dequeue; Dequeue]).
  - by apply mem_ok_check.
  - reflexivity.
Defined.

(** ** Freeing the queue *)

(** The nodes from [it] on with their data blocks, following [next] up to
    [fin]. *)
Fixpoint chain (h : gmap loc obj) (it : ptr) (l : list (loc * loc)) (fin : ptr) : Prop :=
  match l with
  | [] => it = fin
  | (n, d) :: l' =>
      it = Some n ∧
      ∃ nx b o, h !! n = Some (OQNode (Some d) nx b) ∧ h !! d = Some o ∧ chain h nx l' fin
  end.

Fixpoint addresses (l : list (loc * loc)) : list loc :=
  match l with [] => [] | (n, d) :: l' => n :: d :: addresses l' end.

Lemma chain_frame h h' it l fin :
  chain h it l fin → (∀ x, x ∈ addresses l → h' !! x = h !! x) → chain h' it l fin.
Proof.
  revert it. induction l as [|[n d] l IH]; intros it; [done|]. simpl.
  intros (-> & nx & b & o & H1 & H2 & H3) Hf. split; [done|]. exists nx, b, o.
  rewrite !Hf by (rewrite ?elem_of_cons; tauto). split; [done|]. split; [done|].
  apply IH; [done|]. intros x Hx. apply Hf. rewrite !elem_of_cons. tauto.
Qed.

Lemma free_loop_run l fuel m q it last0 fin :
  chain (objs m) it l fin → NoDup (q :: addresses l) → objs m !! q = Some (OQueue it last0) →
  ∃ m', free_queue_loop None (length l + fuel) (Some q) it m = free_queue_loop None fuel (Some q) fin m' ∧
    objs m' !! q = Some (OQueue fin last0) ∧
    ∀ x, x ∉ q :: addresses l → objs m' !! x = objs m !! x.
Proof.
  revert m it. induction l as [|[n d] l IH]; intros m it; cbn [chain addresses length Nat.add].
  { intros -> _ Hq. by exists m. }
  intros (-> & nx & b & o & H1 & H2 & H3) Hnd Hq.
  inversion Hnd as [|? ? Hq1 Hnd1]; subst. inversion Hnd1 as [|? ? Hn1 Hnd2]; subst.
  inversion Hnd2 as [|? ? Hd1 Hnd3]; subst. apply not_elem_of_cons in Hq1 as [Hqn Hq1].
  apply not_elem_of_cons in Hq1 as [Hqd Hq1]. apply not_elem_of_cons in Hn1 as [Hnd' Hn1].
  set (m' := del (del (upd m q (OQueue nx last0)) n) d).
  destruct (IH m' nx) as (m2 & Hr & Hq2 & Hx).
  - eapply chain_frame; [exact H3|]. intros x Hx. cbn [objs m' del upd].
    rewrite !lookup_delete_ne, lookup_insert_ne by (intros ->; done). done.
  - by constructor.
  - cbn [objs m' del upd]. rewrite !lookup_delete_ne by done. apply lookup_insert_eq.
  - exists m2. split; [|split; [done|]].
    + cbn [free_queue_loop is_null].
      erewrite bind_run by (apply get_queue_run; exact Hq). cbv beta iota.
      erewrite bind_run by (apply get_qnode_run; exact H1). cbv beta iota.
      erewrite bind_run by (eapply store_run; exact Hq).
      erewrite bind_run by (eapply free_node_run; cbn [objs upd];
        rewrite lookup_insert_ne by done; exact H1). cbn [is_null].
      erewrite bind_run by (eapply free_run; cbn [objs del upd];
        rewrite lookup_delete_ne, lookup_insert_ne by done; exact H2).
      erewrite bind_run by (apply get_queue_run; cbn [objs del upd];
        rewrite !lookup_delete_ne by done; apply lookup_insert_eq).
      cbv beta iota. exact Hr.
    + intros x Hne. rewrite !not_elem_of_cons in Hne. rewrite Hx by (rewrite not_elem_of_cons; tauto).
      cbn [objs m' del upd]. by rewrite !lookup_delete_ne, lookup_insert_ne by (intros ->; tauto).
Qed.

Lemma free_loop_dangling f m q n last0 :
  objs m !! q = Some (OQueue (Some n) last0) → objs m !! n = None →
  free_queue_loop None (S f) (Some q) (Some n) m = Crash BadAccess.
Proof.
  intros Hq Hn. cbn [free_queue_loop is_null]. erewrite bind_run by (apply get_queue_run; exact Hq).
  cbv beta iota. unfold get_qnode, load, mbind, stm_bind. by rewrite Hn.
Qed.

Lemma chain_length_size h it l fin : chain h it l fin → NoDup (addresses l) → (length l ≤ size h)%nat.
Proof.
  intros Hc Hnd. assert (∀ x, x ∈ addresses l → x ∈ dom h) as Hsub.
  { revert it Hc. induction l as [|[n d] l IH]; intros it; simpl; [set_solver|].
    intros (_ & nx & b & o & H1 & H2 & H3) x. rewrite !elem_of_cons.
    simpl in Hnd. inversion Hnd as [|? ? _ Hnd']; subst. inversion Hnd'; subst.
    intros [->|[->|Hx]]; [apply elem_of_dom; eauto..|]. by eapply IH. }
  transitivity (length (addresses l)).
  { clear. induction l as [|[n d] l IH]; simpl; lia. }
  rewrite <- size_dom, <- (size_list_to_set (C := gset loc)) by done.
  apply subseteq_size. intros x. rewrite elem_of_list_to_set. apply Hsub.
Qed.


(** Nodes with their data blocks. *)
Definition with_data (l : list (loc * loc)) : list (loc * ptr) := (fun x => (x.1, Some x.2)) <$> l.

Lemma with_data_fst l : (with_data l).*1 = l.*1.
Proof. unfold with_data. rewrite <- list_fmap_compose. by apply list_fmap_ext. Qed.

(** Following [next] through the nodes of a queue leads to the oldest one. *)
Lemma chain_of_qrep h q pre l n d :
  qrep h q (with_data (pre ++ l) ++ [(n, d)]) → (∀ x, x ∈ l → is_Some (h !! x.2)) →
  chain h (head (l.*1 ++ [n])) l (Some n).
Proof.
  revert pre. induction l as [|[n1 d1] l IH]; intros pre Hq Hd; [done|].
  cbn [chain]. split; [done|]. pose proof Hq as (_ & _ & Hnodes).
  destruct (Hnodes (length pre) n1 (Some d1)) as (nx & E & Hx).
  { unfold with_data. rewrite fmap_app, fmap_cons, <- app_assoc, <- app_comm_cons.
    apply list_lookup_middle. by rewrite length_fmap. }
  destruct (Hd (n1, d1)) as [o Ho]; [constructor|]. eexists nx, _, o. split; [exact E|]. split; [exact Ho|].
  rewrite Hx.
  2: { unfold with_data. rewrite length_app, length_fmap, length_app. simpl. lia. }
  rewrite fmap_app, with_data_fst, fmap_app, <- app_assoc, fmap_cons, <- app_comm_cons.
  rewrite lookup_app_r by (rewrite length_fmap; lia). rewrite length_fmap.
  replace (S (length pre) - length pre)%nat with 1%nat by lia.
  change (fmap fst [(n, d)]) with [n].
  change (((n1, d1).1 :: l.*1 ++ [n]) !! 1%nat) with ((l.*1 ++ [n]) !! 0%nat).
  rewrite <- head_lookup. apply (IH (pre ++ [(n1, d1)])).
  - by rewrite <- app_assoc.
  - intros x Hx'. apply Hd. by constructor.
Qed.

(** When data is taken from a queue that holds more, the new oldest node
    keeps pointing to the freed one, and freeing the queue follows that pointer:
    [free_spin_lock_queue] reads freed memory whenever the queue is not empty
    and has been taken from. *)
Theorem free_queue_after_dequeue m q l n d :
  l ≠ [] → qrep (objs m) q (with_data l ++ [(n, d)]) → NoDup (q :: n :: addresses l) →
  (∀ x, x ∈ l → is_Some (objs m !! x.2)) →
  ∃ m', spin_lock_queue_dequeue (Some q) m = Ok (d, m') ∧
    free_spin_lock_queue None (Some q) m' = Crash BadAccess.
Proof.
  intros Hl Hq Hnd Hd. destruct (dequeue_run _ _ _ _ _ Hq) as (m' & Hr & _ & _ & _ & Ho).
  exists m'. split; [exact Hr|]. inversion Hnd as [|? ? Hq1 Hnd1]; subst.
  inversion Hnd1 as [|? ? Hn1 Hnd2]; subst. apply not_elem_of_cons in Hq1 as [Hqn Hq1].
  assert (chain (objs m') (head l.*1) l (Some n)) as Hc.
  { replace (head l.*1) with (head (l.*1 ++ [n])) by (by destruct l).
    eapply chain_frame; [apply (chain_of_qrep _ _ [] _ _ _ Hq Hd)|]. intros x Hx. rewrite Ho.
    rewrite lookup_insert_ne, lookup_delete_ne by (intros ->; done). done. }
  assert (objs m' !! q = Some (OQueue (head l.*1) (last l.*1))) as Hq'.
  { rewrite Ho, with_data_fst. apply lookup_insert_eq. }
  unfold free_spin_lock_queue. erewrite bind_run by (apply get_queue_run; exact Hq'). cbv beta iota.
  rewrite (bind_run get _ _ _ _ eq_refl). unfold mbind, stm_bind.
  pose proof (chain_length_size _ _ _ _ Hc Hnd2).
  replace (S (size (objs m'))) with (length l + S (size (objs m') - length l))%nat by lia.
  destruct (free_loop_run l (S (size (objs m') - length l)) m' q (head l.*1) (last l.*1) (Some n))
    as (m2 & -> & Hq2 & Hx); [done|by constructor|done|].
  rewrite (free_loop_dangling _ _ _ _ _ Hq2); [done|].
  rewrite Hx by (by apply not_elem_of_cons). rewrite Ho, lookup_insert_ne by done. apply lookup_delete_eq.
Qed.

Lemma free_queue_after_dequeue_witness :
  ∃ m', spin_lock_queue_dequeue (Some 0%nat)
      (mk_mem {[ 0%nat := OQueue (Some 2%nat) (Some 1%nat); 1%nat := OQNode (Some 3%nat) None (Some 2%nat);
                 2%nat := OQNode (Some 4%nat) (Some 1%nat) None; 3%nat := OBytes [1]; 4%nat := OBytes [2] ]}
         5%nat []) = Ok (Some 3%nat, m') ∧
    free_spin_lock_queue None (Some 0%nat) m' = Crash BadAccess.
Proof.
  apply (free_queue_after_dequeue _ 0%nat [(2%nat, 4%nat)] 1%nat (Some 3%nat)).
  - done.
  - split; [reflexivity|]. split; [by apply (bool_decide_unpack _)|].
    intros [|[|i]] n d Hi; [injection Hi as <- <-; eexists; split; [reflexivity|]; (reflexivity || (simpl; lia))..|done].
  - by apply (bool_decide_unpack _).
  - intros x Hx. apply list_elem_of_singleton in Hx as ->. by eexists.
Defined.

(** Stopping is unsafe: the queue is freed while the thread still runs, and
    the thread's next turn reads the freed queue. *)
Theorem stop_injection_race s s' accepts :
  injector s = true → free_injection_queue s = Ok (tt, s') → injector_turn accepts s' = Crash BadAccess.
Proof.
  intros Hi H. unfold free_injection_queue in H. rewrite (bind_run get _ _ _ _ eq_refl), Hi in H.
  unfold on_imem in H. destruct (free_spin_lock_queue None (queue s) (imem s)) as [[[] m]|] eqn:E; [|done].
  injection H as <-. unfold injector_turn. rewrite (bind_run get _ _ _ _ eq_refl). cbn [queue].
  unfold free_spin_lock_queue in E. inv_bind E. destruct a as [it last0]. inv_bind E. inv_bind E.
  unfold kfree in E. destruct (queue s) as [q|]; [|done].
  destruct (objs s2 !! q) eqn:Eq; [|done]. injection E as <-.
  unfold on_imem, spin_lock_queue_dequeue, get_queue, load, mbind, stm_bind. cbn [imem objs].
  by rewrite lookup_delete_eq.
Qed.

Lemma stop_injection_race_witness :
  injector_turn true (mk_inj (mk_mem ∅ 1%nat []) (Some 0%nat) true []) = Crash BadAccess.
Proof.
  apply (stop_injection_race (mk_inj (mk_mem {[ 0%nat := OQueue None None ]} 1%nat []) (Some 0%nat) true []));
    reflexivity.
Defined.

(** ** Packets on their way

    [pending s bs]: the queue holds the packets [bs], the oldest first, each in
    a block of its own. *)
Definition pending (s : injection) (bs : list (list Z)) : Prop :=
  mem_ok (imem s) ∧ fails (imem s) = [] ∧
  ∃ q l ds, queue s = Some q ∧ qrep (objs (imem s)) q l ∧ l.*2 = Some <$> reverse ds ∧ NoDup ds ∧
    Forall2 (fun d b => objs (imem s) !! d = Some (OBytes b)) ds bs.

Lemma on_imem_run {A} (c : stm mem A) s a m :
  c (imem s) = Ok (a, m) → on_imem c s = Ok (a, mk_inj m (queue s) (injector s) (sent s)).
Proof. intros H. unfold on_imem. by rewrite H. Qed.

(** A block is neither a node nor the queue. *)
Lemma block_not_node h q l d b : qrep h q l → h !! d = Some (OBytes b) → d ∉ q :: l.*1.
Proof.
  intros (Hq & _ & Hn) Hd. rewrite not_elem_of_cons. split; [intros ->; congruence|].
  intros ([n x] & -> & Hi)%list_elem_of_fmap. apply list_elem_of_lookup in Hi as [i Hi].
  apply Hn in Hi as (nx & Hi & _). simpl in Hd. congruence.
Qed.

Lemma inject_packet_run s bs bytes ip len p :
  pending s bs → ip_tot_len bytes ip = Ok len → sub_bytes bytes ip len = Ok p →
  ∃ s', inject_packet bytes ip s = Ok (tt, s') ∧ pending s' (bs ++ [p]) ∧
    injector s' = injector s ∧ sent s' = sent s.
Proof.
  intros (Hm & Hf & q & l & ds & Eq & Hq & Hl & Hnd & Hds) Hlen Hp. unfold inject_packet.
  erewrite bind_run by (unfold lift; rewrite Hlen; reflexivity).
  erewrite bind_run by (unfold lift; rewrite Hp; reflexivity).
  erewrite bind_run by (apply on_imem_run, kmalloc_run; exact Hf). cbn [is_null].
  rewrite (bind_run get _ _ _ _ eq_refl). cbn [queue].
  set (d := next (imem s)). set (m1 := mk_mem (<[d := OBytes p]> (objs (imem s))) (S d) []).
  assert (Hd : objs (imem s) !! d = None) by (apply Hm; done).
  assert (qrep (objs m1) q l) as Hq1.
  { eapply qrep_frame; [exact Hq|]. intros x Hx. cbn [objs m1]. rewrite lookup_insert_ne; [done|].
    intros <-. pose proof Hq as (Hqo & _ & Hn). apply elem_of_cons in Hx as [Hx|Hx]; [congruence|].
    apply list_elem_of_fmap in Hx as ([n y] & E & Hi). apply list_elem_of_lookup in Hi as [i Hi].
    apply Hn in Hi as (nx & Hi & _). simpl in E. congruence. }
  destruct (enqueue_run m1 q l (Some d) (mem_ok_alloc _ _ Hm) eq_refl Hq1)
    as (m2 & Hr & Hm2 & Hf2 & _ & Hq2 & Hpres).
  rewrite Eq. eexists. split; [apply on_imem_run; exact Hr|]. split; [|done].
  split; [done|]. split; [done|]. exists q, ((next m1, Some d) :: l), (ds ++ [d]).
  cbn [imem queue]. split; [done|]. split; [exact Hq2|].
  assert (∀ x b, objs m1 !! x = Some (OBytes b) → objs m2 !! x = Some (OBytes b)) as Hkeep.
  { intros x b Hx. rewrite Hpres; [done|by eapply block_not_node|by apply elem_of_dom]. }
  split; [by rewrite fmap_cons, Hl, reverse_app|]. split.
  - apply NoDup_app. split; [done|]. split; [|apply NoDup_singleton].
    intros x Hx ->%list_elem_of_singleton. apply list_elem_of_lookup in Hx as [i Hi].
    destruct (Forall2_lookup_l _ _ _ _ _ Hds Hi) as (b & _ & Hb). congruence.
  - apply Forall2_app.
    + eapply Forall2_impl; [exact Hds|]. intros x b Hx. apply Hkeep. cbn [objs m1].
      rewrite lookup_insert_ne; congruence.
    + repeat constructor. apply Hkeep. apply lookup_insert_eq.
Qed.

Lemma injector_turn_run s b bs :
  pending s (b :: bs) → ip_tot_len b 0 = Ok (Z.of_nat (length b)) →
  ∃ s', injector_turn true s = Ok (tt, s') ∧ pending s' bs ∧ sent s' = sent s ++ [b].
Proof.
  intros (Hm & Hf & q & l & ds & Eq & Hq & Hl & Hnd & Hds) Hlen.
  inversion Hds as [|d ? ds' ? Hd Hds']; subst. rewrite reverse_cons, fmap_app in Hl.
  destruct l as [|[n x] l _] using rev_ind; [by destruct (Some <$> reverse ds')|].
  rewrite fmap_app in Hl. apply app_inj_2 in Hl as [Hl Hx]; [|done]. injection Hx as Hx. simpl in Hx. subst x.
  inversion Hnd as [|? ? Hd' Hnd']; subst.
  destruct (dequeue_run _ _ _ _ _ Hq) as (m1 & Hr & Hnx & Hf1 & Hm1 & Ho).
  assert (Hkeep : ∀ x b, objs (imem s) !! x = Some (OBytes b) → objs m1 !! x = Some (OBytes b)).
  { intros x b' Hx. pose proof (block_not_node _ _ _ _ _ Hq Hx) as Hnot. rewrite not_elem_of_cons in Hnot.
    rewrite fst_snoc, not_elem_of_app, not_elem_of_cons in Hnot.
    rewrite Ho, lookup_insert_ne, lookup_delete_ne by (intros ->; tauto). done. }
  unfold injector_turn. rewrite (bind_run get _ _ _ _ eq_refl), Eq.
  erewrite bind_run by (apply on_imem_run; exact Hr). cbn [is_null].
  unfold send_it. rewrite !stm_bind_assoc.
  erewrite bind_run by (apply on_imem_run, get_bytes_run, Hkeep; exact Hd).
  rewrite stm_bind_assoc. erewrite bind_run by (unfold lift; rewrite Hlen; reflexivity).
  rewrite stm_bind_assoc.
  assert (sub_bytes b 0 (Z.of_nat (length b)) = Ok b) as Hb.
  { unfold sub_bytes. rewrite !(proj2 (Z.leb_le _ _)) by lia. cbn [andb]. by rewrite Nat2Z.id, drop_0, firstn_all. }
  erewrite bind_run by (unfold lift; rewrite Hb; reflexivity).
  rewrite (bind_run (modify _) _ _ _ _ eq_refl).
  eexists. split; [apply on_imem_run; cbn [imem]; eapply free_run, Hkeep; exact Hd|]. split; [|done].
  unfold pending. cbn [imem queue injector sent]. split; [by apply mem_ok_del, Hm1|]. split; [cbn [fails del]; by rewrite Hf1|].
  exists q, l, ds'. split; [done|]. cbn [objs del]. split; [|split; [done|split; [done|]]].
  - eapply (qrep_frame (objs m1)); [rewrite Ho; by eapply qrep_removed|]. intros x Hx. rewrite lookup_delete_ne; [done|].
    intros ->. pose proof (block_not_node _ _ _ _ _ Hq Hd) as Hnot. rewrite not_elem_of_cons, fst_snoc, not_elem_of_app in Hnot.
    apply elem_of_cons in Hx as [->|Hx]; tauto.
  - apply Forall2_same_length_lookup_2; [by eapply Forall2_length|]. intros i x b' Hi Hb'.
    rewrite lookup_delete_ne.
    + apply Hkeep. by eapply (Forall2_lookup_lr _ _ _ _ _ _ Hds').
    + intros ->. apply Hd'. apply list_elem_of_lookup. eauto.
Qed.

(** Enough turns of the thread send all packets, the oldest first. *)
Lemma injector_loop_sends s bs :
  pending s bs → Forall (fun b => ip_tot_len b 0 = Ok (Z.of_nat (length b))) bs →
  ∃ s', injector_loop (replicate (length bs) true) s = Ok (tt, s') ∧ pending s' [] ∧ sent s' = sent s ++ bs.
Proof.
  revert s. induction bs as [|b bs IH]; intros s Hp Hb.
  { exists s. by rewrite app_nil_r. }
  inversion Hb; subst. destruct (injector_turn_run _ _ _ Hp) as (s1 & Hr & Hp1 & Hs1); [done|].
  destruct (IH s1) as (s2 & Hr2 & Hp2 & Hs2); [done..|]. exists s2.
  cbn [replicate length injector_loop]. rewrite (bind_run _ _ _ _ _ Hr). split; [done|]. split; [done|].
  by rewrite Hs2, Hs1, <- app_assoc.
Qed.
