(* ===== verification/Deaggregation.v ===== *)
(** * Deaggregation of packets

    Models [interceptors/deaggregation/deaggregation.c]: the hook that takes
    aggregated packets apart and hands the parts to the injection thread. *)

From S2P Require Import Prelude Klist Chains Managers Sender ByteBuffer Queue.

(** ** deaggregation.c *)

Definition MAX_SCATTERS : Z := 27.
Definition sizeof_udphdr : Z := 8.

Definition rd64 (skb : list Z) (i : Z) : result Z := bs ← sub_bytes skb i 8; Ok (le_val bs).
Definition wr16 (skb : list Z) (i v : Z) : result (list Z) := set_bytes skb i (le_bytes 2 v).
Definition wr64 (skb : list Z) (i v : Z) : result (list Z) := set_bytes skb i (le_bytes 8 v).

(** [scatters[i] = v] and [scatters[i]] on the array of 27 pointers. *)
Definition set_scatter {A} (scatters : list (option A)) (i : Z) (v : A) : result (list (option A)) :=
  if (0 <=? i) && (i <? MAX_SCATTERS) then Ok (<[Z.to_nat i := Some v]> scatters) else Crash OutOfBounds.
Definition get_scatter {A} (scatters : list (option A)) (i : Z) : result A :=
  match scatters !! Z.to_nat i with
  | Some (Some v) => Ok v
  | Some None => Crash NullDeref
  | None => Crash OutOfBounds
  end.
Definition no_scatters {A} : list (option A) := replicate 27 None.

Definition encapsulates_udp (proto : Z) : bool :=
  (proto =? AGREGATED_APPLICATION_ENCAP_UDP_PROTO) || (proto =? IPPROTO_UDP).

Record l3 : Type := mk_l3 {
  skb : list Z;
  acc_len : Z;
  first : Z;                       (* offset of the packet looked at *)
  scatter_index : Z;
  first_time : bool;
  ts_acc : Z;
  scatters : list (option Z)       (* offsets in the packet *)
}.

(** One turn of the loop over the packets, and whether to go on: a packet with
    another protocol inside is dropped. *)
Definition l3_turn (ts : Z) (s : l3) : result (bool * l3) :=
  len ← ip_tot_len (skb s) (first s);
  let acc := u16 (acc_len s + len) in
  sc ← set_scatter (scatters s) (scatter_index s) (first s);
  proto ← ip_protocol (skb s) (first s);
  if negb (encapsulates_udp proto) then Ok (false, s)
  else
    ihl ← ip_ihl (skb s) (first s);
    let udp_helper := first s + Z.shiftl ihl 2 in
    k ← wr16 (skb s) (udp_helper + 6) 0;
    let pdu := udp_helper + sizeof_udphdr in
    k ← wr64 k pdu (u64 (ts - ts_acc s));
    stamp ← rd64 k pdu;
    let acc_ts := if first_time s then ts_acc s else u64 (ts_acc s + stamp) in
    k ← wr64 k pdu (bswap 8 stamp);
    len ← ip_tot_len k (first s);
    Ok (true, mk_l3 k acc (first s + len) (u8 (scatter_index s - 1)) false acc_ts sc).

(** The array has 27 places and every turn uses one, so 28 turns are enough:
    the last one at most fails to store the packet. *)
Fixpoint l3_loop (fuel : nat) (agg_len ts : Z) (s : l3) : result (bool * l3) :=
  match fuel with
  | O => Crash Diverges
  | S n =>
      if acc_len s <? agg_len then
        '(go_on, s) ← l3_turn ts s;
        if (go_on : bool) then l3_loop n agg_len ts s else Ok (false, s)
      else Ok (true, s)
  end.

(** [for(scatter_index++; scatter_index < MAX_SCATTERS; scatter_index++)]. *)
Fixpoint inject_from (n : nat) (k : list Z) (sc : list (option Z)) (i : Z) : stm injection unit :=
  match n with
  | O => mret tt
  | S n' =>
      if i <? MAX_SCATTERS then
        ip ← lift (get_scatter sc i);
        inject_packet k ip;;
        inject_from n' k sc (u8 (i + 1))
      else mret tt
  end.

(** The verdict and the packet. *)
Definition l3_deaggregate (k : list Z) : stm injection (Z * list Z) :=
  tot ← lift (ip_tot_len k 0);
  ihl ← lift (ip_ihl k 0);
  let agg_len := u16 (tot - Z.shiftl ihl 2) in
  let iph := Z.shiftl ihl 2 in
  proto ← lift (ip_protocol k iph);
  if negb (encapsulates_udp proto) then mret (NF_ACCEPT, k)
  else
    ihl1 ← lift (ip_ihl k iph);
    stamp ← lift (rd64 k (iph + Z.shiftl ihl1 2 + sizeof_udphdr));
    let ts := bswap 8 stamp in
    '(ok, s) ← lift (l3_loop 28 agg_len ts (mk_l3 k 0 iph (MAX_SCATTERS - 1) true 0 no_scatters));
    if negb ok then mret (NF_DROP, skb s)
    else
      inject_from 28 (skb s) (scatters s) (u8 (scatter_index s + 1));;
      mret (NF_STOLEN, skb s).

(** *** Application level *)

(** The new packet: the IP header of the aggregate and one of its UDP packets. *)
Definition prepend_iphdr (k : list Z) (ihl udph len : Z) : result (list Z) :=
  hdr ← sub_bytes k 0 (Z.shiftl ihl 2);
  udp ← sub_bytes k udph len;
  let new := hdr ++ udp in
  new ← wr16 new 2 (bswap 2 (u16 (Z.shiftl ihl 2 + len)));
  new ← set_bytes new 9 [IPPROTO_UDP];
  new ← wr16 new 10 0;
  c ← csum new (Z.shiftl ihl 1);
  wr16 new 10 c.

(** One turn: [first] stays at the first packet, and [pdu] is never assigned. *)
Definition app_turn (k : list Z) (ihl udph first ts ts_acc : Z) (first_time : bool)
    : stm injection (list Z * Z * ptr) :=
  k ← lift (wr16 k (udph + 6) 0);
  k ← lift (wr64 k first (u64 (ts - ts_acc)));
  if negb first_time then throw Uninitialised
  else
    stamp ← lift (rd64 k first);
    k ← lift (wr64 k first (bswap 8 stamp));
    v ← lift (rd16 k (udph + 4));
    let len := bswap 2 v in
    new ← on_imem (kmalloc (OBytes (replicate (Z.to_nat (Z.shiftl ihl 2 + len)) 0)));
    if is_null new then throw NullDeref
    else
      bytes ← lift (prepend_iphdr k ihl udph len);
      on_imem (store new (OBytes bytes));;
      mret (k, udph + len, new).

Fixpoint app_loop (fuel : nat) (n : Z) (k : list Z) (ihl udph first ts : Z) (first_time : bool)
    (i : Z) (sc : list (option ptr)) : stm injection (list Z * Z * list (option ptr)) :=
  match fuel with
  | O => throw Diverges
  | S f =>
      if n =? 0 then mret (k, i, sc)
      else
        '(k, udph, new) ← app_turn k ihl udph first ts 0 first_time;
        sc ← lift (set_scatter sc i new);
        app_loop f (n - 1) k ihl udph first ts false (u8 (i - 1)) sc
  end.

Fixpoint inject_blocks (n : nat) (sc : list (option ptr)) (i : Z) : stm injection unit :=
  match n with
  | O => mret tt
  | S n' =>
      if i <? MAX_SCATTERS then
        new ← lift (get_scatter sc i);
        bytes ← on_imem (get_bytes new);
        inject_packet bytes 0;;
        on_imem (kfree new);;
        inject_blocks n' sc (u8 (i + 1))
      else mret tt
  end.

Definition app_deagregate (k : list Z) : stm injection (Z * list Z) :=
  proto ← lift (ip_protocol k 0);
  if negb (proto =? AGREGATED_APPLICATION_ENCAP_UDP_PROTO) then mret (NF_ACCEPT, k)
  else
    ihl ← lift (ip_ihl k 0);
    let udph := Z.shiftl ihl 2 in
    let first := udph + sizeof_udphdr in
    tot ← lift (ip_tot_len k 0);
    let number_of_packets := u32 (tot - Z.shiftl ihl 2) / (sizeof_udphdr + sizeof_packet_t) in
    stamp ← lift (rd64 k first);
    '(k, i, sc) ← app_loop 29 number_of_packets k ihl udph first (bswap 8 stamp) true (MAX_SCATTERS - 1) no_scatters;
    inject_blocks 28 sc (u8 (i + 1));;
    mret (NF_STOLEN, k).

(** [ip_hdr(skb)] is evaluated before [skb] is compared with NULL. *)
Definition deaggregation_local_in_hook (packet : option (list Z)) : stm injection (Z * list Z) :=
  match packet with
  | None => throw NullDeref
  | Some k =>
      proto ← lift (ip_protocol k 0);
      if proto =? AGREGATED_APPLICATION_ENCAP_UDP_PROTO then app_deagregate k
      else if proto =? AGREGATED_IP_ENCAP_IP_PROTO then l3_deaggregate k
      else mret (NF_ACCEPT, k)
  end.

(** *** The module

    The framework and the injection thread work on the same memory. *)
Record deagg : Type := mk_deagg { dfw : fw; dqueue : ptr; dinjector : bool; dsent : list (list Z) }.

Definition on_fw {A} (c : stm fw A) : stm deagg A := fun s =>
  match c (dfw s) with
  | Ok (a, f) => Ok (a, mk_deagg f (dqueue s) (dinjector s) (dsent s))
  | Crash e => Crash e
  end.
Definition on_injection {A} (c : stm injection A) : stm deagg A := fun s =>
  match c (mk_inj (fmem (dfw s)) (dqueue s) (dinjector s) (dsent s)) with
  | Ok (a, i) => Ok (a, mk_deagg (set_fmem (imem i) (dfw s)) (queue i) (injector i) (sent i))
  | Crash e => Crash e
  end.

(** [hook] is the number of [deaggregation_local_in_hook], [deagg_desc] the
    descriptor; both are static objects of the module. *)
Section Deagg_module.
Context (hook : Z) (deagg_desc : ptr).

Definition create_rule_for_specs (sp : ptr) : stm fw ptr :=
  r ← make_rule 1;
  if is_null r then mret None
  else
    f ← on_mem (create_filter FILTER_PRIO_FIRST sp r FILTER_AT_LOCAL_IN hook);
    rr ← on_mem (get_rule r);
    on_mem (store (r_filters rr) (OArray [f]));;
    on_mem (store r (ORule (r_id rr) deagg_desc (r_number_of_filters rr) (r_filters rr)));;
    mret r.

Definition init_module (thread_ok : bool) : stm deagg Z :=
  ok ← on_injection (start_injection_thread thread_ok);
  if ok =? 0 then mret (-1)
  else
    r ← on_fw (register_interceptor deagg_desc);
    mret (if r =? 0 then -1 else 0).

Definition cleanup_module : stm deagg unit :=
  on_injection stop_injection_thread;;
  on_fw (unregister_interceptor (str "deaggregation"));;
  mret tt.
End Deagg_module.

(** ** Packets inside packets *)

(** Overwriting part of a list of bytes. *)
Definition splice (i : nat) (new bs : list Z) : list Z := take i bs ++ new ++ drop (i + length new) bs.

Lemma set_bytes_splice bs i new :
  0 ≤ i → i + Z.of_nat (length new) ≤ Z.of_nat (length bs) → set_bytes bs i new = Ok (splice (Z.to_nat i) new bs).
Proof. intros. unfold set_bytes. by rewrite !(proj2 (Z.leb_le _ _)) by lia. Qed.

Lemma length_splice i new bs : (i + length new ≤ length bs)%nat → length (splice i new bs) = length bs.
Proof. intros. unfold splice. rewrite !length_app, length_take, length_drop. lia. Qed.

Lemma splice_mid pre p post i new :
  (i + length new ≤ length p)%nat →
  splice (length pre + i) new (pre ++ p ++ post) = pre ++ splice i new p ++ post.
Proof.
  intros H. unfold splice. rewrite take_app_add, take_app_le, <- !app_assoc by lia. do 3 f_equal.
  rewrite <- Nat.add_assoc, drop_app_add, drop_app_le by lia. done.
Qed.

Lemma set_bytes_mid pre p post i j new :
  i = Z.of_nat (length pre) + Z.of_nat j → (j + length new ≤ length p)%nat →
  set_bytes (pre ++ p ++ post) i new = Ok (pre ++ splice j new p ++ post).
Proof.
  intros -> H. rewrite set_bytes_splice by (rewrite ?length_app; lia).
  rewrite <- Nat2Z.inj_add, Nat2Z.id. by rewrite splice_mid.
Qed.

Lemma splice_splice i new new' bs :
  length new = length new' → (i + length new ≤ length bs)%nat → splice i new (splice i new' bs) = splice i new bs.
Proof.
  intros Hl H. unfold splice. rewrite take_app_le, take_take by (rewrite length_take; lia).
  rewrite Nat.min_id. do 2 f_equal. rewrite Hl, app_assoc, drop_app_ge; rewrite !length_app, length_take; [|lia].
  replace (_ - _)%nat with 0%nat by lia. apply drop_0.
Qed.

Lemma sub_bytes_mid pre p post i n :
  0 ≤ i → 0 ≤ n → i + n ≤ Z.of_nat (length p) →
  sub_bytes (pre ++ p ++ post) (Z.of_nat (length pre) + i) n = sub_bytes p i n.
Proof.
  intros. unfold sub_bytes. rewrite !(proj2 (Z.leb_le _ _)) by (rewrite ?length_app; lia). cbn [andb]. f_equal.
  replace (Z.to_nat (Z.of_nat (length pre) + i)) with (length pre + Z.to_nat i)%nat by lia.
  rewrite drop_app_add, drop_app_le, take_app_le by (rewrite ?length_drop; lia). done.
Qed.

Lemma nth_byte_mid pre p post i :
  0 ≤ i < Z.of_nat (length p) → nth_byte (pre ++ p ++ post) (Z.of_nat (length pre) + i) = nth_byte p i.
Proof.
  intros. unfold nth_byte. rewrite !(proj2 (Z.ltb_ge _ _)) by lia.
  replace (Z.to_nat (Z.of_nat (length pre) + i)) with (length pre + Z.to_nat i)%nat by lia.
  rewrite lookup_app_r, Nat.add_sub_swap, Nat.sub_diag, lookup_app_l by lia. done.
Qed.

Lemma sub_bytes_splice_same i new bs n :
  (i + length new ≤ length bs)%nat → n = Z.of_nat (length new) →
  sub_bytes (splice i new bs) (Z.of_nat i) n = Ok new.
Proof.
  intros H ->. unfold sub_bytes.
  rewrite !(proj2 (Z.leb_le _ _)) by (rewrite ?length_splice; lia). cbn [andb]. f_equal.
  rewrite !Nat2Z.id. apply slice_app; [rewrite length_take; lia|done].
Qed.

Lemma sub_bytes_splice_before i new bs j n :
  (i + length new ≤ length bs)%nat → 0 ≤ j → 0 ≤ n → j + n ≤ Z.of_nat i →
  sub_bytes (splice i new bs) j n = sub_bytes bs j n.
Proof.
  intros. unfold sub_bytes. rewrite !(proj2 (Z.leb_le _ _)) by (rewrite ?length_splice; lia). cbn [andb]. f_equal.
  unfold splice. rewrite drop_app_le by (rewrite length_take; lia).
  rewrite take_app_le by (rewrite length_drop, length_take; lia).
  rewrite take_drop_commute, take_take, take_drop_commute. do 2 f_equal. lia.
Qed.

(** The length of the IP header of a packet. *)
Definition header (p : list Z) : nat := Z.to_nat (Z.shiftl (Z.land (hd 0 p) 0xf) 2).

(** A UDP packet with at least a time stamp in it. *)
Definition udp_packet (p : list Z) : Prop :=
  (header p + 16 ≤ length p)%nat ∧ (20 ≤ header p)%nat ∧
  (∃ proto, ip_protocol p 0 = Ok proto ∧ encapsulates_udp proto = true) ∧
  ip_tot_len p 0 = Ok (Z.of_nat (length p)).

(** The packet with its UDP checksum cleared and the time stamp [t]. *)
Definition restamp (t : Z) (p : list Z) : list Z :=
  splice (header p + 8) (be_bytes 8 t) (splice (header p + 6) [0; 0] p).

Lemma length_restamp t p : udp_packet p → length (restamp t p) = length p.
Proof.
  intros (H & _). unfold restamp. rewrite length_splice; rewrite ?length_splice; rewrite ?length_be_bytes; simpl; lia.
Qed.

Lemma ip_ihl_header p pre post :
  p ≠ [] → ∃ ihl, ip_ihl (pre ++ p ++ post) (Z.of_nat (length pre)) = Ok ihl ∧ Z.shiftl ihl 2 = Z.of_nat (header p).
Proof.
  intros Hp. destruct p as [|c p]; [done|]. exists (Z.land c 0xf). split.
  - unfold ip_ihl. rewrite <- (Z.add_0_r (Z.of_nat (length pre))), nth_byte_mid by (simpl; lia). done.
  - unfold header. simpl hd. rewrite Z2Nat.id; [done|]. apply Z.shiftl_nonneg, Z.land_nonneg. by right.
Qed.

Lemma tot_len_mid pre p post :
  (4 ≤ length p)%nat → ip_tot_len (pre ++ p ++ post) (Z.of_nat (length pre)) = ip_tot_len p 0.
Proof.
  intros. unfold ip_tot_len, rd16. rewrite sub_bytes_mid by lia. by rewrite Z.add_0_l.
Qed.

Lemma restamp_tot_len t p : udp_packet p → ip_tot_len (restamp t p) 0 = ip_tot_len p 0.
Proof.
  intros (H & Hh & _). unfold ip_tot_len, rd16, restamp. rewrite Z.add_0_l.
  rewrite !sub_bytes_splice_before; rewrite ?length_splice, ?length_be_bytes; simpl; lia || done.
Qed.

Section Turn.
Context (pre p post : list Z) (ts : Z) (s : l3).
Context (Hp : udp_packet p) (Hk : skb s = pre ++ p ++ post) (Hf : first s = Z.of_nat (length pre)).
Context (Hi : 0 ≤ scatter_index s < MAX_SCATTERS).

Let t := u64 (ts - ts_acc s).

Lemma l3_turn_run :
  l3_turn ts s = Ok (true, mk_l3 (pre ++ restamp t p ++ post) (u16 (acc_len s + Z.of_nat (length p)))
    (first s + Z.of_nat (length p)) (u8 (scatter_index s - 1)) false
    (if first_time s then ts_acc s else u64 (ts_acc s + t))
    (<[Z.to_nat (scatter_index s) := Some (first s)]> (scatters s))).
Proof using Hp Hk Hf Hi.
  pose proof Hp as (Hl & Hh & (proto & Hproto & Henc) & Hlen). unfold l3_turn. rewrite Hk, Hf.
  rewrite tot_len_mid, Hlen, result_bind_Ok by lia.
  unfold set_scatter. rewrite (proj2 (Z.leb_le _ _)), (proj2 (Z.ltb_lt _ _)) by lia.
  cbn [andb]. rewrite result_bind_Ok.
  unfold ip_protocol. rewrite nth_byte_mid by lia.
  unfold ip_protocol in Hproto. rewrite Z.add_0_l in Hproto. rewrite Hproto, result_bind_Ok, Henc. cbn [negb].
  destruct (ip_ihl_header p pre post) as (ihl & -> & Hihl); [intros ->; simpl in Hl; lia|].
  rewrite result_bind_Ok, Hihl. unfold wr16, wr64, sizeof_udphdr.
  rewrite (set_bytes_mid _ _ _ _ (header p + 6)), result_bind_Ok by (rewrite ?length_le_bytes; lia). change (le_bytes 2 0) with [0; 0].
  set (p1 := splice (header p + 6) [0; 0] p).
  assert (length p1 = length p) as Hp1 by (unfold p1; rewrite length_splice; simpl; lia).
  rewrite (set_bytes_mid _ _ _ _ (header p + 8)), result_bind_Ok by (rewrite ?length_le_bytes; lia). fold t.
  set (p2 := splice (header p + 8) (le_bytes 8 t) p1).
  assert (length p2 = length p) as Hp2 by (unfold p2; rewrite length_splice; rewrite ?length_le_bytes; lia).
  unfold rd64. replace (_ + Z.of_nat (header p) + 8) with (Z.of_nat (length pre) + Z.of_nat (header p + 8)) by lia.
  rewrite sub_bytes_mid by lia.
  assert (sub_bytes p2 (Z.of_nat (header p + 8)) 8 = Ok (le_bytes 8 t)) as ->
    by (apply sub_bytes_splice_same; rewrite length_le_bytes; lia).
  rewrite !result_bind_Ok.
  rewrite le_val_le_bytes. replace (t mod _) with t by (symmetry; apply Z.mod_small, (u64_range (ts - ts_acc s))).
  rewrite (set_bytes_mid _ _ _ _ (header p + 8)), result_bind_Ok by (rewrite ?length_le_bytes; lia). rewrite le_bytes_bswap. unfold p2.
  rewrite splice_splice by (rewrite ?length_be_bytes, ?length_le_bytes; lia).
  change (splice (header p + 8) (be_bytes 8 t) p1) with (restamp t p).
  rewrite tot_len_mid by (rewrite length_restamp; lia || done).
  by rewrite restamp_tot_len, Hlen, result_bind_Ok by done.
Qed.
End Turn.

(** ** The loop over the packets *)

(** The time stamps the loop gives to [n] packets. *)
Fixpoint stamps (ts acc : Z) (ft : bool) (n : nat) : list Z :=
  match n with
  | O => []
  | S n' => let t := u64 (ts - acc) in t :: stamps ts (if ft then acc else u64 (acc + t)) false n'
  end.

Fixpoint total (ps : list (list Z)) : Z :=
  match ps with [] => 0 | p :: ps' => Z.of_nat (length p) + total ps' end.

(** The offsets it stores, from [scatters[i]] downwards. *)
Fixpoint scattered (sc : list (option Z)) (i off : Z) (ps : list (list Z)) : list (option Z) :=
  match ps with
  | [] => sc
  | p :: ps' => scattered (<[Z.to_nat i := Some off]> sc) (i - 1) (off + Z.of_nat (length p)) ps'
  end.

Definition restamped (ts : list Z) (ps : list (list Z)) : list (list Z) := zip_with restamp ts ps.


Lemma total_nonneg ps : 0 ≤ total ps.
Proof. induction ps; simpl; lia. Qed.

Lemma l3_loop_run ps fuel agg_len ts s pre post :
  Forall udp_packet ps → (length ps < fuel)%nat →
  skb s = pre ++ concat ps ++ post → first s = Z.of_nat (length pre) →
  (ps ≠ [] → Z.of_nat (length ps) - 1 ≤ scatter_index s < MAX_SCATTERS) →
  0 ≤ acc_len s → acc_len s + total ps = agg_len → agg_len < 2 ^ 16 →
  ∃ s', l3_loop fuel agg_len ts s = Ok (true, s') ∧
    skb s' = pre ++ concat (restamped (stamps ts (ts_acc s) (first_time s) (length ps)) ps) ++ post ∧
    u8 (scatter_index s' + 1) = u8 (scatter_index s - Z.of_nat (length ps) + 1) ∧
    scatters s' = scattered (scatters s) (scatter_index s) (first s) ps.
Proof.
  revert fuel s pre. induction ps as [|p ps IH]; intros [|fuel] s pre Hps Hfuel Hk Hf Hi Ha Hagg Hw;
    try (simpl in Hfuel; lia); cbn [l3_loop].
  { simpl in Hagg. rewrite (proj2 (Z.ltb_ge _ _)) by lia. exists s. split; [done|]. split; [done|].
    split; [|done]. f_equal. simpl. lia. }
  inversion Hps as [|? ? Hp Hps']; subst. cbn [total] in *. pose proof (total_nonneg ps).
  assert (36 ≤ length p)%nat by (destruct Hp; lia).
  rewrite (proj2 (Z.ltb_lt _ _)) by lia. cbn [concat] in Hk. rewrite <- app_assoc in Hk.
  cbn [length] in Hi, Hfuel. specialize (Hi ltac:(done)).
  rewrite (l3_turn_run pre p (concat ps ++ post)) by (done || lia).
  rewrite result_bind_Ok, u16_small by lia. cbv beta iota.
  set (t := u64 (ts - ts_acc s)).
  match goal with |- context [l3_loop _ _ _ ?x] => set (s1 := x) end.
  destruct (IH fuel s1 (pre ++ restamp t p)) as (s' & Hr & Hk' & Hi' & Hsc'); cbn [skb first scatter_index acc_len s1].
  - done.
  - lia.
  - by rewrite <- app_assoc.
  - rewrite Hf, length_app, length_restamp by done. lia.
  - intros Hne. rewrite u8_small; [lia|]. destruct ps; [done|]. simpl in Hi. unfold MAX_SCATTERS in Hi. lia.
  - lia.
  - lia.
  - done.
  - exists s'. split; [done|]. split; [|split].
    + rewrite Hk'. cbn [ts_acc first_time s1 length stamps]. fold t. unfold restamped. cbn [zip_with concat].
      by rewrite <- !app_assoc.
    + rewrite Hi'. cbn [scatter_index s1]. unfold u8. cbn [length]. rewrite Nat2Z.inj_succ.
      rewrite <- (Zplus_mod_idemp_l _ 1), <- Zminus_mod_idemp_l, Zmod_mod. dlia.
    + rewrite Hsc'. cbn [scatters scatter_index first s1 scattered].
      destruct ps as [|p' ps']; [done|]. rewrite u8_small; [done|].
      simpl in Hi. unfold MAX_SCATTERS in Hi. lia.
Qed.

(** The accumulated time cancels the time stamp from the third packet on. *)
Lemma stamps_zero ts n : is_u64 ts → stamps ts ts false n = replicate n 0.
Proof.
  intros Hts. induction n as [|n IH]; [done|]. cbn [stamps replicate].
  rewrite Z.sub_diag. change (u64 0) with 0. rewrite Z.add_0_r, u64_small by done. by rewrite IH.
Qed.

Lemma stamps_values ts n : is_u64 ts → stamps ts 0 true n = take n (ts :: ts :: replicate n 0).
Proof.
  intros Hts. destruct n as [|[|n]]; [done| |]; cbn [stamps take].
  - by rewrite Z.sub_0_r, u64_small.
  - rewrite Z.sub_0_r, Z.add_0_l, !u64_small by (by rewrite ?u64_small).
    rewrite stamps_zero by done. do 2 f_equal. rewrite take_replicate. f_equal. lia.
Qed.

Lemma length_stamps ts acc ft n : length (stamps ts acc ft n) = n.
Proof. revert acc ft. induction n as [|n IH]; intros; simpl; [done|by rewrite IH]. Qed.

Lemma scattered_keep ps sc i off k :
  (Z.to_nat i < k)%nat → Z.of_nat (length ps) - 1 ≤ i → scattered sc i off ps !! k = sc !! k.
Proof.
  revert sc i off. induction ps as [|p ps IH]; intros sc i off Hk Hi; [done|]. cbn [scattered].
  cbn [length] in Hi. rewrite IH by lia. by rewrite list_lookup_insert_ne by lia.
Qed.

Lemma scattered_lookup ps sc i off j :
  (j < length ps)%nat → Z.of_nat (length ps) - 1 ≤ i < Z.of_nat (length sc) →
  scattered sc i off ps !! Z.to_nat (i - Z.of_nat j) = Some (Some (off + total (take j ps))).
Proof.
  revert sc i off j. induction ps as [|p ps IH]; intros sc i off j Hj Hi; [simpl in Hj; lia|].
  cbn [scattered length] in *. destruct j as [|j].
  - destruct ps as [|p' ps']; [|rewrite scattered_keep by (cbn [length] in *; lia)];
      cbn [scattered]; rewrite Z.sub_0_r, list_lookup_insert_eq by lia; simpl; by rewrite Z.add_0_r.
  - replace (i - Z.of_nat (S j)) with (i - 1 - Z.of_nat j) by lia.
    rewrite IH by (rewrite ?length_insert; lia). cbn [take total]. do 2 f_equal. lia.
Qed.

Lemma concat_middle (ps : list (list Z)) j p :
  ps !! j = Some p → concat ps = concat (take j ps) ++ p ++ concat (drop (S j) ps).
Proof. intros H. rewrite <- (take_drop_middle ps j p H) at 1. by rewrite concat_app. Qed.

Lemma length_concat_total ps : Z.of_nat (length (concat ps)) = total ps.
Proof. induction ps as [|p ps IH]; simpl; [done|]. rewrite length_app. lia. Qed.

(** A packet whose length field is right. *)
Definition sized (q : list Z) : Prop := (4 ≤ length q)%nat ∧ ip_tot_len q 0 = Ok (Z.of_nat (length q)).

Section Inject.
Context (pre post : list Z) (qs : list (list Z)) (sc : list (option Z)).
Context (Hqs : Forall sized qs) (Hlen : (length qs ≤ 27)%nat).
Context (Hsc : ∀ j, (j < length qs)%nat →
           sc !! Z.to_nat (26 - Z.of_nat j) = Some (Some (Z.of_nat (length pre) + total (take j qs)))).

Lemma inject_from_run r n bs s :
  pending s bs → (r ≤ length qs)%nat → (r < n)%nat →
  ∃ s', inject_from n (pre ++ concat qs ++ post) sc (27 - Z.of_nat r) s = Ok (tt, s') ∧
    pending s' (bs ++ reverse (take r qs)) ∧ sent s' = sent s.
Proof using Hqs Hlen Hsc.
  revert n bs s. induction r as [|r IH]; intros [|n] bs s Hp Hr Hn; try lia; cbn [inject_from].
  { exists s. unfold MAX_SCATTERS. rewrite (proj2 (Z.ltb_ge _ _)) by lia. by rewrite app_nil_r. }
  unfold MAX_SCATTERS. rewrite (proj2 (Z.ltb_lt _ _)) by lia.
  destruct (lookup_lt_is_Some_2 qs r) as [p Hpr]; [lia|].
  destruct (proj1 (Forall_lookup _ _) Hqs r p Hpr) as [Hp4 Hpl].
  assert (get_scatter sc (27 - Z.of_nat (S r)) = Ok (Z.of_nat (length pre) + total (take r qs))) as Hg.
  { unfold get_scatter. replace (27 - Z.of_nat (S r)) with (26 - Z.of_nat r) by lia. by rewrite Hsc by lia. }
  erewrite bind_run by (unfold lift; rewrite Hg; reflexivity).
  set (pre' := pre ++ concat (take r qs)). set (post' := concat (drop (S r) qs) ++ post).
  assert (pre ++ concat qs ++ post = pre' ++ p ++ post') as Hk.
  { unfold pre', post'. rewrite (concat_middle qs r p Hpr). by rewrite <- !app_assoc. }
  assert (Z.of_nat (length pre) + total (take r qs) = Z.of_nat (length pre')) as Ho.
  { unfold pre'. rewrite length_app, <- length_concat_total. lia. }
  destruct (inject_packet_run s bs (pre ++ concat qs ++ post) (Z.of_nat (length pre) + total (take r qs))
              (Z.of_nat (length p)) p) as (s1 & Hr1 & Hp1 & _ & Hs1); [done| | |].
  { by rewrite Hk, Ho, tot_len_mid. }
  { rewrite Hk, Ho, <- (Z.add_0_r (Z.of_nat (length pre'))), sub_bytes_mid by lia.
    unfold sub_bytes. rewrite !(proj2 (Z.leb_le _ _)) by lia. cbn [andb].
    by rewrite Nat2Z.id, drop_0, firstn_all. }
  rewrite (bind_run _ _ _ _ _ Hr1). rewrite u8_small by lia.
  replace (27 - Z.of_nat (S r) + 1) with (27 - Z.of_nat r) by lia.
  destruct (IH n (bs ++ [p]) s1) as (s2 & Hr2 & Hp2 & Hs2); [done|lia|lia|].
  exists s2. split; [done|]. split; [|by rewrite Hs2].
  rewrite (take_S_r _ _ _ Hpr), reverse_app. by rewrite <- app_assoc in Hp2.
Qed.
End Inject.

Lemma restamped_sized ts ps : Forall udp_packet ps → length ts = length ps → Forall sized (restamped ts ps).
Proof.
  intros Hps. revert ts. induction Hps as [|p ps Hp Hps IH]; intros [|t ts] Hl; try done.
  cbn [restamped zip_with]. constructor; [|apply IH; by injection Hl]. split.
  - rewrite length_restamp by done. destruct Hp. lia.
  - rewrite restamp_tot_len, length_restamp by done. by destruct Hp as (_ & _ & _ & ?).
Qed.

Lemma restamped_total ts ps j :
  Forall udp_packet ps → length ts = length ps → total (take j (restamped ts ps)) = total (take j ps).
Proof.
  intros Hps. revert ts j. induction Hps as [|p ps Hp Hps IH]; intros [|t ts] j Hl; try done.
  destruct j as [|j]; [done|]. cbn [restamped zip_with take total].
  rewrite length_restamp by done. f_equal. apply IH. by injection Hl.
Qed.

Lemma length_restamped ts ps : length ts = length ps → length (restamped ts ps) = length ps.
Proof. intros Hl. unfold restamped. rewrite length_zip_with. lia. Qed.

(** The time stamp in a UDP packet, as the hook reads it. *)
Definition time_stamp (p : list Z) : Z := bswap 8 (le_val (take 8 (drop (header p + 8) p))).

Lemma time_stamp_range p : is_u64 (time_stamp p).
Proof. apply (bswap_range 8). Qed.

Lemma rd64_stamp hdr p post :
  udp_packet p →
  rd64 (hdr ++ p ++ post) (Z.of_nat (length hdr) + Z.of_nat (header p) + 8) =
    Ok (le_val (take 8 (drop (header p + 8) p))).
Proof.
  intros (Hl & _). unfold rd64.
  replace (_ + _ + 8) with (Z.of_nat (length hdr) + Z.of_nat (header p + 8)) by lia.
  rewrite sub_bytes_mid by lia. unfold sub_bytes. rewrite !(proj2 (Z.leb_le _ _)) by lia. cbn [andb].
  by rewrite Nat2Z.id.
Qed.

(** An aggregate: an IP header and packets after it. *)
Definition aggregate (hdr : list Z) (ps : list (list Z)) : Prop :=
  ip_tot_len (hdr ++ concat ps) 0 = Ok (Z.of_nat (length (hdr ++ concat ps))) ∧
  (4 ≤ length hdr)%nat ∧ header hdr = length hdr ∧ Z.of_nat (length (hdr ++ concat ps)) < 2 ^ 16.

(** The part of [l3_deaggregate] before the packets are injected. *)
Lemma l3_deaggregate_loop hdr ps s :
  aggregate hdr ps → Forall udp_packet ps → ps ≠ [] → (length ps ≤ 27)%nat →
  ∃ s1 : l3, l3_deaggregate (hdr ++ concat ps) s =
      (inject_from 28 (skb s1) (scatters s1) (27 - Z.of_nat (length ps));; mret (NF_STOLEN, skb s1)) s ∧
    skb s1 = hdr ++ concat (restamped (stamps (time_stamp (hd [] ps)) 0 true (length ps)) ps) ++ [] ∧
    scatters s1 = scattered no_scatters 26 (Z.of_nat (length hdr)) ps.
Proof.
  intros (Htot & H4 & Hh & Hmax) Hps Hne Hlen.
  destruct ps as [|p ps']; [done|]. set (ps := p :: ps') in *.
  inversion Hps as [|? ? Hp _]; subst. pose proof Hp as (Hpl & Hph & (proto & Hproto & Henc) & _).
  assert (Z.of_nat (length (concat ps)) = total ps) as Htl by apply length_concat_total.
  rewrite length_app in Hmax.
  destruct (ip_ihl_header hdr [] (concat ps)) as (ihl & Hihl & Hs); [intros ->; simpl in H4; lia|].
  destruct (ip_ihl_header p hdr (concat ps')) as (ihl1 & Hihl1 & Hs1); [intros ->; simpl in Hpl; lia|].
  change (p ++ concat ps') with (concat ps) in Hihl1. cbn [app length] in Hihl. change (Z.of_nat 0) with 0 in Hihl.
  destruct (l3_loop_run ps 28 (total ps) (time_stamp p)
    (mk_l3 (hdr ++ concat ps) 0 (Z.of_nat (length hdr)) (MAX_SCATTERS - 1) true 0 no_scatters) hdr [])
    as (s1 & Hr & Hk & Hi & Hsc); cbn [skb first scatter_index acc_len]; try done; try lia.
  { by rewrite app_nil_r. }
  { intros _. unfold MAX_SCATTERS. lia. }
  exists s1. split; [|split; [exact Hk|exact Hsc]]. unfold l3_deaggregate.
  erewrite bind_run by (unfold lift; rewrite Htot; reflexivity).
  erewrite bind_run by (unfold lift; rewrite Hihl; reflexivity). cbv zeta. rewrite Hs, Hh.
  assert (ip_protocol (hdr ++ concat ps) (Z.of_nat (length hdr)) = Ok proto) as Hpr.
  { unfold ip_protocol in *. change (concat ps) with (p ++ concat ps'). rewrite nth_byte_mid by lia.
    by rewrite Z.add_0_l in Hproto. }
  erewrite bind_run by (unfold lift; rewrite Hpr; reflexivity). rewrite Henc. cbn [negb].
  erewrite bind_run by (unfold lift; rewrite Hihl1; reflexivity). rewrite Hs1.
  unfold sizeof_udphdr. erewrite bind_run
    by (unfold lift; change (concat ps) with (p ++ concat ps'); rewrite rd64_stamp by done; reflexivity).
  rewrite length_app. replace (u16 _) with (total ps) by (rewrite u16_small; lia).
  erewrite bind_run by (unfold lift; change (p ++ concat ps') with (concat ps); fold (time_stamp p); rewrite Hr; reflexivity).
  cbv beta iota. cbn [negb scatter_index] in *. rewrite Hi.
  replace (u8 _) with (27 - Z.of_nat (length ps)) by (unfold MAX_SCATTERS; rewrite u8_small; lia).
  reflexivity.
Qed.

Lemma l3_deaggregate_run hdr ps bs s :
  aggregate hdr ps → Forall udp_packet ps → ps ≠ [] → (length ps ≤ 27)%nat →
  pending s bs → Forall sized bs →
  ∃ k s1 s2, l3_deaggregate (hdr ++ concat ps) s = Ok (NF_STOLEN, k, s1) ∧
    injector_loop (replicate (length bs + length ps) true) s1 = Ok (tt, s2) ∧
    sent s2 = sent s ++ bs ++
      reverse (zip_with restamp (take (length ps) (time_stamp (hd [] ps) :: time_stamp (hd [] ps) ::
                                                    replicate (length ps) 0)) ps).
Proof.
  intros Ha Hps Hne Hlen Hp Hbs. pose proof (time_stamp_range (hd [] ps)) as Hts. set (qs := restamped (stamps (time_stamp (hd [] ps)) 0 true (length ps)) ps).
  destruct (l3_deaggregate_loop hdr ps s Ha Hps Hne Hlen) as (l & -> & Hk & Hsc). fold qs in Hk.
  assert (length qs = length ps) as Hq by (apply length_restamped, length_stamps).
  assert (Forall sized qs) as Hs by (apply restamped_sized; [done|apply length_stamps]).
  destruct (inject_from_run hdr [] qs (scatters l) Hs) with (r := length ps) (n := 28%nat) (bs := bs) (s := s)
    as (s1 & Hr & Hp1 & Hs1); [lia| |done|lia|lia|].
  { intros j Hj. rewrite Hsc, (scattered_lookup ps) by (unfold no_scatters; rewrite ?length_replicate; lia).
    unfold qs. by rewrite restamped_total by (done || apply length_stamps). }
  rewrite Hk, (bind_run _ _ _ _ _ Hr). eexists _, s1.
  rewrite (firstn_all2 qs) in Hp1 by lia.
  destruct (injector_loop_sends s1 _ Hp1) as (s2 & Hr2 & _ & Hs2).
  { apply Forall_app. split; [|apply Forall_reverse]; (eapply Forall_impl; [eassumption|]); by intros ? []. }
  exists s2. split; [reflexivity|]. rewrite length_app, length_reverse, Hq in Hr2. split; [done|].
  rewrite Hs2, Hs1. unfold qs, restamped. by rewrite stamps_values.
Qed.

(** C13: deaggregation at the network level.  An aggregate of up to 27 UDP
    packets (all that fit in 1500 bytes at 53 bytes each) is taken from the stack,
    and the injection thread sends every packet in it once, the oldest one
    first and after those that were waiting, unchanged but for the UDP checksum,
    which is cleared, and the time stamp.  The differences stored in the packets
    are not used: the two newest packets both get the time stamp of the newest
    one, and all older ones get 0. *)
Theorem l3_deaggregate_sends hdr ps bs s :
  aggregate hdr ps → Forall udp_packet ps → ps ≠ [] → (length ps ≤ 27)%nat →
  pending s bs → Forall sized bs →
  ∃ k s1 s2, l3_deaggregate (hdr ++ concat ps) s = Ok (NF_STOLEN, k, s1) ∧
    injector_loop (replicate (length bs + length ps) true) s1 = Ok (tt, s2) ∧
    sent s2 = sent s ++ bs ++
      reverse (zip_with restamp (take (length ps) (time_stamp (hd [] ps) :: time_stamp (hd [] ps) ::
                                                    replicate (length ps) 0)) ps).
Proof. apply l3_deaggregate_run. Qed.

(** A packet of the kind the sender makes: IP header, UDP header, time stamp and
    the rest of the sample. *)
Definition sample_packet (stamp : Z) (x : Z) : list Z :=
  [0x45; 0; 0; 53; 0; 0; 0; 0; 64; 17; 0; 0; 10; 0; 0; 1; 10; 0; 0; 2; 0xe1; 0xf3; 0xe1; 0xf3; 0; 33; 7; 7]
    ++ be_bytes 8 stamp ++ replicate 17 x.
Definition aggregate_header : list Z := [0x45; 0; 0; 179; 0; 0; 0; 0; 60; 144; 0; 0; 10; 0; 0; 1; 10; 0; 0; 2].

Lemma sample_packet_udp stamp x : udp_packet (sample_packet stamp x).
Proof.
  unfold udp_packet. assert (header (sample_packet stamp x) = 20%nat) as -> by reflexivity.
  assert (length (sample_packet stamp x) = 53%nat) as -> by reflexivity. split; [lia|]. split; [lia|].
  split; [exists 17; split; reflexivity|]. reflexivity.
Qed.

Lemma l3_deaggregate_sends_witness :
  ∃ k s1 s2,
    l3_deaggregate (aggregate_header ++ concat [sample_packet 3000 3; sample_packet 900 2; sample_packet 800 1])
      (mk_inj (mk_mem {[ 0%nat := OQueue None None ]} 1%nat []) (Some 0%nat) true []) = Ok (NF_STOLEN, k, s1) ∧
    injector_loop [true; true; true] s1 = Ok (tt, s2) ∧
    sent s2 = [restamp 0 (sample_packet 800 1); restamp 3000 (sample_packet 900 2);
               restamp 3000 (sample_packet 3000 3)].
Proof.
  apply (l3_deaggregate_sends aggregate_header [sample_packet 3000 3; sample_packet 900 2; sample_packet 800 1] []
           (mk_inj (mk_mem {[ 0%nat := OQueue None None ]} 1%nat []) (Some 0%nat) true [])).
  - split; [reflexivity|]. split; [vm_compute; lia|]. split; [reflexivity|]. reflexivity.
  - repeat constructor; apply sample_packet_udp.
  - done.
  - simpl. lia.
  - split; [by apply mem_ok_check|]. split; [reflexivity|]. exists 0%nat, [], [].
    split; [reflexivity|]. split; [split; [reflexivity|]; split; [constructor|done]|].
    split; [reflexivity|]. split; constructor.
  - constructor.
Defined.

(** Deaggregation at the application level does not work with more than one
    packet: the second turn of the loop reads the pointer [pdu], which is never
    assigned, so no run of [app_deagregate] on such a packet comes to an end. *)
Theorem app_deagregate_uninitialised k s ihl tot :
  ip_protocol k 0 = Ok AGREGATED_APPLICATION_ENCAP_UDP_PROTO → ip_ihl k 0 = Ok ihl → ip_tot_len k 0 = Ok tot →
  2 * (sizeof_udphdr + sizeof_packet_t) ≤ u32 (tot - Z.shiftl ihl 2) →
  ∃ c, app_deagregate k s = Crash c.
Proof.
  intros Hp Hi Ht Hn. unfold app_deagregate.
  erewrite bind_run by (unfold lift; rewrite Hp; reflexivity). rewrite Z.eqb_refl. cbn [negb].
  erewrite bind_run by (unfold lift; rewrite Hi; reflexivity).
  erewrite bind_run by (unfold lift; rewrite Ht; reflexivity). cbv zeta.
  set (n := u32 _ / _). assert (2 ≤ n) as Hn2.
  { unfold n, sizeof_udphdr, sizeof_packet_t in *. apply Z.div_le_lower_bound; lia. }
  unfold mbind at 1, stm_bind at 1. unfold lift at 1. destruct (rd64 k _) as [stamp|c]; [|by eexists].
  unfold mbind at 1, stm_bind at 1. cbn [app_loop]. rewrite (proj2 (Z.eqb_neq n 0)) by lia.
  unfold mbind at 1, stm_bind at 1. destruct (app_turn k _ _ _ _ 0 true s) as [[[[k1 u1] new] s1]|c]; [|by eexists].
  assert (∃ sc, set_scatter no_scatters (MAX_SCATTERS - 1) new = Ok sc) as [sc Hsc] by (by eexists).
  cbv beta iota. erewrite bind_run by (unfold lift; rewrite Hsc; reflexivity). cbn [app_loop].
  rewrite (proj2 (Z.eqb_neq (n - 1) 0)) by lia. unfold mbind at 1, stm_bind at 1.
  unfold app_turn, mbind, stm_bind, lift. destruct (wr16 k1 _ 0) as [k2|c]; [|by eexists].
  destruct (wr64 k2 _ _) as [k3|c]; by eexists.
Qed.

Lemma app_deagregate_uninitialised_witness :
  ∃ c, app_deagregate ([0x45; 0; 0; 86; 0; 0; 0; 0; 60; 143; 0; 0; 10; 0; 0; 1; 10; 0; 0; 2]
      ++ drop 20 (sample_packet 5 1) ++ drop 20 (sample_packet 4 2))
    (mk_inj (mk_mem {[ 0%nat := OQueue None None ]} 1%nat []) (Some 0%nat) true []) = Crash c.
Proof.
  eapply app_deagregate_uninitialised; [reflexivity|reflexivity|reflexivity|]. vm_compute. done.
Defined.
