(* ===== verification/Aggregation.v ===== *)
(** * Aggregation of packets

    Models [interceptors/aggregation/aggregation.c], the hooks that gather
    packets in buffers and send them as one, and [consuela.c], the thread that
    flushes the buffers when they do not fill up. *)

From S2P Require Import Prelude Klist Chains Managers ByteBuffer Queue Deaggregation.

(** ** Packets of the kernel

    The bytes of a socket buffer from the IP header on, and the room before and
    after them in its block. *)
Record sk_buff : Type := mk_skb { sdata : list Z; headroom : Z; tailroom : Z }.

Definition sizeof_iphdr : Z := 20.

(** Nothing is cut when there is less. *)
Definition skb_pull (k : sk_buff) (n : Z) : sk_buff :=
  if n <=? Z.of_nat (length (sdata k))
  then mk_skb (drop (Z.to_nat n) (sdata k)) (headroom k + n) (tailroom k) else k.
(** [pskb_expand_head] when it succeeds. *)
Definition expand (k : sk_buff) (nhead ntail : Z) : sk_buff :=
  mk_skb (sdata k) (headroom k + nhead) (tailroom k + ntail).
(** [skb_put] and [skb_push] stop the kernel when there is no room. *)
Definition skb_put (k : sk_buff) (bytes : list Z) : result sk_buff :=
  if Z.of_nat (length bytes) <=? tailroom k
  then Ok (mk_skb (sdata k ++ bytes) (headroom k) (tailroom k - Z.of_nat (length bytes)))
  else Crash KernelPanic.
Definition skb_push (k : sk_buff) (bytes : list Z) : result sk_buff :=
  if Z.of_nat (length bytes) <=? headroom k
  then Ok (mk_skb (bytes ++ sdata k) (headroom k - Z.of_nat (length bytes)) (tailroom k))
  else Crash KernelPanic.

(** The IP header of an aggregate. *)
Definition plain_iphdr (tot_len proto check saddr daddr : Z) : list Z :=
  [0x45; 0] ++ le_bytes 2 (bswap 2 (u16 tot_len)) ++ [0; 0; 0; 0; 60; u8 proto]
    ++ le_bytes 2 check ++ le_bytes 4 saddr ++ le_bytes 4 daddr.
Definition build_iphdr (tot_len proto saddr daddr : Z) : result (list Z) :=
  check ← csum (plain_iphdr tot_len proto 0 saddr daddr) 10;
  Ok (plain_iphdr tot_len proto check saddr daddr).

(** [b->head] and the [n] bytes from there. *)
Definition buffered_bytes (b : ptr) (n : Z) : stm mem (list Z) :=
  '(_, start, _, head, _) ← get_agg b;
  block ← get_bytes start;
  lift (sub_bytes block head n).

Section Aggregation.
Context (smp : bool).
(** The address of the outgoing device, and whether enlarging the tail and the
    head of a packet succeeds. *)
Context (ifa_address : Z) (tail_ok head_ok : bool).

(** What the two flush functions share: [k] has been cut to the data that is
    sent, of length [len]. *)
Definition flush_buffer (proto len : Z) (k : sk_buff) (b : ptr) : stm mem sk_buff :=
  n ← buffer_data_len smp b;
  if (tailroom k <? n) && negb tail_ok then reset_buffer smp b;; mret k
  else
    let k := if tailroom k <? n then expand k 0 (n - tailroom k) else k in
    bytes ← buffered_bytes b n;
    k ← lift (skb_put k bytes);
    if (headroom k <? sizeof_iphdr) && negb head_ok then reset_buffer smp b;; mret k
    else
      let k := if headroom k <? sizeof_iphdr then expand k (sizeof_iphdr - headroom k) 0 else k in
      n ← buffer_data_len smp b;
      '(ip, _, _, _, _) ← get_agg b;
      hdr ← lift (build_iphdr (sizeof_iphdr + n + len) proto ifa_address ip);
      k ← lift (skb_push k hdr);
      reset_buffer smp b;;
      mret k.

Definition flush_buffer_app (k : sk_buff) (b : ptr) : stm mem sk_buff :=
  tot ← lift (ip_tot_len (sdata k) 0);
  ihl ← lift (ip_ihl (sdata k) 0);
  flush_buffer AGREGATED_APPLICATION_ENCAP_UDP_PROTO (u16 (tot - Z.shiftl ihl 2))
    (skb_pull k (Z.shiftl ihl 2)) b.

Definition flush_buffer_ip (k : sk_buff) (b : ptr) : stm mem sk_buff :=
  tot ← lift (ip_tot_len (sdata k) 0);
  flush_buffer AGREGATED_IP_ENCAP_IP_PROTO tot k b.

(** [pdu->timestamp = cpu_to_be64(be64_to_cpu(new) - be64_to_cpu(pdu->timestamp))]
    for the packet at [pdu] in the block of the buffer. *)
Definition relative_stamp (b : ptr) (pdu new : Z) : stm mem unit :=
  '(_, start, _, _, _) ← get_agg b;
  block ← get_bytes start;
  old ← lift (rd64 block pdu);
  block ← lift (wr64 block pdu (bswap 8 (u64 (bswap 8 new - bswap 8 old))));
  store start (OBytes block).

(** The verdict, and the packet unless it was taken. *)
Definition __push_app_packet (b : ptr) (k : sk_buff) : stm mem (Z * option sk_buff) :=
  proto ← lift (ip_protocol (sdata k) 0);
  if negb (proto =? IPPROTO_UDP) then mret (NF_ACCEPT, Some k)
  else
    ihl ← lift (ip_ihl (sdata k) 0);
    tot ← lift (ip_tot_len (sdata k) 0);
    let len := u16 (tot - Z.shiftl ihl 2) in
    udp_helper ← peek_packet smp b;
    match udp_helper with
    | Some udp =>
        new ← lift (rd64 (sdata k) (Z.shiftl ihl 2 + sizeof_udphdr));
        relative_stamp b (udp + sizeof_udphdr) new
    | None => mret tt
    end;;
    dl ← buffer_data_len smp b;
    bl ← buffer_len smp b;
    if bl <=? dl + len then
      k ← flush_buffer_app k b; mret (NF_ACCEPT, Some k)
    else
      bytes ← lift (sub_bytes (sdata k) (Z.shiftl ihl 2) len);
      r ← push_bytes smp b bytes;
      if truthy r then throw KernelPanic else mret (NF_STOLEN, None).

(** The end of [__push_ip_packet]: a packet that does not fit takes the
    buffered ones along. *)
Definition push_or_flush_ip (b : ptr) (k : sk_buff) (tot_len : Z) : stm mem (Z * option sk_buff) :=
  dl ← buffer_data_len smp b;
  bl ← buffer_len smp b;
  if bl <=? dl + tot_len then
    k ← flush_buffer_ip k b; mret (NF_ACCEPT, Some k)
  else
    bytes ← lift (sub_bytes (sdata k) 0 tot_len);
    r ← push_bytes smp b bytes;
    if truthy r then throw KernelPanic else mret (NF_STOLEN, None).

Definition __push_ip_packet (b : ptr) (k : sk_buff) : stm mem (Z * option sk_buff) :=
  tot_len ← lift (ip_tot_len (sdata k) 0);
  seeker ← peek_packet smp b;
  pdu ← match seeker with
        | None => mret (Some None)
        | Some ip =>
            '(_, start, _, _, _) ← get_agg b;
            block ← get_bytes start;
            proto ← lift (ip_protocol block ip);
            if encapsulates_udp proto then
              ihl ← lift (ip_ihl block ip);
              mret (Some (Some (ip + Z.shiftl ihl 2 + sizeof_udphdr)))
            else mret None
        end;
  match pdu with
  | None => mret (NF_ACCEPT, Some k)
  | Some pdu =>
      proto ← lift (ip_protocol (sdata k) 0);
      if negb (encapsulates_udp proto) then mret (NF_ACCEPT, Some k)
      else
        ihl ← lift (ip_ihl (sdata k) 0);
        match pdu with
        | Some pdu =>
            new ← lift (rd64 (sdata k) (Z.shiftl ihl 2 + sizeof_udphdr));
            relative_stamp b pdu new
        | None => mret tt
        end;;
        push_or_flush_ip b k tot_len
  end.

(** The search in the list of buffers. *)
Fixpoint find_buffer_loop (fuel : nat) (ip : Z) (kit : ptr) : stm mem ptr :=
  match fuel with
  | O => throw Diverges
  | S n =>
      more ← klist_iterator_has_next kit;
      if (more : bool) then
        kn ← klist_iterator_next kit;
        '(ab, _, _) ← get_node kn;
        '(bip, _, _, _, _) ← get_agg ab;
        if bip =? ip then free_klist_iterator kit;; mret ab
        else find_buffer_loop n ip kit
      else mret None
  end.

(** A buffer that cannot be allocated is put in the list all the same, as NULL.
    The nodes of the list bound the search. *)
Definition get_buffer_for (buffers : ptr) (size ip : Z) : stm mem ptr :=
  kit ← make_klist_iterator buffers;
  m ← get;
  found ← find_buffer_loop (S (base.size (objs m))) ip kit;
  if negb (is_null found) then mret found
  else
    free_klist_iterator kit;;
    ab ← create_aggregate_buffer size ip;
    kn ← make_klist_node ab;
    add_klist_node_to_klist buffers kn;;
    mret ab.
End Aggregation.

(** ** The module

    Its parameters, the lists of buffers, and what the thread [consuela] keeps:
    its own pointers to the lists, the source address, and the packets its raw
    socket accepted. *)
Record agg : Type := mk_agg {
  afw : fw;
  aggregate_app_packets : bool;
  aggregate_ip_packets : bool;
  app_buffers : ptr;
  ip_buffers : ptr;
  consuela_kthread : bool;
  c_app_buffers : ptr;
  net_buffers : ptr;
  source_ip : Z;
  raw_sent : list (list Z)
}.

Definition set_afw (f : fw) (s : agg) : agg :=
  mk_agg f (aggregate_app_packets s) (aggregate_ip_packets s) (app_buffers s) (ip_buffers s)
    (consuela_kthread s) (c_app_buffers s) (net_buffers s) (source_ip s) (raw_sent s).
Definition set_buffers (app ip : ptr) (s : agg) : agg :=
  mk_agg (afw s) (aggregate_app_packets s) (aggregate_ip_packets s) app ip
    (consuela_kthread s) (c_app_buffers s) (net_buffers s) (source_ip s) (raw_sent s).
Definition set_consuela (running : bool) (app ip : ptr) (src : Z) (s : agg) : agg :=
  mk_agg (afw s) (aggregate_app_packets s) (aggregate_ip_packets s) (app_buffers s) (ip_buffers s)
    running app ip src (raw_sent s).
Definition add_raw_sent (bytes : list Z) (s : agg) : agg :=
  mk_agg (afw s) (aggregate_app_packets s) (aggregate_ip_packets s) (app_buffers s) (ip_buffers s)
    (consuela_kthread s) (c_app_buffers s) (net_buffers s) (source_ip s) (raw_sent s ++ [bytes]).

Definition on_afw {A} (c : stm fw A) : stm agg A := fun s =>
  match c (afw s) with Ok (a, f) => Ok (a, set_afw f s) | Crash e => Crash e end.
Definition on_amem {A} (c : stm mem A) : stm agg A := on_afw (on_mem c).

Section Aggregate_module.
Context (smp : bool) (ifa_address : Z) (tail_ok head_ok : bool).
(** Buffer sizes, the numbers of the two hooks, the descriptor. *)
Context (aggregate_app_packets_buffer_size aggregate_ip_buffer_size : Z).
Context (local_out_hook post_routing_hook : Z) (agg_desc : ptr).

(** [None] is a NULL packet. The test on the protocol in the post routing hook
    is a [switch] without a [case]: nothing in its body is ever executed. *)
Definition aggregation_post_routing_hook (packet : option sk_buff) : stm agg (Z * option sk_buff) :=
  match packet with
  | None => mret (NF_ACCEPT, None)
  | Some k =>
      s ← get;
      daddr ← lift (ip_daddr (sdata k) 0);
      ab ← on_amem (get_buffer_for (ip_buffers s) aggregate_ip_buffer_size daddr);
      if is_null ab then mret (NF_ACCEPT, Some k)
      else on_amem (__push_ip_packet smp ifa_address tail_ok head_ok ab k)
  end.

Definition aggregation_local_out_hook (packet : option sk_buff) : stm agg (Z * option sk_buff) :=
  match packet with
  | None => mret (NF_ACCEPT, None)
  | Some k =>
      s ← get;
      proto ← lift (ip_protocol (sdata k) 0);
      if negb (proto =? IPPROTO_UDP) then mret (NF_ACCEPT, Some k)
      else
        daddr ← lift (ip_daddr (sdata k) 0);
        ab ← on_amem (get_buffer_for (app_buffers s) aggregate_app_packets_buffer_size daddr);
        if is_null ab then mret (NF_ACCEPT, Some k)
        else on_amem (__push_app_packet smp ifa_address tail_ok head_ok ab k)
  end.

Definition init_buffers : stm agg unit :=
  s ← get;
  app ← (if aggregate_app_packets s then on_amem make_klist else mret (app_buffers s));
  ip ← (if aggregate_ip_packets s then on_amem make_klist else mret (ip_buffers s));
  modify (set_buffers app ip).

Definition free_buffers : stm agg unit :=
  s ← get;
  (if aggregate_app_packets s then on_amem (free_klist (app_buffers s) (Some free_buffer)) else mret tt);;
  (if aggregate_ip_packets s then on_amem (free_klist (ip_buffers s) (Some free_buffer)) else mret tt).

Definition create_rule_for_specs (app ip : bool) (sp : ptr) : stm fw ptr :=
  let nfilters := (if app then 1 else 0) + (if ip then 1 else 0) in
  if nfilters =? 0 then mret None
  else
    r ← make_rule nfilters;
    if is_null r then mret None
    else
      lo ← (if app then on_mem (create_filter FILTER_PRIO_FIRST sp r FILTER_AT_LOCAL_OUT local_out_hook)
            else mret None);
      pr ← (if ip then on_mem (create_filter FILTER_PRIO_FIRST sp r FILTER_AT_POST_RT post_routing_hook)
            else mret None);
      rr ← on_mem (get_rule r);
      on_mem (store (r_filters rr) (OArray (if app && ip then [pr; lo] else if app then [lo] else [pr])));;
      on_mem (store r (ORule (r_id rr) agg_desc (r_number_of_filters rr) (r_filters rr)));;
      mret r.

(** *** consuela.c *)

(** [accepts]: whether the socket takes the packet. *)
Definition consuela_send_it (accepts : bool) (packet : ptr) : stm agg unit :=
  bytes ← on_amem (get_bytes packet);
  len ← lift (ip_tot_len bytes 0);
  bytes ← lift (sub_bytes bytes 0 len);
  if accepts then modify (add_raw_sent bytes) else mret tt.

(** [buffered] keeps its value from one turn to the next; it is reset after a
    packet was sent, but not when the packet cannot be allocated. *)
Fixpoint build_loop (fuel : nat) (accepts : bool) (proto : Z) (it buffered : ptr) : stm agg unit :=
  match fuel with
  | O => throw Diverges
  | S n =>
      more ← on_amem (klist_iterator_has_next it);
      if (more : bool) then
        kn ← on_amem (klist_iterator_next it);
        '(b, _, _) ← on_amem (get_node kn);
        '(len, dst) ← on_amem (mv_data smp b);
        let buffered := match dst with Some p => p | None => buffered end in
        if is_null buffered then build_loop n accepts proto it buffered
        else
          '(ip, _, _, _, _) ← on_amem (get_agg b);
          s ← get;
          hdr ← lift (build_iphdr (sizeof_iphdr + len) proto (source_ip s) ip);
          packet ← on_amem (kmalloc (OBytes (hdr ++ replicate (Z.to_nat len) 0)));
          if is_null packet then
            on_amem (kfree buffered);; build_loop n accepts proto it buffered
          else
            bytes ← on_amem (get_bytes buffered);
            bytes ← lift (sub_bytes bytes 0 len);
            on_amem (store packet (OBytes (hdr ++ bytes)));;
            consuela_send_it accepts packet;;
            on_amem (kfree buffered);;
            build_loop n accepts proto it None
      else mret tt
  end.

Definition build_and_send_packets (accepts : bool) (buffs : ptr) (proto : Z) : stm agg unit :=
  it ← on_amem (make_klist_iterator buffs);
  s ← get;
  build_loop (S (base.size (objs (fmem (afw s))))) accepts proto it None;;
  on_amem (free_klist_iterator it).

(** One turn of the thread's loop. *)
Definition consuela_turn (accepts : bool) : stm agg unit :=
  s ← get;
  build_and_send_packets accepts (c_app_buffers s) AGREGATED_APPLICATION_ENCAP_UDP_PROTO;;
  build_and_send_packets accepts (net_buffers s) AGREGATED_IP_ENCAP_IP_PROTO.

(** [bind_ip]: the value of [in_aton]. *)
Definition start_consuela (thread_ok : bool) (bind_ip : Z) : stm agg unit :=
  if thread_ok then modify (fun s => set_consuela true (app_buffers s) (ip_buffers s) bind_ip s)
  else throw BadAccess.
(** [kthread_stop] waits until the thread has ended. The task descriptor, which
    is then freed by the module too, is not part of this memory. *)
Definition stop_consuela : stm agg unit :=
  s ← get;
  if consuela_kthread s
  then modify (fun s => set_consuela false (c_app_buffers s) (net_buffers s) (source_ip s) s) else mret tt.

Definition init_module (thread_ok : bool) (bind_ip : Z) : stm agg Z :=
  init_buffers;;
  on_afw (register_interceptor agg_desc);;
  start_consuela thread_ok bind_ip;;
  mret 0.
Definition cleanup_module : stm agg unit :=
  stop_consuela;;
  free_buffers;;
  on_afw (unregister_interceptor (str "aggregation"));;
  mret tt.
End Aggregate_module.

(** ** Lemmas on packets *)

Lemma splice_lookup i new bs k :
  (i + length new ≤ length bs)%nat →
  splice i new bs !! k = if decide (i ≤ k < i + length new)%nat then new !! (k - i)%nat else bs !! k.
Proof.
  intros H. unfold splice. destruct (decide (i ≤ k < i + length new)%nat) as [Hk|Hk].
  - rewrite lookup_app_r, lookup_app_l; rewrite length_take; [f_equal; lia|lia|lia].
  - destruct (decide (k < i)%nat).
    + rewrite lookup_app_l by (rewrite length_take; lia). by apply lookup_take_lt.
    + rewrite !lookup_app_r by (rewrite ?length_take; lia). rewrite lookup_drop, length_take. f_equal. lia.
Qed.

Lemma splice_comm i j a b bs :
  (i + length a ≤ j)%nat → (j + length b ≤ length bs)%nat →
  splice i a (splice j b bs) = splice j b (splice i a bs).
Proof.
  intros Hij Hb. apply list_eq. intros k.
  rewrite !splice_lookup by (rewrite ?length_splice; lia). repeat case_decide; (done || lia).
Qed.

Lemma header_splice i new bs : (1 ≤ i)%nat → (i + length new ≤ length bs)%nat → header (splice i new bs) = header bs.
Proof.
  intros Hi Hl. unfold header. do 3 f_equal. unfold splice. destruct bs as [|c bs], i; simpl in *; done || lia.
Qed.

Lemma nth_byte_splice i new bs k :
  (i + length new ≤ length bs)%nat → k < Z.of_nat i → nth_byte (splice i new bs) k = nth_byte bs k.
Proof.
  intros Hl Hk. unfold nth_byte. destruct (Z.ltb_spec k 0); [done|].
  rewrite splice_lookup by done. by rewrite decide_False by lia.
Qed.

(** A packet in the buffer, its time stamp replaced by the distance to the next
    packet, which was created at [t]. *)
Definition relative (t : Z) (q : list Z) : list Z :=
  splice (header q + 8) (be_bytes 8 (u64 (t - time_stamp q))) q.

Lemma relative_bounds t q :
  udp_packet q → (header q + 8 + length (be_bytes 8 (u64 (t - time_stamp q))) ≤ length q)%nat.
Proof. intros (H & _). rewrite length_be_bytes. lia. Qed.

Lemma length_relative t q : udp_packet q → length (relative t q) = length q.
Proof. intros H. by apply length_splice, relative_bounds. Qed.

Lemma header_relative t q : udp_packet q → header (relative t q) = header q.
Proof. intros H. apply header_splice; [lia|by apply relative_bounds]. Qed.

Lemma relative_udp t q : udp_packet q → udp_packet (relative t q).
Proof.
  intros Hq. pose proof (relative_bounds t q Hq) as Hb. pose proof Hq as (Hl & Hh & (proto & Hp & He) & Ht).
  unfold udp_packet. rewrite header_relative, length_relative by done. split; [done|]. split; [done|]. split.
  - exists proto. split; [|done]. unfold ip_protocol, relative. rewrite nth_byte_splice by (done || lia). done.
  - rewrite <- Ht. unfold ip_tot_len, rd16, relative. rewrite sub_bytes_splice_before by (done || lia). done.
Qed.

(** The time stamp and the UDP checksum are written over on the other side. *)
Lemma restamp_relative t t' q : udp_packet q → restamp t (relative t' q) = restamp t q.
Proof.
  intros Hq. pose proof (relative_bounds t' q Hq) as Hb. rewrite length_be_bytes in Hb. unfold restamp.
  rewrite header_relative by done. unfold relative.
  rewrite (splice_comm (header q + 6)) by (rewrite ?length_be_bytes; simpl; lia).
  rewrite splice_splice; rewrite ?length_splice, ?length_be_bytes; simpl; done || lia.
Qed.

(** ** Packets in a buffer *)

(** What a new packet makes of the packets in the buffer. *)
Definition restack (p : list Z) (qs : list (list Z)) : list (list Z) :=
  match qs with [] => [] | q :: qs' => relative (time_stamp p) q :: qs' end.

Lemma restack_udp p qs : Forall udp_packet qs → Forall udp_packet (restack p qs).
Proof. intros [|q qs' Hq Hqs]; [constructor|]. constructor; [by apply relative_udp|done]. Qed.

Lemma restack_length p qs : Forall udp_packet qs → length (concat (restack p qs)) = length (concat qs).
Proof. intros [|q qs' Hq Hqs]; [done|]. simpl. by rewrite !length_app, length_relative. Qed.

Lemma agg_block block head c :
  0 ≤ head ≤ Z.of_nat (length block) → content block head = c →
  block = take (Z.to_nat head) block ++ c ∧ Z.of_nat (length (take (Z.to_nat head) block)) = head.
Proof.
  intros Hh <-. unfold content. rewrite take_drop. split; [done|]. rewrite length_take. lia.
Qed.

Lemma content_app pre c head : Z.of_nat (length pre) = head → content (pre ++ c) head = c.
Proof. intros <-. unfold content. by rewrite Nat2Z.id, drop_app_length. Qed.

Section Stamp.
Context (m : mem) (b : loc) (ip : Z) (st : loc) (block : list Z) (head d : Z) (q rest : list Z).
Context (Hb : agg_at (objs m) b ip st block head d) (Hc : content block head = q ++ rest) (Hq : udp_packet q).

Lemma relative_stamp_run v t :
  bswap 8 v = t →
  ∃ block', relative_stamp (Some b) (head + Z.of_nat (header q) + 8) v m = Ok (tt, upd m st (OBytes block')) ∧
    length block' = length block ∧ content block' head = relative t q ++ rest.
Proof using Hb Hc Hq.
  intros Ht. destruct Hb as (H1 & H2 & Hh). destruct (agg_block block head _ Hh Hc) as [Eb El].
  set (pre := take (Z.to_nat head) block) in *. exists (pre ++ relative t q ++ rest).
  split; [|split].
  - unfold relative_stamp. rewrite (bind_run _ _ _ _ _ (get_agg_run _ _ _ _ _ _ _ H1)). cbv beta iota.
    rewrite (bind_run _ _ _ _ _ (get_bytes_run _ _ _ H2)), Eb, <- El.
    erewrite bind_run by (unfold lift; rewrite rd64_stamp by done; reflexivity).
    unfold wr64. rewrite (set_bytes_mid _ _ _ _ (header q + 8));
      [|lia|rewrite length_le_bytes; destruct Hq; lia].
    rewrite (bind_run (lift (Ok _)) _ _ _ _ eq_refl). rewrite le_bytes_bswap, Ht.
    fold (time_stamp q). change (splice _ _ q) with (relative t q). by eapply store_run.
  - apply (f_equal length) in Eb. rewrite !length_app in Eb |- *. rewrite length_relative by done. lia.
  - by apply content_app.
Qed.
End Stamp.

Lemma proto_of_udp q pre post :
  udp_packet q → ∃ proto, ip_protocol (pre ++ q ++ post) (Z.of_nat (length pre)) = Ok proto ∧
    encapsulates_udp proto = true.
Proof.
  intros (Hl & Hh & (proto & Hp & He) & _). exists proto. split; [|done].
  unfold ip_protocol in *. rewrite nth_byte_mid by lia. by rewrite Z.add_0_l in Hp.
Qed.

Section PushIp.
Context (ifa : Z) (tail_ok head_ok : bool).
Context (m : mem) (b : loc) (ip : Z) (st : loc) (block : list Z) (head d : Z) (qs : list (list Z)).
Context (k : sk_buff) (p : list Z).
Context (Hb : agg_at (objs m) b ip st block head d) (Hc : content block head = concat qs).
Context (Hqs : Forall udp_packet qs) (Hk : sdata k = p) (Hp : udp_packet p).

Lemma push_ip_prefix :
  ∃ block', __push_ip_packet false ifa tail_ok head_ok (Some b) k m =
      push_or_flush_ip false ifa tail_ok head_ok (Some b) k (Z.of_nat (length p)) (upd m st (OBytes block')) ∧
    agg_at (objs (upd m st (OBytes block'))) b ip st block' head d ∧ length block' = length block ∧
    content block' head = concat (restack p qs).
Proof using Hb Hc Hqs Hk Hp.
  pose proof (agg_at_ne _ _ _ _ _ _ _ Hb) as Hne. pose proof Hb as (H1 & H2 & Hh).
  pose proof Hp as (Hpl & Hph & _ & Htot).
  destruct (ip_ihl_header p [] []) as (ihl & Hihl & Hs); [intros ->; simpl in Hpl; lia|].
  rewrite app_nil_r in Hihl. cbn [app length] in Hihl. change (Z.of_nat 0) with 0 in Hihl.
  assert (∀ block', length block' = length block →
    agg_at (objs (upd m st (OBytes block'))) b ip st block' head d) as Hagg.
  { intros block' E. split; [rewrite E; heap_lookup|]. split; [apply upd_lookup|lia]. }
  destruct (proto_of_udp p [] [] Hp) as (proto & Hpr & He). rewrite app_nil_r in Hpr. cbn [app length] in Hpr.
  change (Z.of_nat 0) with 0 in Hpr.
  unfold __push_ip_packet. rewrite Hk. erewrite bind_run by (unfold lift; rewrite Htot; reflexivity).
  erewrite bind_run by (eapply peek_packet_run; exact H1).
  pose proof (length_content block head Hh) as Hlc. rewrite Hc in Hlc.
  destruct qs as [|q qs'].
  - exists block. simpl in Hlc. rewrite (proj2 (Z.eqb_eq _ 0)) by lia.
    rewrite (bind_run (mret _) _ _ _ _ eq_refl). cbv beta iota.
    erewrite bind_run by (unfold lift; rewrite Hpr; reflexivity). rewrite He. cbn [negb].
    erewrite bind_run by (unfold lift; rewrite Hihl; reflexivity).
    rewrite (bind_run (mret _) _ _ _ _ eq_refl), upd_id by done.
    split; [done|]. split; [done|]. split; [done|]. by rewrite Hc.
  - inversion Hqs as [|? ? Hq _]; subst. pose proof Hq as (Hql & Hqh & _). cbn [concat] in Hlc, Hc.
    rewrite length_app in Hlc. rewrite (proj2 (Z.eqb_neq _ 0)) by lia.
    destruct (agg_block block head _ Hh Hc) as [Eb El].
    destruct (proto_of_udp q (take (Z.to_nat head) block) (concat qs') Hq) as (proto' & Hpr' & He').
    destruct (ip_ihl_header q (take (Z.to_nat head) block) (concat qs')) as (ihl' & Hihl' & Hs');
      [intros ->; simpl in Hql; lia|].
    rewrite <- Eb, El in Hpr', Hihl'.
    destruct (relative_stamp_run m b ip st block head d q (concat qs') Hb Hc Hq
                (le_val (take 8 (drop (header (sdata k) + 8) (sdata k)))) (time_stamp (sdata k)) eq_refl)
      as (block' & Hrun & Hlen & Hcont).
    exists block'.
    erewrite bind_run.
    2: { cbv iota. erewrite bind_run by (apply get_agg_run; exact H1). cbv beta iota.
         erewrite bind_run by (apply get_bytes_run; exact H2).
         erewrite bind_run by (unfold lift; rewrite Hpr'; reflexivity). rewrite He'.
         erewrite bind_run by (unfold lift; rewrite Hihl'; reflexivity). reflexivity. }
    cbv beta iota. erewrite bind_run by (unfold lift; rewrite Hpr; reflexivity). rewrite He. cbn [negb].
    erewrite bind_run by (unfold lift; rewrite Hihl; reflexivity).
    pose proof (rd64_stamp [] (sdata k) [] Hp) as Hrd. rewrite app_nil_r in Hrd. cbn [app length] in Hrd.
    change (Z.of_nat 0) with 0 in Hrd. rewrite Z.add_0_l in Hrd.
    rewrite Hs, Hs'. unfold sizeof_udphdr.
    erewrite bind_run.
    2: { erewrite bind_run by (unfold lift; rewrite Hrd; reflexivity). exact Hrun. }
    split; [reflexivity|]. split; [by apply Hagg|]. split; [done|]. by rewrite Hcont.
Qed.
End PushIp.

(** *** The header of an aggregate *)

Lemma build_iphdr_run tot proto saddr daddr :
  ∃ c, build_iphdr tot proto saddr daddr = Ok (plain_iphdr tot proto c saddr daddr) ∧
    csum (plain_iphdr tot proto c saddr daddr) 10 = Ok 0.
Proof.
  set (pre := [0x45; 0] ++ le_bytes 2 (bswap 2 (u16 tot)) ++ [0; 0; 0; 0; 60; u8 proto]).
  set (post := le_bytes 4 saddr ++ le_bytes 4 daddr).
  assert (∀ c, plain_iphdr tot proto c saddr daddr = pre ++ le_bytes 2 c ++ post) as Hplain.
  { intros c. unfold plain_iphdr, pre, post. by rewrite <- !app_assoc. }
  assert (bytes_ok pre) as Hpre.
  { unfold pre. rewrite !bytes_ok_app. pose proof (u8_range proto). split; [|split; [apply le_bytes_ok|]];
      unfold bytes_ok; repeat constructor; lia. }
  assert (bytes_ok post) as Hpost by (unfold post; rewrite bytes_ok_app; split; apply le_bytes_ok).
  assert (length (pre ++ [0; 0] ++ post) = 20%nat) as Hl by (unfold pre, post; rewrite !length_app, !length_le_bytes; done).
  assert (bytes_ok (pre ++ [0; 0] ++ post)) as Hok.
  { rewrite !bytes_ok_app. split; [done|]. split; [|done]. unfold bytes_ok. repeat constructor; lia. }
  unfold build_iphdr. rewrite Hplain. change (le_bytes 2 0) with [0; 0].
  pose proof (csum_fold 10 _ Hok Hl ltac:(lia)) as Hc. change (Z.of_nat 10) with 10 in Hc.
  rewrite Hc, result_bind_Ok. eexists. split; [reflexivity|]. rewrite Hplain.
  apply (csum_check 10 pre post); [done|done|exists 5%nat|rewrite !length_app in Hl; change (length [0; 0]) with 2%nat in Hl; lia|lia|exact Hc].
  unfold pre. rewrite !length_app, length_le_bytes. done.
Qed.

Section Header.
Context (tot proto c saddr daddr : Z) (rest : list Z).

Lemma length_plain_iphdr : length (plain_iphdr tot proto c saddr daddr) = 20%nat.
Proof. unfold plain_iphdr. by rewrite !length_app, !length_le_bytes. Qed.

Lemma header_plain_iphdr : header (plain_iphdr tot proto c saddr daddr) = 20%nat.
Proof. reflexivity. Qed.

Lemma tot_len_plain_iphdr :
  is_u16 tot → ip_tot_len (plain_iphdr tot proto c saddr daddr ++ rest) 0 = Ok tot.
Proof.
  intros Ht. unfold ip_tot_len, rd16. rewrite Z.add_0_l. unfold plain_iphdr. rewrite <- !app_assoc.
  pose proof (sub_bytes_mid [0x45; 0] (le_bytes 2 (bswap 2 (u16 tot)))
    ([0; 0; 0; 0; 60; u8 proto] ++ le_bytes 2 c ++ le_bytes 4 saddr ++ le_bytes 4 daddr ++ rest) 0 2) as Hs.
  change (Z.of_nat (length [0x45; 0]) + 0) with 2 in Hs. rewrite Hs by (rewrite ?length_le_bytes; lia).
  unfold sub_bytes. rewrite length_le_bytes. change ((0 <=? 0) && (0 <=? 2) && (0 + 2 <=? Z.of_nat 2)) with true.
  cbv iota. rewrite drop_0. change (Z.to_nat 2) with 2%nat. rewrite (firstn_all2 (le_bytes _ _)) by (by rewrite length_le_bytes).
  rewrite !result_bind_Ok, le_val_le_bytes, Z.mod_small by apply (bswap_range 2).
  rewrite bswap_bswap by (apply (u16_range tot)). by rewrite u16_small.
Qed.

Lemma protocol_plain_iphdr : ip_protocol (plain_iphdr tot proto c saddr daddr ++ rest) 0 = Ok (u8 proto).
Proof. reflexivity. Qed.
End Header.

(** *** Flushing *)

Section Flush.
Context (ifa : Z) (m : mem) (b : loc) (ip : Z) (st : loc) (block : list Z) (head d : Z).
Context (Hb : agg_at (objs m) b ip st block head d).

Lemma buffered_bytes_run :
  buffered_bytes (Some b) (Z.of_nat (length block) - head) m = Ok (content block head, m).
Proof using Hb.
  destruct Hb as (H1 & H2 & Hh). unfold buffered_bytes.
  erewrite bind_run by (apply get_agg_run; exact H1). cbv beta iota.
  erewrite bind_run by (apply get_bytes_run; exact H2). unfold lift, sub_bytes.
  rewrite !(proj2 (Z.leb_le _ _)) by lia. cbn [andb]. do 3 f_equal. unfold content.
  apply take_ge. rewrite length_drop. lia.
Qed.

Lemma room_after_expand k n :
  0 ≤ n → let k' := if tailroom k <? n then expand k 0 (n - tailroom k) else k in
  sdata k' = sdata k ∧ n ≤ tailroom k' ∧ headroom k' = headroom k.
Proof. intros Hn. simpl. destruct (Z.ltb_spec (tailroom k) n); simpl; repeat split; lia. Qed.

Lemma flush_buffer_run proto len k :
  ∃ c k', flush_buffer false ifa true true proto len k (Some b) m =
      Ok (k', upd m b (OAgg ip (Some st) (Z.of_nat (length block)) (Z.of_nat (length block)) d)) ∧
    sdata k' = plain_iphdr (sizeof_iphdr + Z.of_nat (length (content block head)) + len) proto c ifa ip
                 ++ sdata k ++ content block head ∧
    csum (plain_iphdr (sizeof_iphdr + Z.of_nat (length (content block head)) + len) proto c ifa ip) 10 = Ok 0.
Proof using Hb.
  pose proof Hb as (H1 & H2 & Hh). pose proof (length_content _ _ Hh) as Hlc. rewrite Hlc.
  set (n := Z.of_nat (length block) - head) in *.
  destruct (build_iphdr_run (sizeof_iphdr + n + len) proto ifa ip) as (c & Hbuild & Hcs).
  unfold flush_buffer. erewrite bind_run by (eapply buffer_data_len_run; exact H1). fold n.
  rewrite andb_false_r. destruct (room_after_expand k n) as (E1 & E2 & E3); [lia|]. cbv zeta.
  set (k1 := if tailroom k <? n then _ else _) in *.
  erewrite bind_run by apply buffered_bytes_run. unfold skb_put.
  rewrite (proj2 (Z.leb_le _ _)), (bind_run (lift (Ok _)) _ _ _ _ eq_refl) by lia. cbn [headroom].
  rewrite andb_false_r. erewrite bind_run by (eapply buffer_data_len_run; exact H1). fold n.
  erewrite bind_run by (apply get_agg_run; exact H1). cbv beta iota.
  erewrite bind_run by (unfold lift; rewrite Hbuild; reflexivity).
  set (k2 := if headroom k1 <? sizeof_iphdr then _ else _).
  assert (sdata k2 = sdata k1 ++ content block head ∧ 20 ≤ headroom k2) as [F1 F2].
  { unfold k2, sizeof_iphdr. destruct (Z.ltb_spec (headroom k1) 20); simpl; split; done || lia. }
  unfold skb_push. rewrite length_plain_iphdr.
  rewrite (proj2 (Z.leb_le _ _)), (bind_run (lift (Ok _)) _ _ _ _ eq_refl) by lia.
  rewrite (bind_run _ _ _ _ _ (reset_buffer_run _ _ _ _ _ _ _ H1)).
  eexists c, _. split; [reflexivity|]. split; [|exact Hcs]. cbn [sdata]. by rewrite F1, E1.
Qed.
End Flush.

(** *** Outcomes of a push *)

Section Outcome.
Context (ifa : Z) (m : mem) (b : loc) (ip : Z) (cap : nat) (d : Z) (qs : list (list Z)).
Context (k : sk_buff) (p : list Z).
Context (Hb : buffer (objs m) b ip cap (concat qs) d).
Context (Hqs : Forall udp_packet qs) (Hk : sdata k = p) (Hp : udp_packet p).

Lemma push_ip_fits tail_ok head_ok :
  (length p + length (concat qs) < cap)%nat →
  ∃ m', __push_ip_packet false ifa tail_ok head_ok (Some b) k m = Ok (NF_STOLEN, None, m') ∧
    buffer (objs m') b ip cap (concat (p :: restack p qs)) d.
Proof using Hb Hqs Hk Hp.
  intros Hfit. destruct Hb as (st & block & head & Ha & Hcap & Hc).
  destruct (push_ip_prefix ifa tail_ok head_ok m b ip st block head d qs k p Ha Hc Hqs Hk Hp)
    as (block' & -> & Ha' & Hl' & Hc').
  set (m1 := upd m st (OBytes block')) in *. pose proof Ha' as (H1 & _ & Hh).
  pose proof (length_content _ _ Hh) as Hlc. rewrite Hc', restack_length in Hlc by done.
  pose proof (agg_at_ne _ _ _ _ _ _ _ Ha') as Hne.
  unfold push_or_flush_ip. erewrite bind_run by (eapply buffer_data_len_run; exact H1).
  erewrite bind_run by (eapply buffer_len_run; exact H1). rewrite (proj2 (Z.leb_gt _ _)) by lia.
  assert (sub_bytes (sdata k) 0 (Z.of_nat (length p)) = Ok p) as Hsub.
  { rewrite Hk. unfold sub_bytes. rewrite !(proj2 (Z.leb_le _ _)) by lia. cbn [andb].
    by rewrite Nat2Z.id, drop_0, firstn_all. }
  erewrite bind_run by (unfold lift; rewrite Hsub; reflexivity).
  destruct (push_bytes_run m1 b ip st block' head d Ha' p) as (block2 & Hr & Hl2 & Hc2); [lia|].
  rewrite (bind_run _ _ _ _ _ Hr). eexists. split; [reflexivity|].
  exists st, block2, (head - Z.of_nat (length p)). split; [|split; [lia|]].
  - rewrite <- Hl2. split; [heap_lookup|]. split; [apply upd_lookup|]. lia.
  - cbn [concat]. by rewrite Hc2, Hc'.
Qed.

(** The packet that is sent instead. *)
Lemma push_ip_flushes :
  (cap ≤ length p + length (concat qs))%nat → 20 + Z.of_nat (length p) + Z.of_nat (length (concat qs)) < 2 ^ 16 →
  ∃ m' hdr k', __push_ip_packet false ifa true true (Some b) k m = Ok (NF_ACCEPT, Some k', m') ∧
    sdata k' = hdr ++ concat (p :: restack p qs) ∧ aggregate hdr (p :: restack p qs) ∧
    ip_protocol (sdata k') 0 = Ok AGREGATED_IP_ENCAP_IP_PROTO ∧ csum hdr 10 = Ok 0 ∧
    buffer (objs m') b ip cap [] d.
Proof using Hb Hqs Hk Hp.
  intros Hfull Hmax. destruct Hb as (st & block & head & Ha & Hcap & Hc).
  destruct (push_ip_prefix ifa true true m b ip st block head d qs k p Ha Hc Hqs Hk Hp)
    as (block' & -> & Ha' & Hl' & Hc').
  set (m1 := upd m st (OBytes block')) in *. pose proof Ha' as (H1 & H2 & Hh).
  pose proof (length_content _ _ Hh) as Hlc. rewrite Hc', restack_length in Hlc by done.
  unfold push_or_flush_ip. erewrite bind_run by (eapply buffer_data_len_run; exact H1).
  erewrite bind_run by (eapply buffer_len_run; exact H1). rewrite (proj2 (Z.leb_le _ _)) by lia.
  pose proof Hp as (_ & _ & _ & Htot).
  unfold flush_buffer_ip. rewrite stm_bind_assoc, Hk.
  erewrite bind_run by (unfold lift; rewrite Htot; reflexivity).
  destruct (flush_buffer_run ifa m1 b ip st block' head d Ha' AGREGATED_IP_ENCAP_IP_PROTO
              (Z.of_nat (length p)) k) as (c & k' & Hrun & Hd & Hcs).
  rewrite (bind_run _ _ _ _ _ Hrun). rewrite Hc', restack_length in Hd, Hcs by done.
  set (tot := sizeof_iphdr + Z.of_nat (length (concat qs)) + Z.of_nat (length p)) in *.
  exists (upd m1 b (OAgg ip (Some st) (Z.of_nat (length block')) (Z.of_nat (length block')) d)),
    (plain_iphdr tot AGREGATED_IP_ENCAP_IP_PROTO c ifa ip), k'.
  assert (Z.of_nat (20 + length (concat (p :: restack p qs))) = tot) as Htl.
  { cbn [concat]. rewrite length_app, restack_length by done. unfold tot, sizeof_iphdr. lia. }
  assert (is_u16 tot) as Hu by (unfold tot, sizeof_iphdr; lia).
  split; [reflexivity|]. split; [by rewrite Hd, Hk|]. split; [|split; [|split; [exact Hcs|]]].
  - split; [|split; [|split]].
    + rewrite tot_len_plain_iphdr, length_app, length_plain_iphdr by done. f_equal. lia.
    + rewrite length_plain_iphdr. lia.
    + by rewrite header_plain_iphdr, length_plain_iphdr.
    + rewrite length_app, length_plain_iphdr. lia.
  - rewrite Hd. by rewrite protocol_plain_iphdr.
  - pose proof (agg_at_ne _ _ _ _ _ _ _ Ha'). exists st, block', (Z.of_nat (length block')).
    split; [|split; [lia|apply buffer_empty_content]]. split; [apply upd_lookup|].
    split; [|lia]. cbn [objs upd]. by rewrite lookup_insert_ne.
Qed.
End Outcome.

(** ** From node to sink *)

Lemma restamp_restamp t t' q : udp_packet q → restamp t (restamp t' q) = restamp t q.
Proof.
  intros Hq. pose proof Hq as (Hl & _).
  assert (length (splice (header q + 6) [0; 0] q) = length q) as L1 by (apply length_splice; simpl; lia).
  unfold restamp at 1. assert (header (restamp t' q) = header q) as ->.
  { unfold restamp. rewrite !header_splice; rewrite ?length_be_bytes, ?L1; simpl; lia || done. }
  unfold restamp. rewrite (splice_comm (header q + 6)) by (rewrite ?length_be_bytes, ?L1; simpl; lia).
  rewrite splice_splice by (rewrite ?length_be_bytes, ?length_splice, ?L1; simpl; rewrite ?L1; lia).
  by rewrite splice_splice by (simpl; lia).
Qed.

(** Packets pushed one after another, with the verdicts. *)
Fixpoint push_all (ifa : Z) (b : ptr) (ks : list sk_buff) : stm mem (list Z) :=
  match ks with
  | [] => mret []
  | k :: ks' =>
      '(v, _) ← __push_ip_packet false ifa true true b k;
      vs ← push_all ifa b ks';
      mret (v :: vs)
  end.

(** The packets in the buffer, the newest first. *)
Fixpoint stacked (qs ps : list (list Z)) : list (list Z) :=
  match ps with [] => qs | p :: ps' => stacked (p :: restack p qs) ps' end.

Lemma restack_erased p qs : Forall udp_packet qs → restamp 0 <$> restack p qs = restamp 0 <$> qs.
Proof. intros [|q qs' Hq Hqs]; [done|]. cbn [restack]. by rewrite !fmap_cons, restamp_relative. Qed.

Lemma restack_count p qs : length (restack p qs) = length qs.
Proof. by destruct qs. Qed.

Lemma stacked_facts ps qs :
  Forall udp_packet ps → Forall udp_packet qs →
  Forall udp_packet (stacked qs ps) ∧ length (stacked qs ps) = (length ps + length qs)%nat ∧
  length (concat (stacked qs ps)) = (length (concat ps) + length (concat qs))%nat ∧
  restamp 0 <$> stacked qs ps = reverse (restamp 0 <$> ps) ++ (restamp 0 <$> qs).
Proof.
  intros Hps. revert qs. induction Hps as [|p ps Hp Hps IH]; intros qs Hqs; [done|]. cbn [stacked].
  destruct (IH (p :: restack p qs)) as (I1 & I2 & I3 & I4); [constructor; [done|by apply restack_udp]|].
  split; [done|]. split; [rewrite I2; cbn [length]; rewrite restack_count; lia|]. split.
  - rewrite I3. cbn [concat]. rewrite !length_app, restack_length by done. lia.
  - rewrite I4, !fmap_cons, restack_erased, reverse_cons, <- app_assoc by done. done.
Qed.

Lemma push_all_run ifa b ip cap d ks m qs :
  buffer (objs m) b ip cap (concat qs) d → Forall udp_packet qs → Forall udp_packet (sdata <$> ks) →
  (length (concat (sdata <$> ks)) + length (concat qs) < cap)%nat →
  ∃ m', push_all ifa (Some b) ks m = Ok (replicate (length ks) NF_STOLEN, m') ∧
    buffer (objs m') b ip cap (concat (stacked qs (sdata <$> ks))) d.
Proof.
  revert m qs. induction ks as [|k ks IH]; intros m qs Hb Hqs Hks Hcap; [by eexists|].
  rewrite fmap_cons in *. inversion Hks as [|? ? Hk Hks']; subst. cbn [concat] in Hcap.
  rewrite length_app in Hcap. cbn [push_all stacked length replicate].
  destruct (push_ip_fits ifa m b ip cap d qs k (sdata k) Hb Hqs eq_refl Hk true true) as (m1 & Hr & Hb1); [lia|].
  rewrite (bind_run _ _ _ _ _ Hr). cbv beta iota.
  destruct (IH m1 (sdata k :: restack (sdata k) qs)) as (m2 & Hr2 & Hb2).
  - exact Hb1.
  - constructor; [done|by apply restack_udp].
  - done.
  - cbn [concat]. rewrite length_app, restack_length by done. lia.
  - exists m2. rewrite (bind_run _ _ _ _ _ Hr2). split; [done|exact Hb2].
Qed.

Lemma zip_restamp_erased ts ps :
  length ts = length ps → Forall udp_packet ps → restamp 0 <$> zip_with restamp ts ps = restamp 0 <$> ps.
Proof.
  intros Hl Hps. revert ts Hl. induction Hps as [|p ps Hp Hps IH]; intros [|t ts] Hl; try done.
  cbn [zip_with]. rewrite !fmap_cons, restamp_restamp by done. f_equal. apply IH. by injection Hl.
Qed.

(** C3: aggregation and deaggregation together lose nothing.  UDP packets for one
    address that together stay below the size of an empty buffer are taken and
    kept; the one that fills it is sent on as an aggregate with all of them and
    leaves the buffer empty; and what the sink's injection thread sends when it
    receives that aggregate are the original packets, each once and in their
    order, with the same bytes except for the time stamp and the UDP checksum. *)
Theorem aggregation_roundtrip ifa m b ip cap d ks k s :
  buffer (objs m) b ip cap [] d → Forall udp_packet (sdata <$> ks ++ [k]) →
  (length (concat (sdata <$> ks)) < cap ≤ length (concat (sdata <$> ks ++ [k])))%nat →
  20 + Z.of_nat (length (concat (sdata <$> ks ++ [k]))) < 2 ^ 16 → (length ks < 27)%nat → pending s [] →
  ∃ m1 m2 k' x s1 s2 out,
    push_all ifa (Some b) ks m = Ok (replicate (length ks) NF_STOLEN, m1) ∧
    __push_ip_packet false ifa true true (Some b) k m1 = Ok (NF_ACCEPT, Some k', m2) ∧
    buffer (objs m2) b ip cap [] d ∧
    l3_deaggregate (sdata k') s = Ok (NF_STOLEN, x, s1) ∧
    injector_loop (replicate (S (length ks)) true) s1 = Ok (tt, s2) ∧
    sent s2 = sent s ++ out ∧ restamp 0 <$> out = restamp 0 <$> (sdata <$> ks ++ [k]).
Proof.
  rewrite fmap_app, Forall_app, concat_app, length_app. cbn [fmap list_fmap concat]. rewrite app_nil_r.
  intros Hb [Hks Hk] Hcap Hmax Hn Hs. inversion Hk as [|? ? Hp _]; subst.
  destruct (push_all_run ifa b ip cap d ks m [] Hb) as (m1 & Hr1 & Hb1); [constructor|done|simpl; lia|].
  destruct (stacked_facts (sdata <$> ks) [] Hks) as (F1 & F2 & F3 & F4); [constructor|].
  set (qs := stacked [] (sdata <$> ks)) in *. rewrite length_fmap in F2. simpl in F2, F3.
  destruct (push_ip_flushes ifa m1 b ip cap d qs k (sdata k) Hb1 F1 eq_refl Hp) as (m2 & hdr & k' & Hr2 & Hd & Ha & _ & _ & Hb2);
    [lia|lia|].
  set (ps := sdata k :: restack (sdata k) qs) in *.
  assert (Forall udp_packet ps) as Hps by (constructor; [done|by apply restack_udp]).
  assert (length ps = S (length ks)) as Hl by (unfold ps; cbn [length]; rewrite restack_count; lia).
  destruct (l3_deaggregate_run hdr ps [] s Ha Hps) as (x & s1 & s2 & Hr3 & Hr4 & Hsent);
    [done|lia|done|constructor|].
  rewrite Hl in Hr4. rewrite <- Hd in Hr3. eexists m1, m2, k', x, s1, s2, _.
  split; [exact Hr1|]. split; [exact Hr2|]. split; [exact Hb2|]. split; [exact Hr3|]. split; [exact Hr4|].
  split; [exact Hsent|]. rewrite app_nil_l, fmap_reverse.
  rewrite zip_restamp_erased by (done || (rewrite length_take; simpl; rewrite length_replicate; lia)).
  unfold ps. rewrite fmap_cons, restack_erased, F4, fmap_app, reverse_cons by done.
  cbn [fmap list_fmap]. by rewrite app_nil_r, reverse_involutive.
Qed.

Lemma aggregation_roundtrip_witness :
  let m := mk_mem {[ 0%nat := OAgg 33554442 (Some 1%nat) 120 120 0; 1%nat := OBytes (replicate 120 0) ]} 2%nat [] in
  let s := mk_inj (mk_mem {[ 0%nat := OQueue None None ]} 1%nat []) (Some 0%nat) true [] in
  let skb i := mk_skb (sample_packet (1000 * i) i) 16 0 in
  ∃ m1 m2 k' x s1 s2 out,
    push_all 16777226 (Some 0%nat) [skb 1; skb 2] m = Ok ([NF_STOLEN; NF_STOLEN], m1) ∧
    __push_ip_packet false 16777226 true true (Some 0%nat) (skb 3) m1 = Ok (NF_ACCEPT, Some k', m2) ∧
    buffer (objs m2) 0%nat 33554442 120 [] 0 ∧
    l3_deaggregate (sdata k') s = Ok (NF_STOLEN, x, s1) ∧
    injector_loop [true; true; true] s1 = Ok (tt, s2) ∧
    sent s2 = [] ++ out ∧
    restamp 0 <$> out = restamp 0 <$> [sample_packet 1000 1; sample_packet 2000 2; sample_packet 3000 3].
Proof.
  intros m s skb.
  apply (aggregation_roundtrip 16777226 m 0%nat 33554442 120 0 [skb 1; skb 2] (skb 3) s).
  - exists 1%nat, (replicate 120 0), 120. split; [|split; reflexivity].
    split; [reflexivity|]. split; [reflexivity|]. rewrite length_replicate. lia.
  - repeat constructor; apply sample_packet_udp.
  - change (length (concat _)) with 106%nat at 1. change (length (concat _)) with 159%nat. lia.
  - vm_compute. done.
  - simpl. lia.
  - split; [by apply mem_ok_check|]. split; [reflexivity|]. exists 0%nat, [], [].
    split; [reflexivity|]. split; [split; [reflexivity|]; split; [constructor|done]|].
    split; [reflexivity|]. split; constructor.
Defined.
