(* ===== verification/Sync.v ===== *)
(** * Synchronisation in the wireless driver

    Models the project's additions to the rt2501 driver in
    [rt2501/sources/Module/]: [sync_proto.c], which replaces the time stamps of
    packets by the time they spent in a node when they leave it and back by a
    time stamp of the local clock when they arrive; [filter_chains.c], the
    filters that select the packets; the requests of [proc_filters.c]; and
    [RTMPCalcDuration] of [rtusb_data.c], which they use. *)

From S2P Require Import Prelude Klist Chains ByteBuffer Queue Deaggregation Aggregation.

(** ** filter_chains.c

    [chains] is an array of 256 pointers of 32 bits; a pointer is the address of
    a filter in [heap]. *)
Record flt : Type := mk_flt {
  fl_proto : Z; fl_dst_addr : Z; fl_src_addr : Z; fl_dst_port : Z; fl_src_port : Z
}.
Definition MAX_FILTERS : Z := 256.
Definition sizeof_filter : Z := 16.

Record synch : Type := mk_synch {
  sy_chains : list Z;
  nfilters : Z;                (* uint8_t *)
  heap : gmap Z flt;
  sy_dirty : bool;             (* [proc_contents.dirty] *)
  last_fails : Z;              (* static variables of [synch_out_data_packet] *)
  last_retries : Z
}.
Definition synch_init : synch := mk_synch (replicate 256 0) 0 ∅ true 0 0.

Definition set_filters (c : list Z) (n : Z) (h : gmap Z flt) (s : synch) : synch :=
  mk_synch c n h true (last_fails s) (last_retries s).

Definition nth_filter (s : synch) (i : Z) : result Z :=
  match sy_chains s !! Z.to_nat i with Some p => Ok p | None => Crash OutOfBounds end.

(** [kfree] of a filter: NULL is allowed, an address that is not a filter is not. *)
Definition free_flt (p : Z) (h : gmap Z flt) : result (gmap Z flt) :=
  if p =? 0 then Ok h else match h !! p with Some _ => Ok (delete p h) | None => Crash BadAccess end.

(** The filter is in the heap already. *)
Definition register_filter (f : Z) : stm synch unit :=
  s ← get;
  if nfilters s <? MAX_FILTERS
  then put (set_filters (<[Z.to_nat (nfilters s) := f]> (sy_chains s)) (u8 (nfilters s + 1)) (heap s) s)
  else throw OutOfBounds.

(** [memmove] counts bytes, not pointers. *)
Fixpoint words (n : nat) (bs : list Z) : list Z :=
  match n with O => [] | S n' => le_val (take 4 bs) :: words n' (drop 4 bs) end.
Definition memmove_chains (chains : list Z) (dst src count : Z) : result (list Z) :=
  let bs := concat (le_bytes 4 <$> chains) in
  moved ← sub_bytes bs (4 * src) count;
  bs ← set_bytes bs (4 * dst) moved;
  Ok (words (length chains) bs).

Definition unregister_filter (index : Z) : stm synch unit :=
  s ← get;
  p ← lift (nth_filter s index);
  if p =? 0 then mret tt
  else
    h ← lift (free_flt p (heap s));
    let n := u8 (nfilters s - 1) in
    c ← lift (memmove_chains (sy_chains s) index (index + 1) (n - index));
    put (set_filters c n h s).

Fixpoint clean_loop (n : nat) (i : Z) : stm synch unit :=
  match n with
  | O => mret tt
  | S n' =>
      s ← get;
      p ← lift (nth_filter s i);
      h ← lift (free_flt p (heap s));
      put (mk_synch (sy_chains s) (nfilters s) h (sy_dirty s) (last_fails s) (last_retries s));;
      clean_loop n' (i + 1)
  end.
Definition clean_filters : stm synch unit :=
  s ← get; clean_loop (Z.to_nat (nfilters s)) 0.

(** A field that is 0 matches everything. *)
Definition match_filter_against_udp_ports (k : list Z) (udp : Z) (f : flt) : result bool :=
  dest ← (if fl_dst_port f =? 0 then Ok 0 else udp_dest k udp);
  if negb (fl_dst_port f =? 0) && negb (dest =? fl_dst_port f) then Ok false
  else
    source ← (if fl_src_port f =? 0 then Ok 0 else udp_source k udp);
    Ok (negb (negb (fl_src_port f =? 0) && negb (source =? fl_src_port f))).
Definition match_filter_against_ip_ips (k : list Z) (f : flt) : result bool :=
  daddr ← (if fl_dst_addr f =? 0 then Ok 0 else ip_daddr k 0);
  if negb (fl_dst_addr f =? 0) && negb (daddr =? fl_dst_addr f) then Ok false
  else
    saddr ← (if fl_src_addr f =? 0 then Ok 0 else ip_saddr k 0);
    Ok (negb (negb (fl_src_addr f =? 0) && negb (saddr =? fl_src_addr f))).
(** The two results are combined with [|]. *)
Definition match_filter (k : list Z) (f : flt) : result bool :=
  a ← match_filter_against_ip_ips k f;
  ihl ← ip_ihl k 0;
  b ← match_filter_against_udp_ports k (Z.shiftl ihl 2) f;
  Ok (a || b).

(** ** proc_filters.c: the requests *)

(** [copied]: whether [copy_from_user] succeeds; it copies [count] bytes into an
    array of 18. [alloc]: the address [kmalloc] gives, or 0. *)
Definition procfile_write (copied : bool) (alloc : Z) (buffer : list Z) : stm synch Z :=
  let count := Z.of_nat (length buffer) in
  if 2 + sizeof_filter <? count then throw OutOfBounds
  else if negb copied then mret (-14)
  else
    let internal_buffer := buffer ++ replicate (18 - length buffer) 0 in
    let c := hd 0 internal_buffer in
    if c =? ch "R" then
      if negb (count - 2 =? sizeof_filter) then mret (-22)
      else if alloc =? 0 then mret 0
      else
        proto ← lift (nth_byte internal_buffer 2);
        da ← lift (rd32 internal_buffer 6);
        sa ← lift (rd32 internal_buffer 10);
        dp ← lift (rd16 internal_buffer 14);
        sp ← lift (rd16 internal_buffer 16);
        modify (fun s => mk_synch (sy_chains s) (nfilters s) (<[alloc := mk_flt proto da sa dp sp]> (heap s))
                           (sy_dirty s) (last_fails s) (last_retries s));;
        register_filter alloc;;
        mret count
    else if c =? ch "U" then
      i ← lift (nth_byte internal_buffer 2);
      s ← get;
      if nfilters s <=? i then mret (-22) else unregister_filter i;; mret count
    else mret count.

(** ** rtusb_data.c: the time a frame takes *)

Definition RATE_1 : Z := 0.
Definition RATE_FIRST_OFDM_RATE : Z := 4.
Definition RateIdTo500Kbps : list Z := [2; 4; 11; 22; 12; 18; 24; 36; 48; 72; 96; 108; 144; 200].

(** The adapter: what of it the code looks at. *)
Record adapter : Type := mk_adapter {
  adhoc_on : bool; short_preamble : bool; TxRate : Z; FailedCount : Z; RetryCount : Z
}.

Definition RTMPCalcDuration (pad : adapter) (Rate Size : Z) : result Z :=
  match RateIdTo500Kbps !! Z.to_nat Rate with
  | None => Crash OutOfBounds
  | Some r =>
      let Duration :=
        if Rate <? RATE_FIRST_OFDM_RATE then
          let n := u32 (Z.shiftl Size 4) in
          (if (RATE_1 <? Rate) && short_preamble pad then 96 else 192)
            + u16 (n / r) + (if n mod r =? 0 then 0 else 1)
        else
          let n := u32 (11 + Size * 4) in
          20 + 6 + 4 * u16 (n / r) + (if n mod r =? 0 then 0 else 4) in
      Ok (u16 (u32 Duration))
  end.

(** ** sync_proto.c *)

Definition SNAP : Z := 0xAA.
Definition ETH_P_IP : Z := 0x0800.
Definition ieee80211b_diffs : Z := 50.
Definition sizeof_TXD : Z := 24.
Definition sizeof_HEADER_802_11 : Z := 24.

(** Places in the application's packet, from its start. *)
Definition off_air : Z := 8.
Definition off_fails : Z := 20.
Definition off_retries : Z := 21.

(** [do_gettimeofday] as nanoseconds. *)
Definition get_kernel_current_time (t : Z * Z) : Z := s64 (t.1 * 1000000000 + t.2 * 1000).

(** [while(sum & 0x00010000)]; see [carry_loop_ok] for the two turns. *)
Fixpoint carry_loop (fuel : nat) (sum : Z) : result Z :=
  match fuel with
  | O => Crash Diverges
  | S n => if truthy (Z.land sum 0x10000) then carry_loop n (u32 (Z.land sum 0xFFFF + 1)) else Ok sum
  end.
Fixpoint sum_loop (n : nat) (bs : list Z) (sum : Z) : result Z :=
  match n with
  | O => Ok sum
  | S n' =>
      match bs with
      | a :: b :: rest => sum ← carry_loop 2 (u32 (sum + bswap 2 (le_val [a; b]))); sum_loop n' rest sum
      | _ => Crash OutOfBounds
      end
  end.

(** [alloc_ok]: whether the pseudo header can be allocated; without it the
    checksum stays as it is. The sum is stored as the processor has it. *)
Definition check_udp (alloc_ok : bool) (k : list Z) (udp saddr daddr : Z) : result (list Z) :=
  v ← rd16 k (udp + 4);
  let len := bswap 2 v in
  let udp_data_len := u16 (len - 8) in
  let pseudo_hdr_len := if udp_data_len mod 2 =? 1 then (udp_data_len + 21) / 2 else (udp_data_len + 20) / 2 in
  if negb alloc_ok then Ok k
  else
    k ← wr16 k (udp + 6) 0;
    let ph := replicate (Z.to_nat (2 * pseudo_hdr_len)) 0 in
    ph ← set_bytes ph 0 (le_bytes 4 saddr);
    ph ← set_bytes ph 4 (le_bytes 4 daddr);
    ph ← set_bytes ph 9 (le_bytes 2 IPPROTO_UDP);
    ph ← set_bytes ph 10 (le_bytes 2 v);
    data ← sub_bytes k udp len;
    ph ← set_bytes ph 12 data;
    sum ← sum_loop (Z.to_nat pseudo_hdr_len) ph 0;
    let check := u16 (Z.lnot sum) in
    wr16 k (udp + 6) (if check =? 0 then 0xFFFF else check).

(** [ntohs(ip->saddr)]: only the first two bytes of an address are left. *)
Definition ntohs_addr (a : Z) : Z := bswap 2 (u16 a).

(** The filters in order until one matches. *)
Fixpoint find_filter (n : nat) (i : Z) (s : synch) (k : list Z) : result bool :=
  match n with
  | O => Ok false
  | S n' =>
      p ← nth_filter s i;
      match heap s !! p with
      | None => Crash BadAccess
      | Some f => m ← match_filter k f; if (m : bool) then Ok true else find_filter n' (i + 1) s k
      end
  end.

(** [pdu->timestamp = now - timestamp], converted from and to network order. *)
Definition swap_stamp (now : Z) (k : list Z) (pdu : Z) : result (list Z) :=
  v ← rd64 k pdu;
  wr64 k pdu (bswap 8 (u64 (now - s64 (bswap 8 v)))).

(** An IP packet [k] that arrives. *)
Definition synch_in_ip (now : Z) (alloc_ok : bool) (k : list Z) (s : synch) : result (list Z) :=
  proto ← ip_protocol k 0;
  if negb (proto =? IPPROTO_UDP) then Ok k
  else
    m ← find_filter (Z.to_nat (nfilters s)) 0 s k;
    if negb m then Ok k
    else
      ihl ← ip_ihl k 0;
      let udp := Z.shiftl ihl 2 in
      k ← swap_stamp now k (udp + sizeof_udphdr);
      sa ← ip_saddr k 0;
      da ← ip_daddr k 0;
      check_udp alloc_ok k udp (ntohs_addr sa) (ntohs_addr da).

Definition synch_in_data_packet (t : Z * Z) (alloc_ok : bool) (pad : adapter) (hdr8023 data : list Z)
    : stm synch (list Z) :=
  s ← get;
  if negb (adhoc_on pad) then mret data
  else
    pid ← lift (rd16 hdr8023 12);
    if negb (bswap 2 pid =? ETH_P_IP) then mret data
    else lift (synch_in_ip (get_kernel_current_time t) alloc_ok data s).

(** The change of a counter since the last packet, and its new last value. *)
Definition counter_field (k : list Z) (off last current : Z) : result (list Z * Z) :=
  if last =? current then Ok (k, last)
  else k ← set_bytes k off [u8 (last - current)]; Ok (k, current).

(** An IP packet that leaves. *)
Definition synch_out_ip (now : Z) (alloc_ok : bool) (pad : adapter) (k : list Z) : stm synch (list Z) :=
  s ← get;
  proto ← lift (ip_protocol k 0);
  if negb (proto =? IPPROTO_UDP) then mret k
  else
    m ← lift (find_filter (Z.to_nat (nfilters s)) 0 s k);
    if negb m then mret k
    else
      ihl ← lift (ip_ihl k 0);
      let udp := Z.shiftl ihl 2 in
      let pdu := udp + sizeof_udphdr in
      k ← lift (swap_stamp now k pdu);
      air ← lift (rd64 k (pdu + off_air));
      tot ← lift (ip_tot_len k 0);
      d ← lift (RTMPCalcDuration pad (TxRate pad) (sizeof_HEADER_802_11 + 8 + tot));
      k ← lift (wr64 k (pdu + off_air) (bswap 8 (u64 (bswap 8 air + ieee80211b_diffs + d))));
      '(k, fails) ← lift (counter_field k (pdu + off_fails) (last_fails s) (FailedCount pad));
      '(k, retries) ← lift (counter_field k (pdu + off_retries) (last_retries s) (RetryCount pad));
      put (mk_synch (sy_chains s) (nfilters s) (heap s) (sy_dirty s) fails retries);;
      sa ← lift (ip_saddr k 0);
      da ← lift (ip_daddr k 0);
      lift (check_udp alloc_ok k udp (ntohs_addr sa) (ntohs_addr da)).

(** [raw] is the transfer buffer: the adapter's descriptor, the 802.11 header,
    the LLC header and the IP packet. *)
Definition synch_out_data_packet (t : Z * Z) (alloc_ok : bool) (pad : adapter) (raw : list Z)
    : stm synch (list Z) :=
  if negb (adhoc_on pad) then mret raw
  else
    let llc := sizeof_TXD + sizeof_HEADER_802_11 in
    a ← lift (nth_byte raw llc);
    b ← lift (nth_byte raw (llc + 1));
    if negb ((a =? SNAP) && (b =? SNAP)) then mret raw
    else
      pid ← lift (rd16 raw (llc + 6));
      if negb (bswap 2 pid =? ETH_P_IP) then mret raw
      else
        let n := Z.to_nat (llc + 8) in
        k ← synch_out_ip (get_kernel_current_time t) alloc_ok pad (drop n raw);
        mret (take n raw ++ k).

(** ** Packets that pass

    [valid k]: a UDP packet that holds a whole sample, with its lengths right. *)
Definition sizeof_sync_packet : nat := 35.
Definition valid (k : list Z) : Prop :=
  (20 ≤ header k)%nat ∧ (header k + 8 + sizeof_sync_packet ≤ length k)%nat ∧
  bytes_ok k ∧
  ip_protocol k 0 = Ok IPPROTO_UDP ∧ ip_tot_len k 0 = Ok (Z.of_nat (length k)) ∧
  (∃ v, rd16 k (Z.of_nat (header k) + 4) = Ok v ∧ bswap 2 v = Z.of_nat (length k) - Z.of_nat (header k)) ∧
  Z.of_nat (length k) < 2 ^ 16.

(** The time stamp of a packet. *)
Definition stamped (k : list Z) (ts : Z) : Prop :=
  is_u64 ts ∧ rd64 k (Z.of_nat (header k) + 8) = Ok (bswap 8 ts).

(** [k'] is [k] except for bytes from the UDP checksum on. *)
Definition same_head (k k' : list Z) : Prop :=
  length k' = length k ∧ take (header k + 6) k' = take (header k + 6) k.

Lemma sub_bytes_take k k' m j n :
  length k' = length k → take m k' = take m k → 0 ≤ j → 0 ≤ n → j + n ≤ Z.of_nat m →
  sub_bytes k' j n = sub_bytes k j n.
Proof.
  intros Hl Ht Hj Hn Hm. unfold sub_bytes. rewrite Hl. destruct ((0 <=? j) && _ && _); [|done]. f_equal.
  assert (∀ l : list Z, take (Z.to_nat n) (drop (Z.to_nat j) l) = drop (Z.to_nat j) (take (Z.to_nat (j + n)) (take m l))) as E.
  { intros l. rewrite take_take, take_drop_commute. do 2 f_equal. lia. }
  by rewrite !E, Ht.
Qed.

Lemma nth_byte_take k k' m j :
  take m k' = take m k → j < Z.of_nat m → nth_byte k' j = nth_byte k j.
Proof.
  intros Ht Hm. unfold nth_byte. destruct (Z.ltb_spec j 0); [done|].
  rewrite <- (lookup_take_lt k m), <- Ht, lookup_take_lt by lia. done.
Qed.

Section SameHead.
Context (k k' : list Z) (Hs : same_head k k') (Hh : (20 ≤ header k)%nat) (Hl : (header k + 6 ≤ length k)%nat).

Lemma same_rd16 j : 0 ≤ j → j + 2 ≤ Z.of_nat (header k) + 6 → rd16 k' j = rd16 k j.
Proof using Hs Hh Hl. destruct Hs as [H1 H2]. intros. unfold rd16. by rewrite (sub_bytes_take k k' _ _ _ H1 H2) by lia. Qed.

Lemma same_rd32 j : 0 ≤ j → j + 4 ≤ Z.of_nat (header k) + 6 → rd32 k' j = rd32 k j.
Proof using Hs Hh Hl. destruct Hs as [H1 H2]. intros. unfold rd32. by rewrite (sub_bytes_take k k' _ _ _ H1 H2) by lia. Qed.

Lemma same_ihl : ip_ihl k' 0 = ip_ihl k 0.
Proof using Hs Hh Hl. destruct Hs as [_ H2]. unfold ip_ihl. by rewrite (nth_byte_take k k' _ 0 H2) by lia. Qed.

Lemma same_header : header k' = header k.
Proof using Hs Hh Hl.
  destruct Hs as [H1 H2]. unfold header. do 3 f_equal.
  destruct k as [|c l], k' as [|c' l']; simpl in *; try done; try lia.
  replace (header (c :: l) + 6)%nat with (S (header (c :: l) + 5)) in H2 by lia. simpl in H2. congruence.
Qed.

Lemma same_protocol : ip_protocol k' 0 = ip_protocol k 0.
Proof using Hs Hh Hl. destruct Hs as [_ H2]. unfold ip_protocol. by rewrite (nth_byte_take k k' _ _ H2) by lia. Qed.

Lemma same_tot_len : ip_tot_len k' 0 = ip_tot_len k 0.
Proof using Hs Hh Hl. unfold ip_tot_len. by rewrite same_rd16 by lia. Qed.

Lemma header_shift ihl : ip_ihl k 0 = Ok ihl → Z.shiftl ihl 2 = Z.of_nat (header k).
Proof using Hs Hh Hl.
  intros H. destruct (ip_ihl_header k [] []) as (i & Hi & E); [intros ->; simpl in Hl; lia|].
  rewrite app_nil_r in Hi. cbn [app length] in Hi. change (Z.of_nat 0) with 0 in Hi. congruence.
Qed.

Lemma same_match f : match_filter k' f = match_filter k f.
Proof using Hs Hh Hl.
  unfold match_filter.
  assert (match_filter_against_ip_ips k' f = match_filter_against_ip_ips k f) as ->.
  { unfold match_filter_against_ip_ips, ip_daddr, ip_saddr. by rewrite !same_rd32 by lia. }
  rewrite same_ihl. destruct (match_filter_against_ip_ips k f); [|done]. rewrite !result_bind_Ok.
  destruct (ip_ihl k 0) as [ihl|] eqn:E; [|done]. rewrite !result_bind_Ok.
  unfold match_filter_against_udp_ports, udp_dest, udp_source.
  by rewrite (header_shift ihl E), !same_rd16 by lia.
Qed.

Lemma same_find s n i : find_filter n i s k' = find_filter n i s k.
Proof using Hs Hh Hl.
  revert i. induction n as [|n IH]; intros i; [done|]. cbn [find_filter].
  destruct (nth_filter s i); [|done]. rewrite !result_bind_Ok. destruct (heap s !! a); [|done].
  rewrite same_match. destruct (match_filter k f) as [[]|]; [done|apply IH|done].
Qed.
End SameHead.

Lemma same_head_splice k i new :
  (header k + 6 ≤ i)%nat → (i + length new ≤ length k)%nat → same_head k (splice i new k).
Proof.
  intros Hi Hl. split; [by apply length_splice|]. unfold splice.
  rewrite take_app_le, take_take by (rewrite length_take; lia). f_equal. lia.
Qed.

Lemma same_head_trans k1 k2 k3 :
  (20 ≤ header k1)%nat → (header k1 + 6 ≤ length k1)%nat →
  same_head k1 k2 → same_head k2 k3 → same_head k1 k3.
Proof.
  intros Hh Hl H12 H23. pose proof (same_header k1 k2 H12 Hh Hl) as E. destruct H12 as [L1 T1], H23 as [L2 T2].
  rewrite E in T2. split; congruence.
Qed.

Lemma valid_same k k' : valid k → same_head k k' → bytes_ok k' → valid k'.
Proof.
  intros (H1 & H2 & H3 & H4 & H5 & (v & H6 & H6') & H7) Hs Hb. unfold sizeof_sync_packet in *.
  assert (header k + 6 ≤ length k)%nat as Hl by lia. pose proof (same_header k k' Hs H1 Hl) as E.
  pose proof Hs as [L _]. unfold valid, sizeof_sync_packet. rewrite E, L.
  split; [done|]. split; [lia|]. split; [done|]. split; [by rewrite (same_protocol k k')|].
  split; [by rewrite (same_tot_len k k')|]. split; [|done]. exists v. by rewrite (same_rd16 k k') by (done || lia).
Qed.

Lemma sub_bytes_splice_after i new bs j n :
  (i + length new ≤ length bs)%nat → Z.of_nat (i + length new) ≤ j → 0 ≤ n → j + n ≤ Z.of_nat (length bs) →
  sub_bytes (splice i new bs) j n = sub_bytes bs j n.
Proof.
  intros Hl Hj Hn Hm. unfold sub_bytes. rewrite length_splice by done.
  destruct ((0 <=? j) && _ && _); [|done]. f_equal. apply list_eq. intros x.
  destruct (decide (x < Z.to_nat n)%nat).
  - rewrite !lookup_take_lt, !lookup_drop, splice_lookup by lia. by rewrite decide_False by lia.
  - rewrite !lookup_take_ge by lia. done.
Qed.

Lemma bytes_ok_splice i new bs : bytes_ok new → bytes_ok bs → bytes_ok (splice i new bs).
Proof.
  intros Hn Hb. unfold splice. rewrite !bytes_ok_app. split; [by apply Forall_take|]. split; [done|by apply Forall_drop].
Qed.

(** ** The checksum is computed, whatever it is *)

Lemma carry_bit z : 0 ≤ z < 2 ^ 17 → truthy (Z.land z 0x10000) = bool_decide (2 ^ 16 ≤ z).
Proof.
  intros Hz. assert (Z.land z 0x10000 = if Z.testbit z 16 then 2 ^ 16 else 0) as ->.
  { change 0x10000 with (2 ^ 16). apply Z.bits_inj'. intros i Hi. rewrite Z.land_spec, Z.pow2_bits_eqb by lia.
    destruct (Z.eqb_spec 16 i) as [<-|Hne].
    - destruct (Z.testbit z 16); [by rewrite Z.pow2_bits_true|by rewrite Z.bits_0].
    - rewrite andb_false_r. destruct (Z.testbit z 16); [by rewrite Z.pow2_bits_false|by rewrite Z.bits_0]. }
  pose proof (Z.testbit_spec' z 16 ltac:(lia)) as Hb.
  destruct (Z.testbit z 16); cbn [Z.b2z] in Hb; case_bool_decide; try done; dlia.
Qed.

(** A sum of two 16-bit numbers needs one turn. *)
Lemma carry_loop_ok sum : 0 ≤ sum < 2 ^ 17 - 1 → ∃ s, carry_loop 2 sum = Ok s ∧ 0 ≤ s < 2 ^ 16.
Proof.
  intros Hs. cbn [carry_loop].
  rewrite carry_bit by lia. case_bool_decide; [|eexists; split; [done|lia]].
  rewrite (land_ones_mod sum 16 0xFFFF) by done. rewrite u32_small by dlia. rewrite carry_bit by dlia.
  rewrite bool_decide_eq_false_2 by dlia. eexists. split; [done|]. dlia.
Qed.

Lemma sum_loop_ok n bs sum :
  bytes_ok bs → length bs = (2 * n)%nat → 0 ≤ sum < 2 ^ 16 → ∃ s, sum_loop n bs sum = Ok s.
Proof.
  revert bs sum. induction n as [|n IH]; intros bs sum Hb Hl Hs; [by eexists|].
  destruct bs as [|a [|b bs]]; [simpl in Hl; lia..|]. cbn [sum_loop].
  pose proof (bswap_range 2 (le_val [a; b])) as Hw. change (256 ^ Z.of_nat 2) with (2 ^ 16) in Hw.
  rewrite u32_small by lia. destruct (carry_loop_ok (sum + bswap 2 (le_val [a; b]))) as (s & -> & Hs'); [lia|].
  rewrite result_bind_Ok. apply IH; [|simpl in Hl; lia|done].
  inversion Hb as [|? ? _ Hb']; subst. by inversion Hb'.
Qed.

Lemma set_bytes_ok bs i new :
  0 ≤ i → i + Z.of_nat (length new) ≤ Z.of_nat (length bs) → bytes_ok bs → bytes_ok new →
  ∃ bs', set_bytes bs i new = Ok bs' ∧ length bs' = length bs ∧ bytes_ok bs'.
Proof.
  intros Hi Hl Hb Hn. rewrite set_bytes_splice by done. eexists. split; [done|].
  split; [apply length_splice; lia|by apply bytes_ok_splice].
Qed.

Ltac fill_ph :=
  match goal with
  | |- context [set_bytes ?bs ?i ?new ≫= _] =>
      let bs' := fresh "ph" in let E := fresh in
      destruct (set_bytes_ok bs i new) as (bs' & E & ? & ?);
      [lia|rewrite ?length_le_bytes; lia|done|first [apply le_bytes_ok | done]|rewrite E, result_bind_Ok; clear E]
  end.

Lemma check_udp_splice alloc_ok k saddr daddr :
  valid k →
  check_udp alloc_ok k (Z.of_nat (header k)) saddr daddr = Ok k ∨
  ∃ c, check_udp alloc_ok k (Z.of_nat (header k)) saddr daddr = Ok (splice (header k + 6) (le_bytes 2 c) k).
Proof.
  intros (H1 & H2 & H3 & H4 & H5 & (v & H6 & H6') & H7). unfold sizeof_sync_packet in *.
  unfold check_udp. rewrite H6, result_bind_Ok, H6'. destruct alloc_ok; [right|by left]. cbn [negb].
  set (len := Z.of_nat (length k) - Z.of_nat (header k)) in *. rewrite (u16_small (len - 8)) by lia.
  unfold wr16. rewrite (set_bytes_splice k), result_bind_Ok by (rewrite ?length_le_bytes; lia).
  replace (Z.to_nat (Z.of_nat (header k) + 6)) with (header k + 6)%nat by lia.
  set (k1 := splice (header k + 6) (le_bytes 2 0) k).
  assert (length k1 = length k) as L1 by (apply length_splice; rewrite length_le_bytes; lia).
  assert (bytes_ok k1) as B1 by (apply bytes_ok_splice; [apply le_bytes_ok|done]).
  set (pl := if (len - 8) mod 2 =? 1 then _ else _).
  assert (len + 12 ≤ 2 * pl) as Hpl.
  { unfold pl. destruct (Z.eqb_spec ((len - 8) mod 2) 1); dlia. }
  set (ph0 := replicate (Z.to_nat (2 * pl)) 0).
  assert (length ph0 = (2 * Z.to_nat pl)%nat) as Lp by (unfold ph0; rewrite length_replicate; lia).
  assert (bytes_ok ph0) as Bp by (apply Forall_replicate; lia).
  do 4 fill_ph.
  assert (sub_bytes k1 (Z.of_nat (header k)) len = Ok (drop (header k) k1)) as ->.
  { unfold sub_bytes. rewrite !(proj2 (Z.leb_le _ _)) by lia. cbn [andb]. f_equal. rewrite Nat2Z.id.
    apply take_ge. rewrite length_drop. lia. }
  rewrite result_bind_Ok.
  destruct (set_bytes_ok ph3 12 (drop (header k) k1)) as (ph4 & -> & L4 & B4);
    [lia|rewrite length_drop; lia|done|by apply Forall_drop|].
  rewrite result_bind_Ok. destruct (sum_loop_ok (Z.to_nat pl) ph4 0) as (sum & ->); [done|lia|lia|].
  rewrite result_bind_Ok. set (c := if _ =? 0 then _ else _). exists c.
  rewrite set_bytes_splice by (rewrite ?length_le_bytes; lia).
  replace (Z.to_nat (Z.of_nat (header k) + 6)) with (header k + 6)%nat by lia.
  f_equal. apply splice_splice; rewrite ?length_le_bytes; done || lia.
Qed.

(** ** One node *)

Lemma stamped_splice k i new ts :
  valid k → stamped k ts → (i + length new ≤ length k)%nat →
  (header k + 16 ≤ i ∨ header k + 6 ≤ i ∧ i + length new ≤ header k + 8)%nat → stamped (splice i new k) ts.
Proof.
  intros (H1 & H2 & _) [Hts Hs] Hl Hi. unfold sizeof_sync_packet in *. split; [done|].
  rewrite header_splice by lia. rewrite <- Hs. unfold rd64. f_equal.
  destruct Hi as [Hi|Hi]; [apply sub_bytes_splice_before|apply sub_bytes_splice_after]; lia.
Qed.

Lemma valid_splice k i new :
  valid k → (header k + 6 ≤ i)%nat → (i + length new ≤ length k)%nat → bytes_ok new →
  valid (splice i new k) ∧ same_head k (splice i new k).
Proof.
  intros Hv Hi Hl Hn. pose proof (same_head_splice k i new Hi Hl) as Hs. split; [|done].
  eapply valid_same; [done..|]. apply bytes_ok_splice; [done|]. by destruct Hv as (_ & _ & ? & _).
Qed.

Lemma valid_bounds k : valid k → (20 ≤ header k)%nat ∧ (header k + 43 ≤ length k)%nat.
Proof. intros (H1 & H2 & _). unfold sizeof_sync_packet in *. lia. Qed.

Lemma valid_trans k k1 k2 : valid k → same_head k k1 → same_head k1 k2 → same_head k k2.
Proof. intros Hv. pose proof (valid_bounds k Hv). apply same_head_trans; lia. Qed.

Lemma be_bytes_ok n z : bytes_ok (be_bytes n z).
Proof. apply bytes_ok_reverse, le_bytes_ok. Qed.

Lemma u64_sub_s64 a b : u64 (a - s64 b) = u64 (a - b).
Proof.
  unfold u64, s64, swrap. change (2 ^ (64 - 1)) with (2 ^ 63).
  rewrite <- (Zminus_mod_idemp_r a (_ - _)). rewrite Zminus_mod_idemp_l.
  replace (b + 2 ^ 63 - 2 ^ 63) with b by lia. by rewrite Zminus_mod_idemp_r.
Qed.

Lemma swap_stamp_run now k ts :
  valid k → stamped k ts →
  ∃ k', swap_stamp now k (Z.of_nat (header k) + 8) = Ok k' ∧ valid k' ∧ same_head k k' ∧
    stamped k' (u64 (now - ts)).
Proof.
  intros Hv [Hts Hs]. pose proof (valid_bounds k Hv). unfold swap_stamp. rewrite Hs, result_bind_Ok.
  rewrite bswap_bswap, u64_sub_s64 by done. unfold wr64. rewrite le_bytes_bswap.
  rewrite set_bytes_splice by (rewrite ?length_be_bytes; lia).
  replace (Z.to_nat _) with (header k + 8)%nat by lia. set (t := u64 (now - ts)). eexists. split; [done|].
  destruct (valid_splice k (header k + 8) (be_bytes 8 t) Hv) as [V S]; [lia|rewrite length_be_bytes; lia|apply be_bytes_ok|].
  split; [done|]. split; [done|]. split; [apply u64_range|].
  rewrite header_splice by (rewrite ?length_be_bytes; lia). unfold rd64.
  replace (Z.of_nat (header k) + 8) with (Z.of_nat (header k + 8)) by lia.
  rewrite sub_bytes_splice_same by (rewrite ?length_be_bytes; lia). reflexivity.
Qed.

Lemma check_udp_run alloc_ok k ts :
  valid k → stamped k ts →
  ∃ k', (sa ← ip_saddr k 0; da ← ip_daddr k 0;
         check_udp alloc_ok k (Z.of_nat (header k)) (ntohs_addr sa) (ntohs_addr da)) = Ok k' ∧
    valid k' ∧ same_head k k' ∧ stamped k' ts.
Proof.
  intros Hv Hs. pose proof (valid_bounds k Hv).
  assert (∀ j, 0 ≤ j → j + 4 ≤ Z.of_nat (length k) → ∃ v, rd32 k j = Ok v) as Hrd.
  { intros j Hj Hl. unfold rd32, sub_bytes. rewrite !(proj2 (Z.leb_le _ _)) by lia. by eexists. }
  unfold ip_saddr, ip_daddr. destruct (Hrd (0 + 12)) as [sa ->]; [lia..|]. destruct (Hrd (0 + 16)) as [da ->]; [lia..|].
  rewrite !result_bind_Ok.
  destruct (check_udp_splice alloc_ok k (ntohs_addr sa) (ntohs_addr da) Hv) as [->|[c ->]].
  { exists k. split; [done|]. split; [done|]. split; [by split|done]. }
  destruct (valid_splice k (header k + 6) (le_bytes 2 c) Hv) as [V S]; [lia|rewrite length_le_bytes; lia|apply le_bytes_ok|].
  eexists. split; [done|]. split; [done|]. split; [done|].
  apply stamped_splice; [done|done|rewrite length_le_bytes; lia|right; rewrite length_le_bytes; lia].
Qed.

(** [s] selects the packet. *)
Definition selects (s : synch) (k : list Z) : Prop := find_filter (Z.to_nat (nfilters s)) 0 s k = Ok true.

Lemma selects_same s k k' : valid k → same_head k k' → selects s k → selects s k'.
Proof.
  intros Hv Hs. pose proof (valid_bounds k Hv). unfold selects. by rewrite (same_find k k') by (done || lia).
Qed.

Lemma ihl_of_valid k : valid k → ∃ ihl, ip_ihl k 0 = Ok ihl ∧ Z.shiftl ihl 2 = Z.of_nat (header k).
Proof.
  intros Hv. pose proof (valid_bounds k Hv). destruct (ip_ihl_header k [] []) as (i & Hi & E);
    [intros ->; simpl in *; lia|]. rewrite app_nil_r in Hi. by exists i.
Qed.

Lemma synch_in_run now alloc_ok k s ts :
  valid k → stamped k ts → selects s k →
  ∃ k', synch_in_ip now alloc_ok k s = Ok k' ∧ valid k' ∧ same_head k k' ∧ stamped k' (u64 (now - ts)).
Proof.
  intros Hv Hs Hsel. pose proof Hv as (_ & _ & _ & Hp & _). unfold synch_in_ip. rewrite Hp, result_bind_Ok.
  cbn [Z.eqb negb]. change (IPPROTO_UDP =? IPPROTO_UDP) with true. cbn [negb].
  rewrite Hsel, result_bind_Ok. cbn [negb]. destruct (ihl_of_valid k Hv) as (ihl & -> & Hihl).
  rewrite result_bind_Ok, Hihl. unfold sizeof_udphdr.
  destruct (swap_stamp_run now k ts Hv Hs) as (k1 & -> & V1 & S1 & T1). rewrite result_bind_Ok.
  destruct (check_udp_run alloc_ok k1 _ V1 T1) as (k2 & Hc & V2 & S2 & T2).
  pose proof (valid_bounds k Hv). rewrite (same_header k k1) in Hc by (done || lia).
  exists k2. split; [exact Hc|]. split; [done|]. split; [by eapply valid_trans|done].
Qed.

(** Bytes written behind the time stamp. *)
Lemma later_bytes k i new ts :
  valid k → stamped k ts → Z.of_nat (header k) + 16 ≤ i → i + Z.of_nat (length new) ≤ Z.of_nat (length k) →
  bytes_ok new →
  ∃ k', set_bytes k i new = Ok k' ∧ valid k' ∧ same_head k k' ∧ stamped k' ts.
Proof.
  intros Hv Hs Hi Hl Hn. rewrite set_bytes_splice by lia.
  destruct (valid_splice k (Z.to_nat i) new Hv) as [V S]; [lia|lia|done|].
  eexists. split; [done|]. split; [done|]. split; [done|]. apply stamped_splice; [done|done|lia|left; lia].
Qed.

Lemma counter_field_run k off last current ts :
  valid k → stamped k ts → Z.of_nat (header k) + 16 ≤ off < Z.of_nat (header k) + 43 →
  ∃ k' v, counter_field k off last current = Ok (k', v) ∧ valid k' ∧ same_head k k' ∧ stamped k' ts.
Proof.
  intros Hv Hs Ho. pose proof (valid_bounds k Hv). unfold counter_field. case_test; [by exists k, last|].
  destruct (later_bytes k off [u8 (last - current)] ts Hv Hs) as (k' & -> & V & S & T); [lia|simpl; lia| |].
  { unfold bytes_ok. repeat constructor; apply u8_range. }
  by exists k', current.
Qed.

Lemma duration_ok pad rate size : 0 ≤ rate < 14 → ∃ d, RTMPCalcDuration pad rate size = Ok d.
Proof.
  intros Hr. unfold RTMPCalcDuration. destruct (lookup_lt_is_Some_2 RateIdTo500Kbps (Z.to_nat rate)) as [r ->].
  { unfold RateIdTo500Kbps. simpl. lia. }
  by eexists.
Qed.

Lemma synch_out_run now alloc_ok pad k s ts :
  valid k → stamped k ts → selects s k → 0 ≤ TxRate pad < 14 →
  ∃ k' s', synch_out_ip now alloc_ok pad k s = Ok (k', s') ∧ valid k' ∧ same_head k k' ∧
    stamped k' (u64 (now - ts)).
Proof.
  intros Hv Hs Hsel Hrate. pose proof Hv as (_ & _ & _ & Hp & _). pose proof (valid_bounds k Hv) as Hb.
  unfold synch_out_ip. rewrite (bind_run get _ _ _ _ eq_refl).
  erewrite bind_run by (unfold lift; rewrite Hp; reflexivity).
  change (IPPROTO_UDP =? IPPROTO_UDP) with true. cbn [negb].
  erewrite bind_run by (unfold lift; rewrite Hsel; reflexivity). cbn [negb].
  destruct (ihl_of_valid k Hv) as (ihl & Hi & Hihl).
  erewrite bind_run by (unfold lift; rewrite Hi; reflexivity). rewrite Hihl. unfold sizeof_udphdr.
  destruct (swap_stamp_run now k ts Hv Hs) as (k1 & E1 & V1 & S1 & T1).
  erewrite bind_run by (unfold lift; rewrite E1; reflexivity).
  pose proof (same_header k k1 S1 ltac:(lia) ltac:(lia)) as H1. pose proof (valid_bounds k1 V1) as B1.
  assert (∃ v, rd64 k1 (Z.of_nat (header k) + 8 + off_air) = Ok v) as [air Hair].
  { unfold rd64, sub_bytes, off_air. rewrite !(proj2 (Z.leb_le _ _)) by lia. by eexists. }
  erewrite bind_run by (unfold lift; rewrite Hair; reflexivity).
  pose proof V1 as (_ & _ & _ & _ & Htot & _). erewrite bind_run by (unfold lift; rewrite Htot; reflexivity).
  destruct (duration_ok pad (TxRate pad) (sizeof_HEADER_802_11 + 8 + Z.of_nat (length k1)) Hrate) as [d Hd].
  erewrite bind_run by (unfold lift; rewrite Hd; reflexivity).
  set (v := bswap 8 (u64 _)). unfold off_air, off_fails, off_retries.
  destruct (later_bytes k1 (Z.of_nat (header k) + 8 + 8) (le_bytes 8 v) _ V1 T1) as (k2 & E2 & V2 & S2 & T2);
    [lia|rewrite length_le_bytes; lia|apply le_bytes_ok|].
  erewrite bind_run by (unfold lift, wr64; rewrite E2; reflexivity).
  pose proof (same_header k1 k2 S2 ltac:(lia) ltac:(lia)) as H2. pose proof (valid_bounds k2 V2) as B2.
  destruct (counter_field_run k2 (Z.of_nat (header k) + 8 + 20) (last_fails s) (FailedCount pad) _ V2 T2)
    as (k3 & f & E3 & V3 & S3 & T3); [lia|].
  erewrite bind_run by (unfold lift; rewrite E3; reflexivity). cbv beta iota.
  pose proof (same_header k2 k3 S3 ltac:(lia) ltac:(lia)) as H3. pose proof (valid_bounds k3 V3) as B3.
  destruct (counter_field_run k3 (Z.of_nat (header k) + 8 + 21) (last_retries s) (RetryCount pad) _ V3 T3)
    as (k4 & r & E4 & V4 & S4 & T4); [lia|].
  erewrite bind_run by (unfold lift; rewrite E4; reflexivity). cbv beta iota.
  pose proof (same_header k3 k4 S4 ltac:(lia) ltac:(lia)) as H4.
  rewrite (bind_run (put _) _ _ _ _ eq_refl).
  destruct (check_udp_run alloc_ok k4 _ V4 T4) as (k5 & E5 & V5 & S5 & T5).
  replace (header k4) with (header k) in E5 by congruence.
  exists k5. eexists. split.
  { unfold mbind, stm_bind, lift. revert E5. destruct (ip_saddr k4 0) as [sa|]; [|done]. rewrite result_bind_Ok.
    destruct (ip_daddr k4 0) as [da|]; [|done]. rewrite result_bind_Ok. intros ->. reflexivity. }
  split; [done|]. split; [|done].
  repeat (eapply (valid_trans k); [done| |eassumption]). by split.
Qed.

(** The headers in front of an IP packet: [hdr] in a frame that leaves, [eth] of
    a frame that arrives. *)
Definition llc_ip (hdr : list Z) : Prop :=
  length hdr = 56%nat ∧ hdr !! 48%nat = Some SNAP ∧ hdr !! 49%nat = Some SNAP ∧
  ∃ pid, rd16 hdr 54 = Ok pid ∧ bswap 2 pid = ETH_P_IP.
Definition ether_ip (eth : list Z) : Prop := ∃ pid, rd16 eth 12 = Ok pid ∧ bswap 2 pid = ETH_P_IP.

Lemma nth_byte_hdr hdr k i x : 0 ≤ i → hdr !! Z.to_nat i = Some x → nth_byte (hdr ++ k) i = Ok x.
Proof.
  intros Hi Hx. unfold nth_byte. rewrite lookup_app_l by (by eapply lookup_lt_Some).
  rewrite Hx. by destruct (Z.ltb_spec i 0); [lia|].
Qed.

Lemma synch_out_frame t alloc_ok pad hdr k s ts :
  adhoc_on pad = true → llc_ip hdr → valid k → stamped k ts → selects s k → 0 ≤ TxRate pad < 14 →
  ∃ k' s', synch_out_data_packet t alloc_ok pad (hdr ++ k) s = Ok (hdr ++ k', s') ∧ valid k' ∧
    same_head k k' ∧ stamped k' (u64 (get_kernel_current_time t - ts)).
Proof.
  intros Ha (Hl & H0 & H1 & pid & Hp & E) Hv Hs Hsel Hr. unfold synch_out_data_packet. rewrite Ha. cbn [negb].
  change (sizeof_TXD + sizeof_HEADER_802_11) with 48.
  erewrite bind_run by (unfold lift; rewrite (nth_byte_hdr hdr k 48 SNAP) by done; reflexivity).
  erewrite bind_run by (unfold lift; rewrite (nth_byte_hdr hdr k (48 + 1) SNAP) by done; reflexivity).
  rewrite Z.eqb_refl. cbn [negb andb].
  assert (rd16 (hdr ++ k) (48 + 6) = Ok pid) as Hp'.
  { rewrite <- Hp. unfold rd16. f_equal. unfold sub_bytes. rewrite length_app, Hl.
    rewrite !(proj2 (Z.leb_le _ _)) by lia. cbn [andb]. by rewrite drop_app_le, take_app_le by (rewrite ?length_drop; lia). }
  erewrite bind_run by (unfold lift; rewrite Hp'; reflexivity). rewrite E, Z.eqb_refl. cbn [negb].
  change (Z.to_nat (48 + 8)) with 56%nat. rewrite <- Hl, drop_app_length, take_app_length.
  destruct (synch_out_run (get_kernel_current_time t) alloc_ok pad k s ts Hv Hs Hsel Hr) as (k' & s' & Ho & R).
  erewrite bind_run by exact Ho. by exists k', s'.
Qed.

Lemma synch_in_frame t alloc_ok pad eth k s ts :
  adhoc_on pad = true → ether_ip eth → valid k → stamped k ts → selects s k →
  ∃ k', synch_in_data_packet t alloc_ok pad eth k s = Ok (k', s) ∧ valid k' ∧
    same_head k k' ∧ stamped k' (u64 (get_kernel_current_time t - ts)).
Proof.
  intros Ha (pid & Hp & E) Hv Hs Hsel. unfold synch_in_data_packet.
  rewrite (bind_run get _ _ _ _ eq_refl), Ha. cbn [negb].
  erewrite bind_run by (unfold lift; rewrite Hp; reflexivity). rewrite E, Z.eqb_refl. cbn [negb].
  destruct (synch_in_run (get_kernel_current_time t) alloc_ok k s ts Hv Hs Hsel) as (k' & Ho & R).
  exists k'. split; [|done]. unfold lift. by rewrite Ho.
Qed.

(** ** A journey over several nodes

    The clock of a node shows the time plus an offset of its own.  A leg leads
    from a node to the next one, whose offset is [l_off]: when the packet leaves
    and when it arrives, what the two clocks show then, the headers of the frame
    on both sides and the drivers on both sides. *)
Record leg : Type := mk_leg {
  l_out_at : Z; l_in_at : Z; l_off : Z;
  l_out_clock : Z * Z; l_in_clock : Z * Z;
  l_hdr : list Z; l_eth : list Z;
  l_out_pad : adapter; l_in_pad : adapter; l_out : synch; l_in : synch; l_out_alloc : bool; l_in_alloc : bool
}.

(** The receiver gets what follows the headers of the frame that was sent. *)
Fixpoint travel (legs : list leg) (k : list Z) : result (list Z) :=
  match legs with
  | [] => Ok k
  | l :: legs' =>
      '(raw, _) ← synch_out_data_packet (l_out_clock l) (l_out_alloc l) (l_out_pad l) (l_hdr l ++ k) (l_out l);
      '(k, _) ← synch_in_data_packet (l_in_clock l) (l_in_alloc l) (l_in_pad l) (l_eth l)
                  (drop (length (l_hdr l)) raw) (l_in l);
      travel legs' k
  end.

Fixpoint last_off (off : Z) (legs : list leg) : Z :=
  match legs with [] => off | l :: legs' => last_off (l_off l) legs' end.
Fixpoint in_the_air (legs : list leg) : Z :=
  match legs with [] => 0 | l :: legs' => l_in_at l - l_out_at l + in_the_air legs' end.

(** Both sides work ad hoc, their filters select the packet, it travels as IP
    and the rate is a known one. *)
Definition leg_ok (k : list Z) (l : leg) : Prop :=
  (selects (l_out l) k ∧ selects (l_in l) k) ∧
  (adhoc_on (l_out_pad l) = true ∧ adhoc_on (l_in_pad l) = true) ∧
  (llc_ip (l_hdr l) ∧ ether_ip (l_eth l)) ∧ 0 ≤ TxRate (l_out_pad l) < 14.

Fixpoint clocks_ok (off : Z) (legs : list leg) : Prop :=
  match legs with
  | [] => True
  | l :: legs' =>
      get_kernel_current_time (l_out_clock l) = l_out_at l + off ∧
      get_kernel_current_time (l_in_clock l) = l_in_at l + l_off l ∧ clocks_ok (l_off l) legs'
  end.

Lemma leg_ok_same k k' l : valid k → same_head k k' → leg_ok k l → leg_ok k' l.
Proof.
  intros Hv Hs ((A & B) & R). split; [|done]. split; by apply (selects_same _ k).
Qed.

Lemma leg_stamp t0 off out_at in_at off' :
  u64 (in_at + off' - u64 (out_at + off - u64 (t0 + off))) = u64 (t0 + (in_at - out_at) + off').
Proof.
  unfold u64. rewrite Zminus_mod_idemp_r, Z.sub_sub_distr, Zplus_mod_idemp_r. f_equal. lia.
Qed.

(** C4: the synchronisation protocol.  A packet created at [t0], stamped with the
    clock of its node and passed on over any number of nodes with clocks of their
    own, has in the end the time stamp [t0] on the clock of the last node plus
    the time it spent in the air, whatever time it spent in the nodes and
    whatever their clocks show (modulo the 64 bits of a time stamp).  The rest
    of its headers up to the UDP checksum is unchanged. *)
Theorem sync_journey legs off t0 k :
  valid k → stamped k (u64 (t0 + off)) → Forall (leg_ok k) legs → clocks_ok off legs →
  ∃ k', travel legs k = Ok k' ∧ same_head k k' ∧
    stamped k' (u64 (t0 + last_off off legs + in_the_air legs)).
Proof.
  revert off t0 k. induction legs as [|l legs IH]; intros off t0 k Hv Hs Hl Hc; cbn [travel last_off in_the_air].
  { exists k. rewrite Z.add_0_r. split; [done|]. split; [by split|done]. }
  inversion Hl as [|? ? ((Ho & Hi) & (Ao & Ai) & (Fo & Fi) & Hr) Hl']; subst. destruct Hc as (Co & Ci & Hc).
  destruct (synch_out_frame (l_out_clock l) (l_out_alloc l) (l_out_pad l) (l_hdr l) k (l_out l) _ Ao Fo Hv Hs Ho Hr)
    as (k1 & s1 & -> & V1 & S1 & T1). rewrite result_bind_Ok. cbv beta iota. rewrite drop_app_length.
  destruct (synch_in_frame (l_in_clock l) (l_in_alloc l) (l_in_pad l) (l_eth l) k1 (l_in l) _ Ai Fi V1 T1)
    as (k2 & -> & V2 & S2 & T2); [by apply (selects_same _ k)|]. rewrite result_bind_Ok. cbv beta iota.
  assert (same_head k k2) as S by (by eapply valid_trans). rewrite Co, Ci, leg_stamp in T2.
  destruct (IH (l_off l) (t0 + (l_in_at l - l_out_at l)) k2 V2 T2) as (k3 & -> & S3 & T3); [|done|].
  { eapply Forall_impl; [exact Hl'|]. intros x. by apply leg_ok_same. }
  exists k3. split; [done|]. split; [by eapply valid_trans|].
  replace (t0 + last_off (l_off l) legs + (l_in_at l - l_out_at l + in_the_air legs))
    with (t0 + (l_in_at l - l_out_at l) + last_off (l_off l) legs + in_the_air legs) by lia. done.
Qed.

(** Two nodes and a sink; the clocks are 5 s ahead and 7 s behind. *)
Definition journey_packet (ts : Z) : list Z :=
  [0x45; 0; 0; 63; 0; 0; 0; 0; 64; 17; 0; 0; 10; 0; 0; 1; 10; 0; 0; 2; 0xe1; 0xf3; 0xe1; 0xf3; 0; 43; 7; 7]
    ++ be_bytes 8 ts ++ replicate 27 0.
Definition one_filter_node : synch :=
  mk_synch (1000 :: replicate 255 0) 1 {[ 1000 := mk_flt 17 0 0 0xf3e1 0 ]} true 0 0.
Definition some_hdr : list Z := replicate 48 0 ++ [0xAA; 0xAA; 3; 0; 0; 0; 8; 0].
Definition some_eth : list Z := replicate 12 0 ++ [8; 0].
Definition two_legs : list leg :=
  [mk_leg 20000001000 20000500000 5000000000 (20, 1) (25, 500) some_hdr some_eth
     (mk_adapter true true 3 0 0) (mk_adapter true true 3 0 0) one_filter_node one_filter_node true true;
   mk_leg 30000000000 30000300000 (-7000000000) (35, 0) (23, 300) some_hdr some_eth
     (mk_adapter true true 3 2 9) (mk_adapter true true 3 0 0) one_filter_node one_filter_node true true].

Lemma sync_journey_witness :
  ∃ k', travel two_legs (journey_packet 20000000000) = Ok k' ∧ same_head (journey_packet 20000000000) k' ∧
    stamped k' (u64 (20000000000 + -7000000000 + 799000)).
Proof.
  apply (sync_journey two_legs 0 20000000000 (journey_packet 20000000000)).
  - split; [vm_compute; lia|]. split; [vm_compute; lia|].
    split; [unfold bytes_ok, journey_packet; rewrite !Forall_app; split; [repeat constructor; lia|];
            split; [apply be_bytes_ok|apply Forall_replicate; lia]|].
    split; [reflexivity|]. split; [reflexivity|]. split; [eexists; split; reflexivity|]. vm_compute. done.
  - split; [vm_compute; split; congruence|]. reflexivity.
  - assert (llc_ip some_hdr ∧ ether_ip some_eth) as Hh.
    { split; [split; [done|split; [done|split; [done|]]]|]; eexists; split; reflexivity. }
    repeat constructor; reflexivity || apply Hh || (simpl; lia).
  - split; [reflexivity|]. split; [reflexivity|]. split; [reflexivity|]. split; [reflexivity|exact I].
Defined.

(** C26: the two halves of a filter are combined with [|]: a filter that gives only
    addresses, or only ports, selects every packet, whatever its addresses and
    ports are. *)
Theorem one_sided_filter_matches k f ihl :
  ip_ihl k 0 = Ok ihl → Z.shiftl ihl 2 + 4 ≤ Z.of_nat (length k) → (20 ≤ length k)%nat →
  fl_dst_port f = 0 ∧ fl_src_port f = 0 ∨ fl_dst_addr f = 0 ∧ fl_src_addr f = 0 →
  match_filter k f = Ok true.
Proof.
  intros Hihl Hu Hl Hf.
  assert (0 ≤ Z.shiftl ihl 2) as Hpos.
  { unfold ip_ihl in Hihl. destruct (nth_byte k 0); [|done]. injection Hihl as <-.
    apply Z.shiftl_nonneg, Z.land_nonneg. by right. }
  assert (∀ j n, 0 ≤ j → 0 ≤ n → j + n ≤ Z.of_nat (length k) → ∃ bs, sub_bytes k j n = Ok bs) as Hrd.
  { intros j n ? ? ?. unfold sub_bytes. rewrite !(proj2 (Z.leb_le _ _)) by lia. by eexists. }
  assert (∃ a, match_filter_against_ip_ips k f = Ok a ∧ (fl_dst_addr f = 0 → fl_src_addr f = 0 → a = true))
    as (a & Ha & Ha').
  { unfold match_filter_against_ip_ips, ip_daddr, ip_saddr, rd32.
    destruct (Hrd (0 + 16) 4) as [x ->]; [lia..|]. destruct (Hrd (0 + 12) 4) as [y ->]; [lia..|].
    destruct (Z.eqb_spec (fl_dst_addr f) 0), (Z.eqb_spec (fl_src_addr f) 0); cbn [negb andb];
      rewrite !result_bind_Ok; cbn [negb andb]; repeat case_test; eexists; split; try reflexivity; done. }
  assert (∃ b, match_filter_against_udp_ports k (Z.shiftl ihl 2) f = Ok b ∧
    (fl_dst_port f = 0 → fl_src_port f = 0 → b = true)) as (b & Hb & Hb').
  { unfold match_filter_against_udp_ports, udp_dest, udp_source, rd16.
    destruct (Hrd (Z.shiftl ihl 2 + 2) 2) as [x ->]; [lia..|]. destruct (Hrd (Z.shiftl ihl 2) 2) as [y ->]; [lia..|].
    destruct (Z.eqb_spec (fl_dst_port f) 0), (Z.eqb_spec (fl_src_port f) 0); cbn [negb andb];
      rewrite !result_bind_Ok; cbn [negb andb]; repeat case_test; eexists; split; try reflexivity; done. }
  unfold match_filter. rewrite Ha, result_bind_Ok, Hihl, result_bind_Ok, Hb, result_bind_Ok. f_equal.
  destruct Hf as [[? ?]|[? ?]]; [rewrite Hb' by done; apply orb_true_r|by rewrite Ha'].
Qed.

Lemma one_sided_filter_matches_witness :
  match_filter (journey_packet 0) (mk_flt 17 0x08080808 0 0 0) = Ok true.
Proof.
  apply (one_sided_filter_matches _ _ 5); [reflexivity|vm_compute; done|vm_compute; lia|by left].
Defined.
