(* ===== verification/DriverListing.v ===== *)
(** * The listing of the driver's filters in /proc

    Models the rest of [rt2501/sources/Module/proc_filters.c]: the table of the
    filters of [filter_chains.c] ([Sync]), kept in a buffer with the operations of
    the framework's listing ([ProcListing]). *)

From S2P Require Import Prelude CString Klist Chains ByteBuffer Queue Deaggregation Aggregation Sync ProcListing.

(** The filters, and the buffer; [proc_contents.dirty] is in the first. *)
Definition table : Type := synch * cache.
Definition on_synch {A} (m : stm synch A) : stm table A := fun s =>
  match m s.1 with Ok (a, f) => Ok (a, (f, s.2)) | Crash c => Crash c end.
Definition on_buffer {A} (m : stm cache A) : stm table A := fun s =>
  match m s.2 with Ok (a, c) => Ok (a, (s.1, c)) | Crash e => Crash e end.

(** [if (proc_contents.buffer_offset + n >= proc_contents.buffer_size) realloc_proc_contents();] *)
Definition make_room (n : Z) : stm cache unit :=
  c ← get; if buffer_size c <=? u32 (buffer_offset c + n) then realloc_proc_contents else mret tt.

Definition rewind : stm cache unit := modify (fun c => mk_cache (buffer_size c) 0 (file_buffer c) (grants c)).

(** ** A row *)

(** [sprintf(buff + off, ...)] of a text, then [buff[strlen(buff)] = ' ']. *)
Definition put_field (b : list Z) (off : Z) (t : list Z) : result (list Z) :=
  b ← set_bytes b off (t ++ [0]);
  set_bytes b (strlen b) [32].

Definition put_field_unless_0 (v : Z) (b : list Z) (off : Z) (t : list Z) : result (list Z) :=
  if v =? 0 then Ok b else put_field b off t.

Definition row_buffer (i : Z) (f : flt) : result (list Z) :=
  b ← put_field (replicate 48 32) 0 (dec_d i);
  b ← put_field_unless_0 (fl_src_addr f) b 4 (nipquad (fl_src_addr f));
  b ← put_field_unless_0 (fl_dst_addr f) b 20 (nipquad (fl_dst_addr f));
  b ← put_field_unless_0 (fl_src_port f) b 36 (dec_d (bswap 2 (fl_src_port f)));
  put_field_unless_0 (fl_dst_port f) b 42 (dec_d (bswap 2 (fl_dst_port f))).

(** [chains[i]], dereferenced. *)
Definition chain_filter (s : synch) (i : Z) : result flt :=
  p ← nth_filter s i;
  if p =? 0 then Crash NullDeref
  else match heap s !! p with Some f => Ok f | None => Crash BadAccess end.

(** ** The table *)

Definition table_header : list Z := str " ID Src Address     Dst Address    SP   DP     " ++ nl.

(** [n] filters left, from the [i]-th. *)
Fixpoint list_driver_filters (n : nat) (i : Z) : stm table unit :=
  match n with
  | O => mret tt
  | S n' =>
      s ← get;
      f ← lift (chain_filter s.1 i);
      row ← lift (row_buffer i f);
      on_buffer (make_room 48);;
      on_buffer (append_to_buffer row);;
      on_buffer (make_room 1);;
      on_buffer (append_to_buffer nl);;
      list_driver_filters n' (i + 1)
  end.

Definition set_dirty (d : bool) : stm synch unit := modify (fun s =>
  mk_synch (sy_chains s) (nfilters s) (heap s) d (last_fails s) (last_retries s)).

Definition fill_proc_contents : stm table unit :=
  on_buffer rewind;;
  on_buffer clear_buffer;;
  on_buffer (append_to_buffer table_header);;
  s ← get;
  list_driver_filters (Z.to_nat (nfilters s.1)) 0;;
  on_synch (set_dirty false).

(** [printk("%s\n", proc_contents.file_buffer)] reads up to a NUL. *)
Definition printable (c : cache) : result unit :=
  match file_buffer c with
  | Some b => if strlen b <? Z.of_nat (length b) then Ok tt else Crash OutOfBounds
  | None => Ok tt
  end.

Definition procfile_read (offset buffer_length : Z) : stm table (list Z * Z) :=
  s ← get;
  (if sy_dirty s.1 then fill_proc_contents else mret tt);;
  s ← get;
  '(bs, n) ← lift (copy_out s.2 offset buffer_length);
  (if n =? 0 then mret tt else lift (printable s.2));;
  mret (bs, n).

(** [entry]: whether [create_proc_entry] succeeds. *)
Definition create_proc_file (entry : bool) (grants : list bool) : stm table unit :=
  if entry then
    on_synch (set_dirty true);;
    modify (fun s => (s.1, create_proc_contents grants))
  else mret tt.
Definition initialize_proc_filters (entry : bool) (grants : list bool) : stm table unit :=
  create_proc_file entry grants.
Definition teardown_proc_filters : stm table unit := modify (fun s =>
  (s.1, mk_cache (buffer_size s.2) (buffer_offset s.2) None (grants s.2))).

(** ** The rows are the columns *)

(** A column of [n] characters. *)
Definition col (n : nat) (t : list Z) : list Z := t ++ replicate (n - length t) 32.
Definition unless_0 (v : Z) (t : list Z) : list Z := if v =? 0 then [] else t.

Definition filter_line (i : Z) (f : flt) : list Z :=
  col 4 (dec_d i) ++ col 16 (unless_0 (fl_src_addr f) (nipquad (fl_src_addr f))) ++
  col 16 (unless_0 (fl_dst_addr f) (nipquad (fl_dst_addr f))) ++
  col 6 (unless_0 (fl_src_port f) (dec_d (bswap 2 (fl_src_port f)))) ++
  col 6 (unless_0 (fl_dst_port f) (dec_d (bswap 2 (fl_dst_port f)))).

Lemma col_split n k t : (length t ≤ n)%nat → col n t ++ replicate k 32 = col (n + k) t.
Proof.
  intros Ht. unfold col. rewrite <- app_assoc, <- replicate_add. do 2 f_equal. lia.
Qed.
Lemma length_col n t : (length t ≤ n)%nat → length (col n t) = n.
Proof. intros. unfold col. rewrite length_app, length_replicate. lia. Qed.
Lemma no_nul_app a b : no_nul a → no_nul b → no_nul (a ++ b).
Proof. intros. by apply Forall_app. Qed.
Lemma col_no_nul n t : no_nul t → no_nul (col n t).
Proof. intros Ht. apply Forall_app. split; [done|]. by apply Forall_replicate. Qed.

Lemma put_field_run pre k t :
  no_nul pre → no_nul t → (length t < k)%nat →
  put_field (pre ++ replicate k 32) (Z.of_nat (length pre)) t = Ok (pre ++ col k t).
Proof.
  intros Hpre Ht Hk. unfold put_field.
  replace k with (length (t ++ [0%Z]) + (k - length t - 1))%nat at 1 by (rewrite length_app; simpl; lia).
  rewrite replicate_add, set_bytes_middle by (by rewrite length_replicate). rewrite result_bind_Ok.
  assert (cstr (pre ++ (t ++ [0]) ++ replicate (k - length t - 1) 32) = pre ++ t) as Ec.
  { rewrite <- app_assoc, app_assoc. apply cstr_app_nul, Forall_app. done. }
  unfold strlen. rewrite Ec, <- app_assoc, app_assoc.
  rewrite (set_bytes_middle (pre ++ t) [0] _ [32]) by done.
  rewrite <- app_assoc. unfold col. do 3 f_equal.
  destruct (k - length t)%nat eqn:E; [lia|]. cbn [replicate app]. by rewrite Nat.sub_succ, Nat.sub_0_r.
Qed.

Lemma put_field_unless_0_run v pre k t :
  no_nul pre → no_nul t → (length t < k)%nat →
  put_field_unless_0 v (pre ++ replicate k 32) (Z.of_nat (length pre)) t = Ok (pre ++ col k (unless_0 v t)).
Proof.
  intros. unfold put_field_unless_0, unless_0. case_test; [|by apply put_field_run].
  unfold col. cbn [length app]. by rewrite Nat.sub_0_r.
Qed.

Lemma dec_d_no_nul n : 0 ≤ n → no_nul (dec_d n).
Proof. intros. unfold dec_d. rewrite (proj2 (Z.ltb_ge _ _)) by lia. by apply dec_u_no_nul. Qed.

Lemma nipquad_no_nul a : no_nul (nipquad a).
Proof.
  unfold nipquad. pose proof (le_bytes_ok 4 a) as H. destruct (le_bytes 4 a) as [|x [|y [|z [|w [|]]]]]; try by constructor.
  unfold bytes_ok in H. rewrite !Forall_cons in H. break. unfold quad, no_nul. rewrite !Forall_app.
  repeat split; first [apply dec_d_no_nul; lia|by repeat constructor].
Qed.

Lemma length_port p : (length (dec_d (bswap 2 p)) ≤ 5)%nat.
Proof. pose proof (bswap_range 2 p). apply dec_d_length_pos; simpl in *; lia. Qed.

Lemma length_unless_0 v t n : (length t ≤ n)%nat → (length (unless_0 v t) ≤ n)%nat.
Proof. unfold unless_0. case_test; simpl; lia. Qed.
Lemma unless_0_no_nul v t : no_nul t → no_nul (unless_0 v t).
Proof. unfold unless_0. case_test; [constructor|done]. Qed.

(** One more field: the text before it has [length pre] characters. *)
Lemma field_step {B} v pre n k t off (cont : list Z → result B) :
  no_nul pre → no_nul t → (length t ≤ n)%nat → (length t < n + k)%nat → off = Z.of_nat (length pre) →
  (b ← put_field_unless_0 v (pre ++ replicate (n + k) 32) off t; cont b) =
    cont ((pre ++ col n (unless_0 v t)) ++ replicate k 32).
Proof.
  intros Hp Ht Hn Hk ->. rewrite put_field_unless_0_run, result_bind_Ok by done.
  by rewrite <- col_split, app_assoc by (by apply length_unless_0).
Qed.

Lemma field_prefix v pre n t a :
  no_nul pre ∧ length pre = a → no_nul t → (length t ≤ n)%nat →
  no_nul (pre ++ col n (unless_0 v t)) ∧ length (pre ++ col n (unless_0 v t)) = (a + n)%nat.
Proof.
  intros [Hp Hl] Ht Hn. split; [by apply no_nul_app, col_no_nul, unless_0_no_nul|].
  rewrite length_app, length_col by (by apply length_unless_0). lia.
Qed.

Section Row.
Context (num src dst sport dport : list Z) (v1 v2 v3 v4 : Z).
Context (Hnum : no_nul num) (Hsrc : no_nul src) (Hdst : no_nul dst) (Hsp : no_nul sport) (Hdp : no_nul dport).
Context (Lnum : (length num ≤ 3)%nat) (Lsrc : (length src ≤ 15)%nat) (Ldst : (length dst ≤ 15)%nat).
Context (Lsp : (length sport ≤ 5)%nat) (Ldp : (length dport ≤ 5)%nat).

(** The texts of the five columns, whatever they are. *)
Lemma row_run :
  (b ← put_field (replicate 48 32) 0 num;
   b ← put_field_unless_0 v1 b 4 src;
   b ← put_field_unless_0 v2 b 20 dst;
   b ← put_field_unless_0 v3 b 36 sport;
   put_field_unless_0 v4 b 42 dport) =
  Ok (col 4 num ++ col 16 (unless_0 v1 src) ++ col 16 (unless_0 v2 dst) ++
      col 6 (unless_0 v3 sport) ++ col 6 (unless_0 v4 dport)).
Proof using All.
  assert (put_field (replicate 48 32) 0 num = Ok (col 48 num)) as E.
  { apply (put_field_run [] 48); [constructor|assumption|lia]. }
  rewrite E, result_bind_Ok. rewrite <- (col_split 4 44) by lia.
  assert (no_nul (col 4 num) ∧ length (col 4 num) = 4%nat) as H1.
  { split; [by apply col_no_nul|]. by rewrite length_col by lia. }
  pose proof (field_prefix v1 _ 16 src 4 H1 Hsrc ltac:(lia)) as H2.
  pose proof (field_prefix v2 _ 16 dst 20 H2 Hdst ltac:(lia)) as H3.
  pose proof (field_prefix v3 _ 6 sport 36 H3 Hsp ltac:(lia)) as H4.
  destruct H1, H2, H3, H4.
  rewrite (field_step v1 _ 16 28); [|assumption|assumption|lia|lia|lia].
  rewrite (field_step v2 _ 16 12); [|assumption|assumption|lia|lia|lia].
  rewrite (field_step v3 _ 6 6); [|assumption|assumption|lia|lia|lia].
  set (p4 := ((col 4 num ++ _) ++ _) ++ _) in *.
  replace 42 with (Z.of_nat (length p4)) by lia.
  rewrite put_field_unless_0_run; [|assumption|assumption|lia]. unfold p4. by rewrite <- !app_assoc.
Qed.
End Row.

Lemma row_buffer_run i f : 0 ≤ i < 256 → row_buffer i f = Ok (filter_line i f).
Proof.
  intros Hi. apply row_run; try apply nipquad_no_nul; try apply length_nipquad; try apply length_port;
    try apply dec_d_no_nul; try apply bswap_range; [lia|]. apply dec_d_length_pos; simpl; lia.
Qed.

(** ** The table *)

Fixpoint table_lines (i : Z) (fs : list flt) : list Z :=
  match fs with [] => [] | f :: fs' => (filter_line i f ++ nl) ++ table_lines (i + 1) fs' end.
Definition table_text (fs : list flt) : list Z := table_header ++ table_lines 0 fs.

(** The filters of the driver, in order. *)
Definition filters_are (s : synch) (fs : list flt) : Prop :=
  nfilters s = Z.of_nat (length fs) ∧ ∀ i f, fs !! i = Some f → chain_filter s (Z.of_nat i) = Ok f.

Lemma length_filter_line i f : 0 ≤ i < 256 → length (filter_line i f) = 48%nat.
Proof.
  intros Hi. unfold filter_line. rewrite !length_app, !length_col; [done| | | | |];
    try apply length_unless_0; first [apply dec_d_length_pos; simpl; lia|idtac].
  - pose proof (length_port (fl_dst_port f)). lia.
  - pose proof (length_port (fl_src_port f)). lia.
  - pose proof (length_nipquad (fl_dst_addr f)). lia.
  - pose proof (length_nipquad (fl_src_addr f)). lia.
Qed.

Lemma length_table_lines i fs :
  0 ≤ i → i + Z.of_nat (length fs) ≤ 256 → length (table_lines i fs) = (49 * length fs)%nat.
Proof.
  revert i. induction fs as [|f fs IH]; intros i Hi Hn; [done|]. cbn [table_lines length] in *.
  rewrite !length_app, length_filter_line, IH by lia. cbn [length nl]. lia.
Qed.

Section Table.
Context (s : synch) (size : nat) (g : list bool).
Context (Hs : Z.of_nat size < 2 ^ 31).

Lemma make_room_enough n x :
  0 ≤ n → Z.of_nat (length x) + n < Z.of_nat size →
  on_buffer (make_room n) (s, shown 0 size x g) = Ok (tt, (s, shown 0 size x g)).
Proof using Hs.
  intros Hn Hx. unfold on_buffer, make_room. cbn [fst snd]. rewrite (bind_run get _ _ _ _ eq_refl).
  cbn [buffer_size buffer_offset shown]. rewrite Nat.add_0_l, u32_small by lia.
  by rewrite (proj2 (Z.leb_gt _ _)) by lia.
Qed.

Lemma append_enough t x :
  (length x + length t ≤ size)%nat →
  on_buffer (append_to_buffer t) (s, shown 0 size x g) = Ok (tt, (s, shown 0 size (x ++ t) g)).
Proof using Hs. intros Hx. unfold on_buffer. cbn [fst snd]. by rewrite shown_append by lia. Qed.

Lemma list_driver_filters_run fs :
  (∀ i f, fs !! i = Some f → chain_filter s (Z.of_nat i) = Ok f) → (length fs ≤ 256)%nat →
  ∀ fs' i x, drop i fs = fs' → (length x + 49 * length fs' < size)%nat → (i + length fs' ≤ length fs)%nat →
  list_driver_filters (length fs') (Z.of_nat i) (s, shown 0 size x g) =
    Ok (tt, (s, shown 0 size (x ++ table_lines (Z.of_nat i) fs') g)).
Proof using Hs.
  intros Hfs Hn fs'. induction fs' as [|f fs' IH]; intros i x Hi Hx Hle.
  { cbn [table_lines]. by rewrite app_nil_r. }
  cbn [list_driver_filters length table_lines] in *. rewrite (bind_run get _ _ _ _ eq_refl). cbn [fst].
  assert (fs !! i = Some f) as Hf by (rewrite <- (Nat.add_0_r i), <- lookup_drop, Hi; done).
  rewrite (Hfs i f Hf). rewrite (bind_run (lift (Ok f)) _ _ _ _ eq_refl).
  rewrite row_buffer_run by lia. rewrite (bind_run (lift (Ok _)) _ _ _ _ eq_refl).
  pose proof (length_filter_line (Z.of_nat i) f ltac:(lia)) as Hlen.
  rewrite (bind_run _ _ _ _ _ (make_room_enough 48 x ltac:(lia) ltac:(lia))).
  rewrite (bind_run _ _ _ _ _ (append_enough (filter_line (Z.of_nat i) f) x ltac:(lia))).
  rewrite (bind_run _ _ _ _ _ (make_room_enough 1 (x ++ filter_line (Z.of_nat i) f) ltac:(lia) ltac:(rewrite length_app; lia))).
  rewrite (bind_run _ _ _ _ _ (append_enough nl (x ++ filter_line (Z.of_nat i) f) ltac:(rewrite length_app; cbn [length nl]; lia))).
  replace (Z.of_nat i + 1) with (Z.of_nat (S i)) by lia.
  rewrite IH; [by rewrite <- !app_assoc| |rewrite !length_app; cbn [length nl]; lia|lia].
  rewrite <- Nat.add_1_r, <- drop_drop, Hi. done.
Qed.
End Table.


(** The driver with a fresh table. *)
Definition tabled (s : synch) : synch :=
  mk_synch (sy_chains s) (nfilters s) (heap s) false (last_fails s) (last_retries s).

Lemma fill_table_run s fs size off b g :
  filters_are s fs → (length fs ≤ 256)%nat → length b = size → (48 + 49 * length fs < size)%nat →
  Z.of_nat size < 2 ^ 31 →
  fill_proc_contents (s, mk_cache (Z.of_nat size) off (Some b) g) =
    Ok (tt, (tabled s, shown 0 size (table_text fs) g)).
Proof.
  intros [Hn Hfs] Hmax Hb Hfit Hs. unfold fill_proc_contents.
  rewrite (bind_run (on_buffer rewind) _ _ tt (s, mk_cache (Z.of_nat size) 0 (Some b) g)) by done.
  rewrite (bind_run (on_buffer clear_buffer) _ _ tt (s, shown 0 size [] g)).
  2: { unfold on_buffer. cbn [fst snd]. rewrite clear_shown by done. unfold shown. cbn [length app replicate].
       by rewrite !Nat.sub_0_r. }
  rewrite (bind_run _ _ _ _ _ (append_enough s size g Hs table_header [] ltac:(simpl; lia))).
  rewrite (bind_run get _ _ _ _ eq_refl). cbn [fst app]. rewrite Hn, Nat2Z.id.
  rewrite (bind_run _ _ _ _ _ (list_driver_filters_run s size g Hs fs Hfs Hmax fs 0 table_header eq_refl
    ltac:(simpl; lia) ltac:(lia))). done.
Qed.

Lemma cstr_shorter b rest : (length (cstr (b ++ 0%Z :: rest)) < length (b ++ 0%Z :: rest))%nat.
Proof.
  induction b as [|c b IH]; [simpl; lia|]. cbn [app cstr]. destruct (c =? 0); cbn [length] in *; lia.
Qed.

Lemma printable_shown size t g : (length t < size)%nat → printable (shown 0 size t g) = Ok tt.
Proof.
  intros Ht. unfold printable, shown. cbn [file_buffer replicate app].
  destruct (size - 0 - length t)%nat as [|k] eqn:E; [lia|]. cbn [replicate].
  unfold strlen. rewrite (proj2 (Z.ltb_lt _ _)); [done|]. apply inj_lt, cstr_shorter.
Qed.

(** Reading the driver's proc entry after a change builds a table with one row of 48
    characters per filter, in the order of their numbers, each address and port in its
    column and blank where the filter leaves it open, and hands out the bytes asked for up
    to a final NUL; 19 filters fit in the first buffer. *)
Theorem table_read s fs size off b g o n :
  filters_are s fs → sy_dirty s = true → (length fs ≤ 256)%nat → length b = size →
  (48 + 49 * length fs < size)%nat → Z.of_nat size < 2 ^ 31 →
  (o ≤ 49 + 49 * length fs)%nat → 0 ≤ n < 2 ^ 31 →
  let got := take (Z.to_nat n) (drop o (table_text fs ++ [0])) in
  length (table_text fs) = (48 + 49 * length fs)%nat ∧
  procfile_read (Z.of_nat o) n (s, mk_cache (Z.of_nat size) off (Some b) g) =
    Ok (got, Z.of_nat (length got), (tabled s, shown 0 size (table_text fs) g)).
Proof.
  intros Hf Hdirty Hmax Hb Hfit Hs Ho Hn got.
  assert (length (table_text fs) = (48 + 49 * length fs)%nat) as Hlen.
  { unfold table_text. rewrite length_app, length_table_lines by lia. done. }
  split; [done|]. unfold procfile_read. rewrite (bind_run get _ _ _ _ eq_refl). cbn [fst]. rewrite Hdirty.
  rewrite (bind_run _ _ _ _ _ (fill_table_run s fs size off b g Hf Hmax Hb Hfit Hs)).
  rewrite (bind_run get _ _ _ _ eq_refl). cbn [snd].
  rewrite (copy_out_shown 0 size (table_text fs) g o n) by lia. cbn [replicate app]. fold got.
  rewrite (bind_run (lift (Ok _)) _ _ _ _ eq_refl). rewrite printable_shown by lia.
  by destruct (Z.of_nat (length got) =? 0).
Qed.

(** A filter for a port and one for an address. *)
Definition node_filters : list flt := [mk_flt 17 0 0 (bswap 2 57843) 0; mk_flt 17 0 (le_val [10; 0; 0; 1]) 0 0].
Definition two_filter_node : synch :=
  mk_synch (64 :: 80 :: replicate 254 0) 2
    (<[ 64 := mk_flt 17 0 0 (bswap 2 57843) 0 ]> {[ 80 := mk_flt 17 0 (le_val [10; 0; 0; 1]) 0 0 ]}) true 0 0.

Lemma table_read_witness :
  procfile_read 97 48 (two_filter_node, create_proc_contents []) =
    Ok (str "1   10.0.0.1                                    ", 48,
        (tabled two_filter_node, shown 0 1024 (table_text node_filters) [])).
Proof.
  refine (proj2 (table_read two_filter_node node_filters 1024 0 (replicate 1024 0) [] 97 48 _ _ _ _ _ _ _ _)).
  - split; [reflexivity|]. intros [|[|i]] f E; [injection E as <-; reflexivity..|discriminate].
  - reflexivity.
  - simpl. lia.
  - reflexivity.
  - apply Nat.ltb_lt. by vm_compute.
  - by vm_compute.
  - simpl. lia.
  - lia.
Defined.

(** With 20 filters the buffer is replaced before the last row: all that was
    written before reads as NUL. *)
Example twentieth_filter_hides_the_others :
  let f := mk_flt 17 0 0 (bswap 2 57843) 0 in
  let s := mk_synch (replicate 20 64 ++ replicate 236 0) 20 {[ 64 := f ]} true 0 0 in
  match procfile_read 0 4096 (s, create_proc_contents []) with
  | Ok (bs, n, _) => bs = replicate 979 0 ++ filter_line 19 f ++ nl ++ [0] ∧ n = 1029
  | Crash _ => False
  end.
Proof. vm_compute. split; reflexivity. Qed.
