(* ===== verification/GpsBuffer.v ===== *)
(** * The message buffer of the GPS readers

    Both readers of [gps_time/] ([trimble_lassen_iq/gps_time.c] and
    [trimble_condor/gps_time.c]) keep what arrives on the serial line in a
    circular array of 1024 bytes, filled by [output_from_gps] and emptied message
    by message by the thread [process_msg].  This file has that array, the read
    thread of [gps_uartctl.c] around it, and what the readers share: [holds r bs]
    says that the bytes [bs] wait in the buffer; the class [Reader] says what a
    reader's loop does with messages in the buffer, and [stream_refines] follows
    for every reader: for all cuts of the stream into reads and all schedules it
    handles the messages that have arrived. *)

From S2P Require Import Prelude.

Definition MSG_BUF_SIZE : Z := 1024.

Inductive gps_state_t : Set :=
| GPS_PRE_INIT | GPS_RESET | GPS_SEARCH | GPS_READY | GPS_QUERY.

#[export] Instance gps_state_eq_dec : EqDecision gps_state_t.
Proof. solve_decision. Defined.

Record ring : Type := mk_ring { msg_buf : list Z; buff_start : Z; buff_end : Z }.
Definition ring_init : ring := mk_ring (replicate 1024 0) 0 0.

(** [msg_buf[i % MSG_BUF_SIZE]]; the remainder of C has the sign of [i]. *)
Definition cell (buf : list Z) (i : Z) : result Z := nth_byte buf (Z.rem i MSG_BUF_SIZE).
Definition set_cell (buf : list Z) (i v : Z) : result (list Z) := set_bytes buf (Z.rem i MSG_BUF_SIZE) [v].

Fixpoint store_loop (buf : list Z) (pos : Z) (msg : list Z) : result (list Z) :=
  match msg with
  | [] => Ok buf
  | b :: msg' => buf ← set_cell buf pos b; store_loop buf (pos + 1) msg'
  end.

(** The end of the data, counted on from its start. *)
Definition linear (start last : Z) : Z := if last <? start then last + MSG_BUF_SIZE else last.

(** What [output_from_gps] does with the buffer; without space the program ends. *)
Definition store_msg (r : ring) (msg : list Z) : result ring :=
  let msg_len := Z.of_nat (length msg) in
  if msg_len <? MSG_BUF_SIZE - (linear (buff_start r) (buff_end r) - buff_start r)
  then buf ← store_loop (msg_buf r) (buff_end r) msg;
       Ok (mk_ring buf (buff_start r) (Z.rem (buff_end r + msg_len) MSG_BUF_SIZE))
  else Crash (ProcessExit 1).

(** ** Readers

    The state of a reader: the buffer and the rest. *)
Record reader (C : Type) : Type := mk_reader { rg : ring; core : C }.
Arguments mk_reader {C} rg core.
Arguments rg {C} r.
Arguments core {C} r.

(** Code that leaves the buffer alone. *)
Definition on_core {C A} (m : stm C A) : stm (reader C) A := fun t =>
  match m (core t) with Ok (a, c) => Ok (a, mk_reader (rg t) c) | Crash e => Crash e end.

Section Reading.
Context {C : Type} (gps_state : C → gps_state_t).

(** [read] returned [msg]; an error ([None]) is stored as a message of length
    -1, which changes nothing. *)
Definition output_from_gps (msg : option (list Z)) : stm (reader C) unit :=
  t ← get;
  if decide (gps_state (core t) = GPS_PRE_INIT) then mret tt
  else
    match msg with
    | Some m => r ← lift (store_msg (rg t) m); put (mk_reader r (core t))
    | None => mret tt
    end.

(** One turn of the read thread; at the end of file the program ends. *)
Definition uart_read_turn (msg : option (list Z)) : stm (reader C) unit :=
  match msg with
  | Some [] => throw (ProcessExit 1)
  | _ => output_from_gps msg
  end.

(** The turns of the thread [process_msg] until it waits for data. *)
Fixpoint process_loop (turn : stm (reader C) bool) (fuel : nat) : stm (reader C) unit :=
  match fuel with
  | O => throw Diverges
  | S n => again ← turn; if (again : bool) then process_loop turn n else mret tt
  end.

Lemma read_core m t t' : uart_read_turn m t = Ok (tt, t') → core t' = core t.
Proof.
  intros H. assert (output_from_gps m t = Ok (tt, t')) as Ho by (destruct m as [[|]|]; [done|exact H|exact H]).
  unfold output_from_gps in Ho. rewrite (bind_run get _ _ _ _ eq_refl) in Ho.
  destruct (decide _); [by apply ret_Ok in Ho as [= ->]|].
  destruct m as [m|]; [|by apply ret_Ok in Ho as [= ->]]. apply bind_Ok in Ho as (r & t1 & E & Ho).
  unfold lift in E. destruct (store_msg (rg t) m); simplify_eq. by injection Ho as <-.
Qed.
End Reading.

(** ** Windows

    [window buf i bs]: from position [i] on, taken modulo the size, the array
    holds [bs]. *)
Definition slot (i : Z) : nat := Z.to_nat (i mod MSG_BUF_SIZE).

Definition window (buf : list Z) (i : Z) (bs : list Z) : Prop :=
  length buf = 1024%nat ∧ ∀ k b, bs !! k = Some b → buf !! slot (i + Z.of_nat k) = Some b.

Definition holds (r : ring) (bs : list Z) : Prop :=
  window (msg_buf r) (buff_start r) bs ∧ 0 ≤ buff_start r < MSG_BUF_SIZE ∧
  buff_end r = (buff_start r + Z.of_nat (length bs)) mod MSG_BUF_SIZE ∧ Z.of_nat (length bs) < MSG_BUF_SIZE.

Lemma slot_lt i : (slot i < 1024)%nat.
Proof. unfold slot, MSG_BUF_SIZE. pose proof (Z.mod_pos_bound i 1024). lia. Qed.

Lemma rem_slot i : 0 ≤ i → Z.rem i MSG_BUF_SIZE = Z.of_nat (slot i).
Proof.
  intros. unfold slot, MSG_BUF_SIZE. rewrite Z.rem_mod_nonneg by lia.
  rewrite Z2Nat.id; [done|]. pose proof (Z.mod_pos_bound i 1024). lia.
Qed.

Lemma slot_ne i j : i < j < i + MSG_BUF_SIZE → slot i ≠ slot j.
Proof. unfold slot, MSG_BUF_SIZE. dlia. Qed.

Lemma slot_mod i j : slot (i mod MSG_BUF_SIZE + j) = slot (i + j).
Proof. unfold slot. by rewrite Zplus_mod_idemp_l. Qed.

Lemma window_nil buf i : length buf = 1024%nat → window buf i [].
Proof. by split. Qed.

Lemma window_length buf i bs : window buf i bs → length buf = 1024%nat.
Proof. by intros []. Qed.

Lemma window_mod buf i bs : window buf (i mod MSG_BUF_SIZE) bs ↔ window buf i bs.
Proof. unfold window. by setoid_rewrite slot_mod. Qed.

Lemma window_app buf i a b :
  window buf i (a ++ b) ↔ window buf i a ∧ window buf (i + Z.of_nat (length a)) b.
Proof.
  split.
  - intros [Hl H]. split; (split; [done|]); intros k x Hk.
    + apply H. by apply lookup_app_l_Some.
    + replace (i + Z.of_nat (length a) + Z.of_nat k) with (i + Z.of_nat (length a + k)) by lia.
      apply H. rewrite lookup_app_r by lia. by replace (length a + k - length a)%nat with k by lia.
  - intros [[Hl Ha] [_ Hb]]. split; [done|]. intros k x Hk.
    apply lookup_app_Some in Hk as [Hk|[Hle Hk]]; [by apply Ha|].
    apply Hb in Hk. by replace (i + Z.of_nat k) with (i + Z.of_nat (length a) + Z.of_nat (k - length a)) by lia.
Qed.

Lemma window_cons buf i b bs : window buf i (b :: bs) ↔ window buf i [b] ∧ window buf (i + 1) bs.
Proof. apply (window_app buf i [b] bs). Qed.

Lemma window_cell buf i bs k b :
  window buf i bs → 0 ≤ i → bs !! k = Some b → cell buf (i + Z.of_nat k) = Ok b.
Proof.
  intros [Hl H] Hi Hk. unfold cell. rewrite rem_slot by lia. unfold nth_byte.
  rewrite (proj2 (Z.ltb_ge _ _)) by lia. rewrite Nat2Z.id. by rewrite (H k b Hk).
Qed.

Lemma window_head buf i b : window buf i [b] → 0 ≤ i → cell buf i = Ok b.
Proof. intros H Hi. rewrite <- (Z.add_0_r i). by apply (window_cell buf i [b] 0). Qed.

(** A write outside the window, at most one turn of the ring away from it. *)
Definition apart (i n j : Z) : Prop := i + n ≤ j < i + MSG_BUF_SIZE ∨ j < i ∧ i + n ≤ j + MSG_BUF_SIZE.

Lemma set_cell_window buf j v :
  length buf = 1024%nat → 0 ≤ j →
  ∃ buf', set_cell buf j v = Ok buf' ∧ window buf' j [v] ∧
    ∀ i bs, window buf i bs → apart i (Z.of_nat (length bs)) j → window buf' i bs.
Proof.
  intros Hl Hj. unfold set_cell. rewrite rem_slot by done. pose proof (slot_lt j) as Hs.
  exists (<[slot j := v]> buf). split_and!.
  - unfold set_bytes. cbn [length]. rewrite !(proj2 (Z.leb_le _ _)) by lia. cbn [andb].
    rewrite Nat2Z.id, insert_take_drop by lia. by rewrite Nat.add_1_r.
  - split; [by rewrite length_insert|]. intros [|k] b Hk; [|done]. simplify_eq/=.
    rewrite Z.add_0_r. apply list_lookup_insert_eq. lia.
  - intros i bs [_ H] Ha. split; [by rewrite length_insert|]. intros k b Hk.
    pose proof (lookup_lt_Some _ _ _ Hk). rewrite list_lookup_insert_ne; [by apply H|].
    unfold apart in Ha. destruct Ha as [Ha|Ha]; [apply not_eq_sym|]; apply slot_ne; lia.
Qed.

Lemma store_loop_window msg buf pos i bs :
  window buf i bs → 0 ≤ pos → pos mod MSG_BUF_SIZE = (i + Z.of_nat (length bs)) mod MSG_BUF_SIZE →
  0 ≤ i → Z.of_nat (length bs) + Z.of_nat (length msg) ≤ MSG_BUF_SIZE →
  ∃ buf', store_loop buf pos msg = Ok buf' ∧ window buf' i (bs ++ msg).
Proof.
  revert buf pos bs. induction msg as [|m msg IH]; intros buf pos bs Hw Hp He Hi Hl.
  { exists buf. by rewrite app_nil_r. }
  cbn [store_loop length] in *.
  assert (set_cell buf pos m = set_cell buf (i + Z.of_nat (length bs)) m) as ->.
  { unfold set_cell. rewrite !rem_slot by lia. unfold slot. by rewrite He. }
  destruct (set_cell_window buf (i + Z.of_nat (length bs)) m) as (buf1 & -> & H1 & H2);
    [by eapply window_length|lia|]. rewrite result_bind_Ok.
  replace (bs ++ m :: msg) with ((bs ++ [m]) ++ msg) by by rewrite <- app_assoc.
  apply IH.
  - apply window_app. split; [|done]. apply H2; [done|]. left. lia.
  - lia.
  - rewrite length_app. cbn [length]. rewrite <- Z.add_mod_idemp_l, He, Z.add_mod_idemp_l by done. f_equal. lia.
  - done.
  - rewrite length_app. cbn [length]. lia.
Qed.

Lemma linear_holds r bs : holds r bs → linear (buff_start r) (buff_end r) = buff_start r + Z.of_nat (length bs).
Proof.
  intros (_ & Hs & He & Hl). unfold linear, MSG_BUF_SIZE in *.
  destruct (Z.ltb_spec (buff_end r) (buff_start r)); dlia.
Qed.

(** Storing appends to what waits in the buffer. *)
Lemma store_msg_holds r bs msg :
  holds r bs → Z.of_nat (length bs) + Z.of_nat (length msg) < MSG_BUF_SIZE →
  ∃ r', store_msg r msg = Ok r' ∧ holds r' (bs ++ msg).
Proof.
  intros H Hn. unfold store_msg. rewrite (linear_holds r bs H). destruct H as (Hw & Hs & He & Hl).
  assert (0 ≤ buff_end r < MSG_BUF_SIZE) as Hr by (rewrite He; by apply Z.mod_pos_bound). rewrite (proj2 (Z.ltb_lt _ _)) by lia.
  destruct (store_loop_window msg (msg_buf r) (buff_end r) (buff_start r) bs) as (buf' & -> & Hw');
    [done|lia|by rewrite He, Zmod_mod|lia|lia|].
  rewrite result_bind_Ok. eexists. split; [done|]. split; [done|]. split; [done|]. cbn [buff_end buff_start].
  rewrite length_app, Z.rem_mod_nonneg by (unfold MSG_BUF_SIZE in *; lia).
  split; [|lia]. rewrite He, Z.add_mod_idemp_l by done. f_equal. lia.
Qed.

Lemma store_msg_full r bs msg :
  holds r bs → MSG_BUF_SIZE ≤ Z.of_nat (length bs) + Z.of_nat (length msg) →
  store_msg r msg = Crash (ProcessExit 1).
Proof.
  intros H Hn. unfold store_msg. rewrite (linear_holds r bs H). by rewrite (proj2 (Z.ltb_ge _ _)) by lia.
Qed.

Lemma holds_init : holds ring_init [].
Proof. split; [by apply window_nil|]. done. Qed.

Lemma linear_rem a b : 0 ≤ b < MSG_BUF_SIZE → Z.rem (linear a b) MSG_BUF_SIZE = b.
Proof.
  intros Hb. unfold linear. destruct (b <? a); [|by apply Z.rem_small].
  rewrite Z.rem_mod_nonneg by (unfold MSG_BUF_SIZE in *; lia). unfold MSG_BUF_SIZE in *. dlia.
Qed.

(** Dropping [a] from the front. *)
Lemma holds_drop buf r a bs :
  holds r (a ++ bs) → window buf (buff_start r + Z.of_nat (length a)) bs →
  holds (mk_ring buf ((buff_start r + Z.of_nat (length a)) mod MSG_BUF_SIZE) (buff_end r)) bs.
Proof.
  intros (Hw & Hs & He & Hl) Hw'. rewrite length_app in *. split; [by apply window_mod|].
  cbn [buff_start buff_end]. split; [by apply Z.mod_pos_bound|]. split; [|lia].
  rewrite Z.add_mod_idemp_l by done. rewrite He. f_equal. lia.
Qed.

(** ** The stream

    What a reader promises: a turn of its loop takes a whole message out of the
    buffer and handles it, and leaves the buffer alone when there is none. *)
Class Reader (C P : Type) : Type := {
  r_state : C → gps_state_t;
  r_frame : P → list Z;
  r_ok : P → Prop;
  r_inv : C → Prop;
  r_turn : stm (reader C) bool;  (* [r_inv]: the state between messages *)
  r_handle : P → stm C unit;
  r_frame_nonempty : ∀ p, r_frame p ≠ [];
  r_turn_empty : ∀ t, holds (rg t) [] → r_turn t = Ok (false, t);
  r_turn_frame : ∀ t p rest, holds (rg t) (r_frame p ++ rest) → r_ok p → r_inv (core t) →
    ∃ r, holds r rest ∧
      r_turn t = match r_handle p (core t) with Ok (_, c) => Ok (true, mk_reader r c) | Crash e => Crash e end;
  r_turn_partial : ∀ t p bs s, holds (rg t) bs → r_ok p → r_frame p = bs ++ s → s ≠ [] → r_turn t = Ok (false, t);
  r_started : ∀ c, r_inv c → r_state c ≠ GPS_PRE_INIT;
  r_keeps : ∀ p, r_ok p → keeps r_inv (r_handle p)
}.

Inductive event : Type := Read (msg : list Z) | Run.
Definition received (evs : list event) : list Z := evs ≫= fun e => match e with Read m => m | Run => [] end.

Section Stream.
Context {C P : Type} `{R : Reader C P}.

(** The device sends messages one after another; the reads cut the stream
    anywhere, and the thread runs at any time between them.  A turn takes bytes
    out of the buffer, so there are at most as many turns as it has bytes. *)
Fixpoint run (evs : list event) : stm (reader C) unit :=
  match evs with
  | [] => mret tt
  | Read m :: evs' => uart_read_turn r_state (Some m);; run evs'
  | Run :: evs' => process_loop r_turn 1024;; run evs'
  end.

Definition stream (ps : list P) : list Z := ps ≫= r_frame.

(** The same with a count of the bytes that wait in place of the buffer:
    messages are handled when all of their bytes have arrived. *)
Fixpoint handle_complete (ps : list P) (n : Z) : stm C (list P * Z) :=
  match ps with
  | p :: ps' =>
      let len := Z.of_nat (length (r_frame p)) in
      if len <=? n then r_handle p;; handle_complete ps' (n - len) else mret (ps, n)
  | [] => mret ([], n)
  end.
Fixpoint stream_spec (evs : list event) (ps : list P) (n : Z) : stm C (list P * Z) :=
  match evs with
  | [] => mret (ps, n)
  | Read m :: evs' =>
      if bool_decide (m = []) || (MSG_BUF_SIZE <=? n + Z.of_nat (length m)) then throw (ProcessExit 1)
      else stream_spec evs' ps (n + Z.of_nat (length m))
  | Run :: evs' => '(ps', n') ← handle_complete ps n; stream_spec evs' ps' n'
  end.

(** The buffer and the bytes [more] that are still to come make up the messages
    that are left. *)
Definition refines (more : list Z) (r : result (unit * reader C)) (a : result (list P * Z * C)) : Prop :=
  match r, a with
  | Ok (_, t), Ok (ps, n, c) =>
      core t = c ∧ r_inv c ∧ Forall r_ok ps ∧
      ∃ bs, holds (rg t) bs ∧ n = Z.of_nat (length bs) ∧ bs ++ more = stream ps
  | Crash e, Crash e' => e = e'
  | _, _ => False
  end.

Lemma turn_incomplete t bs ps more :
  holds (rg t) bs → Forall r_ok ps → bs ++ more = stream ps →
  match ps with p :: _ => Z.of_nat (length bs) < Z.of_nat (length (r_frame p)) | [] => True end →
  r_turn t = Ok (false, t).
Proof.
  intros Hh Hp Hs Hlen. destruct ps as [|p ps].
  - apply app_nil in Hs as [-> _]. by apply r_turn_empty.
  - inversion Hp as [|? ? Hok _]; subst. change (stream (p :: ps)) with (r_frame p ++ stream ps) in Hs.
    apply app_eq_inv in Hs as [(k & Hk & _)|(k & Hk & _)].
    + rewrite Hk, length_app in Hlen. lia.
    + apply (r_turn_partial t p bs k Hh Hok Hk). intros ->. rewrite Hk, app_nil_r in Hlen. lia.
Qed.

Lemma process_loop_refines ps fuel t bs more :
  holds (rg t) bs → r_inv (core t) → Forall r_ok ps → bs ++ more = stream ps → (length bs < fuel)%nat →
  refines more (process_loop r_turn fuel t) (handle_complete ps (Z.of_nat (length bs)) (core t)).
Proof.
  revert fuel t bs. induction ps as [|p ps IH]; intros fuel t bs Hh Hg Hp Hs Hf;
    (destruct fuel as [|n]; [lia|]); cbn [process_loop handle_complete].
  { rewrite (bind_run r_turn _ t false t) by by eapply (turn_incomplete t bs []).
    split_and!; [done..|]. by exists bs. }
  destruct (Z.leb_spec (Z.of_nat (length (r_frame p))) (Z.of_nat (length bs))) as [Hle|Hgt].
  - inversion Hp as [|? ? Hok Hps]; subst. change (stream (p :: ps)) with (r_frame p ++ stream ps) in Hs.
    assert (∃ k, bs = r_frame p ++ k ∧ k ++ more = stream ps) as (k & -> & Hk).
    { apply app_eq_inv in Hs as [(k & Hk & E)|(k & Hk & E)]; [by exists k|].
      rewrite Hk, length_app in Hle. assert (k = []) as -> by (apply length_zero_iff_nil; lia).
      exists []. rewrite app_nil_r in Hk |- *. split; [by symmetry|by rewrite E]. }
    destruct (r_turn_frame t p k Hh Hok Hg) as (r & Hr & E). unfold mbind, stm_bind at 1. rewrite E.
    destruct (r_handle p (core t)) as [[[] g]|c] eqn:Eh; unfold mbind, stm_bind; rewrite Eh; [|done].
    replace (Z.of_nat (length (r_frame p ++ k)) - _) with (Z.of_nat (length k)) by (rewrite length_app; lia).
    apply (IH n (mk_reader r g) k); [done|by eapply (r_keeps p)|done|done|].
    rewrite length_app in Hf. pose proof (r_frame_nonempty p). destruct (r_frame p); [done|]. simpl in Hf. lia.
  - rewrite (bind_run r_turn _ t false t) by by eapply (turn_incomplete t bs (p :: ps)).
    split_and!; [done..|]. by exists bs.
Qed.

Lemma stream_refines evs ps t bs more :
  holds (rg t) bs → r_inv (core t) → Forall r_ok ps → bs ++ received evs ++ more = stream ps →
  refines more (run evs t) (stream_spec evs ps (Z.of_nat (length bs)) (core t)).
Proof.
  revert ps t bs. induction evs as [|[m|] evs IH]; intros ps t bs Hh Hg Hp Hs; cbn [run stream_spec].
  - split_and!; [done..|]. by exists bs.
  - change (received (Read m :: evs)) with (m ++ received evs) in Hs. rewrite <- app_assoc in Hs.
    destruct m as [|x m]; [done|]. cbn [uart_read_turn]. rewrite bool_decide_false by done. cbn [orb].
    unfold output_from_gps. rewrite stm_bind_assoc, (bind_run get _ _ _ _ eq_refl).
    rewrite decide_False by by apply r_started. destruct (Z.leb_spec MSG_BUF_SIZE (Z.of_nat (length bs) + Z.of_nat (length (x :: m)))) as [Hf|Hf].
    + unfold mbind, stm_bind, lift. by rewrite (store_msg_full _ _ _ Hh Hf).
    + destruct (store_msg_holds _ _ _ Hh Hf) as (r & E & Hr).
      rewrite stm_bind_assoc. erewrite bind_run by (unfold lift; rewrite E; reflexivity).
      rewrite (bind_run (put _) _ _ _ _ eq_refl). rewrite <- Nat2Z.inj_add, <- length_app.
      apply (IH ps (mk_reader r (core t)) (bs ++ x :: m)); [done|done|done|]. by rewrite <- app_assoc.
  - change (received (Run :: evs)) with (received evs) in Hs.
    pose proof (process_loop_refines ps 1024 t bs (received evs ++ more) Hh Hg Hp Hs) as H.
    destruct Hh as (_ & _ & _ & Hl). unfold MSG_BUF_SIZE in Hl. specialize (H ltac:(lia)). unfold mbind, stm_bind.
    destruct (process_loop r_turn 1024 t) as [[[] t1]|c], (handle_complete ps (Z.of_nat (length bs)) (core t)) as [[[ps1 n1] g1]|c1];
      try done; cbn [refines] in H.
    destruct H as (<- & Hg1 & Hp1 & bs1 & Hb1 & -> & Hs1). by apply (IH ps1 t1 bs1).
Qed.
End Stream.
