(* ===== verification/Tsip.v ===== *)
(** * The reader of the Trimble Lassen iQ

    Models [gps_time/trimble_lassen_iq/gps_time.c] and [gps_uartctl.c].  The
    receiver speaks TSIP: a packet is DLE, an identifier, data in which each DLE
    is doubled, DLE and ETX.  [lookup_packet] finds a packet in the buffer and
    undoes the doubling in place; [process_msg] hands it to a state machine; the
    clients [getGPStimeUTC] and [getGPSLLA] send a request and wait for it to be
    answered. *)

From S2P Require Import Prelude Float GpsBuffer.
From Stdlib Require Import SpecFloat.

Definition DLE : Z := 0x10.
Definition ETX : Z := 0x03.
Definition GPS_REQUEST_TIME : Z := 0x21.
Definition GPS_CMD_RESET : Z := 0x25.
Definition GPS_CMD_AUTOMATIC_POS_REPORT : Z := 0x35.
Definition GPS_CMD_ENHANCED_SENSITIVITY : Z := 0x69.
Definition GPS_CMD_REQ_HEALTH : Z := 0x26.
Definition GPS_CMD_REQ_POS : Z := 0x37.
Definition GPS_MSG_TIME : Z := 0x41.
Definition GPS_MSG_SW_VERSION : Z := 0x45.
Definition GPS_MSG_RECEIVER_HEALTH : Z := 0x46.
Definition GPS_MSG_LLA : Z := 0x4A.
Definition SEC_WEEK : Z := 604800.
Definition SEC_GPS_EPOCH : Z := 315964800.

Definition reset_msg : list Z := [DLE; GPS_CMD_RESET; DLE; ETX].
Definition config_auto_report_msg : list Z := [DLE; GPS_CMD_AUTOMATIC_POS_REPORT; 2; 0; 1; 0; DLE; ETX].
Definition enhance_sensitivity_on_msg : list Z := [DLE; GPS_CMD_ENHANCED_SENSITIVITY; 1; 0; DLE; ETX].
Definition enhance_sensitivity_off_msg : list Z := [DLE; GPS_CMD_ENHANCED_SENSITIVITY; 0; 0; DLE; ETX].
Definition request_time_msg : list Z := [DLE; GPS_REQUEST_TIME; DLE; ETX].
Definition request_health_msg : list Z := [DLE; GPS_CMD_REQ_HEALTH; DLE; ETX].
Definition request_position_msg : list Z := [DLE; GPS_CMD_REQ_POS; DLE; ETX].

Inductive gps_fault_t : Set :=
| GPS_OK | GPS_ANTENA_SHORT | GPS_ANTENA_OPEN | GPS_NEEDED_RESET | GPS_BATTERY_FAULT.

(** [PI] as a double. *)
Definition PI : spec_float := Eval vm_compute in atof (str "3.1415926535898").

(** ** Finding a packet *)

(** [for (pos = *start; pos < *end && !packet_found; pos++)]: [n] positions are
    left.  The position behind the ETX, if it is found. *)
Fixpoint scan (n : nat) (buf : list Z) (pos dle_count : Z) : result (option Z) :=
  match n with
  | O => Ok None
  | S n' =>
      b ← cell buf pos;
      if b =? DLE then scan n' buf (pos + 1) (dle_count + 1)
      else if (b =? ETX) && truthy (Z.rem dle_count 2) then Ok (Some (pos + 1))
      else scan n' buf (pos + 1) 0
  end.

(** [while (origin > *start)]: the message is moved towards its end. *)
Fixpoint unpad (fuel : nat) (buf : list Z) (start origin pos : Z) : result (list Z * Z) :=
  match fuel with
  | O => Crash Diverges
  | S n =>
      if origin <=? start then Ok (buf, pos)
      else
        b ← cell buf origin;
        buf ← set_cell buf pos b;
        b ← cell buf origin;
        padded ← (if b =? DLE then c ← cell buf (origin - 1); Ok (c =? DLE) else Ok false);
        unpad n buf start (if (padded : bool) then origin - 2 else origin - 1) (pos - 1)
  end.

(** [None] when there is no whole packet; otherwise the buffer and the new start
    and end. *)
Definition lookup_packet (buf : list Z) (start last : Z) : result (option (list Z * Z * Z)) :=
  let last := linear start last in
  if last - start <? 4 then Ok None
  else
    b ← nth_byte buf start;
    if negb (b =? DLE) then Crash (ProcessExit 1)
    else
      found ← scan (Z.to_nat (last - start)) buf start 0;
      match found with
      | None => Ok None
      | Some p =>
          let pos := p - 1 in
          let origin := pos - 2 in
          '(buf, pos) ← unpad (S (Z.to_nat (origin - start))) buf start origin pos;
          Ok (Some (buf, Z.rem (pos + 1) MSG_BUF_SIZE, Z.rem p MSG_BUF_SIZE))
      end.

(** ** State

    A [struct timeval] or [float] of a client is named by its address; 0 is
    NULL.  [results] are the results of the next writes to the serial line (none
    left: the line takes everything); [signalled] says whether
    [reply_available_cond] was signalled. *)
Record gps : Type := mk_gps {
  gps_state : gps_state_t;
  gps_fault : gps_fault_t;
  current_time : Z;
  current_latitude : Z; current_longitude : Z; current_altitude : Z;
  timevals : gmap Z (Z * Z);
  floats : gmap Z spec_float;
  sent : list (list Z);
  results : list Z;
  signalled : bool
}.
Definition tsip : Type := reader gps.

Definition gps_init (results : list Z) : gps := mk_gps GPS_PRE_INIT GPS_OK 0 0 0 0 ∅ ∅ [] results false.

Definition set_state (st : gps_state_t) : stm gps unit := modify (fun g =>
  mk_gps st (gps_fault g) (current_time g) (current_latitude g) (current_longitude g) (current_altitude g)
    (timevals g) (floats g) (sent g) (results g) (signalled g)).
Definition set_fault (f : gps_fault_t) : stm gps unit := modify (fun g =>
  mk_gps (gps_state g) f (current_time g) (current_latitude g) (current_longitude g) (current_altitude g)
    (timevals g) (floats g) (sent g) (results g) (signalled g)).
Definition set_signalled (b : bool) : stm gps unit := modify (fun g =>
  mk_gps (gps_state g) (gps_fault g) (current_time g) (current_latitude g) (current_longitude g)
    (current_altitude g) (timevals g) (floats g) (sent g) (results g) b).
Definition signal_reply : stm gps unit := set_signalled true.
Definition set_current_time (tv : Z) : stm gps unit := modify (fun g =>
  mk_gps (gps_state g) (gps_fault g) tv (current_latitude g) (current_longitude g) (current_altitude g)
    (timevals g) (floats g) (sent g) (results g) (signalled g)).
Definition set_position (la lo al : Z) : stm gps unit := modify (fun g =>
  mk_gps (gps_state g) (gps_fault g) (current_time g) la lo al
    (timevals g) (floats g) (sent g) (results g) (signalled g)).
Definition write_time (tv : Z) (t : Z * Z) : stm gps unit := modify (fun g =>
  mk_gps (gps_state g) (gps_fault g) (current_time g) (current_latitude g) (current_longitude g)
    (current_altitude g) (<[tv := t]> (timevals g)) (floats g) (sent g) (results g) (signalled g)).
Definition write_float (p : Z) (f : spec_float) : stm gps unit := modify (fun g =>
  mk_gps (gps_state g) (gps_fault g) (current_time g) (current_latitude g) (current_longitude g)
    (current_altitude g) (timevals g) (<[p := f]> (floats g)) (sent g) (results g) (signalled g)).

(** ** gps_uartctl.c *)

(** A short write ends the program. *)
Definition uart_write (msg : list Z) : stm gps unit :=
  g ← get;
  let written := match results g with r :: _ => r | [] => Z.of_nat (length msg) end in
  put (mk_gps (gps_state g) (gps_fault g) (current_time g) (current_latitude g) (current_longitude g)
         (current_altitude g) (timevals g) (floats g) (sent g ++ [msg]) (tail (results g)) (signalled g));;
  if negb (written =? Z.of_nat (length msg)) then throw (ProcessExit 1) else mret tt.

(** ** gps_time.c *)

(** [gps_write] is [uart_write]. *)
Definition init_gps (indoor reset : bool) : stm gps unit :=
  (if reset then
     (if indoor then uart_write enhance_sensitivity_on_msg else uart_write enhance_sensitivity_off_msg);;
     uart_write reset_msg;;
     set_state GPS_RESET
   else set_state GPS_SEARCH);;
  uart_write config_auto_report_msg;;
  if reset then mret tt else uart_write request_health_msg.

(** [fd]: what [open] returns for the device. *)
Definition uart_init (fd : Z) (indoor reset : bool) : stm gps unit :=
  if fd =? -1 then throw (ProcessExit 1) else init_gps indoor reset.

(** The buffer and the read thread are those of [GpsBuffer]. *)
Definition output_from_gps : option (list Z) → stm tsip unit := GpsBuffer.output_from_gps gps_state.
Definition uart_read_thread_turn : option (list Z) → stm tsip unit := uart_read_turn gps_state.

Definition is_gps_ready (g : gps) : bool := bool_decide (gps_state g = GPS_READY).

(** A number sent most significant byte first: [n] bytes from [i] on, which the
    loops copy in the opposite order into [number_buf]. *)
Fixpoint number_loop (n : nat) (buf : list Z) (i : Z) : result (list Z) :=
  match n with
  | O => Ok []
  | S n' => b ← cell buf (i + Z.of_nat n'); bs ← number_loop n' buf i; Ok (b :: bs)
  end.
Definition read_float (buf : list Z) (i : Z) : result spec_float :=
  bs ← number_loop 4 buf i; Ok (float_of_bits (le_val bs)).
Definition read_short (buf : list Z) (i : Z) : result Z :=
  bs ← number_loop 2 buf i; Ok (s16 (le_val bs)).

(** Health of the receiver: handled in every state. *)
Definition handle_health (buf : list Z) (start : Z) : stm gps unit :=
  b ← lift (cell buf (start + 1));
  (if b =? 0x02 then
     uart_write reset_msg;;
     g ← get;
     (if decide (gps_state g = GPS_QUERY) then signal_reply else mret tt);;
     set_fault GPS_NEEDED_RESET;;
     set_state GPS_RESET
   else set_fault GPS_OK);;
  byte ← lift (cell buf (start + 2));
  if Z.shiftr byte 4 =? 0x03 then set_fault GPS_ANTENA_SHORT
  else if Z.shiftr byte 4 =? 0x01 then set_fault GPS_ANTENA_OPEN
  else if truthy (Z.land byte 0x01) then set_fault GPS_BATTERY_FAULT
  else mret tt.

(** The answer to a request for the time. *)
Definition time_reply (buf : list Z) (start : Z) : result (Z * Z) :=
  tow ← read_float buf (start + 1);
  off ← read_float buf (start + 7);
  let time_sec := f32_sub tow off in
  week_num ← read_short buf (start + 5);
  sec ← to_s32 time_sec;
  usec ← to_s32 (f64_mul (to_double (f32_sub time_sec (f32_of_Z sec))) (f64_of_Z 1000000));
  Ok (s32 (SEC_GPS_EPOCH + SEC_WEEK * week_num + sec), usec).

Definition degrees (f : spec_float) : spec_float :=
  to_float (f64_mul (f64_div (to_double f) PI) (f64_of_Z 180)).

Definition handle_time (buf : list Z) (start : Z) : stm gps unit :=
  g ← get;
  if current_time g =? 0 then mret tt
  else
    t ← lift (time_reply buf start);
    write_time (current_time g) t;;
    set_state GPS_READY;;
    signal_reply.

Definition handle_lla (buf : list Z) (start : Z) : stm gps unit :=
  g ← get;
  if current_latitude g =? 0 then mret tt
  else
    la ← lift (read_float buf (start + 1));
    write_float (current_latitude g) (degrees la);;
    lo ← lift (read_float buf (start + 5));
    write_float (current_longitude g) (degrees lo);;
    al ← lift (read_float buf (start + 9));
    write_float (current_altitude g) al;;
    set_state GPS_READY;;
    signal_reply.

(** The switch on the state. *)
Definition handle_state (buf : list Z) (start : Z) : stm gps unit :=
  id ← lift (nth_byte buf start);
  g ← get;
  match gps_state g with
  | GPS_RESET => if id =? GPS_MSG_SW_VERSION then set_state GPS_SEARCH else mret tt
  | GPS_SEARCH =>
      if id =? GPS_MSG_RECEIVER_HEALTH then
        b ← lift (cell buf (start + 1)); if b =? 0 then set_state GPS_READY else mret tt
      else mret tt
  | GPS_READY =>
      if id =? GPS_MSG_RECEIVER_HEALTH then
        b ← lift (cell buf (start + 1)); if negb (b =? 0) then set_state GPS_SEARCH else mret tt
      else mret tt
  | _ =>
      if id =? GPS_MSG_RECEIVER_HEALTH then
        b ← lift (cell buf (start + 1));
        if negb (b =? 0) then set_state GPS_SEARCH;; signal_reply else mret tt
      else if id =? GPS_MSG_TIME then handle_time buf start
      else if id =? GPS_MSG_LLA then handle_lla buf start
      else mret tt
  end.

Definition handle_msg (buf : list Z) (start : Z) : stm gps unit :=
  id ← lift (nth_byte buf start);
  (if id =? GPS_MSG_RECEIVER_HEALTH then handle_health buf start else mret tt);;
  handle_state buf start.

(** One turn of the loop of [process_msg]: whether a message was handled; if
    not, the thread waits for data. *)
Definition process_turn : stm tsip bool :=
  t ← get;
  found ← lift (lookup_packet (msg_buf (rg t)) (buff_start (rg t)) (buff_end (rg t)));
  match found with
  | None => mret false
  | Some (buf, start, last) =>
      on_core (handle_msg buf start);;
      t' ← get;
      put (mk_reader (mk_ring buf (Z.rem (linear start last) MSG_BUF_SIZE) (buff_end (rg t'))) (core t'));;
      mret true
  end.

(** The turns until the thread waits. *)
Definition process_msg : stm tsip unit := process_loop process_turn 1024.

(** ** The clients

    A call either returns at once or waits on [reply_available_cond] ([None]);
    when it is woken it has the mutex again and either returns or waits. *)
Definition time_call (tv : Z) : stm gps (option Z) :=
  g ← get;
  if negb (bool_decide (gps_state g = GPS_READY)) || negb (current_time g =? 0) then mret (Some 1)
  else
    uart_write request_time_msg;;
    set_current_time tv;;
    set_state GPS_QUERY;;
    mret None.
Definition time_resume : stm gps (option Z) :=
  g ← get;
  if decide (gps_state g = GPS_QUERY) then mret None
  else
    set_current_time 0;;
    mret (Some (if decide (gps_state g = GPS_READY) then 0 else 2)).

Definition position_call (la lo al : Z) : stm gps (option Z) :=
  g ← get;
  if negb (bool_decide (gps_state g = GPS_READY)) || negb (current_latitude g =? 0) then mret (Some 1)
  else
    uart_write request_position_msg;;
    set_position la lo al;;
    set_state GPS_QUERY;;
    mret None.
Definition position_resume : stm gps (option Z) :=
  g ← get;
  if decide (gps_state g = GPS_QUERY) then mret None
  else
    set_position 0 (current_longitude g) (current_altitude g);;
    mret (Some (if decide (gps_state g = GPS_READY) then 0 else 2)).

(** ** Packets on the line *)

Definition stuff (bs : list Z) : list Z := bs ≫= fun b => if b =? DLE then [DLE; DLE] else [b].
Definition frame (id : Z) (data : list Z) : list Z := DLE :: id :: stuff data ++ [DLE; ETX].
Definition id_ok (id : Z) : Prop := id ≠ DLE ∧ id ≠ ETX.

Lemma stuff_app a b : stuff (a ++ b) = stuff a ++ stuff b.
Proof. apply bind_app. Qed.

(** [scan] on the bytes themselves. *)
Fixpoint scan_list (bs : list Z) (pos dle_count : Z) : option Z :=
  match bs with
  | [] => None
  | b :: bs' =>
      if b =? DLE then scan_list bs' (pos + 1) (dle_count + 1)
      else if (b =? ETX) && truthy (Z.rem dle_count 2) then Some (pos + 1)
      else scan_list bs' (pos + 1) 0
  end.

Lemma scan_window bs buf pos d :
  window buf pos bs → 0 ≤ pos → scan (length bs) buf pos d = Ok (scan_list bs pos d).
Proof.
  revert pos d. induction bs as [|b bs IH]; intros pos d Hw Hp; [done|].
  cbn [length scan scan_list]. apply window_cons in Hw as [Hb Hw].
  rewrite (window_head buf pos b Hb Hp), result_bind_Ok. repeat case_test; auto; apply IH; auto; lia.
Qed.

Lemma scan_list_bound bs s pos d q :
  scan_list bs pos d = Some q → q ≤ pos + Z.of_nat (length bs) ∧ scan_list (bs ++ s) pos d = Some q.
Proof.
  revert pos d. induction bs as [|b bs IH]; intros pos d H; [done|]. cbn [scan_list app length] in *.
  repeat case_test; [apply IH in H as [? ->]|injection H as <-|apply IH in H as [? ->]]; split; auto; lia.
Qed.

(** Doubled bytes leave an even number of DLE in front of what follows. *)
Lemma scan_list_stuff data rest pos d :
  0 ≤ d → Z.even d = true → ∃ d', 0 ≤ d' ∧ Z.even d' = true ∧
    scan_list (stuff data ++ rest) pos d = scan_list rest (pos + Z.of_nat (length (stuff data))) d'.
Proof.
  revert pos d. induction data as [|b data IH]; intros pos d Hd He.
  { exists d. simpl. rewrite Z.add_0_r. auto. }
  change (stuff (b :: data)) with ((if b =? DLE then [DLE; DLE] else [b]) ++ stuff data).
  destruct (Z.eqb_spec b DLE) as [->|Hb].
  - destruct (IH (pos + 1 + 1) (d + 1 + 1)) as (d' & ? & ? & E); [lia|rewrite !Z.even_add, He; done|].
    exists d'. split; [done|]. split; [done|]. cbn [app scan_list length]. rewrite Z.eqb_refl, E. f_equal. lia.
  - destruct (IH (pos + 1) 0) as (d' & ? & ? & E); [done..|].
    exists d'. split; [done|]. split; [done|]. cbn [app scan_list length].
    rewrite (proj2 (Z.eqb_neq _ _) Hb).
    assert (truthy (Z.rem d 2) = false) as ->.
    { rewrite Z.rem_mod_nonneg, Zmod_even, He by lia. done. }
    rewrite andb_false_r, E. f_equal. lia.
Qed.

Lemma scan_list_frame id data rest pos :
  id_ok id → scan_list (frame id data ++ rest) pos 0 = Some (pos + Z.of_nat (length (frame id data))).
Proof.
  intros [H1 H2]. unfold frame. cbn [app scan_list]. rewrite Z.eqb_refl, (proj2 (Z.eqb_neq _ _) H1), (proj2 (Z.eqb_neq _ _) H2).
  cbn [andb]. rewrite <- app_assoc.
  destruct (scan_list_stuff data ([DLE; ETX] ++ rest) (pos + 1 + 1) 0) as (d & Hd & He & ->); [done..|].
  cbn [app scan_list]. rewrite !Z.eqb_refl. change (ETX =? DLE) with false. cbn [andb].
  assert (truthy (Z.rem (d + 1) 2) = true) as ->.
  { rewrite Z.rem_mod_nonneg, Zmod_even, Z.even_add, He by lia. done. }
  f_equal. cbn [length]. rewrite length_app. cbn [length]. lia.
Qed.

(** A packet that is not complete is not found. *)
Lemma scan_list_partial id data p s pos :
  id_ok id → frame id data = p ++ s → s ≠ [] → scan_list p pos 0 = None.
Proof.
  intros Hid E Hs. destruct (scan_list p pos 0) as [q|] eqn:Eq; [|done].
  apply (scan_list_bound p s) in Eq as [Hq Hf]. pose proof (scan_list_frame id data [] pos Hid) as H.
  rewrite app_nil_r, E, Hf, length_app in H. injection H as ->. destruct s; [done|]. simpl in *. lia.
Qed.

(** ** Taking the padding out *)

Section Unpad.
Context (start id : Z) (Hstart : 0 ≤ start) (Hid : id ≠ DLE).

(** A byte is copied to [pos]; what lies below and above stays. *)
Lemma unpad_step n buf origin pos b c :
  start < origin < pos → pos < start + MSG_BUF_SIZE → window buf (origin - 1) [c; b] →
  ∃ buf', unpad (S n) buf start origin pos =
      unpad n buf' start (if (b =? DLE) && (c =? DLE) then origin - 2 else origin - 1) (pos - 1) ∧
    window buf' pos [b] ∧
    (∀ i bs, window buf i bs → start ≤ i → i + Z.of_nat (length bs) ≤ pos → window buf' i bs) ∧
    (∀ i bs, window buf i bs → pos < i → i + Z.of_nat (length bs) ≤ start + MSG_BUF_SIZE → window buf' i bs).
Proof using Hstart.
  intros Ho Hp Hw. cbn [unpad]. rewrite (proj2 (Z.leb_gt _ _)) by lia.
  pose proof (window_length _ _ _ Hw) as Hlen.
  assert (∀ buf, window buf (origin - 1) [c; b] → cell buf origin = Ok b ∧ cell buf (origin - 1) = Ok c) as Hc.
  { intros buf0 H0. apply window_cons in H0 as [H1 H2]. split.
    - replace origin with (origin - 1 + 1) by lia. apply window_head; [done|lia].
    - apply window_head; [done|lia]. }
  destruct (Hc buf Hw) as [-> _]. rewrite result_bind_Ok.
  destruct (set_cell_window buf pos b Hlen ltac:(lia)) as (buf' & -> & H1 & H2). rewrite result_bind_Ok.
  assert (∀ i bs, window buf i bs → start ≤ i → i + Z.of_nat (length bs) ≤ pos → window buf' i bs) as Hlow.
  { intros i bs Hb Hi1 Hi2. apply H2; [done|]. left. unfold MSG_BUF_SIZE in *. lia. }
  destruct (Hc buf') as [-> Hcc]; [apply Hlow; [done|lia|simpl; lia]|]. rewrite result_bind_Ok.
  exists buf'. split_and!; [|done|done|].
  - destruct (b =? DLE); [rewrite Hcc|]; rewrite !result_bind_Ok; done.
  - intros i bs Hb Hi1 Hi2. apply H2; [done|]. right. lia.
Qed.

(** The bytes [todo] still have their padding; [rest] is in its place behind
    [pos]. *)
Lemma unpad_run todo fuel buf pos rest :
  (length (stuff todo) + 2 ≤ fuel)%nat →
  window buf (start + 1) (id :: stuff todo) → window buf (pos + 1) rest →
  start + 1 + Z.of_nat (length (stuff todo)) < pos →
  pos + 1 + Z.of_nat (length rest) ≤ start + MSG_BUF_SIZE →
  ∃ buf', unpad fuel buf start (start + 1 + Z.of_nat (length (stuff todo))) pos =
      Ok (buf', pos - Z.of_nat (length todo) - 1) ∧
    window buf' (pos - Z.of_nat (length todo)) (id :: todo ++ rest).
Proof using Hstart Hid.
  revert fuel buf pos rest. induction todo as [|b todo IH] using rev_ind; intros fuel buf pos rest Hf Hw Hr Hp Hl.
  - change (stuff []) with (@nil Z) in *. cbn [length app] in *. destruct fuel as [|[|n]]; [lia..|].
    rewrite !Z.sub_0_r, Z.add_0_r in *.
    assert (∃ c, window buf (start + 1 - 1) [c; id]) as [c Hc].
    { pose proof (window_length _ _ _ Hw) as Hlen. destruct (lookup_lt_is_Some_2 buf (slot start)) as [c Hc];
        [rewrite Hlen; apply slot_lt|]. exists c. apply window_cons. split; [|by replace (start + 1 - 1 + 1) with (start + 1) by lia].
      split; [done|]. intros [|k] x Hx; [|done]. injection Hx as <-. by replace (start + 1 - 1 + Z.of_nat 0) with start by lia. }
    destruct (unpad_step (S n) buf (start + 1) pos id c) as (buf' & -> & H1 & _ & H3); [lia|lia|done|].
    rewrite (proj2 (Z.eqb_neq _ _) Hid). cbn [andb unpad]. rewrite (proj2 (Z.leb_le _ _)) by lia.
    exists buf'. split; [done|]. apply window_cons. split; [done|]. apply H3; [done|lia|lia].
  - rewrite stuff_app in *. cbn [stuff mbind list_bind app] in *. rewrite app_nil_r in *.
    assert (∃ pre c, id :: stuff todo ++ (if b =? DLE then [DLE; DLE] else [b]) = pre ++ [c; b] ∧
      Z.of_nat (length pre) = Z.of_nat (length (stuff todo)) + (if b =? DLE then 1 else 0) ∧ (b = DLE → c = DLE)) as (pre & c & E & Epre & Hbc).
    { destruct (Z.eqb_spec b DLE) as [->|Hb].
      - exists (id :: stuff todo), DLE. split_and!; [done|cbn [length]; lia|done].
      - destruct (stuff todo) as [|x l] using rev_ind; [exists [], id; done|]. exists (id :: l), x. rewrite <- app_assoc.
        split_and!; [done|rewrite length_app; cbn [length]; lia|done]. }
    destruct fuel as [|n]; [lia|]. rewrite length_app in *.
    set (lb := length (if b =? DLE then [DLE; DLE] else [b])) in *.
    assert (Z.of_nat lb = if b =? DLE then 2 else 1) as Elb by (unfold lb; by destruct (b =? DLE)).
    destruct (unpad_step n buf (start + 1 + Z.of_nat (length (stuff todo) + lb)) pos b c) as (buf' & -> & H1 & H2 & H3); [lia|lia| |].
    { rewrite E in Hw. apply window_app in Hw as [_ Hw].
      replace (start + 1 + Z.of_nat (length (stuff todo) + lb) - 1) with (start + 1 + Z.of_nat (length pre)); [done|].
      destruct (b =? DLE); lia. }
    change (id :: stuff todo ++ ?x) with ((id :: stuff todo) ++ x) in Hw. apply window_app in Hw as [Hw _].
    destruct (IH n buf' (pos - 1) (b :: rest)) as (buf2 & IH1 & IH2).
    + destruct (b =? DLE); lia.
    + apply H2; [done|lia|cbn [length]; lia].
    + replace (pos - 1 + 1) with pos by lia. apply window_cons. split; [done|]. apply H3; [done|lia|lia].
    + destruct (b =? DLE); lia.
    + cbn [length]. lia.
    + exists buf2. rewrite <- !app_assoc, ?length_app. cbn [app length]. split.
      * replace (pos - Z.of_nat (length todo + 1) - 1) with (pos - 1 - Z.of_nat (length todo) - 1) by lia.
        rewrite <- IH1. f_equal. destruct (Z.eqb_spec b DLE) as [->|Hb]; [rewrite (Hbc eq_refl), Z.eqb_refl|]; cbn [andb]; lia.
      * by replace (pos - Z.of_nat (length todo + 1)) with (pos - 1 - Z.of_nat (length todo)) by lia.
Qed.
End Unpad.

Lemma length_frame id data : Z.of_nat (length (frame id data)) = 4 + Z.of_nat (length (stuff data)).
Proof. unfold frame. cbn [length]. rewrite length_app. cbn [length]. lia. Qed.

Lemma length_stuff_le data : (length data ≤ length (stuff data))%nat.
Proof.
  induction data as [|b data IH]; [done|].
  change (stuff (b :: data)) with ((if b =? DLE then [DLE; DLE] else [b]) ++ stuff data).
  rewrite length_app. destruct (b =? DLE); simpl; lia.
Qed.

(** A packet in the buffer, whatever follows it. *)
Lemma lookup_frame r id data rest :
  holds r (frame id data ++ rest) → id_ok id →
  let n := Z.of_nat (length (frame id data)) in
  let st := buff_start r + n - Z.of_nat (length (id :: data)) in
  ∃ buf, lookup_packet (msg_buf r) (buff_start r) (buff_end r) =
      Ok (Some (buf, st mod MSG_BUF_SIZE, (buff_start r + n) mod MSG_BUF_SIZE)) ∧
    window buf st (id :: data) ∧ window buf (buff_start r + n) rest ∧ buff_start r ≤ st.
Proof.
  intros H Hid n st. pose proof (linear_holds r _ H) as Hlin. destruct H as (Hw & Hs & He & Hl).
  pose proof (length_frame id data) as Hn. fold n in Hn. pose proof (length_stuff_le data).
  rewrite length_app in Hlin, Hl. unfold lookup_packet. rewrite Hlin. rewrite (proj2 (Z.ltb_ge _ _)) by lia.
  assert (nth_byte (msg_buf r) (buff_start r) = Ok DLE) as ->.
  { pose proof (window_cell _ _ _ 0 DLE Hw ltac:(lia) eq_refl) as Hc. unfold cell in Hc.
    rewrite Z.add_0_r, Z.rem_small in Hc by done. exact Hc. }
  rewrite result_bind_Ok, Z.eqb_refl. cbn [negb].
  replace (Z.to_nat _) with (length (frame id data ++ rest)) by (rewrite length_app; lia).
  rewrite (scan_window _ _ _ _ Hw) by lia. rewrite result_bind_Ok, scan_list_frame by done. fold n.
  apply window_app in Hw as [Hf Hr]. fold n in Hr. unfold frame in Hf.
  apply window_cons in Hf as [_ Hf]. rewrite app_comm_cons in Hf. apply window_app in Hf as [Hf _].
  destruct (unpad_run (buff_start r) id ltac:(lia) (proj1 Hid) data
    (S (Z.to_nat (buff_start r + n - 1 - 2 - buff_start r))) (msg_buf r) (buff_start r + n - 1) rest)
    as (buf & E & Hb); [lia|done|by replace (buff_start r + n - 1 + 1) with (buff_start r + n) by lia|lia|lia|].
  replace (buff_start r + 1 + Z.of_nat (length (stuff data))) with (buff_start r + n - 1 - 2) in E by lia.
  rewrite E, result_bind_Ok. cbv beta iota.
  exists buf. rewrite app_comm_cons in Hb. apply window_app in Hb as [Hb1 Hb2]. unfold st.
  rewrite !Z.rem_mod_nonneg by (unfold MSG_BUF_SIZE in *; cbn [length]; lia). cbn [length] in *.
  split_and!.
  - by replace (buff_start r + n - 1 - Z.of_nat (length data) - 1 + 1) with (buff_start r + n - Z.of_nat (S (length data))) by lia.
  - by replace (buff_start r + n - Z.of_nat (S (length data))) with (buff_start r + n - 1 - Z.of_nat (length data)) by lia.
  - by replace (buff_start r + n) with (buff_start r + n - 1 - Z.of_nat (length data) + Z.of_nat (S (length data))) by lia.
  - lia.
Qed.

(** Part of a packet, or nothing. *)
Lemma lookup_partial r id data p s :
  holds r p → id_ok id → frame id data = p ++ s → s ≠ [] →
  lookup_packet (msg_buf r) (buff_start r) (buff_end r) = Ok None.
Proof.
  intros H Hid E Hs. pose proof (linear_holds r _ H) as Hlin. destruct H as (Hw & Hst & He & Hl).
  unfold lookup_packet. rewrite Hlin. destruct (Z.ltb_spec (buff_start r + Z.of_nat (length p) - buff_start r) 4); [done|].
  destruct p as [|x p]; [simpl in *; lia|]. injection E as <- E.
  assert (nth_byte (msg_buf r) (buff_start r) = Ok DLE) as ->.
  { pose proof (window_cell _ _ _ 0 DLE Hw ltac:(lia) eq_refl) as Hc. unfold cell in Hc.
    rewrite Z.add_0_r, Z.rem_small in Hc by done. exact Hc. }
  rewrite result_bind_Ok, Z.eqb_refl. cbn [negb].
  replace (Z.to_nat _) with (length (DLE :: p)) by lia.
  rewrite (scan_window _ _ _ _ Hw) by lia. rewrite result_bind_Ok.
  rewrite (scan_list_partial id data (DLE :: p) s); [done|done| |done]. unfold frame. cbn [app]. by rewrite E.
Qed.

(** ** A message by itself *)

(** The handlers read fixed places of a message: it has to be that long. *)
Definition pkt_ok (p : Z * list Z) : Prop :=
  id_ok p.1 ∧ (p.1 = GPS_MSG_RECEIVER_HEALTH → 2 ≤ length p.2)%nat ∧
  (p.1 = GPS_MSG_TIME → 10 ≤ length p.2)%nat ∧ (p.1 = GPS_MSG_LLA → 12 ≤ length p.2)%nat ∧
  (length p.2 < 1024)%nat.

(** What the handler does with the message [p]. *)
Definition handle_packet (p : Z * list Z) : stm gps unit :=
  handle_msg (p.1 :: p.2 ++ replicate (1023 - length p.2) 0) 0.

Lemma number_loop_window n buf i bs :
  window buf i bs → 0 ≤ i → length bs = n → number_loop n buf i = Ok (reverse bs).
Proof.
  revert bs. induction n as [|n IH]; intros bs Hw Hi Hl; [by destruct bs|].
  destruct bs as [|b bs] using rev_ind; [done|]. rewrite length_app in Hl. cbn [length] in Hl. cbn [number_loop].
  apply window_app in Hw as [Hw Hb].
  replace n with (length bs) at 1 by lia. rewrite (window_head _ _ _ Hb) by lia.
  rewrite result_bind_Ok, (IH bs), result_bind_Ok by (done || lia). by rewrite reverse_snoc.
Qed.

Section SameMessage.
Context (buf buf' : list Z) (st st' : Z) (msg : list Z).
Context (Hw : window buf st msg) (Hw' : window buf' st' msg) (Hst : 0 ≤ st) (Hst' : 0 ≤ st').

Lemma same_cell k : (k < length msg)%nat → cell buf (st + Z.of_nat k) = cell buf' (st' + Z.of_nat k).
Proof using Hw Hw' Hst Hst'.
  intros Hk. destruct (lookup_lt_is_Some_2 msg k Hk) as [b Hb].
  by rewrite (window_cell _ _ _ _ _ Hw Hst Hb), (window_cell _ _ _ _ _ Hw' Hst' Hb).
Qed.

Lemma same_numbers k n :
  (k + n ≤ length msg)%nat → number_loop n buf (st + Z.of_nat k) = number_loop n buf' (st' + Z.of_nat k).
Proof using Hw Hw' Hst Hst'.
  intros Hk.
  assert (∀ b i, window b i msg → window b (i + Z.of_nat k) (take n (drop k msg))) as H.
  { intros b i H. rewrite <- (take_drop k msg), <- (take_drop n (drop k msg)) in H.
    apply window_app in H as [_ H]. apply window_app in H as [H _]. by rewrite length_take_le in H by lia. }
  rewrite !(number_loop_window n _ _ (take n (drop k msg))); [done|auto..]; try lia;
    rewrite length_take_le; rewrite ?length_drop; lia.
Qed.
End SameMessage.

Lemma handle_msg_packet buf st p g :
  window buf st (p.1 :: p.2) → 0 ≤ st < MSG_BUF_SIZE → pkt_ok p → handle_msg buf st g = handle_packet p g.
Proof.
  destruct p as [id data]. intros Hw Hst (Hid & Hh & Ht & Hp & Hl). cbn [fst snd] in *. unfold handle_packet. cbn [fst snd].
  set (buf' := id :: data ++ replicate (1023 - length data) 0).
  assert (window buf' 0 (id :: data)) as Hw'.
  { split; [unfold buf'; cbn [length]; rewrite length_app, length_replicate; lia|]. intros k b Hk.
    unfold slot. pose proof (lookup_lt_Some _ _ _ Hk) as Hlt. cbn [length] in Hlt.
    rewrite Z.add_0_l, Z.mod_small by (unfold MSG_BUF_SIZE; lia). rewrite Nat2Z.id. unfold buf'.
    change (id :: data ++ ?x) with ((id :: data) ++ x). by apply lookup_app_l_Some. }
  assert (∀ b i, window b i (id :: data) → 0 ≤ i < MSG_BUF_SIZE → nth_byte b i = Ok id) as Hnth.
  { intros b i H Hi. pose proof (window_cell _ _ _ 0 id H ltac:(lia) eq_refl) as Hc. unfold cell in Hc.
    rewrite Z.add_0_r, Z.rem_small in Hc by done. exact Hc. }
  pose proof (same_cell buf buf' st 0 _ Hw Hw' ltac:(lia) ltac:(lia)) as Hcell.
  pose proof (same_numbers buf buf' st 0 _ Hw Hw' ltac:(lia) ltac:(lia)) as Hnum. cbn [length] in *.
  assert (∀ k n, (Z.to_nat k + n ≤ S (length data))%nat → 0 ≤ k → number_loop n buf (st + k) = number_loop n buf' (0 + k)) as Hn.
  { intros k n H1 H2. rewrite <- (Z2Nat.id k) by done. by apply Hnum. }
  assert (∀ g, handle_state buf st g = handle_state buf' 0 g) as Hstate.
  { intros g'. unfold handle_state. rewrite (Hnth buf st Hw Hst), (Hnth buf' 0 Hw' ltac:(done)).
    rewrite !(bind_run (lift (Ok id)) _ g' id g' eq_refl).
    destruct (Z.eqb_spec id GPS_MSG_RECEIVER_HEALTH) as [->|_].
    { by assert (cell buf (st + 1) = cell buf' (0 + 1)) as -> by (apply (Hcell 1%nat); lia). }
    destruct (Z.eqb_spec id GPS_MSG_TIME) as [->|_].
    { unfold handle_time, time_reply, read_float, read_short. by rewrite !Hn by lia. }
    destruct (Z.eqb_spec id GPS_MSG_LLA) as [->|_]; [|done].
    unfold handle_lla, read_float. by rewrite !Hn by lia. }
  unfold handle_msg. rewrite (Hnth buf st Hw Hst), (Hnth buf' 0 Hw' ltac:(done)).
  rewrite !(bind_run (lift (Ok id)) _ g id g eq_refl).
  assert (∀ g, (if id =? GPS_MSG_RECEIVER_HEALTH then handle_health buf st else mret tt) g =
    (if id =? GPS_MSG_RECEIVER_HEALTH then handle_health buf' 0 else mret tt) g) as Hhealth.
  { intros g'. destruct (Z.eqb_spec id GPS_MSG_RECEIVER_HEALTH) as [->|_]; [|done]. unfold handle_health.
    assert (cell buf (st + 1) = cell buf' (0 + 1)) as -> by (apply (Hcell 1%nat); lia).
    by assert (cell buf (st + 2) = cell buf' (0 + 2)) as -> by (apply (Hcell 2%nat); lia). }
  rewrite (stm_bind_head _ _ _ _ (Hhealth g)). apply stm_bind_ext. auto.
Qed.

(** ** The stream *)

Definition started (g : gps) : Prop := gps_state g ≠ GPS_PRE_INIT.

Lemma started_uart_write m : keeps started (uart_write m).
Proof.
  intros g a g' Hg. unfold uart_write. rewrite (bind_run get _ _ _ _ eq_refl), (bind_run (put _) _ _ _ _ eq_refl).
  case_test; [done|]. by intros [= _ <-].
Qed.
Lemma started_set_state st : st ≠ GPS_PRE_INIT → keeps started (set_state st).
Proof. intros. by apply keeps_modify. Qed.
Lemma started_others :
  (∀ f, keeps started (set_fault f)) ∧ keeps started signal_reply ∧
  (∀ tv t, keeps started (write_time tv t)) ∧ (∀ p f, keeps started (write_float p f)).
Proof. split_and!; intros; by apply keeps_modify. Qed.

Lemma keeps_health buf st : keeps started (handle_health buf st).
Proof.
  pose proof started_others as (H1 & H2 & _). pose proof started_set_state. pose proof started_uart_write.
  unfold handle_health. auto 20 with keeps.
Qed.
Lemma keeps_state buf st : keeps started (handle_state buf st).
Proof.
  pose proof started_others as (H1 & H2 & H3 & H4). pose proof started_set_state.
  unfold handle_state. apply keeps_bind; [auto with keeps|]. intros id. apply keeps_bind; [auto with keeps|].
  intros g. unfold handle_time, handle_lla. destruct (gps_state g); auto 20 with keeps.
Qed.

Lemma started_handle_msg buf st : keeps started (handle_msg buf st).
Proof. pose proof keeps_health. pose proof keeps_state. unfold handle_msg. auto 20 with keeps. Qed.
Lemma started_handle_packet p : keeps started (handle_packet p).
Proof. apply started_handle_msg. Qed.

Lemma process_turn_frame t p rest :
  holds (rg t) (frame p.1 p.2 ++ rest) → pkt_ok p → started (core t) →
  ∃ r, holds r rest ∧ process_turn t =
    match handle_packet p (core t) with Ok (_, g) => Ok (true, mk_reader r g) | Crash c => Crash c end.
Proof.
  intros Hh Hp _. destruct (lookup_frame (rg t) p.1 p.2 rest Hh (proj1 Hp)) as (buf & E & Hw & Hr & Hst).
  pose proof Hh as (_ & Hs & _). set (st := _ + _ - _) in *.
  eexists. split; [by apply (holds_drop buf (rg t) _ rest Hh Hr)|]. unfold process_turn.
  rewrite (bind_run get _ _ _ _ eq_refl). erewrite bind_run by (unfold lift; rewrite E; reflexivity). cbv beta iota.
  unfold mbind at 1, stm_bind, on_core. rewrite (handle_msg_packet buf _ p).
  - destruct (handle_packet p (core t)) as [[[] g]|]; [|done]. unfold get, put, mbind, stm_bind, mret, stm_ret. cbn [rg core].
    by rewrite linear_rem by (by apply Z.mod_pos_bound).
  - by apply window_mod.
  - by apply Z.mod_pos_bound.
  - done.
Qed.

Lemma process_turn_none t :
  lookup_packet (msg_buf (rg t)) (buff_start (rg t)) (buff_end (rg t)) = Ok None → process_turn t = Ok (false, t).
Proof.
  intros E. unfold process_turn. rewrite (bind_run get _ _ _ _ eq_refl).
  erewrite bind_run by (unfold lift; rewrite E; reflexivity). done.
Qed.

Lemma process_turn_empty t : holds (rg t) [] → process_turn t = Ok (false, t).
Proof.
  intros Hh. apply process_turn_none. unfold lookup_packet. rewrite (linear_holds _ _ Hh).
  by rewrite (proj2 (Z.ltb_lt _ _)) by (simpl; lia).
Qed.

Lemma process_turn_partial t p bs s :
  holds (rg t) bs → pkt_ok p → frame p.1 p.2 = bs ++ s → s ≠ [] → process_turn t = Ok (false, t).
Proof. intros Hh Hp E Hs. apply process_turn_none. by eapply lookup_partial; [|apply Hp|..]. Qed.

#[export] Instance tsip_reader : Reader gps (Z * list Z) := {|
  r_state := gps_state; r_frame := fun p => frame p.1 p.2; r_ok := pkt_ok; r_inv := started;
  r_turn := process_turn; r_handle := handle_packet;
  r_frame_nonempty := fun p H => ltac:(discriminate H);
  r_turn_empty := process_turn_empty; r_turn_frame := process_turn_frame;
  r_turn_partial := process_turn_partial; r_started := fun _ H => H;
  r_keeps := fun p _ => started_handle_packet p
|}.

(** C7: TSIP packets arrive once each, in order and without their padding: for
    every cutting of the device's stream into reads and every schedule of the
    thread, the reader handles exactly the messages whose bytes have all arrived
    by then, or ends the program when a read does not fit the buffer. *)
Theorem tsip_stream_refines evs pkts (t : tsip) bs more :
  holds (rg t) bs → started (core t) → Forall pkt_ok pkts → bs ++ received evs ++ more = stream pkts →
  refines more (run evs t) (stream_spec evs pkts (Z.of_nat (length bs)) (core t)).
Proof. apply (stream_refines (R := tsip_reader)). Qed.

(** A health report, a time report with a doubled DLE and the start of a third
    packet, cut into three reads. *)
Definition some_packets : list (Z * list Z) :=
  [(GPS_MSG_RECEIVER_HEALTH, [0; 0]); (GPS_MSG_TIME, [0x48; 0x10; 0; 0; 7; 0xd0; 0x41; 0x90; 0; 0]); (GPS_MSG_SW_VERSION, [])].
Definition some_events : list event :=
  [Read [DLE; 0x46; 0; 0; DLE]; Run; Read [ETX; DLE; 0x41; 0x48; DLE]; Run;
   Read ([DLE; 0; 0; 7; 0xd0; 0x41; 0x90; 0; 0; DLE; ETX] ++ [DLE; 0x45]); Run].
Definition searching : gps := mk_gps GPS_SEARCH GPS_OK 0 0 0 0 ∅ ∅ [] [] false.

Lemma tsip_stream_refines_witness :
  refines [DLE; ETX] (run some_events (mk_reader ring_init searching)) (stream_spec some_events some_packets 0 searching).
Proof.
  apply (tsip_stream_refines some_events some_packets (mk_reader ring_init searching) [] [DLE; ETX]).
  - apply holds_init.
  - done.
  - repeat constructor; (done || (cbn; lia)).
  - reflexivity.
Defined.

(** ** The time *)

Lemma to_s32_whole f n : is_whole f n → 0 ≤ n < 2 ^ 31 → to_s32 f = Ok n.
Proof.
  intros Hf Hn. unfold to_s32. rewrite (trunc_whole f n Hf). rewrite (proj2 (Z.leb_le _ _)), (proj2 (Z.ltb_lt _ _)) by lia. done.
Qed.

Lemma time_reply_whole buf st tow off week extra a b :
  window buf (st + 1) (tow ++ be_bytes 2 week ++ off ++ extra) → 0 ≤ st →
  length tow = 4%nat → length off = 4%nat → is_u16 week →
  is_whole (float_of_bits (be_val tow)) a → is_whole (float_of_bits (be_val off)) b → 0 ≤ b ≤ a → a < 2 ^ 24 →
  time_reply buf st = Ok (s32 (SEC_GPS_EPOCH + SEC_WEEK * s16 week + (a - b)), 0).
Proof.
  intros Hw Hst Hl1 Hl2 Hweek Ha Hb Hab Ha24. apply window_app in Hw as [Hw1 Hw]. apply window_app in Hw as [Hw2 Hw].
  apply window_app in Hw as [Hw3 _]. rewrite Hl1, length_be_bytes in *.
  unfold time_reply, read_float, read_short.
  rewrite (number_loop_window 4 buf (st + 1) tow) by (done || lia). rewrite !result_bind_Ok.
  replace (st + 7) with (st + 1 + Z.of_nat 4 + Z.of_nat 2) by lia.
  rewrite (number_loop_window 4 buf _ off) by (done || lia). rewrite !result_bind_Ok.
  replace (st + 5) with (st + 1 + Z.of_nat 4) by lia.
  rewrite (number_loop_window 2 buf _ (be_bytes 2 week)) by (done || lia || apply length_be_bytes). rewrite !result_bind_Ok.
  change (le_val (reverse tow)) with (be_val tow). change (le_val (reverse off)) with (be_val off).
  change (le_val (reverse (be_bytes 2 week))) with (be_val (be_bytes 2 week)). rewrite be_val_be_bytes by (simpl; lia).
  pose proof (f32_sub_whole _ _ _ _ Ha Hb Hab Ha24) as Hs.
  rewrite (to_s32_whole _ _ Hs), result_bind_Ok by lia.
  destruct (f32_sub_self _ _ Hs) as [z ->]; [lia|lia|]. by destruct z.
Qed.

(** C19: the answer to a request for the time.  For a time of week of [a] seconds and
    an offset of [b] leap seconds, both whole numbers, the client gets the
    seconds of UTC since 1970 exactly (as long as they fit 31 bits), and its
    query is closed and signalled. *)
Theorem time_report_utc tow off week extra a b g :
  length tow = 4%nat → length off = 4%nat → (length extra ≤ 1000)%nat →
  is_whole (float_of_bits (be_val tow)) a → is_whole (float_of_bits (be_val off)) b → 0 ≤ b ≤ a → a < 2 ^ 24 →
  0 ≤ week → SEC_GPS_EPOCH + SEC_WEEK * week + a < 2 ^ 31 →
  gps_state g = GPS_QUERY → current_time g ≠ 0 →
  ∃ g', handle_packet (GPS_MSG_TIME, tow ++ be_bytes 2 week ++ off ++ extra) g = Ok (tt, g') ∧
    timevals g' = <[current_time g := (SEC_GPS_EPOCH + SEC_WEEK * week + (a - b), 0)]> (timevals g) ∧
    gps_state g' = GPS_READY ∧ signalled g' = true.
Proof.
  intros Hl1 Hl2 Hl3 Ha Hb Hab Ha24 Hw1 Hw2 Hq Hct. unfold SEC_GPS_EPOCH, SEC_WEEK in *.
  set (data := tow ++ be_bytes 2 week ++ off ++ extra).
  assert (length data ≤ 1010)%nat as Hld by (unfold data; rewrite !length_app, length_be_bytes; lia).
  unfold handle_packet. cbn [fst snd]. set (buf := _ :: _).
  assert (window buf 0 (GPS_MSG_TIME :: data)) as Hw.
  { split; [unfold buf; cbn [length]; rewrite length_app, length_replicate; lia|]. intros k x Hk. unfold slot.
    pose proof (lookup_lt_Some _ _ _ Hk) as Hlt. cbn [length] in Hlt.
    rewrite Z.add_0_l, Z.mod_small by (unfold MSG_BUF_SIZE; lia). rewrite Nat2Z.id. unfold buf. rewrite app_comm_cons.
    by apply lookup_app_l_Some. }
  apply window_cons in Hw as [_ Hw]. pose proof (time_reply_whole buf 0 tow off week extra a b Hw) as Hr.
  specialize (Hr ltac:(done) Hl1 Hl2 ltac:(lia) Ha Hb Hab Ha24).
  unfold s16 in Hr. rewrite swrap_small in Hr by (simpl; lia). unfold s32, SEC_GPS_EPOCH, SEC_WEEK in Hr.
  rewrite swrap_small in Hr by (simpl; lia).
  unfold handle_msg, handle_state. change (nth_byte buf 0) with (Ok GPS_MSG_TIME : result Z).
  rewrite (bind_run (lift (Ok GPS_MSG_TIME)) _ g GPS_MSG_TIME g eq_refl).
  change (GPS_MSG_TIME =? GPS_MSG_RECEIVER_HEALTH) with false. cbv iota.
  rewrite (bind_run (mret tt) _ g tt g eq_refl), (bind_run (lift (Ok GPS_MSG_TIME)) _ g GPS_MSG_TIME g eq_refl).
  rewrite (bind_run get _ g g g eq_refl), Hq.
  change (GPS_MSG_TIME =? GPS_MSG_RECEIVER_HEALTH) with false. change (GPS_MSG_TIME =? GPS_MSG_TIME) with true. cbv iota.
  unfold handle_time. rewrite (bind_run get _ g g g eq_refl), (proj2 (Z.eqb_neq _ _) Hct).
  rewrite Hr. by eexists.
Qed.

(** Week 2000, 131072 s, 18 leap seconds: 2018-05-07 12:24:14 UTC. *)
Lemma time_report_utc_witness :
  ∃ g', handle_packet (GPS_MSG_TIME, [0x48; 0; 0; 0] ++ be_bytes 2 2000 ++ [0x41; 0x90; 0; 0] ++ [])
      (mk_gps GPS_QUERY GPS_OK 100 0 0 0 ∅ ∅ [] [] false) = Ok (tt, g') ∧
    timevals g' = <[100 := (315964800 + 604800 * 2000 + (131072 - 18), 0)]> ∅ ∧
    gps_state g' = GPS_READY ∧ signalled g' = true.
Proof.
  apply (time_report_utc [0x48; 0; 0; 0] [0x41; 0x90; 0; 0] 2000 [] 131072 18
    (mk_gps GPS_QUERY GPS_OK 100 0 0 0 ∅ ∅ [] [] false));
    [reflexivity|reflexivity|simpl; lia|vm_compute; done|vm_compute; done|lia|lia|lia|vm_compute; done|reflexivity|done].
Defined.

(** In the first seconds of a week the offset is larger than the time of week;
    with a fraction of a second the microseconds are negative. *)
Example negative_microseconds :
  time_reply ([GPS_MSG_TIME; 0x40; 0xb0; 0; 0; 7; 0xd0; 0x41; 0x90; 0; 0] ++ replicate 1013 0) 0 =
    Ok (315964800 + 604800 * 2000 - 12, -500000).
Proof. vm_compute. reflexivity. Qed.
