(* ===== verification/GpsClients.v ===== *)
(** * Clients of the Lassen iQ reader

    [getGPStimeUTC] and [getGPSLLA] of [gps_time/trimble_lassen_iq/gps_time.c] run
    in threads of the program; they share the state with the threads that read the
    line and process the messages.  The mutex [state_change_m] is held for a whole
    step; [process_msg] gives it up only when it waits for data, a client when it
    waits for its answer. *)

From S2P Require Import Prelude Float GpsBuffer Tsip.
From Stdlib Require Import SpecFloat.

(** ** Which messages wake a client *)

(** A message that ends a query signals it, and no other does; the requests of
    the clients stay as they are. *)
Definition same_requests (g g' : gps) : Prop :=
  current_time g' = current_time g ∧ current_latitude g' = current_latitude g ∧
  current_longitude g' = current_longitude g ∧ current_altitude g' = current_altitude g.

Definition signals (g g' : gps) : Prop :=
  same_requests g g' ∧ signalled g' = (signalled g || bool_decide (gps_state g = GPS_QUERY ∧ gps_state g' ≠ GPS_QUERY)) ∧
  (gps_state g ≠ GPS_QUERY → gps_state g' ≠ GPS_QUERY).

Ltac run_handler H :=
  unfold handle_health, handle_state, handle_time, handle_lla, uart_write, write_time, write_float, set_fault, set_state,
    signal_reply, set_signalled, modify, throw, mret, stm_ret, lift, get, put, mbind, stm_bind in H;
  cbn [gps_state results signalled current_time current_latitude current_longitude current_altitude] in H;
  repeat case_match; simplify_eq; try discriminate.
Ltac solve_signals :=
  unfold started, signals, same_requests in *;
  cbn [gps_state results signalled current_time current_latitude current_longitude current_altitude] in *;
  split; [done|]; split; [|by (intros; congruence)];
  match goal with |- context [?b || bool_decide ?P] => destruct b; case_bool_decide; try done; destruct_and?; exfalso; intuition congruence end.

Lemma handle_health_signals buf st g g' : handle_health buf st g = Ok (tt, g') → signals g g'.
Proof. destruct g as [s f ct la lo al tvs fls se re sg]. intros H. run_handler H; solve_signals. Qed.
Lemma handle_state_signals buf st g g' : started g → handle_state buf st g = Ok (tt, g') → signals g g'.
Proof. destruct g as [s f ct la lo al tvs fls se re sg]. intros Hs H. run_handler H; solve_signals. Qed.

Lemma signals_trans g1 g2 g3 : signals g1 g2 → signals g2 g3 → signals g1 g3.
Proof.
  intros (R1 & E1 & N1) (R2 & E2 & N2). unfold same_requests in *. destruct_and!. split; [split_and!; congruence|]. split; [|auto].
  rewrite E2, E1, <- orb_assoc. f_equal. destruct (decide (gps_state g1 = GPS_QUERY)), (decide (gps_state g2 = GPS_QUERY)),
    (decide (gps_state g3 = GPS_QUERY)); repeat case_bool_decide; destruct_and?; intuition congruence.
Qed.

Lemma signals_refl g : signals g g.
Proof. split; [done|]. split; [|done]. rewrite bool_decide_false by tauto. by rewrite orb_false_r. Qed.

Lemma handle_msg_signals buf st g g' : started g → handle_msg buf st g = Ok (tt, g') → signals g g'.
Proof.
  intros Hs H. unfold handle_msg in H. apply bind_Ok in H as (id & g1 & E1 & H). unfold lift in E1.
  destruct (nth_byte buf st); simplify_eq. apply bind_Ok in H as ([] & g2 & E2 & H).
  assert (signals g1 g2 ∧ started g2) as [H12 Hs2].
  { destruct (id =? GPS_MSG_RECEIVER_HEALTH); [|by apply ret_Ok in E2 as [= ->]; auto using signals_refl].
    split; [by eapply handle_health_signals|]. eapply (keeps_health buf st); eauto. }
  eapply signals_trans; [done|]. by eapply handle_state_signals.
Qed.

Lemma process_turn_signals t again t' :
  started (core t) → process_turn t = Ok (again, t') → signals (core t) (core t') ∧ started (core t').
Proof.
  intros Hs H. unfold process_turn in H. rewrite (bind_run get _ _ _ _ eq_refl) in H.
  apply bind_Ok in H as (found & t1 & E1 & H). unfold lift in E1. destruct (lookup_packet _ _ _) as [f|]; simplify_eq.
  destruct found as [[[buf st] last]|].
  - apply bind_Ok in H as ([] & t2 & E2 & H). unfold on_core in E2.
    destruct (handle_msg buf st (core t1)) as [[[] g]|] eqn:Eh; simplify_eq.
    unfold get, put, mbind, stm_bind, mret, stm_ret in H. simplify_eq. cbn [core].
    split; [by eapply handle_msg_signals|by eapply started_handle_msg].
  - apply ret_Ok in H as [= -> ->]. auto using signals_refl.
Qed.

(** ** Threads *)

Inductive client : Type := TimeClient (tv : Z) | PosClient (la lo al : Z).
#[export] Instance client_eq_dec : EqDecision client.
Proof. solve_decision. Defined.

Definition call (c : client) : stm gps (option Z) :=
  match c with TimeClient tv => time_call tv | PosClient la lo al => position_call la lo al end.
Definition resume (c : client) : stm gps (option Z) :=
  match c with TimeClient _ => time_resume | PosClient _ _ _ => position_resume end.

(** [holding]: the message thread has the mutex.  [waiting] clients wait on the
    condition, [woken] ones for the mutex. *)
Record sys : Type := mk_sys {
  dev : tsip; holding : bool; waiting : list client; woken : list client; returned : list (client * Z)
}.

(** [pthread_cond_signal] wakes one of the threads that wait, if there is one. *)
Inductive wakes : bool → list client → list client → list client → list client → Prop :=
| wakes_not ws wk : wakes false ws wk ws wk
| wakes_nobody wk : wakes true [] wk [] wk
| wakes_one ws1 c ws2 wk : wakes true (ws1 ++ c :: ws2) wk (ws1 ++ ws2) (wk ++ [c]).

Inductive label : Set := LRead | LProcess | LCall | LResume.

Definition unsignalled (t : tsip) : tsip :=
  match set_signalled false (core t) with Ok (_, g) => mk_reader (rg t) g | Crash _ => t end.

(** The outcome of a client's step: it waits (again) or returns. *)
Definition settle (c : client) (r : option Z) (s : sys) (g : gps) (wk : list client) : sys :=
  match r with
  | None => mk_sys (mk_reader (rg (dev s)) g) false (waiting s ++ [c]) wk (returned s)
  | Some v => mk_sys (mk_reader (rg (dev s)) g) false (waiting s) wk (returned s ++ [(c, v)])
  end.

Inductive step : label → sys → sys → Prop :=
| step_read s m t : holding s = false → uart_read_turn gps_state m (dev s) = Ok (tt, t) →
    step LRead s (mk_sys t false (waiting s) (woken s) (returned s))
| step_process s again t ws wk : process_turn (dev s) = Ok (again, t) →
    wakes (signalled (core t)) (waiting s) (woken s) ws wk →
    step LProcess s (mk_sys (unsignalled t) again ws wk (returned s))
| step_call s c r g : holding s = false → call c (core (dev s)) = Ok (r, g) →
    step LCall s (settle c r s g (woken s))
| step_resume s c wk1 wk2 r g : holding s = false → woken s = wk1 ++ c :: wk2 →
    resume c (core (dev s)) = Ok (r, g) → step LResume s (settle c r s g (wk1 ++ wk2)).

(** Steps in which nobody asks anything new. *)
Definition quiet_step (s s' : sys) : Prop := ∃ l, l ≠ LCall ∧ step l s s'.
Definition any_step (s s' : sys) : Prop := ∃ l, step l s s'.

(** ** Nobody is woken without a query *)

(** A client that waits while no query is open. *)
Definition forgotten (c : client) (s : sys) : Prop :=
  c ∈ waiting s ∧ woken s = [] ∧ started (core (dev s)) ∧ gps_state (core (dev s)) ≠ GPS_QUERY ∧
  signalled (core (dev s)) = false.

Lemma forgotten_quiet c s s' : forgotten c s → quiet_step s s' → forgotten c s'.
Proof.
  intros (Hc & Hw & Hst & Hq & Hsig) (l & Hl & H).
  destruct H as [s m t Hh E|s again t ws wk E Hwk|s c' r g Hh E|s c' wk1 wk2 r g Hh Ewk E].
  - apply read_core in E. unfold forgotten. cbn [waiting woken dev]. by rewrite E.
  - destruct (process_turn_signals _ _ _ Hst E) as ((_ & Es & Hn) & Hst').
    rewrite Hsig, bool_decide_false in Es by tauto. cbn in Es. rewrite Es in Hwk. inversion Hwk; subst.
    unfold forgotten, unsignalled, started. cbn. rewrite Hw. split_and!; auto.
  - done.
  - rewrite Hw in Ewk. by destruct wk1.
Qed.

(** ** Runs by computation *)

Inductive action : Type := ARead (m : list Z) | AProcess (wake : nat) | ACall (c : client) | AResume (i : nat).

(** [AProcess i] wakes the [i]th waiting client if the message signals. *)
Definition act (a : action) (s : sys) : option sys :=
  match a with
  | ARead m =>
      if holding s then None
      else match uart_read_turn gps_state (Some m) (dev s) with
           | Ok (_, t) => Some (mk_sys t false (waiting s) (woken s) (returned s))
           | Crash _ => None
           end
  | AProcess i =>
      match process_turn (dev s) with
      | Ok (again, t) =>
          if signalled (core t) then
            match waiting s !! i with
            | Some c => Some (mk_sys (unsignalled t) again (take i (waiting s) ++ drop (S i) (waiting s))
                                (woken s ++ [c]) (returned s))
            | None => None
            end
          else Some (mk_sys (unsignalled t) again (waiting s) (woken s) (returned s))
      | Crash _ => None
      end
  | ACall c =>
      if holding s then None
      else match call c (core (dev s)) with Ok (r, g) => Some (settle c r s g (woken s)) | Crash _ => None end
  | AResume i =>
      if holding s then None
      else match woken s !! i with
           | Some c =>
               match resume c (core (dev s)) with
               | Ok (r, g) => Some (settle c r s g (take i (woken s) ++ drop (S i) (woken s)))
               | Crash _ => None
               end
           | None => None
           end
  end.

Fixpoint acts (l : list action) (s : sys) : option sys :=
  match l with [] => Some s | a :: l' => s' ← act a s; acts l' s' end.

Lemma act_step a s s' : act a s = Some s' → any_step s s'.
Proof.
  destruct a as [m|i|c|i]; cbn [act]; intros H.
  - destruct (holding s) eqn:Hh; [done|]. destruct (uart_read_turn gps_state (Some m) (dev s)) as [[[] t]|] eqn:E; simplify_eq.
    exists LRead. by eapply step_read.
  - destruct (process_turn (dev s)) as [[again t]|] eqn:E; [|done]. exists LProcess.
    destruct (signalled (core t)) eqn:Es.
    + destruct (waiting s !! i) as [c|] eqn:Ei; simplify_eq. eapply step_process; [done|]. rewrite Es.
      rewrite <- (take_drop_middle _ _ _ Ei) at 1. constructor.
    + simplify_eq. eapply step_process; [done|]. rewrite Es. constructor.
  - destruct (holding s) eqn:Hh; [done|]. destruct (call c (core (dev s))) as [[r g]|] eqn:E; simplify_eq.
    exists LCall. by apply step_call.
  - destruct (holding s) eqn:Hh; [done|]. destruct (woken s !! i) as [c|] eqn:Ei; [|done].
    destruct (resume c (core (dev s))) as [[r g]|] eqn:E; simplify_eq.
    exists LResume. eapply step_resume; [done| |done]. by rewrite (take_drop_middle _ _ _ Ei).
Qed.

Lemma acts_reach l s s' : acts l s = Some s' → rtc any_step s s'.
Proof.
  revert s. induction l as [|a l IH]; intros s H; [by injection H as ->|]. cbn [acts] in H.
  destruct (act a s) as [s1|] eqn:E; [|done]. eapply rtc_l; [by eapply act_step|]. by apply IH.
Qed.

(** ** Two clients

    The receiver has a fix; a client asks for the time and another one for the
    position. *)
Definition ready : sys :=
  mk_sys (mk_reader ring_init (mk_gps GPS_READY GPS_OK 0 0 0 0 ∅ ∅ [] [] false)) false [] [] [].
Definition time_packet : list Z := frame GPS_MSG_TIME [0x48; 0; 0; 0; 7; 0xd0; 0x41; 0x90; 0; 0].
Definition lla_packet : list Z := frame GPS_MSG_LLA (replicate 20 0).
Definition asks_position : client := PosClient 200 204 208.

(** The time arrives; before its client runs, the other one opens a query, so the
    first one waits again; the position arrives and wakes the first one. *)
Definition two_clients : list action :=
  [ACall (TimeClient 100); ARead time_packet; AProcess 0; AProcess 0; ACall asks_position; AResume 0;
   ARead lla_packet; AProcess 1; AProcess 0; AResume 0].

Definition forgottenb (c : client) (s : sys) : bool :=
  bool_decide (c ∈ waiting s) && bool_decide (woken s = []) && bool_decide (gps_state (core (dev s)) = GPS_READY) &&
  negb (signalled (core (dev s))).
Definition answered (s : sys) : bool := bool_decide (is_Some (floats (core (dev s)) !! 200)).

Lemma forgottenb_true c s : forgottenb c s = true → forgotten c s.
Proof.
  unfold forgottenb. intros H. bool_props. repeat match goal with H : bool_decide _ = true |- _ => apply bool_decide_eq_true in H end.
  unfold forgotten, started. split_and!; congruence || done.
Qed.

(** C24: a wake-up can get lost when two threads ask the receiver: there is a run in
    which the client of [getGPSLLA] waits although its answer has been stored, and
    nothing the receiver sends wakes it any more as long as nobody asks again. *)
Theorem position_client_forgotten :
  ∃ s, rtc any_step ready s ∧ is_Some (floats (core (dev s)) !! 200) ∧
    ∀ s', rtc quiet_step s s' → asks_position ∈ waiting s' ∧ gps_state (core (dev s')) ≠ GPS_QUERY.
Proof.
  assert (match acts two_clients ready with Some s => forgottenb asks_position s && answered s | None => false end = true) as H
    by (vm_compute; reflexivity).
  destruct (acts two_clients ready) as [s|] eqn:E; [|done]. apply andb_true_iff in H as [Hf Hfl].
  apply forgottenb_true in Hf. apply bool_decide_eq_true in Hfl.
  exists s. split; [exact (acts_reach _ _ _ E)|]. split; [exact Hfl|]. clear E.
  assert (∀ s', rtc quiet_step s s' → forgotten asks_position s') as Hall.
  { intros s' Hs. clear -Hf Hs. induction Hs as [|s1 s2 s3 H12 _ IH]; [done|]. apply IH. by eapply forgotten_quiet. }
  intros s' Hs. by destruct (Hall s' Hs) as (? & _ & _ & ? & _).
Qed.

(** ** One client *)

Definition requested (c : client) (g : gps) : Prop :=
  match c with
  | TimeClient tv => current_time g = tv
  | PosClient la lo al => current_latitude g = la ∧ current_longitude g = lo ∧ current_altitude g = al
  end.

(** It waits for an open query, or it has been woken since the query was closed,
    or it has its result. *)
Definition served (c : client) (s : sys) : Prop :=
  started (core (dev s)) ∧ signalled (core (dev s)) = false ∧
  (waiting s = [c] ∧ woken s = [] ∧ gps_state (core (dev s)) = GPS_QUERY ∧ requested c (core (dev s)) ∨
   waiting s = [] ∧ woken s = [c] ∧ gps_state (core (dev s)) ≠ GPS_QUERY ∧ requested c (core (dev s)) ∨
   waiting s = [] ∧ woken s = [] ∧ gps_state (core (dev s)) ≠ GPS_QUERY ∧
     ((c, 0) ∈ returned s ∨ (c, 2) ∈ returned s)).

Lemma requested_same c g g' : same_requests g g' → requested c g → requested c g'.
Proof. intros (?&?&?&?). destruct c; cbn; intros; destruct_and?; split_and?; congruence. Qed.

Lemma resume_returns c g r g' :
  gps_state g ≠ GPS_QUERY → resume c g = Ok (r, g') →
  (r = Some 0 ∨ r = Some 2) ∧ gps_state g' = gps_state g ∧ signalled g' = signalled g.
Proof.
  intros Hq H. destruct c; cbn [resume] in H; unfold time_resume, position_resume in H;
    rewrite (bind_run get _ _ _ _ eq_refl), decide_False in H by done;
    rewrite (bind_run _ _ _ tt _ eq_refl) in H; apply ret_Ok in H as [= -> ->];
    (split; [destruct (decide _); auto|done]).
Qed.

Lemma served_quiet c s s' : served c s → quiet_step s s' → served c s'.
Proof.
  intros (Hst & Hsig & Hc) (l & Hl & H).
  destruct H as [s m t Hh E|s again t ws wk E Hwk|s c' r g Hh E|s c' wk1 wk2 r g Hh Ewk E]; [| |done|].
  - apply read_core in E. unfold served. cbn [waiting woken dev returned]. by rewrite E.
  - destruct (process_turn_signals _ _ _ Hst E) as ((Hr & Es & Hn) & Hst').
    rewrite Hsig in Es. cbn [orb] in Es. split; [done|]. split; [done|]. cbn [waiting woken dev returned].
    destruct Hc as [(Hw & Hk & Hq & Hreq)|[(Hw & Hk & Hq & Hreq)|(Hw & Hk & Hq & Hret)]]; rewrite Hw, Hk in *.
    + apply (requested_same c _ _ Hr) in Hreq. case_bool_decide as Hend; rewrite Es in Hwk.
      * right. left. inversion Hwk as [|? H1|ws1 c' ws2 wk0 H0 H1]; subst. destruct ws1 as [|? [|]]; [|done..].
        injection H1 as -> ->. split_and!; [done|done|apply Hend|done].
      * left. inversion Hwk; subst. split_and!; [done|done| |done].
        destruct (decide (gps_state (core t) = GPS_QUERY)); [done|]. tauto.
    + rewrite bool_decide_false in Es by tauto. rewrite Es in Hwk. inversion Hwk; subst. right. left.
      apply (requested_same c _ _ Hr) in Hreq. split_and!; auto.
    + rewrite bool_decide_false in Es by tauto. rewrite Es in Hwk. inversion Hwk; subst. right. right. split_and!; auto.
  - destruct Hc as [(Hw & Hk & _)|[(Hw & Hk & Hq & _)|(Hw & Hk & _)]]; rewrite Hk in Ewk;
      [by destruct wk1| |by destruct wk1]. destruct wk1 as [|? [|]]; [|done..]. injection Ewk as <- <-.
    destruct (resume_returns c _ _ _ Hq E) as (Hr & Eq & Esig).
    assert (started g) by (unfold started; by rewrite Eq).
    destruct Hr as [->| ->]; (split; [done|]; split; [cbn; congruence|]; right; right; cbn; rewrite Hw, Eq;
      split_and!; [done..|]; rewrite !elem_of_app, !list_elem_of_singleton; auto).
Qed.

(** C20: a client on its own is never forgotten: from a call that waits, whatever
    arrives and however the threads are scheduled, the client waits while its
    query is open, has been woken when the query is closed (by the answer, by the
    loss of the fix or by a reset), and its call returns 0 or 2. *)
Theorem single_client_served s c g s' :
  started (core (dev s)) → signalled (core (dev s)) = false → waiting s = [] → woken s = [] →
  call c (core (dev s)) = Ok (None, g) → rtc quiet_step (settle c None s g []) s' →
  served c s'.
Proof.
  intros Hst Hsig Hw Hk Hc Hrun.
  assert (served c (settle c None s g [])) as H0.
  { assert (gps_state g = GPS_QUERY ∧ signalled g = false ∧ requested c g) as (Hq & Hs & Hr).
    { destruct c; cbn [call] in Hc; unfold time_call, position_call in Hc; rewrite (bind_run get _ _ _ _ eq_refl) in Hc;
        (case_match; [by apply ret_Ok in Hc|]); apply bind_Ok in Hc as ([] & g1 & E1 & Hc);
        unfold set_current_time, set_position, set_state, modify, mbind, stm_bind, mret, stm_ret in Hc; injection Hc as <-;
        (split; [done|]; split; [|done]); cbn; unfold uart_write in E1;
        rewrite (bind_run get _ _ _ _ eq_refl), (bind_run (put _) _ _ _ _ eq_refl) in E1;
        (case_match; [done|]); apply ret_Ok in E1 as [= ->]; done. }
    split; [unfold started; cbn; by rewrite Hq|]. split; [done|]. left. cbn. by rewrite Hw. }
  clear -H0 Hrun. induction Hrun as [|s1 s2 s3 H12 _ IH]; [done|]. apply IH. by eapply served_quiet.
Qed.

Definition time_query : gps := mk_gps GPS_QUERY GPS_OK 100 0 0 0 ∅ ∅ [request_time_msg] [] false.

Lemma single_client_served_witness : served (TimeClient 100) (settle (TimeClient 100) None ready time_query []).
Proof.
  apply (single_client_served ready (TimeClient 100) time_query); [done|done|done|done|reflexivity|apply rtc_refl].
Defined.
