(* ===== verification/Nmea.v ===== *)
(** * The reader of the Trimble Condor

    Models [gps_time/trimble_condor/gps_time.c] and [gps_uartctl.c].  The receiver
    sends NMEA sentences: a dollar sign, fields separated by commas, an asterisk
    with a checksum in hexadecimal, and a line end.  [lookup_packet] copies a
    sentence into [inst_buf], [process_msg] checks and interprets it: antenna
    status, position and quality of the fix, and the time. *)

From S2P Require Import Prelude CString Float GpsBuffer.
From Stdlib Require Import SpecFloat.

Definition GPS_START_CHAR : Z := 36.
Definition GPS_END_CHAR : Z := 10.
Definition INST_BUF_SIZE : Z := 100.
Definition crlf : list Z := [13; 10].

(** The commands are written with their terminating NUL. *)
Definition GPS_CMD_RESET : list Z := str "$PMTK101*32" ++ crlf ++ [0].
Definition GPS_CMD_SETUP : list Z :=
  str "$PMTK314,0,0,0,1,0,0,0,0,0,0,0,0,0,0,0,0,0,1,0*28" ++ crlf ++ str "$PMTK300,1000,0,0,0,0*1C" ++ crlf ++
  str "$PMTK324,0,0,1,0,69*15" ++ crlf ++ [0].
Definition GPS_MSG_STATUS_TIME_POS : list Z := str "GPGGA".
Definition GPS_MSG_ANTENNA : list Z := str "PMTKANT".
Definition GPS_MSG_TIME : list Z := str "GPZDA".

Inductive gps_fault_t : Set := GPS_OK | GPS_ANTENA_SHORT | GPS_ANTENA_OPEN.

(** ** Finding a sentence *)

(** The position of the line end among the next [n]; behind them if there is
    none. *)
Fixpoint find_end (n : nat) (buf : list Z) (pos : Z) : result Z :=
  match n with
  | O => Ok pos
  | S n' => b ← cell buf pos; if b =? GPS_END_CHAR then Ok pos else find_end n' buf (pos + 1)
  end.

(** [n] bytes from [pos] on are copied to [inst_buf] from [x] on. *)
Fixpoint copy_loop (n : nat) (buf : list Z) (pos : Z) (inst : list Z) (x : Z) : result (list Z) :=
  match n with
  | O => Ok inst
  | S n' => b ← cell buf pos; inst ← set_bytes inst x [b]; copy_loop n' buf (pos + 1) inst (x + 1)
  end.

(** The new [inst_buf] and the new end. *)
Definition lookup_packet (buf inst : list Z) (start last : Z) : result (option (list Z * Z)) :=
  if last =? start then Ok None
  else
    let last := linear start last in
    if last - start <? 8 then Ok None
    else
      b ← nth_byte buf start;
      if negb (b =? GPS_START_CHAR) then Crash (ProcessExit 1)
      else
        pos ← find_end (Z.to_nat (last - start)) buf start;
        b ← cell buf pos;
        if negb (b =? GPS_END_CHAR) || (pos =? last) then Ok None
        else
          let n := Z.to_nat (pos - start - 2) in
          inst ← copy_loop n buf (start + 1) inst 0;
          inst ← set_bytes inst (Z.of_nat n) [0];
          Ok (Some (inst, Z.rem (pos + 1) MSG_BUF_SIZE)).

(** ** Checksum *)

Definition hex_digit (c : Z) : option Z :=
  if (48 <=? c) && (c <=? 57) then Some (c - 48)
  else if (65 <=? c) && (c <=? 70) then Some (c - 55)
  else if (97 <=? c) && (c <=? 102) then Some (c - 87)
  else None.
Fixpoint hex_val (bs : list Z) (acc : Z) : Z :=
  match bs with
  | c :: bs' => match hex_digit c with Some d => hex_val bs' (16 * acc + d) | None => acc end
  | [] => acc
  end.
(** [sscanf(s, "%hhX", &v)] with [v] 0 before: spaces, a sign, [0x] and digits; a
    number too large for [unsigned long] counts as the largest one, whatever its sign. *)
Definition scan_hhX (bs : list Z) : Z :=
  let bs := skip_spaces bs in
  let '(neg, bs) := match bs with
                    | c :: r => if c =? ch "-" then (true, r) else if c =? ch "+" then (false, r) else (false, bs)
                    | [] => (false, [])
                    end in
  let bs := match bs with
            | c :: d :: r => if (c =? ch "0") && ((d =? ch "x") || (d =? ch "X")) then r else bs
            | _ => bs
            end in
  let v := hex_val bs 0 in
  u8 (if 2 ^ 32 <=? v then 2 ^ 32 - 1 else if neg then - v else v).

(** The exclusive or of the characters up to the asterisk or the end, and what is
    left from there on. *)
Fixpoint xor_loop (msg : list Z) (checksum : Z) : result (Z * list Z) :=
  match msg with
  | [] => Crash OutOfBounds
  | c :: msg' => if (c =? ch "*") || (c =? 0) then Ok (checksum, msg) else xor_loop msg' (Z.lxor checksum c)
  end.
Definition valid_NMEA_checksum (msg : list Z) : result bool :=
  '(checksum, rest) ← xor_loop msg 0;
  match rest with
  | c :: rest' => Ok ((c =? ch "*") && (checksum =? scan_hhX (cstr rest')))
  | [] => Ok false
  end.

(** ** State *)

Record gps : Type := mk_gps {
  inst_buf : list Z;
  gps_state : gps_state_t;
  gps_fault : gps_fault_t;
  num_satellites : Z;
  current_time : Z;            (* address of the client's [struct timeval], or 0 *)
  timevals : gmap Z (Z * Z);
  current_latitude : spec_float; current_longitude : spec_float; current_altitude : spec_float;
  sent : list (list Z);
  results : list Z;
  signalled : bool             (* [reply_available_cond] *)
}.
Definition nmea : Type := reader gps.

Definition gps_init (results : list Z) : gps :=
  mk_gps (replicate 100 0) GPS_PRE_INIT GPS_OK 0 0 ∅ (S754_zero false) (S754_zero false) (S754_zero false) [] results false.

Definition set_inst (i : list Z) : stm gps unit := modify (fun g =>
  mk_gps i (gps_state g) (gps_fault g) (num_satellites g) (current_time g) (timevals g) (current_latitude g)
    (current_longitude g) (current_altitude g) (sent g) (results g) (signalled g)).
Definition set_state (st : gps_state_t) : stm gps unit := modify (fun g =>
  mk_gps (inst_buf g) st (gps_fault g) (num_satellites g) (current_time g) (timevals g) (current_latitude g)
    (current_longitude g) (current_altitude g) (sent g) (results g) (signalled g)).
Definition set_fault (f : gps_fault_t) : stm gps unit := modify (fun g =>
  mk_gps (inst_buf g) (gps_state g) f (num_satellites g) (current_time g) (timevals g) (current_latitude g)
    (current_longitude g) (current_altitude g) (sent g) (results g) (signalled g)).
Definition set_satellites (n : Z) : stm gps unit := modify (fun g =>
  mk_gps (inst_buf g) (gps_state g) (gps_fault g) n (current_time g) (timevals g) (current_latitude g)
    (current_longitude g) (current_altitude g) (sent g) (results g) (signalled g)).
Definition set_current_time (tv : Z) : stm gps unit := modify (fun g =>
  mk_gps (inst_buf g) (gps_state g) (gps_fault g) (num_satellites g) tv (timevals g) (current_latitude g)
    (current_longitude g) (current_altitude g) (sent g) (results g) (signalled g)).
Definition write_time (tv : Z) (t : Z * Z) : stm gps unit := modify (fun g =>
  mk_gps (inst_buf g) (gps_state g) (gps_fault g) (num_satellites g) (current_time g) (<[tv := t]> (timevals g))
    (current_latitude g) (current_longitude g) (current_altitude g) (sent g) (results g) (signalled g)).
Definition set_latitude (f : spec_float) : stm gps unit := modify (fun g =>
  mk_gps (inst_buf g) (gps_state g) (gps_fault g) (num_satellites g) (current_time g) (timevals g) f
    (current_longitude g) (current_altitude g) (sent g) (results g) (signalled g)).
Definition set_longitude (f : spec_float) : stm gps unit := modify (fun g =>
  mk_gps (inst_buf g) (gps_state g) (gps_fault g) (num_satellites g) (current_time g) (timevals g) (current_latitude g)
    f (current_altitude g) (sent g) (results g) (signalled g)).
Definition set_altitude (f : spec_float) : stm gps unit := modify (fun g =>
  mk_gps (inst_buf g) (gps_state g) (gps_fault g) (num_satellites g) (current_time g) (timevals g) (current_latitude g)
    (current_longitude g) f (sent g) (results g) (signalled g)).
Definition set_signalled (b : bool) : stm gps unit := modify (fun g =>
  mk_gps (inst_buf g) (gps_state g) (gps_fault g) (num_satellites g) (current_time g) (timevals g) (current_latitude g)
    (current_longitude g) (current_altitude g) (sent g) (results g) b).
Definition signal_reply : stm gps unit := set_signalled true.

(** ** gps_uartctl.c *)

Definition uart_write (msg : list Z) : stm gps unit :=
  g ← get;
  let written := match results g with r :: _ => r | [] => Z.of_nat (length msg) end in
  put (mk_gps (inst_buf g) (gps_state g) (gps_fault g) (num_satellites g) (current_time g) (timevals g)
         (current_latitude g) (current_longitude g) (current_altitude g) (sent g ++ [msg]) (tail (results g)) (signalled g));;
  if negb (written =? Z.of_nat (length msg)) then throw (ProcessExit 1) else mret tt.

(** ** gps_time.c *)

Definition init_gps (reset : bool) : stm gps unit :=
  (if reset then uart_write GPS_CMD_RESET;; set_state GPS_RESET else set_state GPS_SEARCH);;
  uart_write GPS_CMD_SETUP.
Definition uart_init (fd : Z) (reset : bool) : stm gps unit :=
  if fd =? -1 then throw (ProcessExit 1) else init_gps reset.

(** The buffer and the read thread are those of [GpsBuffer]. *)
Definition output_from_gps : option (list Z) → stm nmea unit := GpsBuffer.output_from_gps gps_state.
Definition uart_read_thread_turn : option (list Z) → stm nmea unit := uart_read_turn gps_state.

Definition is_gps_ready (g : gps) : bool := bool_decide (gps_state g = GPS_READY).

(** *** Fields *)

(** [for(; inst_buf[x] != ','; x++);] does not stop at the end of the string. *)
Fixpoint skip_comma (fuel : nat) (inst : list Z) (x : Z) : result Z :=
  match fuel with
  | O => Crash Diverges
  | S n => c ← nth_byte inst x; if c =? ch "," then Ok x else skip_comma n inst (x + 1)
  end.
Definition comma (inst : list Z) (x : Z) : result Z := skip_comma 101 inst x.
Definition text_at (inst : list Z) (x : Z) : list Z := drop (Z.to_nat x) inst.

(** [strncmp(inst_buf, s, strlen(s))] is 0. *)
Definition is_prefix (s inst : list Z) : bool := bool_decide (take (length s) inst = s).

(** *** Time *)

Record tm : Type := mk_tm { tm_sec : Z; tm_min : Z; tm_hour : Z; tm_mday : Z; tm_mon : Z; tm_year : Z }.

Definition leap (y : Z) : bool := ((y mod 4 =? 0) && negb (y mod 100 =? 0)) || (y mod 400 =? 0).
Definition month_lengths (y : Z) : list Z := [31; if leap y then 29 else 28; 31; 30; 31; 30; 31; 31; 30; 31; 30; 31].
(** Days from 1970-01-01 to the start of a year and of a month (from 0). *)
Definition days_to_year (y : Z) : Z := 365 * (y - 1970) + (y - 1) / 4 - (y - 1) / 100 + (y - 1) / 400 - 477.
Definition days_to_month (y m : Z) : Z := foldr Z.add 0 (take (Z.to_nat m) (month_lengths y)).

(** [mktime] in a time zone [gmtoff] seconds east of Greenwich without summer
    time; the month may lie outside the year. A time that does not fit [time_t] is -1.
    The source does not assign [tm_isdst], so that [mktime] sees what the stack holds
    there: in a zone with summer time the result could be off by the shift; without
    one, as here, it does not depend on it. *)
Definition mktime (gmtoff : Z) (t : tm) : Z :=
  let y := tm_year t + 1900 + tm_mon t / 12 in
  let days := days_to_year y + days_to_month y (tm_mon t mod 12) + tm_mday t - 1 in
  let secs := ((days * 24 + tm_hour t) * 60 + tm_min t) * 60 + tm_sec t - gmtoff in
  if (- 2 ^ 31 <=? secs) && (secs <? 2 ^ 31) then secs else -1.

(** [%2d]: a number of at most two characters, and what follows it. *)
Definition scan_2d (bs : list Z) : option (Z * list Z) :=
  match skip_spaces bs with
  | c :: d :: r =>
      if isdigit c then (if isdigit d then Some (10 * (c - 48) + (d - 48), r) else Some (c - 48, d :: r))
      else if (c =? ch "-") && isdigit d then Some (- (d - 48), r)
      else if (c =? ch "+") && isdigit d then Some (d - 48, r)
      else None
  | [c] => if isdigit c then Some (c - 48, []) else None
  | [] => None
  end.
(** [sscanf(s, "%2d%2d%2d", ...)]: fields that are not there stay unset. *)
Definition scan_hms (bs : list Z) : result (Z * Z * Z) :=
  match scan_2d bs with
  | Some (h, r) =>
      match scan_2d r with
      | Some (m, r') => match scan_2d r' with Some (s, _) => Ok (h, m, s) | None => Crash Uninitialised end
      | None => Crash Uninitialised
      end
  | None => Crash Uninitialised
  end.

Definition parse_time (inst : list Z) : result tm :=
  x ← comma inst 0;
  '(h, mi, s) ← scan_hms (text_at inst (x + 1));
  x ← comma inst (x + 1);
  let mday := atoi (text_at inst (x + 1)) in
  x ← comma inst (x + 1);
  let mon := atoi (text_at inst (x + 1)) in
  x ← comma inst (x + 1);
  Ok (mk_tm s mi h mday mon (atoi (text_at inst (x + 1)) - 1900)).

(** *** Messages *)

Definition handle_antenna (inst : list Z) : stm gps unit :=
  let code := atoi (text_at inst (Z.of_nat (length GPS_MSG_ANTENNA) + 1)) in
  if code =? 0 then set_fault GPS_ANTENA_OPEN
  else if code =? 1 then set_fault GPS_OK
  else if code =? 2 then set_fault GPS_ANTENA_SHORT
  else throw (ProcessExit 1).

(** Degrees of an angle given as degrees and minutes, dddmm.mmmm. *)
Definition degrees (aux : spec_float) : spec_float :=
  f64_add (f64_floor (f64_div aux (f64_of_Z 100))) (f64_div (f64_fmod aux 100) (f64_of_Z 60)).

(** Latitude or longitude: the angle behind the comma at [x], and its sign from
    the next field, at whose comma the search goes on. *)
Definition handle_angle (inst : list Z) (x : Z) (set : spec_float → stm gps unit) (cur : gps → spec_float) (minus : Z) : stm gps Z :=
  set (degrees (atof (text_at inst (x + 1))));;
  x ← lift (comma inst (x + 1));
  c ← lift (nth_byte inst (x + 1));
  (if c =? minus then g ← get; set (SFopp (cur g)) else mret tt);;
  mret x.

(** In the case of quality 0 the state is compared with [GPS_QUERY] after it was
    changed. *)
Definition handle_quality (c : Z) : stm gps unit :=
  if c =? ch "0" then
    set_state GPS_SEARCH;;
    g ← get;
    if decide (gps_state g = GPS_QUERY) then signal_reply else mret tt
  else if (c =? ch "1") || (c =? ch "2") then set_state GPS_READY
  else throw (ProcessExit 1).

Definition handle_position (inst : list Z) : stm gps unit :=
  x ← lift (comma inst 0);
  x ← lift (comma inst (x + 1));
  x ← handle_angle inst x set_latitude current_latitude (ch "S");
  x ← lift (comma inst (x + 1));
  x ← handle_angle inst x set_longitude current_longitude (ch "W");
  x ← lift (comma inst (x + 1));
  c ← lift (nth_byte inst (x + 1));
  handle_quality c;;
  x ← lift (comma inst (x + 1));
  set_satellites (atoi (text_at inst (x + 1)));;
  x ← lift (comma inst (x + 1));
  x ← lift (comma inst (x + 1));
  set_altitude (atof (text_at inst (x + 1))).

Definition handle_time (gmtoff : Z) (inst : list Z) : stm gps unit :=
  g ← get;
  if current_time g =? 0 then mret tt
  else
    t ← lift (parse_time inst);
    write_time (current_time g) (mktime gmtoff t, 0);;
    set_state GPS_READY;;
    signal_reply.

Definition handle_msg (gmtoff : Z) : stm gps unit :=
  g ← get;
  let inst := inst_buf g in
  valid ← lift (valid_NMEA_checksum inst);
  if negb valid then mret tt
  else if is_prefix GPS_MSG_ANTENNA inst then handle_antenna inst
  else if is_prefix GPS_MSG_STATUS_TIME_POS inst then handle_position inst
  else if is_prefix GPS_MSG_TIME inst then handle_time gmtoff inst
  else mret tt.

(** One turn of the loop of [process_msg]: whether a sentence was handled. *)
Definition process_turn (gmtoff : Z) : stm nmea bool :=
  t ← get;
  found ← lift (lookup_packet (msg_buf (rg t)) (inst_buf (core t)) (buff_start (rg t)) (buff_end (rg t)));
  match found with
  | None => mret false
  | Some (inst, last) =>
      on_core (set_inst inst;; handle_msg gmtoff);;
      t' ← get;
      put (mk_reader (mk_ring (msg_buf (rg t')) (Z.rem (linear (buff_start (rg t')) last) MSG_BUF_SIZE) (buff_end (rg t')))
             (core t'));;
      mret true
  end.
Definition process_msg (gmtoff : Z) : stm nmea unit := process_loop (process_turn gmtoff) 1024.

(** ** The clients *)

(** [None]: the call waits on [reply_available_cond]. *)
Definition time_call (tv : Z) : stm gps (option Z) :=
  g ← get;
  if negb (bool_decide (gps_state g = GPS_READY)) || negb (current_time g =? 0) then mret (Some 1)
  else set_current_time tv;; set_state GPS_QUERY;; mret None.
Definition time_resume : stm gps (option Z) :=
  g ← get;
  if decide (gps_state g = GPS_QUERY) then mret None
  else
    set_current_time 0;;
    mret (Some (if decide (gps_state g = GPS_READY) then 0 else 2)).

Definition getGPSLLA (g : gps) : Z * option (spec_float * spec_float * spec_float) :=
  if decide (gps_state g = GPS_READY) then (0, Some (current_latitude g, current_longitude g, current_altitude g)) else (1, None).
Definition getgpssatellites (g : gps) : Z := num_satellites g.
Definition getgpsfault (g : gps) : gps_fault_t := gps_fault g.

(** ** Sentences on the line *)

Definition frame (body : list Z) : list Z := GPS_START_CHAR :: body ++ crlf.
Definition sentence_ok (body : list Z) : Prop := (GPS_END_CHAR ∉ body) ∧ (5 ≤ length body < 100)%nat.

Lemma find_end_skip a n buf pos :
  window buf pos a → 0 ≤ pos → GPS_END_CHAR ∉ a →
  find_end (length a + n) buf pos = find_end n buf (pos + Z.of_nat (length a)).
Proof.
  revert pos. induction a as [|b a IH]; intros pos Hw Hp Hn; [by rewrite Z.add_0_r|].
  apply window_cons in Hw as [Hb Hw]. apply not_elem_of_cons in Hn as [Hne Hn]. cbn [length Nat.add find_end].
  rewrite (window_head _ _ _ Hb Hp), result_bind_Ok, (proj2 (Z.eqb_neq _ _)) by congruence.
  rewrite IH by (done || lia). f_equal. lia.
Qed.

Lemma set_bytes_at (a old b new : list Z) i :
  length old = length new → i = Z.of_nat (length a) → set_bytes (a ++ old ++ b) i new = Ok (a ++ new ++ b).
Proof.
  intros Hl ->. unfold set_bytes. rewrite !length_app, <- Hl. rewrite !(proj2 (Z.leb_le _ _)) by lia. cbn [andb].
  rewrite Nat2Z.id, take_app_length. do 3 f_equal. rewrite <- drop_drop, drop_app_length. by rewrite drop_app_length.
Qed.

Lemma copy_loop_run body buf pos done_ old tail_ x :
  window buf pos body → 0 ≤ pos → length old = length body → x = Z.of_nat (length done_) →
  copy_loop (length body) buf pos (done_ ++ old ++ tail_) x = Ok (done_ ++ body ++ tail_).
Proof.
  revert pos done_ old x. induction body as [|b body IH]; intros pos dn old x Hw Hp Hl ->.
  { by destruct old. }
  destruct old as [|o old]; [done|]. injection Hl as Hl. apply window_cons in Hw as [Hb Hw]. cbn [length copy_loop].
  rewrite (window_head _ _ _ Hb Hp), result_bind_Ok.
  change (dn ++ (o :: old) ++ tail_) with (dn ++ [o] ++ (old ++ tail_)).
  rewrite (set_bytes_at dn [o] _ [b]), result_bind_Ok by done.
  replace (dn ++ [b] ++ old ++ tail_) with ((dn ++ [b]) ++ old ++ tail_) by by rewrite <- app_assoc.
  rewrite IH by (done || lia || (rewrite length_app; cbn [length]; lia)). by rewrite <- app_assoc.
Qed.

(** [inst_buf] with a new string. *)
Definition with_string (body inst : list Z) : list Z := body ++ 0 :: drop (S (length body)) inst.

Lemma copy_string body buf pos inst :
  window buf pos body → 0 ≤ pos → length inst = 100%nat → (length body < 100)%nat →
  ∃ inst', copy_loop (length body) buf pos inst 0 = Ok inst' ∧
    set_bytes inst' (Z.of_nat (length body)) [0] = Ok (with_string body inst).
Proof.
  intros Hw Hp Hi Hb. destruct (drop (length body) inst) as [|o rest] eqn:E.
  { apply (f_equal length) in E. rewrite length_drop in E. simpl in E. lia. }
  exists (body ++ o :: rest). split.
  - replace inst with (take (length body) inst ++ o :: rest) by (by rewrite <- E, take_drop).
    apply (copy_loop_run body buf pos [] _ (o :: rest) 0); [done|done|rewrite length_take; lia|done].
  - change (body ++ o :: rest) with (body ++ [o] ++ rest). rewrite (set_bytes_at body [o] rest [0]) by done.
    unfold with_string. do 2 f_equal. cbn [app]. f_equal. rewrite <- Nat.add_1_r, <- drop_drop, E. done.
Qed.

Lemma first_cell r b bs : holds r (b :: bs) → nth_byte (msg_buf r) (buff_start r) = Ok b.
Proof.
  intros (Hw & Hs & _). pose proof (window_cell _ _ _ 0 b Hw ltac:(lia) eq_refl) as Hc. unfold cell in Hc.
  rewrite Z.add_0_r, Z.rem_small in Hc by done. exact Hc.
Qed.

(** What [lookup_packet] does up to the copy. *)
Lemma nmea_lookup_frame r inst body rest :
  holds r (frame body ++ rest) → GPS_END_CHAR ∉ body → (5 ≤ length body)%nat →
  window (msg_buf r) (buff_start r + 1) body ∧ window (msg_buf r) (buff_start r + Z.of_nat (length (frame body))) rest ∧
  lookup_packet (msg_buf r) inst (buff_start r) (buff_end r) =
    (inst ← copy_loop (length body) (msg_buf r) (buff_start r + 1) inst 0;
     inst ← set_bytes inst (Z.of_nat (length body)) [0];
     Ok (Some (inst, (buff_start r + Z.of_nat (length (frame body))) mod MSG_BUF_SIZE))).
Proof.
  intros H Hn Hl. pose proof (linear_holds r _ H) as Hlin. pose proof (first_cell _ _ _ H) as Hfirst.
  destruct H as (Hw & Hs & He & Hlen).
  assert (Z.of_nat (length (frame body)) = Z.of_nat (length body) + 3) as Hf.
  { unfold frame. cbn [length]. rewrite length_app. cbn [length crlf]. lia. }
  rewrite length_app in *. pose proof Hw as Hw0.
  apply window_app in Hw as [Hfr Hrest]. unfold frame in Hfr.
  change (GPS_START_CHAR :: body ++ crlf) with ((GPS_START_CHAR :: body) ++ [13] ++ [10]) in Hfr.
  rewrite app_assoc in Hfr. apply window_app in Hfr as [Hpre Hend]. pose proof Hpre as Hpre'.
  change ((GPS_START_CHAR :: body) ++ [13]) with (GPS_START_CHAR :: body ++ [13]) in Hpre'.
  apply window_cons in Hpre' as [_ Hb]. apply window_app in Hb as [Hb _]. split; [done|]. split; [done|].
  unfold lookup_packet. rewrite Hlin. set (n := Z.of_nat (length body)) in *.
  rewrite (proj2 (Z.eqb_neq (buff_end r) (buff_start r))) by (rewrite He; unfold MSG_BUF_SIZE in *; dlia).
  rewrite (proj2 (Z.ltb_ge _ _)) by lia. rewrite Hfirst, result_bind_Ok. cbn [negb]. rewrite Z.eqb_refl. cbn [negb].
  rewrite length_app in Hend. cbn [length] in Hend.
  replace (Z.to_nat (buff_start r + Z.of_nat (length (frame body) + length rest) - buff_start r))
    with (length ((GPS_START_CHAR :: body) ++ [13%Z]) + S (length rest))%nat by (rewrite length_app; cbn [length]; lia).
  rewrite find_end_skip; [|done|lia|].
  2:{ rewrite elem_of_app, elem_of_cons, list_elem_of_singleton. intros [[?|?]|?]; done. }
  rewrite length_app. cbn [length find_end]. fold n in Hend |- *.
  rewrite (window_head _ _ _ Hend), result_bind_Ok by lia. change (10 =? GPS_END_CHAR) with true. cbv iota.
  rewrite result_bind_Ok, (window_head _ _ _ Hend), result_bind_Ok by lia.
  change (10 =? GPS_END_CHAR) with true. cbn [negb orb].
  rewrite (proj2 (Z.eqb_neq _ _)) by lia.
  replace (Z.to_nat _) with (length body) by lia. fold n.
  rewrite Z.rem_mod_nonneg by (unfold MSG_BUF_SIZE; lia).
  by replace (buff_start r + Z.of_nat (S (length body) + 1) + 1) with (buff_start r + Z.of_nat (length (frame body))) by lia.
Qed.

Lemma nmea_lookup_partial r inst body p s :
  holds r p → sentence_ok body → frame body = p ++ s → s ≠ [] →
  lookup_packet (msg_buf r) inst (buff_start r) (buff_end r) = Ok None.
Proof.
  intros H [Hn Hl] E Hs. pose proof (linear_holds r _ H) as Hlin. unfold lookup_packet. rewrite Hlin.
  destruct (buff_end r =? buff_start r); [done|].
  destruct (Z.ltb_spec (buff_start r + Z.of_nat (length p) - buff_start r) 8); [done|].
  destruct p as [|x p]; [simpl in *; lia|]. injection E as <- E.
  rewrite (first_cell _ _ _ H), result_bind_Ok, Z.eqb_refl. cbn [negb]. pose proof H as (Hw & Hst & _).
  assert (GPS_END_CHAR ∉ GPS_START_CHAR :: p) as Hnp.
  { rewrite elem_of_cons. intros [?|Hin]; [done|]. unfold crlf in E.
    destruct s as [|y s] using rev_ind; [done|]. clear IHs.
    replace (body ++ [13; 10]) with ((body ++ [13]) ++ [10]) in E by by rewrite <- app_assoc.
    rewrite app_assoc in E. apply app_inj_tail in E as [E _].
    assert (GPS_END_CHAR ∈ body ++ [13]) as Hin2 by (rewrite E; apply elem_of_app; by left).
    apply elem_of_app in Hin2 as [?|Hin2]; [done|]. by apply list_elem_of_singleton in Hin2. }
  replace (Z.to_nat _) with (length (GPS_START_CHAR :: p) + 0)%nat by lia.
  rewrite (find_end_skip _ _ _ _ Hw) by (done || lia). cbn [find_end]. rewrite result_bind_Ok.
  assert (∃ b, cell (msg_buf r) (buff_start r + Z.of_nat (length (GPS_START_CHAR :: p))) = Ok b) as [b ->].
  { unfold cell, nth_byte. rewrite rem_slot by lia. rewrite (proj2 (Z.ltb_ge _ _)) by lia. rewrite Nat2Z.id.
    destruct (lookup_lt_is_Some_2 (msg_buf r) (slot (buff_start r + Z.of_nat (length (GPS_START_CHAR :: p))))) as [b ->];
      [|by exists b]. rewrite (window_length _ _ _ Hw). apply slot_lt. }
  rewrite result_bind_Ok, Z.eqb_refl. by rewrite orb_true_r.
Qed.

(** ** Turns *)

Definition nmea_inv (g : gps) : Prop := gps_state g ≠ GPS_PRE_INIT ∧ length (inst_buf g) = 100%nat.

Definition handle_sentence (gmtoff : Z) (body : list Z) : stm gps unit :=
  g ← get; set_inst (with_string body (inst_buf g));; handle_msg gmtoff.

Lemma length_with_string body inst :
  length inst = 100%nat → (length body < 100)%nat → length (with_string body inst) = 100%nat.
Proof. intros. unfold with_string. rewrite length_app. cbn [length]. rewrite length_drop. lia. Qed.

Lemma nmea_turn_none gmtoff t :
  lookup_packet (msg_buf (rg t)) (inst_buf (core t)) (buff_start (rg t)) (buff_end (rg t)) = Ok None →
  process_turn gmtoff t = Ok (false, t).
Proof.
  intros E. unfold process_turn. rewrite (bind_run get _ _ _ _ eq_refl).
  erewrite bind_run by (unfold lift; rewrite E; reflexivity). done.
Qed.

Lemma nmea_turn_empty gmtoff t : holds (rg t) [] → process_turn gmtoff t = Ok (false, t).
Proof.
  intros (_ & Hs & He & _). apply nmea_turn_none. unfold lookup_packet.
  rewrite He, Z.add_0_r, Z.mod_small by done. by rewrite Z.eqb_refl.
Qed.

Lemma nmea_turn_partial gmtoff t body bs s :
  holds (rg t) bs → sentence_ok body → frame body = bs ++ s → s ≠ [] → process_turn gmtoff t = Ok (false, t).
Proof. intros Hh Hp E Hs. apply nmea_turn_none. by eapply nmea_lookup_partial. Qed.

Lemma nmea_turn_frame gmtoff t body rest :
  holds (rg t) (frame body ++ rest) → sentence_ok body → nmea_inv (core t) →
  ∃ r, holds r rest ∧ process_turn gmtoff t =
    match handle_sentence gmtoff body (core t) with Ok (_, g) => Ok (true, mk_reader r g) | Crash c => Crash c end.
Proof.
  intros Hh [Hn Hl] [_ Hi]. destruct (nmea_lookup_frame (rg t) (inst_buf (core t)) body rest Hh Hn) as (Hw & Hr & E); [lia|].
  pose proof Hh as (_ & Hs & _).
  destruct (copy_string body (msg_buf (rg t)) (buff_start (rg t) + 1) (inst_buf (core t)) Hw) as (inst & E1 & E2); [lia|done|lia|].
  rewrite E1, result_bind_Ok, E2, result_bind_Ok in E.
  eexists. split; [by apply (holds_drop (msg_buf (rg t)) (rg t) _ rest Hh Hr)|]. unfold process_turn, handle_sentence.
  rewrite (bind_run get _ t t t eq_refl). erewrite bind_run by (unfold lift; rewrite E; reflexivity). cbv beta iota.
  rewrite (bind_run get _ (core t) _ _ eq_refl). unfold mbind at 1, stm_bind at 1, on_core.
  destruct ((set_inst (with_string body (inst_buf (core t))) ;; handle_msg gmtoff) (core t)) as [[[] g]|]; [|done].
  unfold get, put, mbind, stm_bind, mret, stm_ret. cbn [rg core]. by rewrite linear_rem by (by apply Z.mod_pos_bound).
Qed.

Lemma keeps_handle_msg gmtoff : keeps nmea_inv (handle_msg gmtoff).
Proof.
  assert (∀ st, st ≠ GPS_PRE_INIT → keeps nmea_inv (set_state st)) by (intros; apply keeps_modify; by intros g [_ ?]).
  assert (∀ f, keeps nmea_inv (set_fault f)) by (intros; apply keeps_modify; by intros g [? ?]).
  assert (∀ n, keeps nmea_inv (set_satellites n)) by (intros; apply keeps_modify; by intros g [? ?]).
  assert (∀ tv x, keeps nmea_inv (write_time tv x)) by (intros; apply keeps_modify; by intros g [? ?]).
  assert (∀ f, keeps nmea_inv (set_latitude f)) by (intros; apply keeps_modify; by intros g [? ?]).
  assert (∀ f, keeps nmea_inv (set_longitude f)) by (intros; apply keeps_modify; by intros g [? ?]).
  assert (∀ f, keeps nmea_inv (set_altitude f)) by (intros; apply keeps_modify; by intros g [? ?]).
  assert (keeps nmea_inv signal_reply) by (apply keeps_modify; by intros g [? ?]).
  assert (∀ inst, keeps nmea_inv (handle_position inst)).
  { intros inst. unfold handle_position, handle_angle, handle_quality.
    repeat first [apply keeps_bind; [auto 20 with keeps|intros ?]]. auto with keeps. }
  unfold handle_msg, handle_antenna, handle_time.
  apply keeps_bind; [auto with keeps|intros g]. auto 20 with keeps.
Qed.

Lemma keeps_handle_sentence gmtoff body : sentence_ok body → keeps nmea_inv (handle_sentence gmtoff body).
Proof.
  intros [_ Hb] g a g' Hg H. unfold handle_sentence in H. rewrite (bind_run get _ _ _ _ eq_refl) in H.
  rewrite (bind_run _ _ _ tt _ eq_refl) in H. eapply keeps_handle_msg; [|exact H]. destruct Hg as [? ?].
  split; [done|]. apply length_with_string; [done|lia].
Qed.

#[export] Instance nmea_reader (gmtoff : Z) : Reader gps (list Z) := {|
  r_state := gps_state; r_frame := frame; r_ok := sentence_ok; r_inv := nmea_inv;
  r_turn := process_turn gmtoff; r_handle := handle_sentence gmtoff;
  r_frame_nonempty := fun p H => ltac:(discriminate H);
  r_turn_empty := nmea_turn_empty gmtoff; r_turn_frame := nmea_turn_frame gmtoff;
  r_turn_partial := nmea_turn_partial gmtoff; r_started := fun g H => proj1 H;
  r_keeps := keeps_handle_sentence gmtoff
|}.

(** C17: NMEA sentences arrive once each and in order: for every cutting of the
    stream of the device into reads and every schedule of the thread, the reader
    handles exactly the sentences whose bytes have all arrived by then, or ends
    the program when a read does not fit the buffer. *)
Theorem nmea_stream_refines gmtoff evs bodies (t : nmea) bs more :
  holds (rg t) bs → nmea_inv (core t) → Forall sentence_ok bodies →
  bs ++ received evs ++ more = stream (R := nmea_reader gmtoff) bodies →
  refines (R := nmea_reader gmtoff) more (run (R := nmea_reader gmtoff) evs t)
    (stream_spec (R := nmea_reader gmtoff) evs bodies (Z.of_nat (length bs)) (core t)).
Proof. apply (stream_refines (R := nmea_reader gmtoff)). Qed.

Definition zda_body : list Z := str "GPZDA,201530.00,04,07,2002,00,00*60".
Definition nmea_events : list event :=
  [Read (take 9 (frame zda_body)); Run; Read (drop 9 (frame zda_body) ++ [GPS_START_CHAR]); Run].
Definition asked : gps :=
  mk_gps (replicate 100 0) GPS_QUERY GPS_OK 0 500 ∅ (S754_zero false) (S754_zero false) (S754_zero false) [] [] false.

Lemma nmea_stream_refines_witness :
  refines (R := nmea_reader 0) (drop 1 (frame zda_body)) (run (R := nmea_reader 0) nmea_events (mk_reader ring_init asked))
    (stream_spec (R := nmea_reader 0) nmea_events [zda_body; zda_body] 0 asked).
Proof.
  apply (nmea_stream_refines 0 nmea_events [zda_body; zda_body] (mk_reader ring_init asked) [] (drop 1 (frame zda_body))).
  - apply holds_init.
  - done.
  - assert (sentence_ok zda_body).
    { split; [apply (bool_decide_unpack _); vm_compute; done|vm_compute; lia]. }
    rewrite !Forall_cons. split; [done|]. split; [done|apply Forall_nil_2].
  - reflexivity.
Defined.

(** ** Checksum *)

Definition xor_all (bs : list Z) : Z := foldl Z.lxor 0 bs.
Definition hex_char (d : Z) : Z := if d <? 10 then 48 + d else 55 + d.
Definition hex2 (n : Z) : list Z := [hex_char (n / 16); hex_char (n mod 16)].
(** Characters of the fields of a sentence. *)
Definition field_char (c : Z) : Prop := is_u8 c ∧ c ≠ ch "*" ∧ c ≠ 0.

Lemma scan_hhX_hex2 n : is_u8 n → scan_hhX (hex2 n) = n.
Proof.
  intros Hn. apply Z.eqb_eq. apply (forall_range (fun n => scan_hhX (hex2 n) =? n) 0 256); [vm_compute; reflexivity|lia].
Qed.

Lemma hex2_no_nul n : is_u8 n → no_nul (hex2 n).
Proof.
  intros Hn. unfold hex2, hex_char, no_nul. pose proof (Z.mod_pos_bound n 16 ltac:(lia)).
  assert (0 ≤ n / 16) by dlia. rewrite !Forall_cons. split; [|split; [|done]]; case_test; lia.
Qed.

Lemma foldl_lxor s bs : foldl Z.lxor s bs = Z.lxor s (xor_all bs).
Proof.
  unfold xor_all. revert s. induction bs as [|b bs IH]; intros s; cbn [foldl]; [by rewrite Z.lxor_0_r|].
  rewrite IH, (IH (Z.lxor 0 b)), Z.lxor_0_l, Z.lxor_assoc. done.
Qed.

Lemma xor_all_range bs : Forall (fun c => is_u8 c) bs → is_u8 (xor_all bs).
Proof.
  unfold xor_all. assert (∀ s, is_u8 s → Forall (fun c => is_u8 c) bs → is_u8 (foldl Z.lxor s bs)) as H; [|by apply H].
  intros s Hs Hb. revert s Hs. induction Hb as [|b bs Hb _ IH]; intros s Hs; [done|]. cbn [foldl]. apply IH.
  rewrite <- (Z.mod_small s 256), <- (Z.mod_small b 256) by done. change 256 with (2 ^ 8).
  rewrite <- !Z.land_ones by done.
  assert (Z.lxor (Z.land s (Z.ones 8)) (Z.land b (Z.ones 8)) = Z.land (Z.lxor s b) (Z.ones 8)) as ->.
  { apply Z.bits_inj'. intros i Hi. rewrite !Z.lxor_spec, !Z.land_spec, Z.lxor_spec.
    destruct (Z.testbit s i), (Z.testbit b i), (Z.testbit (Z.ones 8) i); done. }
  rewrite Z.land_ones by done. apply Z.mod_pos_bound. done.
Qed.

Lemma xor_loop_run fields rest s :
  Forall field_char fields → xor_loop (fields ++ ch "*" :: rest) s = Ok (foldl Z.lxor s fields, ch "*" :: rest).
Proof.
  intros H. revert s. induction H as [|c fields (_ & H1 & H2) _ IH]; intros s; [done|]. cbn [app xor_loop foldl].
  rewrite (proj2 (Z.eqb_neq _ _) H1), (proj2 (Z.eqb_neq _ _) H2). cbn [orb]. apply IH.
Qed.

Lemma checksum_compare fields sum rest :
  Forall field_char fields → is_u8 sum →
  valid_NMEA_checksum (fields ++ ch "*" :: hex2 sum ++ 0 :: rest) = Ok (xor_all fields =? sum).
Proof.
  intros Hf Hs. unfold valid_NMEA_checksum. rewrite xor_loop_run by done. rewrite result_bind_Ok. cbv beta iota.
  rewrite Z.eqb_refl, cstr_app_nul by by apply hex2_no_nul. by rewrite scan_hhX_hex2.
Qed.

(** The checksum.  A sentence with the checksum of its fields is accepted, and
    one in which one character was replaced by another is not. *)
Theorem checksum_detects a x y b rest :
  Forall field_char (a ++ x :: b) → field_char y →
  valid_NMEA_checksum ((a ++ y :: b) ++ ch "*" :: hex2 (xor_all (a ++ x :: b)) ++ 0 :: rest) = Ok (x =? y).
Proof.
  intros Hx Hy. pose proof Hx as Hx'. apply Forall_app in Hx' as [Ha Hxb]. inversion Hxb as [|? ? _ Hb]; subst.
  rewrite checksum_compare.
  - f_equal. unfold xor_all. rewrite !foldl_app. cbn [foldl]. rewrite !(foldl_lxor (Z.lxor _ _)), !(foldl_lxor 0 a), !Z.lxor_0_l.
    destruct (Z.eqb_spec x y) as [->|Hne]; [apply Z.eqb_refl|]. apply Z.eqb_neq. intros E. apply Hne.
    apply (f_equal (fun v => Z.lxor (Z.lxor v (xor_all b)) (xor_all a))) in E.
    assert (∀ p q r, Z.lxor (Z.lxor (Z.lxor (Z.lxor p q) r) r) p = q) as Hk.
    { intros p q r. rewrite (Z.lxor_assoc _ r r), Z.lxor_nilpotent, Z.lxor_0_r, (Z.lxor_comm p q), Z.lxor_assoc, Z.lxor_nilpotent.
      apply Z.lxor_0_r. }
    by rewrite !Hk in E.
  - apply Forall_app. split; [done|]. by constructor.
  - apply xor_all_range. eapply Forall_impl; [exact Hx|]. by intros c [? _].
Qed.

Lemma checksum_detects_witness :
  valid_NMEA_checksum ((str "GPZDA,201530.00,04,0" ++ ch "8" :: str ",2002,00,00") ++ ch "*" ::
    hex2 (xor_all (str "GPZDA,201530.00,04,0" ++ ch "7" :: str ",2002,00,00")) ++ 0 :: []) = Ok (ch "7" =? ch "8").
Proof.
  apply (checksum_detects (str "GPZDA,201530.00,04,0") (ch "7") (ch "8") (str ",2002,00,00") []).
  - cbn. repeat constructor; (done || lia).
  - split; [split; vm_compute; done|done].
Defined.

(** ** The time *)

Definition two (n : Z) : list Z := [48 + n / 10; 48 + n mod 10].

Lemma isdigit_range d : 0 ≤ d < 10 → isdigit (48 + d) = true.
Proof. intros. unfold isdigit. rewrite !(proj2 (Z.leb_le _ _)) by lia. done. Qed.

Lemma two_digits n : 0 ≤ n < 100 → isdigit (48 + n / 10) = true ∧ isdigit (48 + n mod 10) = true ∧
  10 * (48 + n / 10 - 48) + (48 + n mod 10 - 48) = n.
Proof. intros. split; [apply isdigit_range; dlia|]. split; [apply isdigit_range; dlia|dlia]. Qed.

Lemma scan_2d_two n rest : 0 ≤ n < 100 → scan_2d (two n ++ rest) = Some (n, rest).
Proof.
  intros Hn. destruct (two_digits n Hn) as (H1 & H2 & H3). unfold scan_2d, two. cbn [app skip_spaces].
  destruct (digit_not_special _ H1) as [-> _]. by rewrite H1, H2, H3.
Qed.

Lemma atoi_two n rest : 0 ≤ n < 100 → stops rest → atoi (two n ++ rest) = n.
Proof.
  intros Hn Hr. destruct (two_digits n Hn) as (H1 & H2 & H3). destruct (digit_not_special _ H1) as (E1 & E2 & E3 & _).
  unfold atoi, two. cbn [app skip_spaces]. rewrite E1.
  change (ch "-") with 45. change (ch "+") with 43.
  rewrite (proj2 (Z.eqb_neq _ _) E2), (proj2 (Z.eqb_neq _ _) E3). cbn [digits_val]. rewrite H1, H2, digits_val_stops by done.
  replace ((0 * 10 + (48 + n / 10 - 48)) * 10 + (48 + n mod 10 - 48)) with n by lia. apply swrap_small; lia.
Qed.

Lemma comma_run inst a seg b x :
  inst = a ++ seg ++ ch "," :: b → ch "," ∉ seg → x = Z.of_nat (length a) → (length seg ≤ 100)%nat →
  comma inst x = Ok (x + Z.of_nat (length seg)).
Proof.
  unfold comma. intros -> Hs -> Hl. assert (∃ k, 101%nat = length seg + S k)%nat as [k ->] by (exists (100 - length seg)%nat; lia). clear Hl.
  revert a. induction seg as [|c seg IH]; intros a; cbn [length Nat.add skip_comma].
  - unfold nth_byte. rewrite (proj2 (Z.ltb_ge _ _)), Nat2Z.id by lia. cbn [app]. rewrite list_lookup_middle by done.
    by rewrite Z.add_0_r.
  - apply not_elem_of_cons in Hs as [Hc Hs]. unfold nth_byte. rewrite (proj2 (Z.ltb_ge _ _)), Nat2Z.id by lia.
    cbn [app]. rewrite list_lookup_middle by done. rewrite result_bind_Ok, (proj2 (Z.eqb_neq _ _)) by congruence.
    specialize (IH Hs (a ++ [c])). rewrite length_app in IH. cbn [length] in IH. rewrite <- app_assoc in IH.
    replace (Z.of_nat (length a) + 1) with (Z.of_nat (length a + 1)) by lia. etransitivity; [exact IH|]. f_equal. lia.
Qed.

Lemma text_at_run a b x : x = Z.of_nat (length a) → text_at (a ++ b) x = b.
Proof. intros ->. unfold text_at. by rewrite Nat2Z.id, drop_app_length. Qed.

(** The text of the next field, with a place from which the search can go on. *)
Lemma field_run inst a seg b x :
  inst = a ++ seg ++ ch "," :: b → ch "," ∉ seg → x = Z.of_nat (length a) → (length seg ≤ 100)%nat →
  ∃ x' a', comma inst x = Ok x' ∧ text_at inst (x' + 1) = b ∧ inst = a' ++ b ∧ x' + 1 = Z.of_nat (length a').
Proof.
  intros E Hs -> Hl. exists (Z.of_nat (length a) + Z.of_nat (length seg)), (a ++ seg ++ [ch ","]).
  assert (inst = (a ++ seg ++ [ch ","]) ++ b) as E' by (rewrite E, <- !app_assoc; done).
  assert (Z.of_nat (length a) + Z.of_nat (length seg) + 1 = Z.of_nat (length (a ++ seg ++ [ch ","]))) as El
    by (rewrite !length_app; cbn [length]; lia).
  split; [by eapply comma_run|]. split; [rewrite E'; by apply text_at_run|]. done.
Qed.

(** A time sentence: hours, minutes and seconds with a fraction, day, month and
    year, and the rest. *)
Definition zda (h mi s : Z) (frac : list Z) (d m y : Z) (rest : list Z) : list Z :=
  str "GPZDA" ++ ch "," :: (two h ++ two mi ++ two s ++ frac) ++ ch "," :: two d ++ ch "," :: two m ++ ch "," ::
  dec_u y ++ ch "," :: rest.

Lemma two_no_comma n : 0 ≤ n < 100 → ch "," ∉ two n.
Proof.
  intros Hn. change (ch ",") with 44. unfold two. rewrite !elem_of_cons. intros [E|[E|E]]; [dlia|dlia|by apply elem_of_nil in E].
Qed.

Lemma dec_u_no_comma y : 0 ≤ y → ch "," ∉ dec_u y.
Proof.
  intros Hy Hin. pose proof (dec_aux_digits 20 y Hy) as Hd. rewrite Forall_forall in Hd. apply Hd in Hin.
  by vm_compute in Hin.
Qed.

Lemma parse_time_zda h mi s frac d m y rest :
  0 ≤ h < 100 → 0 ≤ mi < 100 → 0 ≤ s < 100 → 0 ≤ d < 100 → 0 ≤ m < 100 → 0 ≤ y < 2 ^ 31 →
  ch "," ∉ frac → (length frac ≤ 94)%nat → (length (dec_u y) ≤ 100)%nat →
  parse_time (zda h mi s frac d m y rest) = Ok (mk_tm s mi h d m (y - 1900)).
Proof.
  intros Hh Hmi Hs Hd Hm Hy Hf Hlf Hly. unfold parse_time, zda.
  set (hms := two h ++ two mi ++ two s ++ frac).
  assert (ch "," ∉ hms) as Hhms.
  { unfold hms. rewrite !not_elem_of_app. split_and!; auto using two_no_comma. }
  assert (length hms ≤ 100)%nat by (unfold hms; rewrite !length_app; simpl; lia).
  set (inst := str "GPZDA" ++ _).
  destruct (field_run inst [] (str "GPZDA") _ 0 eq_refl) as (x1 & a1 & -> & T1 & E1 & L1); [apply (bool_decide_unpack _); vm_compute; done|done|simpl; lia|].
  rewrite result_bind_Ok, T1. unfold hms at 1. rewrite <- !app_assoc. unfold scan_hms. rewrite !scan_2d_two by done.
  rewrite result_bind_Ok. cbv beta iota.
  destruct (field_run inst a1 hms _ (x1 + 1) E1 Hhms L1) as (x2 & a2 & -> & T2 & E2 & L2); [done|].
  rewrite result_bind_Ok, T2, atoi_two by done.
  destruct (field_run inst a2 (two d) _ (x2 + 1) E2 (two_no_comma d Hd) L2) as (x3 & a3 & -> & T3 & E3 & L3); [simpl; lia|].
  rewrite result_bind_Ok, T3, atoi_two by done.
  destruct (field_run inst a3 (two m) _ (x3 + 1) E3 (two_no_comma m Hm) L3) as (x4 & a4 & -> & T4 & E4 & L4); [simpl; lia|].
  rewrite result_bind_Ok, T4, atoi_dec_u by done. done.
Qed.

(** The seconds since 1970 of a date and time of UTC. *)
Definition utc (y m d h mi s : Z) : Z :=
  (((days_to_year y + days_to_month y (m - 1) + d - 1) * 24 + h) * 60 + mi) * 60 + s.
Definition month_length (y m : Z) : Z := nth (Z.to_nat (m - 1)) (month_lengths y) 0.

Lemma days_to_next_year y : days_to_year (y + 1) = days_to_year y + (if leap y then 366 else 365).
Proof.
  unfold days_to_year, leap. replace (y + 1 - 1) with y by lia.
  destruct (Z.eqb_spec (y mod 4) 0), (Z.eqb_spec (y mod 100) 0), (Z.eqb_spec (y mod 400) 0); cbn [andb orb negb]; dlia.
Qed.

(** The start of the next month. *)
Lemma next_month y m : 1 ≤ m ≤ 12 →
  days_to_year (y + m / 12) + days_to_month (y + m / 12) (m mod 12) =
  days_to_year y + days_to_month y (m - 1) + month_length y m.
Proof.
  intros Hm. assert (m = 12 ∨ m < 12) as [->|Hlt] by lia.
  - change (12 / 12) with 1. rewrite days_to_next_year. change (12 mod 12) with 0. change (days_to_month (y + 1) 0) with 0.
    assert (days_to_month y (12 - 1) + month_length y 12 = if leap y then 366 else 365); [|lia].
    unfold days_to_month, month_length, month_lengths. by destruct (leap y).
  - rewrite Z.div_small, Z.mod_small, Z.add_0_r by lia. unfold days_to_month, month_length.
    assert (m = 1 ∨ m = 2 ∨ m = 3 ∨ m = 4 ∨ m = 5 ∨ m = 6 ∨ m = 7 ∨ m = 8 ∨ m = 9 ∨ m = 10 ∨ m = 11) as Hc by lia.
    unfold month_lengths. repeat destruct Hc as [->|Hc]; [..|subst]; destruct (leap y); simpl; lia.
Qed.

Lemma mktime_month_late y m d h mi s gmtoff :
  1 ≤ m ≤ 12 → 0 ≤ utc y m d h mi s + 86400 * month_length y m - gmtoff < 2 ^ 31 →
  mktime gmtoff (mk_tm s mi h d m (y - 1900)) = utc y m d h mi s + 86400 * month_length y m - gmtoff.
Proof.
  intros Hm Hr. unfold mktime. cbn [tm_sec tm_min tm_hour tm_mday tm_mon tm_year].
  replace (y - 1900 + 1900) with y by lia. rewrite next_month by done. unfold utc in *. set (M := month_length y m) in *.
  match goal with |- (if ?b then ?x else _) = ?y => assert (x = y) as -> by lia end.
  rewrite (proj2 (Z.leb_le _ _)), (proj2 (Z.ltb_lt _ _)) by lia. done.
Qed.

(** C23: the answer to a request for the time is a month late.  For a sentence with
    the date and time of UTC and its checksum, the client gets the seconds of
    that time plus the length of the month, because the month is passed to
    [mktime] without the change to a count from 0; the query is closed and
    signalled. *)
Theorem zda_month_late h mi s frac d m y rest gmtoff g :
  0 ≤ h < 24 → 0 ≤ mi < 60 → 0 ≤ s < 62 → 1 ≤ d ≤ 31 → 1 ≤ m ≤ 12 → 0 ≤ y < 10000 →
  let fields := zda h mi s frac d m y rest in
  ch "," ∉ frac → Forall field_char fields → (length fields < 97)%nat →
  0 ≤ utc y m d h mi s + 86400 * month_length y m - gmtoff < 2 ^ 31 → current_time g ≠ 0 →
  ∃ g', handle_sentence gmtoff (fields ++ ch "*" :: hex2 (xor_all fields)) g = Ok (tt, g') ∧
    timevals g' = <[current_time g := (utc y m d h mi s + 86400 * month_length y m - gmtoff, 0)]> (timevals g) ∧
    gps_state g' = GPS_READY ∧ signalled g' = true.
Proof.
  intros Hh Hmi Hs Hd Hm Hy fields Hfr Hfc Hlen Hr Hct. unfold handle_sentence.
  rewrite (bind_run get _ _ _ _ eq_refl), (bind_run (set_inst _) _ _ tt _ eq_refl). unfold handle_msg.
  rewrite (bind_run get _ _ _ _ eq_refl). cbn [inst_buf]. unfold with_string. rewrite <- app_assoc. cbn [app].
  set (tail_ := drop _ _).
  assert (is_u8 (xor_all fields)) as Hx by (apply xor_all_range; eapply Forall_impl; [exact Hfc|by intros c [? _]]).
  erewrite bind_run by (unfold lift; rewrite checksum_compare by done; reflexivity). rewrite Z.eqb_refl. cbn [negb].
  set (inst := fields ++ _).
  assert (inst = zda h mi s frac d m y (rest ++ ch "*" :: hex2 (xor_all fields) ++ 0 :: tail_)) as Einst.
  { unfold inst, fields at 1, zda. repeat (rewrite <- ?app_assoc; cbn [app]). done. }
  assert (is_prefix GPS_MSG_ANTENNA inst = false ∧ is_prefix GPS_MSG_STATUS_TIME_POS inst = false ∧
    is_prefix GPS_MSG_TIME inst = true) as (-> & -> & ->).
  { rewrite Einst. unfold is_prefix, zda. split_and!.
    - apply bool_decide_eq_false. intros E. apply (f_equal (hd 0)) in E. by vm_compute in E.
    - apply bool_decide_eq_false. intros E. apply (f_equal (fun l => nth 2 l 0)) in E. by vm_compute in E.
    - apply bool_decide_eq_true. reflexivity. }
  unfold handle_time. rewrite (bind_run get _ _ _ _ eq_refl). cbn [current_time].
  rewrite (proj2 (Z.eqb_neq _ _) Hct).
  assert (length frac ≤ 94 ∧ length (dec_u y) ≤ 100)%nat as [Hlf Hly].
  { unfold fields, zda in Hlen. rewrite length_app in Hlen. cbn [length] in Hlen. rewrite !length_app in Hlen. cbn [length] in Hlen.
    rewrite !length_app in Hlen. cbn [length] in Hlen. rewrite !length_app in Hlen. cbn [length] in Hlen.
    rewrite !length_app in Hlen. clear -Hlen. split; lia. }
  erewrite bind_run by (unfold lift; rewrite Einst, parse_time_zda by (done || lia); reflexivity).
  rewrite mktime_month_late by done. by eexists.
Qed.

(** 2002-07-04 20:15:30 is reported as 2002-08-04 20:15:30. *)
Lemma zda_month_late_witness :
  ∃ g', handle_sentence 0 (zda 20 15 30 (str ".00") 4 7 2002 (str "00,00") ++ ch "*" ::
      hex2 (xor_all (zda 20 15 30 (str ".00") 4 7 2002 (str "00,00")))) asked = Ok (tt, g') ∧
    timevals g' = <[500 := (utc 2002 7 4 20 15 30 + 86400 * month_length 2002 7 - 0, 0)]> ∅ ∧
    gps_state g' = GPS_READY ∧ signalled g' = true.
Proof.
  apply (zda_month_late 20 15 30 (str ".00") 4 7 2002 (str "00,00") 0 asked); [lia..| | | | |].
  - apply (bool_decide_unpack _). vm_compute. done.
  - vm_compute. repeat constructor; done.
  - vm_compute. lia.
  - vm_compute. done.
  - done.
Defined.

(** ** The position *)

Lemma span_digits_comma l r :
  span_digits (l ++ ch "," :: r) = ((span_digits l).1, (span_digits l).2 ++ ch "," :: r).
Proof.
  induction l as [|c l IH]; [done|]. cbn [app span_digits]. destruct (isdigit c); [|done].
  rewrite IH. by destruct (span_digits l).
Qed.

Lemma atof_digits_comma neg l r : atof_digits neg (l ++ ch "," :: r) = atof_digits neg l.
Proof.
  unfold atof_digits. rewrite span_digits_comma. destruct (span_digits l) as [ds [|c rest]]; cbn [fst snd app]; [done|].
  destruct (c =? ch "."); [|done]. by rewrite span_digits_comma.
Qed.

Lemma skip_spaces_comma l r : skip_spaces (l ++ ch "," :: r) = skip_spaces l ++ ch "," :: r.
Proof. induction l as [|c l IH]; [done|]. cbn [app skip_spaces]. by destruct (isspace c). Qed.

Lemma atof_comma l r : atof (l ++ ch "," :: r) = atof l.
Proof.
  unfold atof. rewrite skip_spaces_comma. destruct (skip_spaces l) as [|c l']; [apply (atof_digits_comma false [] r)|].
  cbn [app]. rewrite !atof_digits_comma, app_comm_cons, atof_digits_comma. done.
Qed.

Lemma digits_val_comma l r a : digits_val (l ++ ch "," :: r) a = digits_val l a.
Proof. revert a. induction l as [|c l IH]; intros a; [done|]. cbn [app digits_val]. by destruct (isdigit c). Qed.

Lemma atoi_comma l r : atoi (l ++ ch "," :: r) = atoi l.
Proof.
  unfold atoi. rewrite skip_spaces_comma. destruct (skip_spaces l) as [|c l']; [done|]. cbn [app].
  rewrite app_comm_cons, !digits_val_comma. done.
Qed.

(** A position sentence: time, latitude and longitude with their hemispheres,
    quality, satellites, dilution, altitude and the rest. *)
Definition gga (time lat : list Z) (ns : Z) (lon : list Z) (ew q : Z) (sat hdop alt rest : list Z) : list Z :=
  str "GPGGA" ++ ch "," :: time ++ ch "," :: lat ++ ch "," :: [ns] ++ ch "," :: lon ++ ch "," :: [ew] ++ ch "," ::
  [q] ++ ch "," :: sat ++ ch "," :: hdop ++ ch "," :: alt ++ ch "," :: rest.

Definition hemisphere (c south : Z) (f : spec_float) : spec_float := if c =? south then SFopp f else f.
Definition short_field (f : list Z) : Prop := (ch "," ∉ f) ∧ (length f ≤ 100)%nat.

Lemma short_field_one c : c ≠ ch "," → short_field [c].
Proof. split; [|simpl; lia]. rewrite list_elem_of_singleton. congruence. Qed.

(** The character behind a comma. *)
Lemma field_char_run inst a b c x :
  inst = a ++ [c] ++ b → x = Z.of_nat (length a) → nth_byte inst x = Ok c.
Proof.
  intros -> ->. unfold nth_byte. rewrite (proj2 (Z.ltb_ge _ _)), Nat2Z.id by lia. cbn [app]. by rewrite list_lookup_middle.
Qed.

Lemma handle_angle_run inst a num c b x set cur minus g g1 :
  inst = a ++ num ++ ch "," :: [c] ++ b → x + 1 = Z.of_nat (length a) → short_field num →
  set (degrees (atof num)) g = Ok (tt, g1) → cur g1 = degrees (atof num) →
  (∀ f, ∃ g2, set f g1 = Ok (tt, g2) ∧ set f g = Ok (tt, g2)) →
  ∃ x' a' g', handle_angle inst x set cur minus g = Ok (x', g') ∧ set (hemisphere c minus (degrees (atof num))) g = Ok (tt, g') ∧
    inst = a' ++ [c] ++ b ∧ x' + 1 = Z.of_nat (length a').
Proof.
  intros E Hx [Hn Hl] H1 Hc Hset. unfold handle_angle.
  destruct (field_run inst a num ([c] ++ b) (x + 1) E Hn Hx Hl) as (x' & a' & E1 & _ & E2 & Hx').
  assert (text_at inst (x + 1) = num ++ ch "," :: [c] ++ b) as -> by (rewrite E; by apply text_at_run).
  rewrite atof_comma, (bind_run _ _ _ _ _ H1). erewrite bind_run by (unfold lift; rewrite E1; reflexivity).
  erewrite bind_run by (unfold lift; rewrite (field_char_run _ _ _ _ _ E2 Hx'); reflexivity). unfold hemisphere.
  exists x', a'. destruct (c =? minus).
  - destruct (Hset (SFopp (degrees (atof num)))) as (g2 & H2 & H3). exists g2. split; [|done].
    rewrite stm_bind_assoc, (bind_run get _ _ _ _ eq_refl), Hc, (bind_run _ _ _ _ _ H2). done.
  - by exists g1.
Qed.

Lemma set_latitude_run f g : ∃ g1, set_latitude f g = Ok (tt, g1) ∧ current_latitude g1 = f ∧
  ∀ f', ∃ g2, set_latitude f' g1 = Ok (tt, g2) ∧ set_latitude f' g = Ok (tt, g2).
Proof. eexists. split; [done|]. split; [done|]. intros f'. by eexists. Qed.
Lemma set_longitude_run f g : ∃ g1, set_longitude f g = Ok (tt, g1) ∧ current_longitude g1 = f ∧
  ∀ f', ∃ g2, set_longitude f' g1 = Ok (tt, g2) ∧ set_longitude f' g = Ok (tt, g2).
Proof. eexists. split; [done|]. split; [done|]. intros f'. by eexists. Qed.

Lemma handle_quality_run q g :
  q = ch "0" ∨ q = ch "1" ∨ q = ch "2" →
  handle_quality q g = set_state (if q =? ch "0" then GPS_SEARCH else GPS_READY) g.
Proof. by intros [->|[->| ->]]. Qed.

(** The numbers and the state that a position sentence leaves. *)
Definition with_position (lat lon alt : spec_float) (st : gps_state_t) (sats : Z) (g : gps) : gps :=
  mk_gps (inst_buf g) st (gps_fault g) sats (current_time g) (timevals g) lat lon alt (sent g) (results g) (signalled g).
Definition positioned (lat : list Z) (ns : Z) (lon : list Z) (ew q : Z) (sat alt : list Z) : gps → gps :=
  with_position (hemisphere ns (ch "S") (degrees (atof lat))) (hemisphere ew (ch "W") (degrees (atof lon))) (atof alt)
    (if q =? ch "0" then GPS_SEARCH else GPS_READY) (atoi sat).

Lemma setters_position la lo al st n g g1 g2 g3 g4 :
  set_latitude la g = Ok (tt, g1) → set_longitude lo g1 = Ok (tt, g2) → set_state st g2 = Ok (tt, g3) →
  set_satellites n g3 = Ok (tt, g4) → set_altitude al g4 = Ok (tt, with_position la lo al st n g).
Proof. intros [= <-] [= <-] [= <-] [= <-]. done. Qed.

Lemma handle_position_gga time lat ns lon ew q sat hdop alt rest g :
  short_field time → short_field lat → ns ≠ ch "," → short_field lon → ew ≠ ch "," →
  q = ch "0" ∨ q = ch "1" ∨ q = ch "2" → short_field sat → short_field hdop → short_field alt →
  handle_position (gga time lat ns lon ew q sat hdop alt rest) g = Ok (tt, positioned lat ns lon ew q sat alt g).
Proof.
  intros [T1 T2] Ha Hns Ho Hew Hq [S1 S2] [H1 H2] _. unfold handle_position. set (inst := gga _ _ _ _ _ _ _ _ _ _).
  assert (q ≠ ch ",") as Hqc by (destruct Hq as [->|[->| ->]]; done).
  destruct (field_run inst [] (str "GPGGA") _ 0 eq_refl) as (x1 & a1 & E & _ & I1 & X1);
    [apply (bool_decide_unpack _); vm_compute; done|done|simpl; lia|].
  erewrite bind_run by (unfold lift; rewrite E; reflexivity). clear E.
  destruct (field_run inst a1 time _ (x1 + 1) I1 T1 X1 T2) as (x2 & a2 & E & _ & I2 & X2).
  erewrite bind_run by (unfold lift; rewrite E; reflexivity). clear E. clearbody inst.
  destruct (set_latitude_run (degrees (atof lat)) g) as (g0 & L1 & L2 & L3).
  destruct (handle_angle_run inst a2 lat ns _ x2 set_latitude current_latitude (ch "S") g g0 I2 X2 Ha L1 L2 L3)
    as (x3 & a3 & g1 & E & Q1 & I3 & X3). rewrite (bind_run _ _ _ _ _ E). clear E L1 L2 L3.
  destruct (field_run inst a3 [ns] _ (x3 + 1) I3 (proj1 (short_field_one _ Hns)) X3) as (x4 & a4 & E & _ & I4 & X4); [simpl; lia|].
  erewrite bind_run by (unfold lift; rewrite E; reflexivity). clear E.
  destruct (set_longitude_run (degrees (atof lon)) g1) as (g0' & L1 & L2 & L3).
  destruct (handle_angle_run inst a4 lon ew _ x4 set_longitude current_longitude (ch "W") g1 g0' I4 X4 Ho L1 L2 L3)
    as (x5 & a5 & g2 & E & Q2 & I5 & X5). rewrite (bind_run _ _ _ _ _ E). clear E L1 L2 L3.
  destruct (field_run inst a5 [ew] _ (x5 + 1) I5 (proj1 (short_field_one _ Hew)) X5) as (x6 & a6 & E & _ & I6 & X6); [simpl; lia|].
  erewrite bind_run by (unfold lift; rewrite E; reflexivity). clear E.
  erewrite bind_run by (unfold lift; rewrite (field_char_run _ _ _ _ _ I6 X6); reflexivity).
  rewrite (stm_bind_head _ _ _ _ (handle_quality_run q g2 Hq)).
  destruct (set_state (if q =? ch "0" then GPS_SEARCH else GPS_READY) g2) as [[[] g3]|] eqn:Q3; [|done].
  rewrite (bind_run _ _ _ _ _ Q3).
  destruct (field_run inst a6 [q] _ (x6 + 1) I6 (proj1 (short_field_one _ Hqc)) X6) as (x7 & a7 & E & F & I7 & X7); [simpl; lia|].
  erewrite bind_run by (unfold lift; rewrite E; reflexivity). rewrite F, atoi_comma. clear E F.
  destruct (set_satellites (atoi sat) g3) as [[[] g4]|] eqn:Q4; [|done]. rewrite (bind_run _ _ _ _ _ Q4).
  destruct (field_run inst a7 sat _ (x7 + 1) I7 S1 X7 S2) as (x8 & a8 & E & _ & I8 & X8).
  erewrite bind_run by (unfold lift; rewrite E; reflexivity). clear E.
  destruct (field_run inst a8 hdop _ (x8 + 1) I8 H1 X8 H2) as (x9 & a9 & E & F & _).
  erewrite bind_run by (unfold lift; rewrite E; reflexivity). rewrite F, atof_comma. by eapply setters_position.
Qed.

(** Position sentences.  A sentence with its checksum sets latitude and
    longitude (negative for the south and the west), altitude and the number of
    satellites, and the state according to the quality of the fix.  When the fix
    is lost during a query, the state changes but the waiting client is not
    signalled. *)
Theorem gga_position time lat ns lon ew q sat hdop alt rest gmtoff g :
  short_field time → short_field lat → ns ≠ ch "," → short_field lon → ew ≠ ch "," →
  q = ch "0" ∨ q = ch "1" ∨ q = ch "2" → short_field sat → short_field hdop → short_field alt →
  let fields := gga time lat ns lon ew q sat hdop alt rest in
  let body := fields ++ ch "*" :: hex2 (xor_all fields) in
  Forall field_char fields →
  ∃ inst, handle_sentence gmtoff body g =
    Ok (tt, positioned lat ns lon ew q sat alt
              (mk_gps inst (gps_state g) (gps_fault g) (num_satellites g) (current_time g) (timevals g) (current_latitude g)
                 (current_longitude g) (current_altitude g) (sent g) (results g) (signalled g))).
Proof.
  intros Ht Ha Hns Ho Hew Hq Hs Hh Hl fields body Hfc. exists (with_string body (inst_buf g)). unfold handle_sentence.
  rewrite (bind_run get _ _ _ _ eq_refl), (bind_run (set_inst _) _ _ tt _ eq_refl). unfold handle_msg.
  rewrite (bind_run get _ _ _ _ eq_refl). cbn [inst_buf]. set (g1 := mk_gps _ _ _ _ _ _ _ _ _ _ _ _).
  assert (is_u8 (xor_all fields)) as Hx by (apply xor_all_range; eapply Forall_impl; [exact Hfc|by intros c [? _]]).
  set (tail_ := 0 :: drop (S (length body)) (inst_buf g)).
  assert (with_string body (inst_buf g) = gga time lat ns lon ew q sat hdop alt (rest ++ ch "*" :: hex2 (xor_all fields) ++ tail_)) as Einst.
  { unfold with_string, body, fields at 1, gga, tail_. repeat (rewrite <- ?app_assoc; cbn [app]). done. }
  assert (valid_NMEA_checksum (with_string body (inst_buf g)) = Ok true) as Hv.
  { unfold with_string, body. rewrite <- app_assoc. cbn [app]. rewrite checksum_compare by done. by rewrite Z.eqb_refl. }
  erewrite bind_run by (unfold lift; rewrite Hv; reflexivity). cbn [negb].
  assert (is_prefix GPS_MSG_ANTENNA (with_string body (inst_buf g)) = false ∧
    is_prefix GPS_MSG_STATUS_TIME_POS (with_string body (inst_buf g)) = true) as (-> & ->).
  { rewrite Einst. unfold is_prefix, gga. split.
    - apply bool_decide_eq_false. intros E. apply (f_equal (hd 0)) in E. by vm_compute in E.
    - apply bool_decide_eq_true. reflexivity. }
  rewrite Einst, handle_position_gga by done. by unfold g1; rewrite Einst.
Qed.

Lemma gga_position_witness :
  let fields := gga (str "123519") (str "4807.038") (ch "N") (str "01131.000") (ch "E") (ch "0") (str "08") (str "0.9") (str "545.4") (str "M,46.9,M,,") in
  ∃ inst, handle_sentence 0 (fields ++ ch "*" :: hex2 (xor_all fields)) asked =
    Ok (tt, positioned (str "4807.038") (ch "N") (str "01131.000") (ch "E") (ch "0") (str "08") (str "545.4")
              (mk_gps inst GPS_QUERY GPS_OK 0 500 ∅ (S754_zero false) (S754_zero false) (S754_zero false) [] [] false)).
Proof.
  apply (gga_position (str "123519") (str "4807.038") (ch "N") (str "01131.000") (ch "E") (ch "0") (str "08") (str "0.9") (str "545.4")
    (str "M,46.9,M,,") 0 asked); try (split; [apply (bool_decide_unpack _); vm_compute; done|simpl; lia]); try done.
  - by left.
  - vm_compute. repeat constructor; done.
Defined.

(** ** Long sentences *)

Lemma copy_loop_overflow body buf pos inst x :
  window buf pos body → 0 ≤ pos → 0 ≤ x ≤ Z.of_nat (length inst) → Z.of_nat (length inst) < x + Z.of_nat (length body) →
  copy_loop (length body) buf pos inst x = Crash OutOfBounds.
Proof.
  revert pos inst x. induction body as [|b body IH]; intros pos inst x Hw Hp Hx Hl; [simpl in Hl; lia|].
  apply window_cons in Hw as [Hb Hw]. cbn [length copy_loop] in *. rewrite (window_head _ _ _ Hb Hp), result_bind_Ok.
  unfold set_bytes. cbn [length]. destruct (Z.leb_spec (x + Z.of_nat 1) (Z.of_nat (length inst))) as [Hle|Hgt].
  - rewrite (proj2 (Z.leb_le 0 x)) by lia. cbn [andb]. rewrite result_bind_Ok.
    assert (length (take (Z.to_nat x) inst ++ [b] ++ drop (Z.to_nat x + 1) inst) = length inst) as El.
    { rewrite !length_app, length_take, length_drop. cbn [length]. lia. }
    apply IH; rewrite ?El; (done || lia).
  - rewrite andb_false_r. done.
Qed.

(** A sentence of 100 characters or more between the dollar sign and the line
    end is copied past the end of [inst_buf]. *)
Theorem long_sentence_overflows gmtoff (t : nmea) body rest :
  holds (rg t) (frame body ++ rest) → GPS_END_CHAR ∉ body → (100 ≤ length body)%nat → length (inst_buf (core t)) = 100%nat →
  process_turn gmtoff t = Crash OutOfBounds.
Proof.
  intros Hh Hn Hl Hi. destruct (nmea_lookup_frame (rg t) (inst_buf (core t)) body rest Hh Hn) as (Hw & _ & E); [lia|].
  pose proof Hh as (_ & Hs & _). unfold process_turn. rewrite (bind_run get _ _ _ _ eq_refl).
  assert (lookup_packet (msg_buf (rg t)) (inst_buf (core t)) (buff_start (rg t)) (buff_end (rg t)) = Crash OutOfBounds) as E'.
  { rewrite E. destruct (decide (length body = 100%nat)) as [Hb|Hb].
    - pose proof (copy_loop_run body _ _ [] (inst_buf (core t)) [] 0 Hw ltac:(lia) ltac:(lia) eq_refl) as Hc.
      cbn [app] in Hc. rewrite !app_nil_r in Hc. rewrite Hc, result_bind_Ok. unfold set_bytes. cbn [length].
      rewrite (proj2 (Z.leb_gt (_ + _) _)) by lia. by rewrite andb_false_r.
    - rewrite (copy_loop_overflow body) by (done || lia). done. }
  unfold lift, mbind, stm_bind. by rewrite E'.
Qed.

Definition long_body : list Z := replicate 100 65.
Lemma long_sentence_overflows_witness :
  process_turn 0 (mk_reader (mk_ring (frame long_body ++ replicate 921 0) 0 103) asked) = Crash OutOfBounds.
Proof.
  apply (long_sentence_overflows 0 (mk_reader (mk_ring (frame long_body ++ replicate 921 0) 0 103) asked) long_body []).
  - split; [|done]. split; [done|]. intros k b Hk. cbn [rg msg_buf buff_start].
    unfold slot. rewrite app_nil_r in Hk. pose proof (lookup_lt_Some _ _ _ Hk) as Hlt. change (length (frame long_body)) with 103%nat in Hlt.
    rewrite Z.add_0_l, Z.mod_small by (unfold MSG_BUF_SIZE; lia). rewrite Nat2Z.id. by apply lookup_app_l_Some.
  - apply (bool_decide_unpack _). vm_compute. done.
  - vm_compute. lia.
  - reflexivity.
Defined.
