(* ===== verification/InitCounter.v ===== *)
(** * Initialisation of the kernel's seconds

    Models [kernel_sender/receiver/init_counter.c] and [syscall_wrapper.c]: the
    program that waits for the GPS receiver, asks it for the time and sets the
    counter of seconds of the kernel and the clock of the system.  It is linked
    with a [uart_init] that is given the device, the one of the Condor reader
    ([Nmea]).  The system calls are outside of the repository; a call is whether
    it succeeds and, for the counter, the number that is stored.  A program is of type
    [prog]: it gives a value, calls [exit] or dies, and the state of the world is kept in
    each case, for the counter and the clock outlive the process.  Waits may end without
    a signal. *)

From S2P Require Import Prelude CString GpsBuffer Nmea.

(** ** parseargs *)

(** [argv[i + 1]] may be the NULL behind the last argument. *)
Record options : Type := mk_options { gps_device : option (list Z); tries : Z }.
Definition default_options : options := mk_options (Some (str "/dev/pts/0")) 15.

(** [i += 2] is followed by the [i++] of the loop.  [None] is the result 0. *)
Fixpoint parse_from (fuel : nat) (argv : list (list Z)) (i : nat) (o : options) : result (option options) :=
  match fuel with
  | O => Ok (Some o)
  | S n =>
      match argv !! i with
      | None => Ok (Some o)
      | Some a =>
          if streq a (str "-d") then parse_from n argv (i + 3) (mk_options (argv !! S i) (tries o))
          else if streq a (str "-t") then
            match argv !! S i with
            | Some v => parse_from n argv (i + 3) (mk_options (gps_device o) (u32 (atoi v)))
            | None => Crash NullDeref
            end
          else Ok None
      end
  end.
Definition parseargs (argv : list (list Z)) : result (option options) :=
  parse_from (length argv) argv 1 default_options.

(** ** The program, the threads of the reader and the kernel *)

Record world : Type := mk_world {
  nm : nmea;
  coming : list (list Z * bool);  (* what the receiver sends in each of the next seconds, after
                                     which it is silent; and whether a thread that waits is then
                                     woken without a signal *)
  kernel_secs : Z;                (* __miavita_elapsed_secs *)
  os_time : Z;
  syscalls : list bool;           (* whether the next system calls succeed; then they do *)
  stack_tv : Z                    (* what the stack holds at [tv.tv_sec] before it is written *)
}.
Definition set_nm (t : nmea) (w : world) : world :=
  mk_world t (coming w) (kernel_secs w) (os_time w) (syscalls w) (stack_tv w).
Definition set_coming (c : list (list Z * bool)) (w : world) : world :=
  mk_world (nm w) c (kernel_secs w) (os_time w) (syscalls w) (stack_tv w).
Definition set_clocks (k t : Z) (w : world) : world :=
  mk_world (nm w) (coming w) k t (syscalls w) (stack_tv w).
Definition set_syscalls (l : list bool) (w : world) : world :=
  mk_world (nm w) (coming w) (kernel_secs w) (os_time w) l (stack_tv w).

(** How a part of the program ends.  The kernel and its clocks outlive the process, so
    the state is there in every case. *)
Inductive outcome (A : Type) : Type :=
| Value (a : A)
| Exits (code : Z)       (* exit(code) was called *)
| Dies (c : crash).
Arguments Value {_} _.
Arguments Exits {_} _.
Arguments Dies {_} _.

Definition prog (A : Type) : Type := world → outcome A * world.
#[export] Instance prog_ret : MRet prog := fun A a w => (Value a, w).
#[export] Instance prog_bind : MBind prog := fun A B f m w =>
  match m w with
  | (Value a, w') => f a w'
  | (Exits c, w') => (Exits c, w')
  | (Dies c, w') => (Dies c, w')
  end.
Definition the_world : prog world := fun w => (Value w, w).
Definition change_world (f : world → world) : prog unit := fun w => (Value tt, f w).
Definition exits {A} (code : Z) : prog A := fun w => (Exits code, w).
Definition dies {A} (c : crash) : prog A := fun w => (Dies c, w).
Definition of_crash {A} (c : crash) : outcome A :=
  match c with ProcessExit code => Exits code | _ => Dies c end.

(** A part of the reader.  Its own memory is gone with the process when it ends that. *)
Definition on_nm {A} (m : stm nmea A) : prog A := fun w =>
  match m (nm w) with Ok (a, t) => (Value a, set_nm t w) | Crash e => (of_crash e, w) end.
Definition of_result {A} (r : result A) : prog A := fun w =>
  match r with Ok a => (Value a, w) | Crash e => (of_crash e, w) end.

Section Program.
Context (gmtoff : Z).

(** While the program sleeps or waits, the threads store and process what comes.  The
    result is whether a waiting thread wakes up without a signal. *)
Definition second : prog bool :=
  w ← the_world;
  match coming w with
  | [] => mret false
  | (c, spurious) :: cs =>
      change_world (set_coming cs);;
      match c with
      | [] => mret spurious
      | _ => on_nm (uart_read_thread_turn (Some c);; process_msg gmtoff);; mret spurious
      end
  end.
Fixpoint sleep (n : nat) : prog unit :=
  match n with O => mret tt | S n' => second;; sleep n' end.

(** [getGPStimeUTC(&tv)]: the thread waits until it is woken, by a signal or without
    one.  When the receiver stays silent the call does not return. *)
Definition tv : Z := 500.
Fixpoint await (fuel : nat) : prog Z :=
  match fuel with
  | O => dies Diverges
  | S n =>
      spurious ← second;
      w ← the_world;
      if spurious || signalled (core (nm w)) then
        r ← on_nm (on_core (set_signalled false;; time_resume));
        match r with Some v => mret v | None => await n end
      else await n
  end.
Definition getGPStimeUTC : prog Z :=
  r ← on_nm (on_core (time_call tv));
  match r with
  | Some v => mret v
  | None => w ← the_world; await (length (coming w))
  end.

(** ** syscall_wrapper.c *)

Definition syscall : prog bool :=
  w ← the_world;
  change_world (set_syscalls (tail (syscalls w)));;
  mret (match syscalls w with b :: _ => b | [] => true end).
Definition set_seconds (s : Z) : prog unit :=
  ok ← syscall;
  if (ok : bool) then change_world (fun w => set_clocks s (os_time w) w) else exits (-1).
(** The value is only printed. *)
Definition get_mean_value : prog unit :=
  ok ← syscall; if (ok : bool) then mret tt else exits (-1).
(** The result of [stime] is not looked at. *)
Definition stime (t : Z) : prog unit :=
  ok ← syscall;
  if (ok : bool) then change_world (fun w => set_clocks (kernel_secs w) t w) else mret tt.

(** ** main *)

(** [for (; !is_gps_ready(); tries--) { if (tries <= 0) return -1; sleep(1); }] *)
Fixpoint wait_ready (tries : nat) : prog bool :=
  w ← the_world;
  if is_gps_ready (core (nm w)) then mret true
  else match tries with
       | O => mret false
       | S n => second;; wait_ready n
       end.

(** [tv.tv_sec] after the call. *)
Definition tv_sec : prog Z :=
  w ← the_world;
  mret (match timevals (core (nm w)) !! tv with Some (s, _) => s | None => stack_tv w end).

(** [open]: the descriptor of a device, or -1. *)
Definition start (open : option (list Z) → Z) (o : options) : prog unit :=
  if open (gps_device o) =? -1 then exits 1
  else sleep 2;; on_nm (on_core (uart_init (open (gps_device o)) false)).

Definition main (open : option (list Z) → Z) (argv : list (list Z)) : prog Z :=
  if (4 <? length argv)%nat then mret (-1)
  else
    p ← of_result (parseargs argv);
    match p with
    | None => mret (-1)
    | Some o =>
        start open o;;
        ready ← wait_ready (Z.to_nat (tries o));
        if negb ready then mret (-1)
        else
          code ← getGPStimeUTC;
          if (code =? 1) || (code =? 2) then mret (-1)
          else
            t ← tv_sec;
            set_seconds (u64 t);;
            get_mean_value;;
            stime t;;
            sleep 2;;
            mret 0
    end.
End Program.

(** ** Reasoning about the program

    From a state with [P], [m] gives a value and a state with [Q], or ends the process in
    a state with [E]. *)
Definition triple {A} (P : world → Prop) (m : prog A) (Q : A → world → Prop) (E : world → Prop) : Prop :=
  ∀ w, P w → match m w with (Value a, w') => Q a w' | (_, w') => E w' end.

Section Triples.
Context {A : Type} (P : world → Prop) (E : world → Prop).

Lemma triple_ret (a : A) (Q : A → world → Prop) : (∀ w, P w → Q a w) → triple P (mret a) Q E.
Proof. intros H w Hw. by apply H. Qed.
Lemma triple_bind {B} (m : prog A) (f : A → prog B) R Q :
  triple P m R E → (∀ a, triple (R a) (f a) Q E) → triple P (m ≫= f) Q E.
Proof.
  intros Hm Hf w Hw. specialize (Hm w Hw). unfold mbind, prog_bind.
  destruct (m w) as [[a|c|c] w']; [by apply Hf|done..].
Qed.
Lemma triple_weaken (P' : world → Prop) (E' : world → Prop) (m : prog A) Q Q' :
  triple P m Q E → (∀ w, P' w → P w) → (∀ a w, Q a w → Q' a w) → (∀ w, E w → E' w) → triple P' m Q' E'.
Proof.
  intros H HP HQ HE w Hw. specialize (H w (HP w Hw)). destruct (m w) as [[a|c|c] w']; auto.
Qed.
Lemma triple_if (b : bool) (m m' : prog A) Q :
  (b = true → triple P m Q E) → (b = false → triple P m' Q E) → triple P (if b then m else m') Q E.
Proof. destruct b; auto. Qed.
Lemma triple_stop (m : prog A) Q : (∀ w, P w → E w) → (∀ w, (m w).2 = w ∧ ∀ a, (m w).1 ≠ Value a) → triple P m Q E.
Proof.
  intros H Hm w Hw. destruct (Hm w) as [Ew Hv]. destruct (m w) as [[a|c|c] w']; cbn in *; subst; auto.
  by destruct (Hv a).
Qed.
Lemma triple_fact (X : Prop) (m : prog A) Q : (X → triple P m Q E) → triple (fun w => X ∧ P w) m Q E.
Proof. intros H w [HX Hw]. by apply H. Qed.
(** The state is looked at. *)
Lemma triple_world (f : world → prog A) Q :
  (∀ w, triple (fun w' => w' = w ∧ P w) (f w) Q E) → triple P (w ← the_world; f w) Q E.
Proof. intros H w Hw. by apply (H w w). Qed.
Lemma triple_change (f : world → world) (g : prog A) R Q :
  (∀ w, P w → R (f w)) → triple R g Q E → triple P (change_world f;; g) Q E.
Proof. intros Hf Hg w Hw. apply (Hg (f w)). by apply Hf. Qed.
(** The reader runs. *)
Lemma triple_on_nm (m : stm nmea A) Q :
  (∀ w, P w → E w) → (∀ w a t, P w → m (nm w) = Ok (a, t) → Q a (set_nm t w)) → triple P (on_nm m) Q E.
Proof.
  intros HE HQ w Hw. unfold on_nm. destruct (m (nm w)) as [[a t]|c] eqn:Em; [by apply HQ|].
  destruct c; cbn; auto.
Qed.
End Triples.

(** ** What the threads of the reader keep

    Predicates on the request of the client, the stored times and the signal. *)
Section Requests.
Context (gmtoff : Z) (P : Z → gmap Z (Z * Z) → bool → Prop).
Context (Htime : ∀ ct tvs sg x, P ct tvs sg → ct ≠ 0 → P ct (<[ct := x]> tvs) true).

Definition requests (g : gps) : Prop := P (current_time g) (timevals g) (signalled g).

Lemma keeps_quality c : keeps requests (handle_quality c).
Proof using Type.
  unfold handle_quality. apply keeps_if; [|apply keeps_if; [by apply keeps_modify|apply keeps_throw]].
  intros g a g' H E. rewrite (bind_run (set_state _) _ _ tt _ eq_refl), (bind_run get _ _ _ _ eq_refl) in E.
  rewrite decide_False in E by done. by apply ret_Ok in E as [= -> ->].
Qed.

Lemma keeps_position inst : keeps requests (handle_position inst).
Proof using Type.
  assert (∀ f, keeps requests (set_latitude f)) by (intros; by apply keeps_modify).
  assert (∀ f, keeps requests (set_longitude f)) by (intros; by apply keeps_modify).
  assert (∀ f, keeps requests (set_altitude f)) by (intros; by apply keeps_modify).
  assert (∀ f, keeps requests (set_satellites f)) by (intros; by apply keeps_modify).
  pose proof keeps_quality. unfold handle_position, handle_angle.
  repeat first [apply keeps_bind; [auto 20 with keeps|intros ?]]. auto with keeps.
Qed.

Lemma keeps_time inst : keeps requests (handle_time gmtoff inst).
Proof using Htime.
  intros g a g' H E. unfold handle_time in E. rewrite (bind_run get _ _ _ _ eq_refl) in E.
  destruct (Z.eqb_spec (current_time g) 0); [by apply ret_Ok in E as [= -> ->]|].
  apply bind_Ok in E as (x & g1 & E1 & E). unfold lift in E1. destruct (parse_time inst); simplify_eq.
  rewrite (bind_run (write_time _ _) _ _ tt _ eq_refl), (bind_run (set_state _) _ _ tt _ eq_refl) in E.
  injection E as _ <-. unfold requests in *. cbn. by eapply Htime.
Qed.

Lemma keeps_msg : keeps requests (handle_msg gmtoff).
Proof using Htime.
  pose proof keeps_position. pose proof keeps_time.
  assert (∀ inst, keeps requests (handle_antenna inst)).
  { intros inst. assert (∀ f, keeps requests (set_fault f)) by (intros; by apply keeps_modify).
    unfold handle_antenna. auto 20 with keeps. }
  unfold handle_msg. apply keeps_bind; [auto with keeps|intros g]. auto 20 with keeps.
Qed.

Definition reader_requests (t : nmea) : Prop := requests (core t).

Lemma keeps_on_core {A} (m : stm gps A) : keeps requests m → keeps reader_requests (on_core m).
Proof using Type.
  intros Hm t a t' H E. unfold on_core in E. destruct (m (core t)) as [[b c]|] eqn:Em; simplify_eq.
  by eapply Hm.
Qed.
Lemma keeps_turn : keeps reader_requests (process_turn gmtoff).
Proof using Htime.
  unfold process_turn. apply keeps_bind; [apply keeps_get|intros t]. apply keeps_bind; [apply keeps_lift|].
  intros [[inst last]|]; [|apply keeps_ret]. apply keeps_bind; [|intros _].
  - intros t1 a t2 H E. unfold on_core in E.
    destruct ((set_inst inst;; handle_msg gmtoff) (core t1)) as [[[] c]|] eqn:Em; simplify_eq.
    rewrite (bind_run (set_inst inst) _ _ tt _ eq_refl) in Em. eapply keeps_msg; [|exact Em]. exact H.
  - intros t1 a t2 H E. rewrite (bind_run get _ _ _ _ eq_refl), (bind_run (put _) _ _ tt _ eq_refl) in E.
    by apply ret_Ok in E as [= -> ->].
Qed.
Lemma keeps_process_loop n : keeps reader_requests (process_loop (process_turn gmtoff) n).
Proof using Htime.
  induction n as [|n IH]; [apply keeps_throw|]. apply keeps_bind; [apply keeps_turn|].
  intros []; [done|apply keeps_ret].
Qed.
Lemma keeps_read m : keeps reader_requests (uart_read_thread_turn m).
Proof using Type. intros t [] t' H E. unfold reader_requests. by rewrite (read_core _ _ _ _ E). Qed.
Lemma read_process m : keeps reader_requests (uart_read_thread_turn m;; process_msg gmtoff).
Proof using Htime. apply keeps_bind; [apply keeps_read|]. intros _. apply keeps_process_loop. Qed.
End Requests.

(** What holds of the client's request and of the two clocks, while no thread wakes up
    without a signal. *)
Definition inv (P : Z → gmap Z (Z * Z) → bool → Prop) (F : Z → Z → Prop) (w : world) : Prop :=
  requests P (core (nm w)) ∧ F (kernel_secs w) (os_time w) ∧ Forall (fun x => x.2 = false) (coming w).

Section Seconds.
Context (gmtoff : Z) (P : Z → gmap Z (Z * Z) → bool → Prop) (F : Z → Z → Prop).
Context (Htime : ∀ ct tvs sg x, P ct tvs sg → ct ≠ 0 → P ct (<[ct := x]> tvs) true).

Lemma on_nm_inv {A} (m : stm nmea A) :
  keeps (reader_requests P) m → triple (inv P F) (on_nm m) (fun _ => inv P F) (inv P F).
Proof using Type.
  intros Hm. apply triple_on_nm; [done|]. intros w a t (Hp & Hf & Hc) E. split; [|done]. by apply (Hm _ _ _ Hp E).
Qed.

Lemma second_inv : triple (inv P F) (second gmtoff) (fun b w => b = false ∧ inv P F w) (inv P F).
Proof using Htime.
  unfold second. apply triple_world. intros w. destruct (coming w) as [|[c sp] cs] eqn:Ec.
  - apply triple_ret. by intros ? [-> H].
  - apply (triple_change _ _ _ _ (fun w' => sp = false ∧ inv P F w')).
    { intros ? [-> (Hp & Hf & Hc)]. rewrite Ec in Hc. apply Forall_cons in Hc as [Hsp Hc]. done. }
    destruct c as [|b c]; [by apply triple_ret|].
    apply (triple_bind _ _ _ _ (fun _ w' => sp = false ∧ inv P F w')); [|by intros; apply triple_ret].
    apply triple_on_nm; [by intros ? []|]. intros w1 a t [-> (Hp & Hf & Hc)] E. split; [done|]. split; [|done].
    refine (read_process gmtoff P Htime _ (nm w1) a t Hp E).
Qed.
Lemma sleep_inv n : triple (inv P F) (sleep gmtoff n) (fun _ => inv P F) (inv P F).
Proof using Htime.
  induction n as [|n IH]; [by apply triple_ret|]. cbn [sleep]. eapply triple_bind; [apply second_inv|].
  intros b. eapply triple_weaken; [apply IH|by intros ? []|done..].
Qed.
Lemma wait_inv n : triple (inv P F) (wait_ready gmtoff n) (fun _ => inv P F) (inv P F).
Proof using Htime.
  induction n as [|n IH]; cbn [wait_ready]; apply triple_world; intros w.
  - apply triple_if; intros _; apply triple_ret; by intros ? [-> ?].
  - apply triple_if; intros _; [apply triple_ret; by intros ? [-> ?]|].
    apply (triple_weaken (inv P F) (inv P F) _ _ _ (fun _ => inv P F)); [|by intros ? [-> ?]|done..].
    eapply triple_bind; [apply second_inv|]. intros b. eapply triple_weaken; [apply IH|by intros ? []|done..].
Qed.
End Seconds.

(** A client that is signalled has its time stored at [tv]. *)
Definition answers : Z → gmap Z (Z * Z) → bool → Prop := fun ct tvs sg =>
  (ct = 0 ∨ ct = tv) ∧ (sg = true → is_Some (tvs !! tv)).
Lemma answers_time ct tvs sg x : answers ct tvs sg → ct ≠ 0 → answers ct (<[ct := x]> tvs) true.
Proof. intros [[-> | ->] H] Hct; [done|]. split; [by right|]. intros _. rewrite lookup_insert_eq. by eexists. Qed.

(** Nobody asks, and [x] is stored at [tv]. *)
Definition stored (x : Z * Z) : Z → gmap Z (Z * Z) → bool → Prop := fun ct tvs _ => ct = 0 ∧ tvs !! tv = Some x.
Lemma stored_time y ct tvs sg x : stored y ct tvs sg → ct ≠ 0 → stored y ct (<[ct := x]> tvs) true.
Proof. by intros [-> _] H. Qed.

Definition ready_world (w : world) : Prop := requests answers (core (nm w)).

Lemma time_call_answers : keeps (requests answers) (time_call tv).
Proof.
  intros g a g' [Hc Hs] E. unfold time_call in E. rewrite (bind_run get _ _ _ _ eq_refl) in E.
  case_match; [by apply ret_Ok in E as [= -> ->]|].
  rewrite (bind_run (set_current_time _) _ _ tt _ eq_refl), (bind_run (set_state _) _ _ tt _ eq_refl) in E.
  apply ret_Ok in E as [= -> ->]. split; [by right|exact Hs].
Qed.

(** A thread that has been woken with the answer. *)
Lemma resume_stored g v g' :
  time_resume g = Ok (Some v, g') → is_Some (timevals g !! tv) → ∃ x, requests (stored x) g'.
Proof.
  intros E [x Hx]. exists x. unfold time_resume in E. rewrite (bind_run get _ _ _ _ eq_refl) in E.
  destruct (decide _); [by apply ret_Ok in E|].
  rewrite (bind_run (set_current_time 0) _ _ tt _ eq_refl) in E. apply ret_Ok in E as [= _ ->]. by split.
Qed.
Lemma resume_answers : keeps (requests answers) time_resume.
Proof.
  intros g a g' H E. unfold time_resume in E. rewrite (bind_run get _ _ _ _ eq_refl) in E.
  destruct (decide _); [by apply ret_Ok in E as [= -> ->]|].
  rewrite (bind_run (set_current_time 0) _ _ tt _ eq_refl) in E. apply ret_Ok in E as [= -> ->].
  destruct H as [_ H]. split; [by left|exact H].
Qed.

Lemma time_resume_code g r g' : time_resume g = Ok (r, g') → r = None ∨ r = Some 0 ∨ r = Some 2.
Proof.
  unfold time_resume. rewrite (bind_run get _ _ _ _ eq_refl). destruct (decide _).
  - intros [= -> ->]%ret_Ok. auto.
  - rewrite (bind_run (set_current_time 0) _ _ tt _ eq_refl). intros [= -> _]%ret_Ok. destruct (decide _); auto.
Qed.
Lemma time_call_code g r g' : time_call tv g = Ok (r, g') → r = None ∨ r = Some 1.
Proof.
  unfold time_call. rewrite (bind_run get _ _ _ _ eq_refl). case_match.
  - intros [= -> _]%ret_Ok. auto.
  - rewrite (bind_run (set_current_time _) _ _ tt _ eq_refl), (bind_run (set_state _) _ _ tt _ eq_refl).
    intros [= -> _]%ret_Ok. auto.
Qed.

Lemma uart_init_answers fd reset : keeps (requests answers) (uart_init fd reset).
Proof.
  assert (∀ m, keeps (requests answers) (uart_write m)).
  { intros m g a g' H E. unfold uart_write in E.
    rewrite (bind_run get _ _ _ _ eq_refl), (bind_run (put _) _ _ tt _ eq_refl) in E.
    case_match; [done|]. by injection E as _ <-. }
  assert (∀ st, keeps (requests answers) (set_state st)) by (intros; by apply keeps_modify).
  unfold uart_init, init_gps. auto 20 with keeps.
Qed.

(** The answers of the call: with 0 the time is stored. *)
Definition answered (F : Z → Z → Prop) (v : Z) (w : world) : Prop :=
  (v = 0 ∧ ∃ x, inv (stored x) F w) ∨ ((v = 1 ∨ v = 2) ∧ inv answers F w).

Section Call.
Context (gmtoff : Z) (F : Z → Z → Prop).

Lemma await_answered n : triple (inv answers F) (await gmtoff n) (answered F) (inv answers F).
Proof using Type.
  induction n as [|n IH]; [apply triple_stop; done|]. cbn [await].
  eapply triple_bind; [apply (second_inv gmtoff answers F answers_time)|]. intros spurious.
  apply triple_world. intros w. apply triple_if; intros Hb.
  2: { eapply triple_weaken; [apply IH|by intros ? [-> [_ ?]]|done..]. }
  apply (triple_bind _ _ _ _ (fun r w' => match r with Some v => answered F v w' | None => inv answers F w' end)).
  - apply triple_on_nm; [by intros ? [-> [_ ?]]|]. intros w1 r t [-> [-> (Hp & Hf & Hc)]] E.
    cbn [orb] in Hb. unfold on_core in E.
    destruct ((set_signalled false;; time_resume) (core (nm w))) as [[r' g]|] eqn:Er; simplify_eq.
    rewrite (bind_run (set_signalled false) _ _ tt _ eq_refl) in Er. destruct Hp as [Hct Hs].
    match type of Er with time_resume ?g1 = _ => assert (requests answers g1) as Hg by (by split) end.
    pose proof (resume_answers _ _ _ Hg Er) as Ha. destruct r as [v|]; [|done].
    destruct (time_resume_code _ _ _ Er) as [|[[= ->]|[= ->]]]; [done|left|right].
    + destruct (resume_stored _ _ _ Er (Hs Hb)) as [x Hx]. split; [done|]. by exists x.
    + split; [auto|]. by split.
  - intros [v|]; [|apply IH]. by apply triple_ret.
Qed.

Lemma getGPStimeUTC_answered : triple (inv answers F) (getGPStimeUTC gmtoff) (answered F) (inv answers F).
Proof using Type.
  unfold getGPStimeUTC.
  apply (triple_bind _ _ _ _ (fun r w' => (r = None ∨ r = Some 1) ∧ inv answers F w')).
  - apply triple_on_nm; [done|]. intros w r t (Hp & Hf & Hc) E. unfold on_core in E.
    destruct (time_call tv (core (nm w))) as [[r' g]|] eqn:Er; simplify_eq. split.
    + by apply (time_call_code _ _ _ Er).
    + split; [|done]. by apply (time_call_answers _ _ _ Hp Er).
  - intros [v|].
    + apply triple_ret. intros w [[Hr|Hr] H]; [done|]. injection Hr as ->. right. auto.
    + apply triple_world. intros w. eapply triple_weaken; [apply await_answered|by intros ? [-> [_ ?]]|done..].
Qed.
End Call.

(** ** The clocks *)

(** The counter holds the seconds stored at [tv], and the clock of the system, which
    was at [t], too unless the system refused it. *)
Definition clock_set (t : Z) (w : world) : Prop :=
  ∃ x, inv (stored x) (fun k' t' => k' = u64 x.1 ∧ (t' = x.1 ∨ t' = t)) w.
Definition untouched (k t : Z) (w : world) : Prop := kernel_secs w = k ∧ os_time w = t.

(** A system call leaves the reader and the clocks to what follows. *)
Lemma triple_syscall {A} P F (f : bool → prog A) Q E :
  (∀ b, triple (inv P F) (f b) Q E) → triple (inv P F) (ok ← syscall; f ok) Q E.
Proof.
  intros H. apply (triple_bind _ _ _ _ (fun _ => inv P F)); [|exact H]. unfold syscall.
  apply triple_world. intros w. eapply triple_change; [|by apply triple_ret]. by intros ? [-> ?].
Qed.

Section Set_clocks.
Context (gmtoff k t : Z) (x : Z * Z).
Let E (w : world) : Prop := untouched k t w ∨ clock_set t w.
Let set_now (w : world) : Prop := inv (stored x) (fun k' t' => k' = u64 x.1 ∧ (t' = x.1 ∨ t' = t)) w.

Lemma set_seconds_triple :
  triple (inv (stored x) (fun k' t' => k' = k ∧ t' = t)) (set_seconds (u64 x.1)) (fun _ => set_now) E.
Proof using Type.
  apply triple_syscall. intros [].
  - intros w (Hp & [Hk Ht] & Hc). cbn. split; [done|]. split; [|done]. cbn. auto.
  - apply triple_stop; [|done]. intros w (_ & H & _). by left.
Qed.
Lemma get_mean_value_triple : triple set_now get_mean_value (fun _ => set_now) E.
Proof using Type.
  apply triple_syscall. intros []; [by apply triple_ret|]. apply triple_stop; [|done]. intros w H. right. by exists x.
Qed.
Lemma stime_triple : triple set_now (stime x.1) (fun _ => set_now) E.
Proof using Type.
  apply triple_syscall. intros []; [|by apply triple_ret].
  intros w (Hp & [Hk Ht] & Hc). cbn. split; [done|]. split; [|done]. cbn. auto.
Qed.

Lemma set_clocks_triple :
  triple (inv (stored x) (fun k' t' => k' = k ∧ t' = t))
    (s ← tv_sec; set_seconds (u64 s);; get_mean_value;; stime s;; sleep gmtoff 2;; mret 0)
    (fun r w => r = 0 ∧ clock_set t w) E.
Proof using Type.
  apply (triple_bind _ _ _ _ (fun s w => s = x.1 ∧ inv (stored x) (fun k' t' => k' = k ∧ t' = t) w)).
  { apply triple_world. intros w. apply triple_ret. intros ? [-> H]. split; [|done].
    destruct H as ([_ ->] & _). generalize x. by intros []. }
  intros s. apply triple_fact. intros ->.
  eapply triple_bind; [apply set_seconds_triple|intros []].
  eapply triple_bind; [apply get_mean_value_triple|intros []].
  eapply triple_bind; [apply stime_triple|intros []].
  apply (triple_bind _ _ _ _ (fun _ => clock_set t)); [|by intros []; apply triple_ret].
  eapply triple_weaken; [apply (sleep_inv gmtoff (stored x) (fun k' t' => k' = u64 x.1 ∧ (t' = x.1 ∨ t' = t)) (stored_time x))|done|..].
  - intros [] w H. by exists x.
  - intros w H. right. by exists x.
Qed.
End Set_clocks.

Lemma start_inv gmtoff open o F : triple (inv answers F) (start gmtoff open o) (fun _ => inv answers F) (inv answers F).
Proof.
  apply triple_if; intros _; [by apply triple_stop|]. eapply triple_bind; [apply (sleep_inv gmtoff answers F answers_time)|].
  intros []. apply on_nm_inv, keeps_on_core, uart_init_answers.
Qed.

Lemma main_triple gmtoff open argv k t :
  triple (inv answers (fun k' t' => k' = k ∧ t' = t)) (main gmtoff open argv)
    (fun r w => r = -1 ∧ untouched k t w ∨ r = 0 ∧ clock_set t w)
    (fun w => untouched k t w ∨ clock_set t w).
Proof.
  assert (∀ P w, inv P (fun k' t' => k' = k ∧ t' = t) w → untouched k t w) as Hu by (by intros P w (_ & ? & _)).
  assert (∀ P, triple (inv P (fun k' t' => k' = k ∧ t' = t)) (mret (-1) : prog Z)
    (fun r w => r = -1 ∧ untouched k t w ∨ r = 0 ∧ clock_set t w) (fun w => untouched k t w ∨ clock_set t w)) as Hfail.
  { intros P. apply triple_ret. intros w H. left. split; [done|]. by eapply Hu. }
  unfold main. apply triple_if; intros _; [done|].
  eapply triple_bind with (R := fun _ => inv answers (fun k' t' => k' = k ∧ t' = t)).
  { intros w Hw. unfold of_result. destruct (parseargs argv) as [|[]]; cbn; eauto. }
  intros [o|]; [|done].
  eapply triple_bind; [eapply triple_weaken; [apply start_inv|done|done|eauto]|intros []].
  eapply triple_bind; [eapply triple_weaken; [apply (wait_inv gmtoff answers (fun k' t' => k' = k ∧ t' = t) answers_time)|done|done|eauto]|intros ready].
  destruct ready; [|done]. cbn [negb].
  eapply triple_bind; [eapply triple_weaken; [apply getGPStimeUTC_answered|done|done|eauto]|intros code].
  intros w [[-> [x Hx]]|[Hv Hx]].
  - cbn [orb Z.eqb]. revert w Hx. eapply triple_weaken; [apply set_clocks_triple|done|by right|done].
  - assert ((code =? 1) || (code =? 2) = true) as -> by (destruct Hv as [-> | ->]; done). by apply (Hfail answers).
Qed.


(** A receiver with a fix sends its position, then the date 2002-07-04. *)
Definition gga_fix : list Z := str "GPGGA,201529.00,4717.11,N,00833.91,E,1,08,1.01,499.6,M,48.0,M,,".
Definition zda_date : list Z := zda 20 15 30 (str ".00") 4 7 2002 (str "00,00").
Definition on_line (fields : list Z) : list Z := frame (fields ++ ch "*" :: hex2 (xor_all fields)).
Definition some_world : world :=
  mk_world (mk_reader ring_init (gps_init [])) ((fun l => (l, false)) <$> [[]; []; []; on_line gga_fix; []; on_line zda_date]) 0 0 [] 0.

(** Read on 2002-07-04, the counter is set to the time of 2002-08-04. *)
Definition some_args : list (list Z) := [str "init_counter"; str "-t"; str "5"].


(** What an outcome and its state show from outside. *)
Definition seen (r : outcome Z * world) : outcome Z * Z * Z := (r.1, kernel_secs r.2, os_time r.2).

(** There the counter is set, on 2002-07-04, to the time of 2002-08-04: the
    answers of the receiver are a month late. *)
Example init_counter_month_late :
  seen (main 0 (fun _ => 3) some_args some_world) =
  (Value 0, utc 2002 8 4 20 15 30, utc 2002 8 4 20 15 30).
Proof. vm_compute. reflexivity. Qed.

(** When the counter cannot be read back the program gives up with -1, but the counter
    has been set and the clock has not. *)
Example exits_with_the_counter_set :
  seen (main 0 (fun _ => 3) some_args (set_syscalls [true; false] some_world)) =
  (Exits (-1), utc 2002 8 4 20 15 30, 0).
Proof. vm_compute. reflexivity. Qed.

(** A position with a fix ends the state of the query without a signal and without an
    answer.  A thread that then wakes up by itself takes this for the answer: both
    clocks are set to what the stack holds, and the program reports success. *)
Example woken_without_answer :
  seen (main 0 (fun _ => 3) some_args
    (mk_world (mk_reader ring_init (gps_init []))
       [([], false); ([], false); ([], false); (on_line gga_fix, false); (on_line gga_fix, true)] 0 0 [] 77)) =
  (Value 0, 77, 77).
Proof. vm_compute. reflexivity. Qed.

(** The two options cannot be given together, and what follows an option and
    its value is skipped. *)
Example both_options_refused : ∀ gmtoff open w,
  main gmtoff open [str "init_counter"; str "-d"; str "/dev/pts/1"; str "-t"; str "30"] w = (Value (-1), w) ∧
  parseargs [str "init_counter"; str "-t"; str "30"; str "anything"] = Ok (Some (mk_options (Some (str "/dev/pts/0")) 30)).
Proof. done. Qed.
