(* ===== verification/FilterPrograms.v ===== *)
(** * The programs that make the driver's filters

    Models [rt2501/sources/Module/user/]: [mkfilter.c] and [rmfilter.c] parse
    their arguments, [proc_write.c] writes the request to [/proc/synch_filters],
    where [Sync.procfile_write] takes it; and the functions of [rtmp_main.c] that
    load and unload the driver, with the proc file and the filters. *)

From S2P Require Import Prelude CString Klist Chains Registry ProcListing Sync DriverListing.

(** ** proc_write.c *)

(** What the environment decides of a request: whether [open] succeeds, whether
    the kernel can copy it, and the address of a new filter. *)
Record request_env : Type := mk_env { opened : bool; copied : bool; alloc : Z }.

(** The bytes of a [filter]; the three after [proto] are never assigned. *)
Definition filter_bytes (padding : list Z) (f : flt) : list Z :=
  [u8 (fl_proto f)] ++ padding ++ le_bytes 4 (fl_dst_addr f) ++ le_bytes 4 (fl_src_addr f)
    ++ le_bytes 2 (fl_dst_port f) ++ le_bytes 2 (fl_src_port f).

(** [open], [write] and [close]; the status only decides what is printed. *)
Definition send_request (e : request_env) (buff : list Z) : stm synch unit :=
  if opened e then Sync.procfile_write (copied e) (alloc e) buff;; mret tt else mret tt.

Definition write_to_proc_entry (e : request_env) (padding : list Z)
    (cmd daddr saddr dport sport index : Z) : stm synch unit :=
  if cmd =? ch "R" then
    let buff := <[0%nat := ch "R"]> (replicate 18 0) in
    let buff := <[2%nat := ch ":"]> buff in
    buff ← lift (set_bytes buff 2 (filter_bytes padding (mk_flt 17 daddr saddr dport sport)));
    send_request e buff
  else if cmd =? ch "U" then
    let buff := <[0%nat := ch "U"]> (replicate 3 0) in
    let buff := <[2%nat := ch ":"]> buff in
    buff ← lift (set_bytes buff 2 [u8 index]);
    send_request e buff
  else mret tt.

(** ** mkfilter.c *)

Record options : Type := mk_options { daddr : Z; saddr : Z; dport : Z; sport : Z }.

(** The loop over the arguments. [argv[argc]] is NULL: an option without its
    value has the library read it. A string that is no address leaves the address
    as it was, since [inet_pton] returns 0 for it. *)
Fixpoint mkfilter_args (args : list (list Z)) (o : options) : result options :=
  match args with
  | [] => Ok o
  | a :: rest =>
      if streq a (str "-da") then
        match rest with
        | v :: rest' => mkfilter_args rest' (mk_options (default (daddr o) (inet_pton v)) (saddr o) (dport o) (sport o))
        | [] => Crash NullDeref
        end
      else if streq a (str "-sa") then
        match rest with
        | v :: rest' => mkfilter_args rest' (mk_options (daddr o) (default (saddr o) (inet_pton v)) (dport o) (sport o))
        | [] => Crash NullDeref
        end
      else if streq a (str "-dp") then
        match rest with
        | v :: rest' => mkfilter_args rest' (mk_options (daddr o) (saddr o) (htons (atoi v)) (sport o))
        | [] => Crash NullDeref
        end
      else if streq a (str "-sp") then
        match rest with
        | v :: rest' => mkfilter_args rest' (mk_options (daddr o) (saddr o) (dport o) (htons (atoi v)))
        | [] => Crash NullDeref
        end
      else mkfilter_args rest o
  end.

(** The arguments after the program's name. *)
Definition mkfilter_main (e : request_env) (padding : list Z) (args : list (list Z)) : stm synch Z :=
  if bool_decide (args = []) then mret 1
  else
    o ← lift (mkfilter_args args (mk_options 0 0 0 0));
    write_to_proc_entry e padding (ch "R") (daddr o) (saddr o) (sport o) (dport o) 0;;
    mret 0.

(** ** rmfilter.c *)

Definition rmfilter_main (e : request_env) (args : list (list Z)) : stm synch Z :=
  match args with
  | [a] => write_to_proc_entry e [] (ch "U") 0 0 0 0 (u8 (atoi a));; mret 0
  | _ => mret 1
  end.

(** ** rtmp_main.c *)

(** [usb]: the result of [usb_register]. *)
Definition usb_rtusb_init (entry : bool) (grants : list bool) (usb : Z) : stm table Z :=
  initialize_proc_filters entry grants;;
  mret usb.
Definition usb_rtusb_exit : stm table unit :=
  teardown_proc_filters;;
  on_synch clean_filters.

(** ** What a request does *)

Lemma htons_range z : is_u16 (htons z).
Proof.
  unfold htons, bswap. pose proof (le_val_range (reverse (le_bytes 2 (u16 z)))) as H.
  rewrite bytes_ok_reverse, length_reverse, length_le_bytes in H. apply H, le_bytes_ok.
Qed.

Definition options_ok (o : options) : Prop :=
  is_u32 (daddr o) ∧ is_u32 (saddr o) ∧ is_u16 (dport o) ∧ is_u16 (sport o).

Lemma inet_pton_range bs d : is_u32 d → is_u32 (default d (inet_pton bs)).
Proof.
  intros Hd. unfold inet_pton.
  destruct (split_on 46 bs []) as [|x1 [|x2 [|x3 [|x4 [|]]]]]; try exact Hd; simpl.
  destruct (octet x1) eqn:E1; [|exact Hd]. destruct (octet x2) eqn:E2; [|exact Hd].
  destruct (octet x3) eqn:E3; [|exact Hd]. destruct (octet x4) eqn:E4; [|exact Hd]. simpl.
  apply octet_range in E1, E2, E3, E4. lia.
Qed.

Lemma mkfilter_args_ok n args o o' :
  (length args ≤ n)%nat → options_ok o → mkfilter_args args o = Ok o' → options_ok o'.
Proof.
  revert args o. induction n as [|n IH]; intros [|a rest] o Hn Ho; simpl length in *; try lia; try (intros [= <-]; exact Ho).
  assert (∀ rest' o1, (length rest' ≤ length rest)%nat → options_ok o1 → mkfilter_args rest' o1 = Ok o' → options_ok o') as Hrec.
  { intros rest' o1 Hr. apply IH. lia. }
  destruct Ho as (H1 & H2 & H3 & H4). cbn [mkfilter_args].
  repeat (case_test; [destruct rest as [|v rest]; [discriminate|] | clear E]);
    apply Hrec; simpl length; try lia; unfold options_ok; simpl; refine (conj _ (conj _ (conj _ _))); try assumption;
    first [apply inet_pton_range; assumption | apply htons_range].
Qed.

Lemma le_bytes_word w n z : 0 ≤ z < 256 ^ Z.of_nat n → le_bytes n z = w → le_val w = z.
Proof. intros Hz <-. by rewrite le_val_le_bytes, Z.mod_small. Qed.

Lemma take_register al c0 pr p1 p2 p3 d0 d1 d2 d3 s0 s1 s2 s3 q0 q1 r0 r1 s :
  al ≠ 0 → nfilters s < 256 →
  Sync.procfile_write true al [ch "R"; c0; pr; p1; p2; p3; d0; d1; d2; d3; s0; s1; s2; s3; q0; q1; r0; r1] s =
    Ok (18, set_filters (<[Z.to_nat (nfilters s) := al]> (sy_chains s)) (u8 (nfilters s + 1))
      (<[al := mk_flt pr (le_val [d0; d1; d2; d3]) (le_val [s0; s1; s2; s3]) (le_val [q0; q1]) (le_val [r0; r1])]> (heap s)) s).
Proof.
  intros Hal Hn. unfold Sync.procfile_write.
  set (bs := ch "R" :: _). change (Z.of_nat (length bs)) with 18. change (bs ++ _) with bs.
  change (2 + sizeof_filter <? 18) with false. change (hd 0 bs =? ch "R") with true.
  change (18 - 2 =? sizeof_filter) with true. rewrite (proj2 (Z.eqb_neq al 0) Hal). cbv iota. cbn [negb].
  change (nth_byte bs 2) with (Ok pr). change (rd32 bs 6) with (Ok (le_val [d0; d1; d2; d3])).
  change (rd32 bs 10) with (Ok (le_val [s0; s1; s2; s3])). change (rd16 bs 14) with (Ok (le_val [q0; q1])).
  change (rd16 bs 16) with (Ok (le_val [r0; r1])).
  do 5 rewrite (bind_run (lift (Ok _)) _ _ _ _ eq_refl). rewrite (bind_run (modify _) _ _ _ _ eq_refl).
  unfold register_filter. erewrite bind_run; [reflexivity|].
  rewrite (bind_run get _ _ _ _ eq_refl). cbv beta.
  cbn [nfilters]. rewrite (proj2 (Z.ltb_lt _ MAX_FILTERS) Hn). reflexivity.
Qed.

(** The kernel stores the filter of a request as it was written. *)
Lemma register_request e padding f s :
  opened e = true → copied e = true → alloc e ≠ 0 → length padding = 3%nat → nfilters s < 256 →
  is_u32 (fl_dst_addr f) → is_u32 (fl_src_addr f) → is_u16 (fl_dst_port f) → is_u16 (fl_src_port f) → fl_proto f = 17 →
  write_to_proc_entry e padding (ch "R") (fl_dst_addr f) (fl_src_addr f) (fl_dst_port f) (fl_src_port f) 0 s =
    Ok (tt, set_filters (<[Z.to_nat (nfilters s) := alloc e]> (sy_chains s)) (u8 (nfilters s + 1))
              (<[alloc e := f]> (heap s)) s).
Proof.
  destruct f as [pr da sa dp sp]; cbn [fl_proto fl_dst_addr fl_src_addr fl_dst_port fl_src_port]. intros Ho Hc Hal Hp Hn H1 H2 H3 H4 ->.
  destruct padding as [|p1 [|p2 [|p3 [|]]]]; try discriminate Hp.
  unfold write_to_proc_entry, filter_bytes. cbn [fl_proto fl_dst_addr fl_src_addr fl_dst_port fl_src_port].
  destruct (le_bytes 4 da) as [|d0 [|d1 [|d2 [|d3 [|]]]]] eqn:Ed; try (simpl in Ed; discriminate Ed).
  destruct (le_bytes 4 sa) as [|s0 [|s1 [|s2 [|s3 [|]]]]] eqn:Es; try (simpl in Es; discriminate Es).
  destruct (le_bytes 2 dp) as [|q0 [|q1 [|]]] eqn:Eq; try (simpl in Eq; discriminate Eq).
  destruct (le_bytes 2 sp) as [|r0 [|r1 [|]]] eqn:Er; try (simpl in Er; discriminate Er).
  apply le_bytes_word in Ed, Es, Eq, Er; [|lia..]. rewrite <- Ed, <- Es, <- Eq, <- Er.
  change (ch "R" =? ch "R") with true. cbv iota zeta.
  erewrite bind_run by reflexivity. unfold send_request. rewrite Ho, Hc.
  erewrite bind_run; [reflexivity|]. by apply take_register.
Qed.

(** [mkfilter] adds one filter, with the addresses of its options, but with the
    ports exchanged. *)
Definition made (o : options) : flt := mk_flt 17 (daddr o) (saddr o) (sport o) (dport o).
Definition added (p : Z) (f : flt) (s : synch) : synch :=
  set_filters (<[Z.to_nat (nfilters s) := p]> (sy_chains s)) (u8 (nfilters s + 1)) (<[p := f]> (heap s)) s.

Lemma mkfilter_run e padding args o s :
  args ≠ [] → mkfilter_args args (mk_options 0 0 0 0) = Ok o →
  opened e = true → copied e = true → alloc e ≠ 0 → length padding = 3%nat → nfilters s < 256 →
  mkfilter_main e padding args s = Ok (0, added (alloc e) (made o) s).
Proof.
  intros Ha Ho H1 H2 H3 H4 H5. unfold mkfilter_main. rewrite bool_decide_eq_false_2 by exact Ha.
  erewrite bind_run by (unfold lift; rewrite Ho; reflexivity).
  apply (mkfilter_args_ok (length args)) in Ho; [|lia|repeat split; simpl; lia]. destruct Ho as (Hd & Hs & Hp & Hq).
  erewrite bind_run; [reflexivity|].
  apply (register_request e padding (made o) s); try assumption. reflexivity.
Qed.

(** [clean_filters] frees each filter of the chain once. *)
Lemma clean_loop_run n i s (l : list Z) :
  NoDup l → length l = n → 0 ≤ i →
  (∀ k p, l !! k = Some p → sy_chains s !! (Z.to_nat i + k)%nat = Some p ∧ p ≠ 0 ∧ is_Some (heap s !! p)) →
  ∃ s', clean_loop n i s = Ok (tt, s') ∧ nfilters s' = nfilters s ∧ sy_chains s' = sy_chains s ∧
    ∀ p, heap s' !! p = if bool_decide (p ∈ l) then None else heap s !! p.
Proof.
  intros Hnd <-. revert i s. induction Hnd as [|p l Hp Hnd IH]; intros i s Hi Hl.
  { exists s. done. }
  cbn [length clean_loop]. rewrite (bind_run get _ _ _ _ eq_refl).
  destruct (Hl 0%nat p eq_refl) as (Hc & Hp0 & [f Hf]). rewrite Nat.add_0_r in Hc.
  erewrite bind_run by (unfold lift, nth_filter; rewrite Hc; reflexivity).
  erewrite bind_run by (unfold lift, free_flt; rewrite (proj2 (Z.eqb_neq p 0) Hp0), Hf; reflexivity).
  rewrite (bind_run (put _) _ _ _ _ eq_refl).
  edestruct (IH (i + 1)) as (s' & E & Hn & Hch & Hh); [lia| |exists s'; split; [exact E|]].
  { intros k q Hq. destruct (Hl (S k) q Hq) as (Hc' & Hq0 & Hf'). simpl.
    replace (Z.to_nat (i + 1) + k)%nat with (Z.to_nat i + S k)%nat by lia. split; [done|]. split; [done|].
    rewrite lookup_delete_ne; [done|]. intros ->. apply Hp. by eapply list_elem_of_lookup_2. }
  simpl in *. split; [done|]. split; [done|]. intros q. rewrite Hh.
  destruct (decide (q = p)) as [-> | Hne].
  - rewrite (bool_decide_eq_false_2 (p ∈ l)), bool_decide_eq_true_2 by (done || constructor).
    apply lookup_delete_eq.
  - rewrite lookup_delete_ne by done.
    destruct (decide (q ∈ l)); [rewrite !bool_decide_eq_true_2 by (done || by constructor)
      |rewrite !bool_decide_eq_false_2 by (try done; rewrite elem_of_cons; naive_solver)]; done.
Qed.

(** [memmove] of no bytes. *)
Lemma words_concat l : Forall (fun w => is_u32 w) l → words (length l) (concat (le_bytes 4 <$> l)) = l.
Proof.
  induction 1 as [|w l Hw _ IH]; [done|]. cbn [length words fmap list_fmap concat].
  rewrite take_app_le, take_ge, drop_app_ge by (rewrite length_le_bytes; lia).
  rewrite length_le_bytes, Nat.sub_diag, drop_0, IH, le_val_le_bytes, Z.mod_small by exact Hw. done.
Qed.

Lemma length_concat_words (l : list Z) : length (concat (le_bytes 4 <$> l)) = (4 * length l)%nat.
Proof. induction l as [|w l IH]; [done|]. rewrite fmap_cons. cbn [concat]. rewrite length_app, length_le_bytes, IH. simpl. lia. Qed.

Lemma memmove_nothing l dst src :
  Forall (fun w => is_u32 w) l → 0 ≤ dst ≤ src → src ≤ Z.of_nat (length l) → memmove_chains l dst src 0 = Ok l.
Proof.
  intros Hl Hd Hs. unfold memmove_chains, sub_bytes. set (bs := concat _).
  assert (length bs = (4 * length l)%nat) as Hb by apply length_concat_words.
  rewrite !(proj2 (Z.leb_le _ _)) by lia. cbn [andb mbind result_bind]. change (Z.to_nat 0) with 0%nat.
  rewrite take_0. unfold set_bytes. change (length []) with 0%nat. rewrite !(proj2 (Z.leb_le _ _)) by lia.
  cbn [andb mbind result_bind app]. rewrite Nat.add_0_r, take_drop. f_equal. by apply words_concat.
Qed.

(** [rmfilter] with a number writes it as the index. *)
Lemma rmfilter_run e i s s' :
  opened e = true → copied e = true → 0 ≤ i < nfilters s → i < 256 →
  unregister_filter i s = Ok (tt, s') → rmfilter_main e [dec_u i] s = Ok (0, s').
Proof.
  intros Ho Hc Hi Hlt Hu. unfold rmfilter_main. rewrite <- (app_nil_r (dec_u i)), atoi_dec_u by (done || lia).
  erewrite bind_run; [reflexivity|]. unfold write_to_proc_entry.
  change (ch "U" =? ch "R") with false. change (ch "U" =? ch "U") with true. cbv iota zeta.
  rewrite !(u8_small i) by lia. erewrite bind_run by reflexivity. unfold send_request. rewrite Ho, Hc.
  erewrite bind_run; [reflexivity|]. unfold Sync.procfile_write. cbn [negb].
  set (bs := take _ _ ++ _). change bs with [ch "U"; 0; i]. change (2 + sizeof_filter <? Z.of_nat (length [ch "U"; 0; i])) with false.
  cbv iota zeta. change (hd 0 ([ch "U"; 0; i] ++ _) =? ch "R") with false.
  change (hd 0 ([ch "U"; 0; i] ++ _) =? ch "U") with true. cbv iota.
  erewrite bind_run by reflexivity. rewrite (bind_run get _ _ _ _ eq_refl).
  rewrite (proj2 (Z.leb_gt _ _)) by lia. erewrite bind_run; [reflexivity|exact Hu].
Qed.

(** C36: [mkfilter] with addresses and ports registers one filter with these
    addresses, but with the destination port as the source port and the other way
    round; [rmfilter] with the number the filter has got takes it out again: the
    filters and their number are as before. *)
Theorem mkfilter_rmfilter e e' padding dst src da sa dp sp s :
  inet_pton dst = Some da → inet_pton src = Some sa → 0 ≤ dp < 2 ^ 16 → 0 ≤ sp < 2 ^ 16 →
  opened e = true → copied e = true → alloc e ≠ 0 → is_u32 (alloc e) → heap s !! alloc e = None →
  length padding = 3%nat → opened e' = true → copied e' = true →
  0 ≤ nfilters s < 255 → length (sy_chains s) = 256%nat → Forall (fun w => is_u32 w) (sy_chains s) →
  ∃ s1 s2,
    mkfilter_main e padding [str "-da"; dst; str "-sa"; src; str "-dp"; dec_u dp; str "-sp"; dec_u sp] s = Ok (0, s1) ∧
    nfilters s1 = nfilters s + 1 ∧ sy_chains s1 !! Z.to_nat (nfilters s) = Some (alloc e) ∧
    heap s1 = <[alloc e := mk_flt 17 da sa (htons sp) (htons dp)]> (heap s) ∧
    rmfilter_main e' [dec_u (nfilters s)] s1 = Ok (0, s2) ∧
    nfilters s2 = nfilters s ∧ heap s2 = heap s ∧
    take (Z.to_nat (nfilters s)) (sy_chains s2) = take (Z.to_nat (nfilters s)) (sy_chains s).
Proof.
  intros Hd Hs Hdp Hsp H1 H2 H3 H3' H4 H5 H6 H7 H8 H9 H10.
  set (args := [_; _; _; _; _; _; _; _]). set (o := mk_options da sa (htons dp) (htons sp)).
  assert (mkfilter_args args (mk_options 0 0 0 0) = Ok o) as Ho.
  { subst args. change (mkfilter_args _ _) with
      (Ok (mk_options (default 0 (inet_pton dst)) (default 0 (inet_pton src)) (htons (atoi (dec_u dp))) (htons (atoi (dec_u sp))))).
    rewrite Hd, Hs, <- (app_nil_r (dec_u dp)), <- (app_nil_r (dec_u sp)), !atoi_dec_u by (done || lia). done. }
  set (s1 := added (alloc e) (made o) s).
  assert (sy_chains s1 !! Z.to_nat (nfilters s) = Some (alloc e)) as Hl.
  { apply list_lookup_insert_eq. lia. }
  assert (nfilters s1 = nfilters s + 1) as Hn by (apply u8_small; lia).
  assert (Forall (fun w => is_u32 w) (sy_chains s1)) as Hf by by apply Forall_insert.
  eexists s1, _. split; [|split; [exact Hn|split; [exact Hl|split; [reflexivity|split]]]].
  - apply mkfilter_run; try assumption; [discriminate|lia].
  - apply rmfilter_run; [assumption..|lia|lia|]. unfold unregister_filter.
    rewrite (bind_run get _ _ _ _ eq_refl). erewrite bind_run by (unfold lift, nth_filter; rewrite Hl; reflexivity).
    rewrite (proj2 (Z.eqb_neq _ _) H3).
    erewrite bind_run by (unfold lift, free_flt; rewrite (proj2 (Z.eqb_neq _ _) H3); simpl; rewrite lookup_insert_eq; reflexivity).
    erewrite bind_run; [reflexivity|]. cbv zeta. rewrite Hn, u8_small by lia.
    replace (nfilters s + 1 - 1 - nfilters s) with 0 by lia. unfold lift. rewrite memmove_nothing; [reflexivity|done|lia|].
    simpl. rewrite length_insert. lia.
  - cbn [nfilters heap sy_chains set_filters]. split; [rewrite ?Hn, ?u8_small; lia|]. split; [by apply delete_insert_id|].
    apply take_insert_ge. lia.
Qed.

Lemma mkfilter_rmfilter_witness :
  ∃ s1 s2,
    mkfilter_main (mk_env true true 64) [0; 0; 0]
      [str "-da"; str "10.0.0.1"; str "-sa"; str "10.0.0.2"; str "-dp"; dec_u 57843; str "-sp"; dec_u 4000] synch_init = Ok (0, s1) ∧
    nfilters s1 = 1 ∧ sy_chains s1 !! 0%nat = Some 64 ∧
    heap s1 = {[ 64 := mk_flt 17 0x0100000a 0x0200000a (htons 4000) (htons 57843) ]} ∧
    rmfilter_main (mk_env true true 0) [dec_u 0] s1 = Ok (0, s2) ∧ nfilters s2 = 0 ∧ heap s2 = ∅.
Proof.
  assert (Forall (fun w => is_u32 w) (sy_chains synch_init)) as Hf by (apply Forall_replicate; lia).
  destruct (mkfilter_rmfilter (mk_env true true 64) (mk_env true true 0) [0; 0; 0] (str "10.0.0.1") (str "10.0.0.2")
    0x0100000a 0x0200000a 57843 4000 synch_init eq_refl eq_refl ltac:(lia) ltac:(lia) eq_refl eq_refl
    ltac:(discriminate) ltac:(simpl; lia) eq_refl eq_refl eq_refl eq_refl ltac:(simpl; lia) eq_refl Hf)
    as (s1 & s2 & H1 & H2 & H3 & H4 & H5 & H6 & H7 & _).
  exists s1, s2. split; [exact H1|]. split; [exact H2|]. split; [exact H3|]. split; [exact H4|].
  split; [exact H5|]. split; [exact H6|exact H7].
Defined.

(** ** From loading to unloading *)

(** A run of [mkfilter] whose request reaches the kernel. *)
Record mkrun : Type := mk_run { run_at : Z; run_padding : list Z; run_args : list (list Z) }.
Definition run_ok (r : mkrun) : Prop :=
  run_at r ≠ 0 ∧ length (run_padding r) = 3%nat ∧ run_args r ≠ [] ∧
  ∃ o, mkfilter_args (run_args r) (mk_options 0 0 0 0) = Ok o.
Fixpoint session (runs : list mkrun) : stm table unit :=
  match runs with
  | [] => mret tt
  | r :: runs' => on_synch (mkfilter_main (mk_env true true (run_at r)) (run_padding r) (run_args r));; session runs'
  end.

(** The chain holds exactly the filters in memory. *)
Definition owned (s : synch) (l : list Z) : Prop :=
  NoDup l ∧ nfilters s = Z.of_nat (length l) ∧ length (sy_chains s) = 256%nat ∧
  (∀ k p, l !! k = Some p → sy_chains s !! k = Some p ∧ p ≠ 0) ∧ (∀ p, is_Some (heap s !! p) ↔ p ∈ l).

Lemma owned_added s l p f :
  owned s l → p ∉ l → p ≠ 0 → (length l < 255)%nat → owned (added p f s) (l ++ [p]).
Proof.
  intros (Hnd & Hn & Hlen & Hc & Hh) Hp Hp0 Hl. unfold owned, added, set_filters; simpl. rewrite Hn, Nat2Z.id.
  split; [apply NoDup_app; split; [done|]; split; [|apply NoDup_singleton]; intros x Hx; rewrite list_elem_of_singleton; naive_solver|].
  split; [rewrite length_app; simpl; rewrite u8_small; lia|]. split; [by rewrite length_insert|]. split.
  - intros k q. rewrite lookup_app_Some. intros [Hq | [Hk Hq]].
    + pose proof (lookup_lt_Some _ _ _ Hq). rewrite list_lookup_insert_ne by lia. by apply Hc.
    + apply list_lookup_singleton_Some in Hq as [Hk0 ->]. assert (k = length l) as -> by lia.
      rewrite list_lookup_insert_eq by lia. done.
  - intros q. rewrite elem_of_app, list_elem_of_singleton, <- Hh.
    destruct (decide (p = q)) as [-> | Hne]; [rewrite lookup_insert_eq | rewrite lookup_insert_ne by done]; naive_solver.
Qed.

Lemma session_owned runs s c l :
  Forall run_ok runs → NoDup (l ++ (run_at <$> runs)) → (length l + length runs ≤ 255)%nat → owned s l →
  ∃ s', session runs (s, c) = Ok (tt, (s', c)) ∧ owned s' (l ++ (run_at <$> runs)) ∧
    (∀ p, p ∈ l → heap s' !! p = heap s !! p) ∧
    (∀ r o, r ∈ runs → mkfilter_args (run_args r) (mk_options 0 0 0 0) = Ok o → heap s' !! run_at r = Some (made o)).
Proof.
  intros Hr. revert s l. induction Hr as [|r runs (H0 & H3 & Ha & o & Ho) _ IH]; intros s l Hnd Hlen Hs.
  { exists s. rewrite app_nil_r. split; [done|]. split; [done|]. split; [done|]. intros r o Hin. by apply elem_of_nil in Hin. }
  cbn [session]. rewrite fmap_cons, cons_middle, app_assoc in *. simpl length in Hlen.
  assert (run_at r ∉ l) as Hnew.
  { rewrite <- app_assoc in Hnd. apply NoDup_app in Hnd as (_ & Hnd & _). intros Hin. apply (Hnd _ Hin). simpl. constructor. }
  destruct (IH (added (run_at r) (made o) s) (l ++ [run_at r])) as (s' & E & Hs' & Hold & Hmade);
    [done|rewrite length_app; simpl; lia|apply owned_added; [done..|lia]|].
  exists s'. split; [|split; [done|split]].
  - erewrite bind_run; [exact E|].
    unfold on_synch. simpl fst. rewrite (mkfilter_run _ _ _ o) by (done || (destruct Hs as (_ & -> & _); lia)). done.
  - intros p Hp. rewrite Hold by (rewrite elem_of_app; by left). apply lookup_insert_ne. naive_solver.
  - intros r' o' Hin Ho'. apply elem_of_cons in Hin as [-> | Hin]; [|by apply Hmade].
    rewrite Hold by (rewrite elem_of_app, list_elem_of_singleton; by right).
    simpl. rewrite lookup_insert_eq. congruence.
Qed.

Lemma owned_clean s l :
  owned s l → ∃ s', clean_filters s = Ok (tt, s') ∧ heap s' = ∅.
Proof.
  intros (Hnd & Hn & Hlen & Hc & Hh). unfold clean_filters. rewrite (bind_run get _ _ _ _ eq_refl), Hn, Nat2Z.id.
  destruct (clean_loop_run (length l) 0 s l) as (s' & E & _ & _ & Hs'); [done|done|lia| |].
  { intros k p Hk. destruct (Hc k p Hk). split; [done|]. split; [done|]. rewrite Hh. by eapply list_elem_of_lookup_2. }
  exists s'. split; [exact E|]. apply map_eq. intros p. rewrite Hs', lookup_empty. case_bool_decide as Hp; [done|].
  destruct (heap s !! p) eqn:Ep; [|done]. destruct Hp. apply Hh. by eexists.
Qed.

Lemma owned_init d : owned (mk_synch (replicate 256 0) 0 ∅ d 0 0) [].
Proof.
  split; [constructor|]. split; [done|]. split; [done|]. split; [done|]. intros p. simpl.
  rewrite lookup_empty. split; [intros [? [=]]|intros H; by apply elem_of_nil in H].
Qed.

(** From loading the driver, over up to 255 runs of [mkfilter], to unloading
    it: each run registers the filter of its options, and unloading frees each of
    them once, so that none is left in memory. *)
Theorem driver_lifecycle entry grants usb runs c :
  Forall run_ok runs → NoDup (run_at <$> runs) → (length runs ≤ 255)%nat →
  ∃ t1 t2 t3,
    usb_rtusb_init entry grants usb (synch_init, c) = Ok (usb, t1) ∧
    session runs t1 = Ok (tt, t2) ∧ nfilters t2.1 = Z.of_nat (length runs) ∧
    (∀ r o, r ∈ runs → mkfilter_args (run_args r) (mk_options 0 0 0 0) = Ok o → heap t2.1 !! run_at r = Some (made o)) ∧
    usb_rtusb_exit t2 = Ok (tt, t3) ∧ heap t3.1 = ∅ ∧ file_buffer t3.2 = None.
Proof.
  intros Hr Hnd Hlen.
  assert (∃ c1, usb_rtusb_init entry grants usb (synch_init, c) = Ok (usb, (synch_init, c1))) as [c1 E1].
  { destruct entry; eexists; reflexivity. }
  destruct (session_owned runs synch_init c1 []) as (s2 & E2 & Hs2 & _ & Hmade); [done..|apply owned_init|].
  destruct (owned_clean _ _ Hs2) as (s3 & E3 & Hs3).
  exists (synch_init, c1), (s2, c1), (s3, mk_cache (buffer_size c1) (buffer_offset c1) None (ProcListing.grants c1)).
  split; [exact E1|]. split; [exact E2|].
  split; [destruct Hs2 as (_ & Hn & _); simpl; by rewrite Hn, length_app, length_fmap|]. split; [exact Hmade|].
  split; [|split; [exact Hs3|reflexivity]].
  unfold usb_rtusb_exit, teardown_proc_filters. rewrite (bind_run (modify _) _ _ _ _ eq_refl).
  unfold on_synch. simpl fst. by rewrite E3.
Qed.

Definition two_runs : list mkrun :=
  [mk_run 64 [0; 0; 0] [str "-dp"; str "57843"]; mk_run 80 [1; 2; 3] [str "-v"; str "-sa"; str "10.0.0.1"]].

Lemma driver_lifecycle_witness :
  ∃ t1 t2 t3,
    usb_rtusb_init true [] 0 (synch_init, mk_cache 0 0 None []) = Ok (0, t1) ∧ session two_runs t1 = Ok (tt, t2) ∧
    heap t2.1 !! 80 = Some (mk_flt 17 0 0x0100000a 0 0) ∧
    usb_rtusb_exit t2 = Ok (tt, t3) ∧ heap t3.1 = ∅.
Proof.
  destruct (driver_lifecycle true [] 0 two_runs (mk_cache 0 0 None [])) as (t1 & t2 & t3 & H1 & H2 & _ & H3 & H4 & H5 & _).
  - repeat constructor; try discriminate; eexists; reflexivity.
  - apply (bool_decide_unpack _). vm_compute. exact I.
  - simpl. lia.
  - exists t1, t2, t3. split; [exact H1|]. split; [exact H2|]. split; [|split; [exact H4|exact H5]].
    refine (H3 (mk_run 80 [1; 2; 3] [str "-v"; str "-sa"; str "10.0.0.1"]) (mk_options 0 0x0100000a 0 0) _ eq_refl).
    right. left.
Defined.

(** Taking out the first of two filters leaves the freed one in the array, which
    is then freed again when the driver is unloaded. *)
Example unload_frees_twice :
  let run p := mk_run p [0; 0; 0] [str "-dp"; str "57843"] in
  (session [run 0xc7001000; run 0xc7002000];;
   on_synch (rmfilter_main (mk_env true true 0) [str "0"]);; usb_rtusb_exit)
    (synch_init, mk_cache 0 0 None []) = Crash BadAccess.
Proof. vm_compute. reflexivity. Qed.
