(* ===== verification/Words.v ===== *)
(** * Words and tables of the ciphers

    What the ciphers and digests of the wireless driver share: bit operations on
    words, lookups in constant tables, and exclusive or on sequences of bytes. *)

From S2P Require Import Prelude.

(** A constant table; the sources mask the index. *)
Definition tab (t : list Z) (i : Z) : Z := nth (Z.to_nat i) t 0.

(** Byte by byte, as long as both last. *)
Fixpoint xor_bytes (a b : list Z) : list Z :=
  match a, b with
  | x :: a', y :: b' => Z.lxor x y :: xor_bytes a' b'
  | _, _ => []
  end.

(** ** Bits *)

Lemma bits_range w z : 0 ≤ w → (∀ i, w ≤ i → Z.testbit z i = false) → 0 ≤ z < 2 ^ w.
Proof.
  intros Hw H. replace z with (z mod 2 ^ w); [apply Z.mod_pos_bound, Z.pow_pos_nonneg; lia|].
  apply Z.bits_inj'. intros i Hi. destruct (Z.lt_ge_cases i w); [by apply Z.mod_pow2_bits_low|].
  by rewrite Z.mod_pow2_bits_high, H by lia.
Qed.

Lemma range_bits w z i : 0 ≤ z < 2 ^ w → w ≤ i → Z.testbit z i = false.
Proof.
  intros Hz Hi. destruct (Z.lt_ge_cases w 0) as [Hw|Hw]; [rewrite Z.pow_neg_r in Hz by lia; lia|].
  rewrite <- (Z.mod_small z (2 ^ w)) by done. apply Z.mod_pow2_bits_high. lia.
Qed.

Lemma lxor_range w a b : 0 ≤ w → 0 ≤ a < 2 ^ w → 0 ≤ b < 2 ^ w → 0 ≤ Z.lxor a b < 2 ^ w.
Proof.
  intros Hw Ha Hb. apply bits_range; [done|]. intros i Hi.
  by rewrite Z.lxor_spec, (range_bits w a), (range_bits w b).
Qed.

Lemma lor_range w a b : 0 ≤ w → 0 ≤ a < 2 ^ w → 0 ≤ b < 2 ^ w → 0 ≤ Z.lor a b < 2 ^ w.
Proof.
  intros Hw Ha Hb. apply bits_range; [done|]. intros i Hi.
  by rewrite Z.lor_spec, (range_bits w a), (range_bits w b).
Qed.

Lemma land_range w a m : 0 ≤ w → m = Z.ones w → 0 ≤ Z.land a m < 2 ^ w.
Proof. intros Hw ->. rewrite Z.land_ones by done. apply Z.mod_pos_bound, Z.pow_pos_nonneg; lia. Qed.

Lemma shiftr_range w n a : 0 ≤ n ≤ w → 0 ≤ a < 2 ^ w → 0 ≤ Z.shiftr a n < 2 ^ (w - n).
Proof.
  intros Hn Ha. rewrite Z.shiftr_div_pow2 by lia. split; [apply Z.div_pos; [lia|apply Z.pow_pos_nonneg; lia]|].
  apply Z.div_lt_upper_bound; [apply Z.pow_pos_nonneg; lia|]. rewrite <- Z.pow_add_r by lia.
  replace (n + (w - n)) with w by lia. lia.
Qed.

Lemma lxor_cancel a b : Z.lxor (Z.lxor a b) b = a.
Proof. by rewrite Z.lxor_assoc, Z.lxor_nilpotent, Z.lxor_0_r. Qed.

Lemma lxor_inj_r a b c : Z.lxor a c = Z.lxor b c → a = b.
Proof. intros H. by rewrite <- (lxor_cancel a c), <- (lxor_cancel b c), H. Qed.

Lemma lxor_inj_l a b c : Z.lxor c a = Z.lxor c b → a = b.
Proof. rewrite !(Z.lxor_comm c). apply lxor_inj_r. Qed.

(** A word as its low and its high part. *)
Lemma split_word n z : 0 ≤ n → z = Z.lxor (z mod 2 ^ n) (Z.shiftl (Z.shiftr z n) n).
Proof.
  intros Hn. apply Z.bits_inj'. intros i Hi. rewrite Z.lxor_spec, Z.shiftl_spec by done.
  destruct (Z.lt_ge_cases i n).
  - rewrite Z.mod_pow2_bits_low, (Z.testbit_neg_r _ (i - n)) by lia. by rewrite xorb_false_r.
  - rewrite Z.mod_pow2_bits_high, Z.shiftr_spec by lia. rewrite xorb_false_l. f_equal. lia.
Qed.

(** ** Tables *)

Lemma tab_lookup t i : 0 ≤ i < Z.of_nat (length t) → t !! Z.to_nat i = Some (tab t i).
Proof. intros Hi. unfold tab. destruct (nth_lookup_or_length t (Z.to_nat i) 0) as [H|H]; [done|lia]. Qed.

Lemma tab_Forall (P : Z → Prop) t i : Forall P t → 0 ≤ i < Z.of_nat (length t) → P (tab t i).
Proof. intros Ht Hi. eapply Forall_lookup_1; [exact Ht|by apply tab_lookup]. Qed.

(** ** Exclusive or of sequences *)

Lemma length_xor_bytes a b : length (xor_bytes a b) = Nat.min (length a) (length b).
Proof. revert b. induction a as [|x a IH]; intros [|y b]; simpl; auto. Qed.

Lemma xor_bytes_ok a b : bytes_ok a → bytes_ok b → bytes_ok (xor_bytes a b).
Proof.
  intros Ha. revert b. induction Ha as [|x a Hx _ IH]; intros b Hb; [constructor|].
  destruct Hb as [|y b Hy Hb]; [constructor|]. simpl. constructor; [by apply (lxor_range 8)|by apply IH].
Qed.

Lemma xor_bytes_app a1 a2 b1 b2 :
  length a1 = length b1 → xor_bytes (a1 ++ a2) (b1 ++ b2) = xor_bytes a1 b1 ++ xor_bytes a2 b2.
Proof. revert b1. induction a1 as [|x a1 IH]; intros [|y b1]; simpl; intros [=]; [done|]. by rewrite IH. Qed.

Lemma xor_bytes_cancel a b : (length a ≤ length b)%nat → xor_bytes (xor_bytes a b) b = a.
Proof.
  revert b. induction a as [|x a IH]; intros [|y b]; simpl; intros H; [done..|lia|].
  rewrite lxor_cancel, IH by lia. done.
Qed.

Lemma lookup_xor_bytes a b i x y :
  a !! i = Some x → b !! i = Some y → xor_bytes a b !! i = Some (Z.lxor x y).
Proof.
  revert b i. induction a as [|x' a IH]; intros [|y' b] [|i]; simpl; try discriminate.
  - by intros [= ->] [= ->].
  - apply IH.
Qed.

(** ** Parts of buffers *)

Lemma set_bytes_part a old b new i :
  i = Z.of_nat (length a) → length new = length old → set_bytes (a ++ old ++ b) i new = Ok (a ++ new ++ b).
Proof.
  intros -> Hl. unfold set_bytes. rewrite !length_app, !(proj2 (Z.leb_le _ _)) by lia. cbn [andb]. rewrite Nat2Z.id.
  do 2 f_equal; [apply take_app_length|]. f_equal. rewrite Hl, app_assoc. rewrite <- length_app. apply drop_app_length.
Qed.

Lemma sub_bytes_part a p b i n :
  i = Z.of_nat (length a) → n = Z.of_nat (length p) → sub_bytes (a ++ p ++ b) i n = Ok p.
Proof.
  intros -> ->. unfold sub_bytes. rewrite !length_app, !(proj2 (Z.leb_le _ _)) by lia. cbn [andb].
  rewrite !Nat2Z.id. f_equal. by apply slice_app.
Qed.

Lemma nth_byte_part a x b i : i = Z.of_nat (length a) → nth_byte (a ++ x :: b) i = Ok x.
Proof.
  intros ->. unfold nth_byte. rewrite (proj2 (Z.ltb_ge _ 0)), Nat2Z.id, list_lookup_middle by lia. done.
Qed.

Lemma sub_bytes_prefix p b n : n = Z.of_nat (length p) → sub_bytes (p ++ b) 0 n = Ok p.
Proof. intros ->. exact (sub_bytes_part [] p b 0 _ eq_refl eq_refl). Qed.

Lemma set_bytes_prefix old b new : length new = length old → set_bytes (old ++ b) 0 new = Ok (new ++ b).
Proof. exact (set_bytes_part [] old b new 0 eq_refl). Qed.

Lemma xor_bytes_insert a b j y k :
  b !! j = Some k → xor_bytes (<[j := y]> a) b = <[j := Z.lxor y k]> (xor_bytes a b).
Proof.
  revert b j. induction a as [|x a IH]; intros [|z b] [|j]; simpl; try done; [by intros [= ->]|].
  intros H. f_equal. by apply IH.
Qed.

Lemma sub_bytes_all p n : n = Z.of_nat (length p) → sub_bytes p 0 n = Ok p.
Proof. intros Hn. rewrite <- (app_nil_r p) at 1. by apply sub_bytes_prefix. Qed.

Lemma sub_bytes_suffix a p i n :
  i = Z.of_nat (length a) → n = Z.of_nat (length p) → sub_bytes (a ++ p) i n = Ok p.
Proof. intros Hi Hn. rewrite <- (app_nil_r p) at 1. by apply sub_bytes_part. Qed.

Lemma sub_bytes_app_l a b i n : i + n ≤ Z.of_nat (length a) → sub_bytes (a ++ b) i n = sub_bytes a i n.
Proof.
  intros H. unfold sub_bytes. destruct (0 <=? i) eqn:Ei; [|done]. destruct (0 <=? n) eqn:En; [|done]. cbn [andb].
  rewrite length_app, !(proj2 (Z.leb_le _ _)) by lia. f_equal.
  rewrite drop_app_le, take_app_le by (rewrite ?length_drop; lia). done.
Qed.

Lemma sub_bytes_in a i n :
  0 ≤ i → 0 ≤ n → i + n ≤ Z.of_nat (length a) → sub_bytes a i n = Ok (take (Z.to_nat n) (drop (Z.to_nat i) a)).
Proof. intros. unfold sub_bytes. rewrite !(proj2 (Z.leb_le _ _)) by lia. done. Qed.

Lemma bytes_ok_slice i n a : bytes_ok a → bytes_ok (take n (drop i a)).
Proof. intros H. by apply Forall_take, Forall_drop. Qed.

Lemma nth_byte_tab a b i : 0 ≤ i < Z.of_nat (length a) → nth_byte (a ++ b) i = Ok (tab a i).
Proof.
  intros Hi. unfold nth_byte. rewrite (proj2 (Z.ltb_ge _ 0)), lookup_app_l, tab_lookup by lia. done.
Qed.

(** The same, with the parts given up to association. *)
Lemma sub_bytes_at buf a p b i n :
  buf = a ++ p ++ b → i = Z.of_nat (length a) → n = Z.of_nat (length p) → sub_bytes buf i n = Ok p.
Proof. intros ->. apply sub_bytes_part. Qed.

Lemma cut k (l : list Z) : (k ≤ length l)%nat → ∃ a b, l = a ++ b ∧ length a = k.
Proof. intros Hk. exists (take k l), (drop k l). by rewrite take_drop, length_take_le. Qed.

(** Equations of exclusive ors, bit by bit in the ring of booleans. *)
Ltac xor_ring := apply Z.bits_inj'; intros ? _; rewrite ?Z.lxor_spec; ring.

(** ** Words of four bytes, most significant first *)

Definition pack (b0 b1 b2 b3 : Z) : Z := Z.lxor (Z.shiftl b0 24) (Z.lxor (Z.shiftl b1 16) (Z.lxor (Z.shiftl b2 8) b3)).

Lemma lxor_shiftl_add a b n : 0 ≤ n → 0 ≤ b < 2 ^ n → Z.lxor (Z.shiftl a n) b = a * 2 ^ n + b.
Proof.
  intros Hn Hb. rewrite <- (lor_shiftl_add a b n) by done. apply Z.bits_inj'. intros i Hi.
  rewrite Z.lxor_spec, Z.lor_spec. destruct (Z.lt_ge_cases i n).
  - rewrite Z.shiftl_spec_low by lia. by destruct (Z.testbit b i).
  - rewrite (range_bits n b i) by lia. by destruct (Z.testbit _ i).
Qed.

Lemma pack_val b0 b1 b2 b3 :
  is_u8 b1 → is_u8 b2 → is_u8 b3 → pack b0 b1 b2 b3 = b0 * 2 ^ 24 + (b1 * 2 ^ 16 + (b2 * 2 ^ 8 + b3)).
Proof.
  intros H1 H2 H3. unfold pack. rewrite (lxor_shiftl_add b2), (lxor_shiftl_add b1), (lxor_shiftl_add b0) by lia. done.
Qed.

Lemma pack_range b0 b1 b2 b3 : is_u8 b0 → is_u8 b1 → is_u8 b2 → is_u8 b3 → is_u32 (pack b0 b1 b2 b3).
Proof. intros H0 H1 H2 H3. rewrite pack_val by done. lia. Qed.

Lemma pack_lxor a0 a1 a2 a3 b0 b1 b2 b3 :
  Z.lxor (pack a0 a1 a2 a3) (pack b0 b1 b2 b3) = pack (Z.lxor a0 b0) (Z.lxor a1 b1) (Z.lxor a2 b2) (Z.lxor a3 b3).
Proof. unfold pack. rewrite !Z.shiftl_lxor. xor_ring. Qed.

Lemma pack_bytes b0 b1 b2 b3 :
  is_u8 b0 → is_u8 b1 → is_u8 b2 → is_u8 b3 →
  u8 (Z.shiftr (pack b0 b1 b2 b3) 24) = b0 ∧ u8 (Z.shiftr (pack b0 b1 b2 b3) 16) = b1 ∧
  u8 (Z.shiftr (pack b0 b1 b2 b3) 8) = b2 ∧ u8 (pack b0 b1 b2 b3) = b3.
Proof.
  intros H0 H1 H2 H3. rewrite pack_val by done. unfold u8.
  rewrite (shiftr_div _ 24 (2 ^ 24)), (shiftr_div _ 16 (2 ^ 16)), (shiftr_div _ 8 (2 ^ 8)) by done.
  repeat split; dlia.
Qed.

Lemma lor_pack b0 b1 b2 b3 :
  is_u8 b0 → is_u8 b1 → is_u8 b2 → is_u8 b3 →
  Z.lor (Z.lor (Z.lor (Z.shiftl b0 24) (Z.shiftl b1 16)) (Z.shiftl b2 8)) b3 = pack b0 b1 b2 b3.
Proof.
  intros H0 H1 H2 H3. rewrite pack_val, <- !Z.lor_assoc by done.
  rewrite (lor_shiftl_add b2), (lor_shiftl_add b1), (lor_shiftl_add b0) by lia. done.
Qed.

(** Multiplication by two in the field of AES. *)
Definition xtime (x : Z) : Z := Z.lxor (Z.land (Z.shiftl x 1) 0xff) (if Z.testbit x 7 then 0x1b else 0).

Lemma xtime_lxor a b : xtime (Z.lxor a b) = Z.lxor (xtime a) (xtime b).
Proof.
  unfold xtime. rewrite Z.shiftl_lxor, Z.lxor_spec.
  apply Z.bits_inj'. intros i Hi. rewrite !Z.lxor_spec, !Z.land_spec, Z.lxor_spec.
  destruct (Z.testbit a 7), (Z.testbit b 7); simpl xorb; cbv iota; rewrite ?Z.bits_0; ring.
Qed.

Lemma xtime_range x : is_u8 (xtime x).
Proof. apply (lxor_range 8); [lia|by apply (land_range 8)|destruct (Z.testbit x 7); lia]. Qed.
