(* ===== verification/Wep.v ===== *)
(** * WEP

    Models [rt2501/sources/Module/rtmp_wep.c]: the stream cipher, the checksum and
    the protection of frames with them, with the random bytes of [mlme.c] and the
    answer to a challenge of [auth.c]. *)

From S2P Require Import Prelude Words.

(** ** mlme.c: random bytes *)

Definition LFSR_MASK : Z := 0x80000057.
Definition LfsrInit (Seed : Z) : Z := if Seed =? 0 then 1 else Seed.

(** One turn of the loop: the register and the bit. *)
Definition lfsr_turn (ShiftReg : Z) : Z * Z :=
  if truthy (Z.land ShiftReg 1)
  then (Z.lor (Z.shiftr (Z.lxor ShiftReg LFSR_MASK) 1) 0x80000000, 1)
  else (Z.shiftr ShiftReg 1, 0).
Fixpoint random_loop (n : nat) (ShiftReg R : Z) : Z * Z :=
  match n with
  | O => (ShiftReg, R)
  | S n' => let '(reg, Result) := lfsr_turn ShiftReg in random_loop n' reg (u8 (Z.lor (Z.shiftl R 1) Result))
  end.
(** The register is loaded with the time since the start of the system first. *)
Definition RandomByte (uptime : Z) : Z * Z := random_loop 8 uptime 0.

(** ** rtmp_wep.c *)

Record arcfour : Type := mk_arcfour { X : Z; Y : Z; STATE : list Z }.

(** What of a key of the adapter is looked at. *)
Record cipher_key : Type := mk_key { KeyLen : Z; Key : list Z; RxMic : list Z; TxMic : list Z }.

(** [WEPKEY], the checksum and the cipher of [PrivateInfo], the shift register of
    [Mlme]. *)
Record wep : Type := mk_wep { WEPKEY : list Z; FCSCRC32 : Z; WEPCONTEXT : arcfour; ShiftReg : Z }.
Definition set_wepkey (k : list Z) (w : wep) : wep := mk_wep k (FCSCRC32 w) (WEPCONTEXT w) (ShiftReg w).
Definition set_fcs (f : Z) (w : wep) : wep := mk_wep (WEPKEY w) f (WEPCONTEXT w) (ShiftReg w).
Definition set_context (c : arcfour) (w : wep) : wep := mk_wep (WEPKEY w) (FCSCRC32 w) c (ShiftReg w).
Definition on_context {A} (m : stm arcfour A) : stm wep A := fun w =>
  match m (WEPCONTEXT w) with Ok (a, c) => Ok (a, set_context c w) | Crash e => Crash e end.

Definition WEPKEY_initial : list Z :=
  [0x00; 0x11; 0x22;
   0x00; 0x11; 0x22; 0x33; 0x44; 0x55; 0x66; 0x77; 0x88; 0x99; 0xAA; 0xBB; 0xCC].
Definition PPPINITFCS32 : Z := 0xffffffff.

(** The second loop of [ARCFOUR_INIT]: the key is mixed into the state. *)
Fixpoint init_loop (n : nat) (counter keyindex stateindex : Z) (pKey : list Z) (len : Z) (state : list Z)
    : result (list Z) :=
  match n with
  | O => Ok state
  | S n' =>
      t ← nth_byte state counter;
      k ← nth_byte pKey keyindex;
      let stateindex := Z.land (stateindex + k + t) 0xff in
      u ← nth_byte state stateindex;
      let state := <[Z.to_nat stateindex := t]> state in
      let state := <[Z.to_nat counter := u]> state in
      let keyindex := if len <=? keyindex + 1 then 0 else keyindex + 1 in
      init_loop n' (counter + 1) keyindex stateindex pKey len state
  end.
Definition ARCFOUR_INIT (pKey : list Z) (len : Z) : stm arcfour unit :=
  state ← lift (init_loop 256 0 0 0 pKey len (seqZ 0 256));
  put (mk_arcfour 0 0 state).

Definition ARCFOUR_BYTE : stm arcfour Z :=
  c ← get;
  let x := Z.land (X c + 1) 0xff in
  sx ← lift (nth_byte (STATE c) x);
  let y := Z.land (sx + Y c) 0xff in
  sy ← lift (nth_byte (STATE c) y);
  let state := <[Z.to_nat y := sx]> (STATE c) in
  let state := <[Z.to_nat x := sy]> state in
  put (mk_arcfour x y state);;
  lift (nth_byte state (Z.land (sx + sy) 0xff)).

(** [ARCFOUR_DECRYPT] works in place: both pointers are into the buffer [buf]. *)
Fixpoint ARCFOUR_DECRYPT (len : nat) (dest src : Z) (buf : list Z) : stm arcfour (list Z) :=
  match len with
  | O => mret buf
  | S n =>
      v ← lift (nth_byte buf src);
      b ← ARCFOUR_BYTE;
      buf ← lift (set_bytes buf dest [Z.lxor v b]);
      ARCFOUR_DECRYPT n (dest + 1) (src + 1) buf
  end.
(** [ARCFOUR_ENCRYPT] writes [pSrc] to another buffer, from [dest] on. *)
Fixpoint ARCFOUR_ENCRYPT (pSrc : list Z) (dest : Z) (buf : list Z) : stm arcfour (list Z) :=
  match pSrc with
  | [] => mret buf
  | v :: pSrc' =>
      b ← ARCFOUR_BYTE;
      buf ← lift (set_bytes buf dest [Z.lxor v b]);
      ARCFOUR_ENCRYPT pSrc' (dest + 1) buf
  end.

Definition FCSTAB_32 : list Z := [
   0x00000000; 0x77073096; 0xee0e612c; 0x990951ba; 0x076dc419; 0x706af48f; 0xe963a535; 0x9e6495a3;
   0x0edb8832; 0x79dcb8a4; 0xe0d5e91e; 0x97d2d988; 0x09b64c2b; 0x7eb17cbd; 0xe7b82d07; 0x90bf1d91;
   0x1db71064; 0x6ab020f2; 0xf3b97148; 0x84be41de; 0x1adad47d; 0x6ddde4eb; 0xf4d4b551; 0x83d385c7;
   0x136c9856; 0x646ba8c0; 0xfd62f97a; 0x8a65c9ec; 0x14015c4f; 0x63066cd9; 0xfa0f3d63; 0x8d080df5;
   0x3b6e20c8; 0x4c69105e; 0xd56041e4; 0xa2677172; 0x3c03e4d1; 0x4b04d447; 0xd20d85fd; 0xa50ab56b;
   0x35b5a8fa; 0x42b2986c; 0xdbbbc9d6; 0xacbcf940; 0x32d86ce3; 0x45df5c75; 0xdcd60dcf; 0xabd13d59;
   0x26d930ac; 0x51de003a; 0xc8d75180; 0xbfd06116; 0x21b4f4b5; 0x56b3c423; 0xcfba9599; 0xb8bda50f;
   0x2802b89e; 0x5f058808; 0xc60cd9b2; 0xb10be924; 0x2f6f7c87; 0x58684c11; 0xc1611dab; 0xb6662d3d;
   0x76dc4190; 0x01db7106; 0x98d220bc; 0xefd5102a; 0x71b18589; 0x06b6b51f; 0x9fbfe4a5; 0xe8b8d433;
   0x7807c9a2; 0x0f00f934; 0x9609a88e; 0xe10e9818; 0x7f6a0dbb; 0x086d3d2d; 0x91646c97; 0xe6635c01;
   0x6b6b51f4; 0x1c6c6162; 0x856530d8; 0xf262004e; 0x6c0695ed; 0x1b01a57b; 0x8208f4c1; 0xf50fc457;
   0x65b0d9c6; 0x12b7e950; 0x8bbeb8ea; 0xfcb9887c; 0x62dd1ddf; 0x15da2d49; 0x8cd37cf3; 0xfbd44c65;
   0x4db26158; 0x3ab551ce; 0xa3bc0074; 0xd4bb30e2; 0x4adfa541; 0x3dd895d7; 0xa4d1c46d; 0xd3d6f4fb;
   0x4369e96a; 0x346ed9fc; 0xad678846; 0xda60b8d0; 0x44042d73; 0x33031de5; 0xaa0a4c5f; 0xdd0d7cc9;
   0x5005713c; 0x270241aa; 0xbe0b1010; 0xc90c2086; 0x5768b525; 0x206f85b3; 0xb966d409; 0xce61e49f;
   0x5edef90e; 0x29d9c998; 0xb0d09822; 0xc7d7a8b4; 0x59b33d17; 0x2eb40d81; 0xb7bd5c3b; 0xc0ba6cad;
   0xedb88320; 0x9abfb3b6; 0x03b6e20c; 0x74b1d29a; 0xead54739; 0x9dd277af; 0x04db2615; 0x73dc1683;
   0xe3630b12; 0x94643b84; 0x0d6d6a3e; 0x7a6a5aa8; 0xe40ecf0b; 0x9309ff9d; 0x0a00ae27; 0x7d079eb1;
   0xf00f9344; 0x8708a3d2; 0x1e01f268; 0x6906c2fe; 0xf762575d; 0x806567cb; 0x196c3671; 0x6e6b06e7;
   0xfed41b76; 0x89d32be0; 0x10da7a5a; 0x67dd4acc; 0xf9b9df6f; 0x8ebeeff9; 0x17b7be43; 0x60b08ed5;
   0xd6d6a3e8; 0xa1d1937e; 0x38d8c2c4; 0x4fdff252; 0xd1bb67f1; 0xa6bc5767; 0x3fb506dd; 0x48b2364b;
   0xd80d2bda; 0xaf0a1b4c; 0x36034af6; 0x41047a60; 0xdf60efc3; 0xa867df55; 0x316e8eef; 0x4669be79;
   0xcb61b38c; 0xbc66831a; 0x256fd2a0; 0x5268e236; 0xcc0c7795; 0xbb0b4703; 0x220216b9; 0x5505262f;
   0xc5ba3bbe; 0xb2bd0b28; 0x2bb45a92; 0x5cb36a04; 0xc2d7ffa7; 0xb5d0cf31; 0x2cd99e8b; 0x5bdeae1d;
   0x9b64c2b0; 0xec63f226; 0x756aa39c; 0x026d930a; 0x9c0906a9; 0xeb0e363f; 0x72076785; 0x05005713;
   0x95bf4a82; 0xe2b87a14; 0x7bb12bae; 0x0cb61b38; 0x92d28e9b; 0xe5d5be0d; 0x7cdcefb7; 0x0bdbdf21;
   0x86d3d2d4; 0xf1d4e242; 0x68ddb3f8; 0x1fda836e; 0x81be16cd; 0xf6b9265b; 0x6fb077e1; 0x18b74777;
   0x88085ae6; 0xff0f6a70; 0x66063bca; 0x11010b5c; 0x8f659eff; 0xf862ae69; 0x616bffd3; 0x166ccf45;
   0xa00ae278; 0xd70dd2ee; 0x4e048354; 0x3903b3c2; 0xa7672661; 0xd06016f7; 0x4969474d; 0x3e6e77db;
   0xaed16a4a; 0xd9d65adc; 0x40df0b66; 0x37d83bf0; 0xa9bcae53; 0xdebb9ec5; 0x47b2cf7f; 0x30b5ffe9;
   0xbdbdf21c; 0xcabac28a; 0x53b39330; 0x24b4a3a6; 0xbad03605; 0xcdd70693; 0x54de5729; 0x23d967bf;
   0xb3667a2e; 0xc4614ab8; 0x5d681b02; 0x2a6f2b94; 0xb40bbe37; 0xc30c8ea1; 0x5a05df1b; 0x2d02ef8d].

Definition fcs_step (Fcs c : Z) : Z := Z.lxor (Z.shiftr Fcs 8) (tab FCSTAB_32 (Z.land (Z.lxor Fcs c) 0xff)).
Definition RTMP_CALC_FCS32 (Fcs : Z) (Cp : list Z) : Z := fold_left fcs_step Cp Fcs.

(** The initialisation vector: three random bytes, one for each element of [up]. *)
Fixpoint wep_iv (up : list Z) (i : Z) : stm wep unit :=
  match up with
  | [] => mret tt
  | t :: up' =>
      let '(reg, b) := RandomByte t in
      w ← get;
      k ← lift (set_bytes (WEPKEY w) i [b]);
      put (mk_wep k (FCSCRC32 w) (WEPCONTEXT w) reg);;
      wep_iv up' (i + 1)
  end.

(** [t0], [t1], [t2]: the times at which the random bytes are made. *)
Definition RTMPInitWepEngine (t0 t1 t2 : Z) (pKey : list Z) (KeyId len : Z) (pDest : list Z) : stm wep (list Z) :=
  modify (set_fcs PPPINITFCS32);;
  w ← get;
  key ← lift (sub_bytes pKey 0 len);
  k ← lift (set_bytes (WEPKEY w) 3 key);
  modify (set_wepkey k);;
  wep_iv [t0; t1; t2] 0;;
  w ← get;
  on_context (ARCFOUR_INIT (WEPKEY w) (len + 3));;
  iv ← lift (sub_bytes (WEPKEY w) 0 3);
  d ← lift (set_bytes pDest 0 iv);
  lift (set_bytes d 3 [u8 (Z.shiftl KeyId 6)]).

Definition RTMPEncryptData (pSrc : list Z) (dest : Z) (pDest : list Z) : stm wep (list Z) :=
  modify (fun w => set_fcs (RTMP_CALC_FCS32 (FCSCRC32 w) pSrc) w);;
  on_context (ARCFOUR_ENCRYPT pSrc dest pDest).

Definition RTMPSetICV (dest : Z) (pDest : list Z) : stm wep (list Z) :=
  modify (fun w => set_fcs (Z.lxor (FCSCRC32 w) 0xffffffff) w);;
  w ← get;
  on_context (ARCFOUR_ENCRYPT (le_bytes 4 (FCSCRC32 w)) dest pDest).

(** [SharedKey]: the keys of the adapter; the result is whether the frame was
    accepted, and the buffer. With less than 8 bytes, [Len - 4] or [Len - 8] wraps
    and the loops leave the buffer. *)
Definition RTMPDecryptData (SharedKey : list cipher_key) (pSrc : list Z) (Len : Z) : stm wep (bool * list Z) :=
  w ← get;
  iv ← lift (sub_bytes pSrc 0 3);
  k ← lift (set_bytes (WEPKEY w) 0 iv);
  modify (set_wepkey k);;
  ctl ← lift (nth_byte pSrc 3);
  let KeyIdx := Z.shiftr (Z.land ctl 0xc0) 6 in
  match SharedKey !! Z.to_nat KeyIdx with
  | None => throw OutOfBounds
  | Some key =>
      if KeyLen key =? 0 then mret (false, pSrc)
      else
        w ← get;
        bs ← lift (sub_bytes (Key key) 0 (KeyLen key));
        k ← lift (set_bytes (WEPKEY w) 3 bs);
        modify (set_wepkey k);;
        on_context (ARCFOUR_INIT k (KeyLen key + 3));;
        if Len <? 8 then throw OutOfBounds
        else
          buf ← on_context (ARCFOUR_DECRYPT (Z.to_nat (Len - 4)) 0 4 pSrc);
          icv ← lift (sub_bytes buf (Len - 8) 4);
          data ← lift (sub_bytes buf 0 (Len - 8));
          let crc32 := Z.lxor (RTMP_CALC_FCS32 PPPINITFCS32 data) 0xffffffff in
          mret (crc32 =? le_val icv, buf)
  end.

Example rc4_vector :
  (ARCFOUR_INIT (str "Key") 3;; ARCFOUR_ENCRYPT (str "Plaintext") 0 (replicate 9 0)) (mk_arcfour 0 0 []) =
    match (ARCFOUR_INIT (str "Key") 3;; ARCFOUR_ENCRYPT (str "Plaintext") 0 (replicate 9 0)) (mk_arcfour 0 0 []) with
    | Ok (_, c) => Ok ([0xBB; 0xF3; 0x16; 0xE8; 0xD9; 0x40; 0xAF; 0x0A; 0xD3], c) | Crash e => Crash e end.
Proof. vm_compute. reflexivity. Qed.
Example crc_vector : Z.lxor (RTMP_CALC_FCS32 PPPINITFCS32 (str "123456789")) 0xffffffff = 0xCBF43926.
Proof. reflexivity. Qed.

(** The cipher text of the answer to a challenge, as [PeerAuthRspAtSeq2Action] of
    [auth.c] makes it: the pieces of a message are encrypted one after the other. *)
Fixpoint encrypt_pieces (ps : list (list Z)) (dest : Z) (pDest : list Z) : stm wep (list Z) :=
  match ps with
  | [] => mret pDest
  | p :: ps' => d ← RTMPEncryptData p dest pDest; encrypt_pieces ps' (dest + Z.of_nat (length p)) d
  end.
Definition seal (t0 t1 t2 : Z) (pKey : list Z) (KeyId len : Z) (ps : list (list Z)) (buf : list Z) : stm wep (list Z) :=
  d ← RTMPInitWepEngine t0 t1 t2 pKey KeyId len buf;
  d ← encrypt_pieces ps 4 d;
  RTMPSetICV (4 + Z.of_nat (length (concat ps))) d.
Definition challenge_answer (t0 t1 t2 : Z) (SharedKey : list cipher_key) (DefaultKeyId Alg Seq : Z)
    (ChlgText CyperChlgText : list Z) : stm wep (list Z) :=
  match SharedKey !! Z.to_nat DefaultKeyId with
  | None => throw OutOfBounds
  | Some key =>
      seal t0 t1 t2 (Key key) DefaultKeyId (KeyLen key)
        [le_bytes 2 Alg; le_bytes 2 (u16 (Seq + 1)); le_bytes 2 0; [16; 128]; ChlgText] CyperChlgText
  end.

(** ** The state of the cipher is a permutation *)

Definition state_ok (l : list Z) : Prop := length l = 256%nat ∧ bytes_ok l ∧ NoDup l.
Definition ctx_ok (c : arcfour) : Prop := is_u8 (X c) ∧ is_u8 (Y c) ∧ state_ok (STATE c).

Lemma state_ok_perm l : state_ok l ↔ l ≡ₚ seqZ 0 256.
Proof.
  split.
  - intros (Hl & Hb & Hnd). apply submseteq_length_Permutation; [|rewrite Hl, length_seqZ; done].
    apply NoDup_submseteq; [done|]. intros x Hx. apply elem_of_seqZ. eapply Forall_forall in Hb; [|exact Hx]. lia.
  - intros H. split; [by rewrite H|]. split.
    + apply Forall_forall. intros x. rewrite H, elem_of_seqZ. lia.
    + rewrite H. apply NoDup_seqZ.
Qed.

Lemma masked z : is_u8 (Z.land z 0xff).
Proof. by apply (land_range 8). Qed.
#[local] Hint Resolve masked : core.

Lemma state_read l i : state_ok l → is_u8 i → ∃ x, nth_byte l i = Ok x ∧ l !! Z.to_nat i = Some x ∧ is_u8 x.
Proof.
  intros (Hl & Hb & _) Hi. unfold nth_byte. rewrite (proj2 (Z.ltb_ge i 0)) by lia.
  destruct (lookup_lt_is_Some_2 l (Z.to_nat i)) as [x Hx]; [lia|]. rewrite Hx.
  exists x. split; [done|]. split; [done|]. exact (Forall_lookup_1 _ _ _ _ Hb Hx).
Qed.

Lemma state_swap l i j x y :
  state_ok l → is_u8 i → is_u8 j → l !! Z.to_nat i = Some x → l !! Z.to_nat j = Some y →
  state_ok (<[Z.to_nat j := x]> (<[Z.to_nat i := y]> l)).
Proof.
  intros (Hl & Hb & Hnd) Hi Hj Hx Hy. split; [by rewrite !length_insert|]. split.
  { apply Forall_insert; [apply Forall_insert; [done|]|].
    - exact (Forall_lookup_1 _ _ _ _ Hb Hy).
    - exact (Forall_lookup_1 _ _ _ _ Hb Hx). }
  rewrite NoDup_alt in *. intros a b z Ha Hb'.
  assert (∀ k, (<[Z.to_nat j := x]> (<[Z.to_nat i := y]> l)) !! k =
    if decide (k = Z.to_nat j) then Some x else if decide (k = Z.to_nat i) then Some y else l !! k) as E.
  { intros k. destruct (decide (k = Z.to_nat j)) as [-> | H1].
    { apply list_lookup_insert_eq. rewrite length_insert. lia. }
    rewrite list_lookup_insert_ne by done. destruct (decide (k = Z.to_nat i)) as [-> | H2].
    { apply list_lookup_insert_eq. lia. }
    by rewrite list_lookup_insert_ne. }
  rewrite E in Ha, Hb'.
  pose proof (Hnd (Z.to_nat i) (Z.to_nat j)) as Hij.
  repeat case_decide; simplify_eq; try done; try (by eapply Hnd);
    match goal with H : l !! ?k = Some _ |- ?k = _ => idtac | H : l !! ?k = Some _ |- _ = ?k => symmetry | _ => idtac end;
    exfalso; eauto.
Qed.

Lemma init_loop_ok n counter keyindex stateindex pKey len state :
  state_ok state → bytes_ok pKey → 0 ≤ counter → counter + Z.of_nat n ≤ 256 →
  0 < len ≤ Z.of_nat (length pKey) → 0 ≤ keyindex < len →
  ∃ state', init_loop n counter keyindex stateindex pKey len state = Ok state' ∧ state_ok state'.
Proof.
  revert counter keyindex stateindex state. induction n as [|n IH]; intros counter keyindex stateindex state Hs Hk Hc Hn Hl Hi.
  { exists state. done. }
  cbn [init_loop]. destruct (state_read state counter) as (t & -> & Ht & Ht8); [done|lia|]. rewrite result_bind_Ok.
  destruct (lookup_lt_is_Some_2 pKey (Z.to_nat keyindex)) as [k Hk']; [lia|].
  assert (nth_byte pKey keyindex = Ok k) as ->.
  { unfold nth_byte. rewrite (proj2 (Z.ltb_ge keyindex 0)), Hk' by lia. done. }
  rewrite result_bind_Ok. cbv zeta.
  set (si := Z.land _ _). destruct (state_read state si) as (u & -> & Hu & Hu8); [done|apply masked|]. rewrite result_bind_Ok.
  apply IH; try done; [|lia..|].
  - apply (state_swap state si counter u t); try done; [apply masked|lia].
  - destruct (len <=? keyindex + 1) eqn:E; lia.
Qed.

Lemma state_ok_init : state_ok (seqZ 0 256).
Proof. by apply state_ok_perm. Qed.

Lemma ARCFOUR_INIT_ok pKey len c :
  bytes_ok pKey → 0 < len ≤ Z.of_nat (length pKey) →
  ∃ c', ARCFOUR_INIT pKey len c = Ok (tt, c') ∧ ctx_ok c'.
Proof.
  intros Hk Hl. destruct (init_loop_ok 256 0 0 0 pKey len (seqZ 0 256)) as (st & E & Hst);
    [apply state_ok_init|done|lia|lia|done|lia|].
  exists (mk_arcfour 0 0 st). unfold ARCFOUR_INIT. split; [by erewrite bind_run by (unfold lift; rewrite E; reflexivity)|].
  split; [simpl; lia|]. split; [simpl; lia|done].
Qed.

(** The state before plays no part. *)
Lemma ARCFOUR_INIT_any pKey len c c' : ARCFOUR_INIT pKey len c = ARCFOUR_INIT pKey len c'.
Proof. unfold ARCFOUR_INIT, mbind, stm_bind, lift. by destruct (init_loop _ _ _ _ _ _ _). Qed.

Lemma ARCFOUR_BYTE_ok c :
  ctx_ok c → ∃ b c', ARCFOUR_BYTE c = Ok (b, c') ∧ is_u8 b ∧ ctx_ok c'.
Proof.
  intros (HX & HY & Hs). unfold ARCFOUR_BYTE. rewrite (bind_run get _ _ _ _ eq_refl). cbv zeta.
  set (x := Z.land (X c + 1) _). destruct (state_read (STATE c) x) as (sx & Ex & Hx & Hx8); [done|apply masked|].
  erewrite bind_run by (unfold lift; rewrite Ex; reflexivity).
  set (y := Z.land (sx + Y c) _). destruct (state_read (STATE c) y) as (sy & Ey & Hy & Hy8); [done|apply masked|].
  erewrite bind_run by (unfold lift; rewrite Ey; reflexivity). rewrite (bind_run (put _) _ _ _ _ eq_refl).
  set (st := <[Z.to_nat x := sy]> _).
  assert (state_ok st) as Hst by (apply state_swap; [done|apply masked|apply masked|done|done]).
  destruct (state_read st (Z.land (sx + sy) 0xff)) as (b & Eb & _ & Hb); [done|apply masked|].
  exists b, (mk_arcfour x y st). split; [unfold lift; by rewrite Eb|]. split; [done|].
  split; [apply masked|]. split; [apply masked|done].
Qed.

(** ** The key stream *)

Fixpoint stream (n : nat) : stm arcfour (list Z) :=
  match n with
  | O => mret []
  | S n' => b ← ARCFOUR_BYTE; bs ← stream n'; mret (b :: bs)
  end.

Lemma stream_ok n c : ctx_ok c → ∃ ks c', stream n c = Ok (ks, c') ∧ length ks = n ∧ bytes_ok ks ∧ ctx_ok c'.
Proof.
  revert c. induction n as [|n IH]; intros c Hc.
  { exists [], c. split; [done|]. split; [done|]. split; [constructor|done]. }
  cbn [stream]. destruct (ARCFOUR_BYTE_ok c Hc) as (b & c1 & E & Hb & Hc1). destruct (IH c1 Hc1) as (ks & c2 & E2 & Hl & Hk & Hc2).
  exists (b :: ks), c2. split; [|split; [simpl; lia|split; [by constructor|done]]].
  rewrite (bind_run _ _ _ _ _ E), (bind_run _ _ _ _ _ E2). done.
Qed.

Lemma stream_app m n c ks1 c1 ks2 c2 :
  stream m c = Ok (ks1, c1) → stream n c1 = Ok (ks2, c2) → stream (m + n) c = Ok (ks1 ++ ks2, c2).
Proof.
  revert c ks1. induction m as [|m IH]; intros c ks1 E1 E2; simpl in *.
  { injection E1 as <- <-. done. }
  inv_bind E1. inv_bind E1. injection E1 as <- <-. erewrite bind_run by done.
  erewrite bind_run by (by eapply IH). done.
Qed.

(** C35: The cipher's state stays a permutation of the 256 bytes: [ARCFOUR_INIT]
    makes one for every key that is not empty, whatever the state was, and each
    [ARCFOUR_BYTE] returns a byte and keeps it, so no access leaves the array. *)
Theorem arcfour_permutation pKey len c :
  bytes_ok pKey → 0 < len ≤ Z.of_nat (length pKey) →
  ∃ c0, ARCFOUR_INIT pKey len c = Ok (tt, c0) ∧ STATE c0 ≡ₚ seqZ 0 256 ∧
    ∀ n, ∃ bs cn, stream n c0 = Ok (bs, cn) ∧ length bs = n ∧ bytes_ok bs ∧ STATE cn ≡ₚ seqZ 0 256.
Proof.
  intros Hk Hl. destruct (ARCFOUR_INIT_ok pKey len c Hk Hl) as (c0 & E & Hc0). exists c0. split; [done|].
  split; [apply state_ok_perm, Hc0|]. intros n. destruct (stream_ok n c0 Hc0) as (bs & cn & E' & H1 & H2 & H3).
  exists bs, cn. split; [done|]. split; [done|]. split; [done|]. apply state_ok_perm, H3.
Qed.

Lemma arcfour_permutation_witness :
  ∃ c0, ARCFOUR_INIT [1; 2; 3; 4; 5] 5 (mk_arcfour 7 7 []) = Ok (tt, c0) ∧
    ∃ bs cn, stream 5 c0 = Ok (bs, cn) ∧ bs = [0xb2; 0x39; 0x63; 0x05; 0xf0] ∧ STATE cn ≡ₚ seqZ 0 256.
Proof.
  destruct (arcfour_permutation [1; 2; 3; 4; 5] 5 (mk_arcfour 7 7 [])) as (c0 & E & _ & H).
  - apply (bool_decide_unpack _). vm_compute. exact I.
  - simpl. lia.
  - exists c0. split; [exact E|]. destruct (H 5%nat) as (bs & cn & E' & _ & _ & Hp). exists bs, cn.
    split; [exact E'|]. split; [|exact Hp]. vm_compute in E. injection E as <-. vm_compute in E'. by injection E' as <- _.
Defined.

Lemma encrypt_run src dest a old b c ks c' :
  stream (length src) c = Ok (ks, c') → length old = length src → dest = Z.of_nat (length a) →
  ARCFOUR_ENCRYPT src dest (a ++ old ++ b) c = Ok (a ++ xor_bytes src ks ++ b, c').
Proof.
  revert dest a old c ks. induction src as [|v src IH]; intros dest a old c ks E Hl Hd.
  { destruct old; [|done]. injection E as <- <-. done. }
  destruct old as [|o old]; [done|]. cbn [stream length] in E. inv_bind E. inv_bind E. injection E as <- <-.
  cbn [ARCFOUR_ENCRYPT]. erewrite bind_run by done.
  erewrite bind_run by (unfold lift; rewrite (set_bytes_part a [o] (old ++ b)) by done; reflexivity).
  cbn [app xor_bytes].
  rewrite (cons_middle _ a (old ++ b)), (cons_middle _ a (xor_bytes src _ ++ b)), !app_assoc, <- !(app_assoc (a ++ _)).
  apply IH; [done|simpl in Hl; lia|]. rewrite length_app. simpl. lia.
Qed.

(** In place, with the source some bytes after the destination. *)
Lemma decrypt_run body dest a f fs b c ks c' :
  stream (length body) c = Ok (ks, c') → dest = Z.of_nat (length a) →
  ∃ tl, length tl = S (length fs) ∧
    ARCFOUR_DECRYPT (length body) dest (dest + Z.of_nat (S (length fs))) (a ++ (f :: fs) ++ body ++ b) c =
      Ok (a ++ xor_bytes body ks ++ tl ++ b, c').
Proof.
  revert dest a f fs c ks. induction body as [|v body IH]; intros dest a f fs c ks E Hd.
  { injection E as <- <-. by exists (f :: fs). }
  cbn [stream length] in E. inv_bind E. inv_bind E. injection E as <- <-.
  cbn [ARCFOUR_DECRYPT length].
  assert (∃ g gs, fs ++ [v] = g :: gs ∧ length gs = length fs) as (g & gs & Eg & Hg).
  { destruct fs as [|g fs]; [by exists v, []|]. exists g, (fs ++ [v]). rewrite length_app. simpl. split; [done|lia]. }
  edestruct (IH (dest + 1) (a ++ [Z.lxor v a0]) g gs s) as (tl & Htl & E'); [done|rewrite length_app; simpl; lia|].
  rewrite Hg in Htl, E'. exists tl. split; [done|].
  erewrite bind_run.
  2: { unfold lift. rewrite (app_assoc a (f :: fs)). cbn [app]. rewrite nth_byte_part; [reflexivity|].
       rewrite length_app. simpl. lia. }
  erewrite bind_run by done.
  erewrite bind_run.
  2: { unfold lift. change (a ++ (f :: fs) ++ (v :: body) ++ b) with (a ++ [f] ++ (fs ++ v :: body ++ b)).
       rewrite set_bytes_part by done. reflexivity. }
  rewrite <- !(app_assoc a), <- Eg, <- !app_assoc in E'.
  replace (dest + Z.of_nat (S (length fs)) + 1) with (dest + 1 + Z.of_nat (S (length fs))) by lia. exact E'.
Qed.

Lemma init_loop_prefix n counter keyindex stateindex k tl len state :
  len = Z.of_nat (length k) → 0 ≤ keyindex < len →
  init_loop n counter keyindex stateindex (k ++ tl) len state = init_loop n counter keyindex stateindex k len state.
Proof.
  intros Hl. revert counter keyindex stateindex state.
  induction n as [|n IH]; intros counter keyindex stateindex state Hi; [done|]. cbn [init_loop].
  destruct (nth_byte state counter) as [t|]; [|done]. rewrite !result_bind_Ok.
  assert (nth_byte (k ++ tl) keyindex = nth_byte k keyindex) as ->.
  { unfold nth_byte. rewrite lookup_app_l by lia. done. }
  destruct (nth_byte k keyindex) as [x|]; [|done]. rewrite !result_bind_Ok. cbv zeta.
  destruct (nth_byte state _) as [u|]; [|done]. rewrite !result_bind_Ok. apply IH.
  destruct (len <=? keyindex + 1) eqn:E; lia.
Qed.

(** The cipher made of an initialisation vector and a key; what follows the key
    in [WEPKEY] plays no part. *)
Definition keyed (iv key : list Z) (c : arcfour) : Prop :=
  ctx_ok c ∧ ∀ c0 tl len, len = Z.of_nat (length key) → ARCFOUR_INIT (iv ++ key ++ tl) (len + 3) c0 = Ok (tt, c).

Lemma keyed_exists iv key : length iv = 3%nat → bytes_ok iv → bytes_ok key → ∃ c, keyed iv key c.
Proof.
  intros Hl Hiv Hk. assert (bytes_ok (iv ++ key)) as Hb by by apply Forall_app.
  destruct (ARCFOUR_INIT_ok (iv ++ key) (Z.of_nat (length key) + 3) (mk_arcfour 0 0 [])) as (c & E & Hc);
    [done|rewrite length_app; lia|].
  exists c. split; [done|]. intros c0 tl len ->. rewrite <- E, (ARCFOUR_INIT_any _ _ _ (mk_arcfour 0 0 [])), app_assoc.
  unfold ARCFOUR_INIT. rewrite init_loop_prefix; [done| |lia]. rewrite length_app. lia.
Qed.

Lemma random_byte_range t : is_u8 (RandomByte t).2.
Proof. unfold RandomByte. cbn [random_loop]. repeat case_match. apply u8_range. Qed.

Definition iv_of (t0 t1 t2 : Z) : list Z := [(RandomByte t0).2; (RandomByte t1).2; (RandomByte t2).2].

Lemma wep_iv_step t up i a x b f c r :
  i = Z.of_nat (length a) →
  wep_iv (t :: up) i (mk_wep (a ++ x :: b) f c r) =
    wep_iv up (i + 1) (mk_wep (a ++ (RandomByte t).2 :: b) f c (RandomByte t).1).
Proof.
  intros ->. cbn [wep_iv]. destruct (RandomByte t) as [reg y]. rewrite (bind_run get _ _ _ _ eq_refl).
  erewrite bind_run by (unfold lift; cbn [WEPKEY]; rewrite (set_bytes_part a [x] b) by done; reflexivity).
  done.
Qed.

Lemma wep_iv_run t0 t1 t2 k0 k1 k2 k f c r :
  wep_iv [t0; t1; t2] 0 (mk_wep (k0 :: k1 :: k2 :: k) f c r) = Ok (tt, mk_wep (iv_of t0 t1 t2 ++ k) f c (RandomByte t2).1).
Proof.
  etransitivity; [exact (wep_iv_step t0 [t1; t2] 0 [] k0 (k1 :: k2 :: k) f c r eq_refl)|].
  etransitivity; [exact (wep_iv_step t1 [t2] (0 + 1) [_] k1 (k2 :: k) f c _ eq_refl)|].
  exact (wep_iv_step t2 [] (0 + 1 + 1) [_; _] k2 k f c _ eq_refl).
Qed.

Lemma init_engine_run t0 t1 t2 key more KeyId len four rest w c :
  length (WEPKEY w) = 16%nat → len = Z.of_nat (length key) → len ≤ 13 → length four = 4%nat → keyed (iv_of t0 t1 t2) key c →
  ∃ tl reg, (3 + length key + length tl = 16)%nat ∧
  RTMPInitWepEngine t0 t1 t2 (key ++ more) KeyId len (four ++ rest) w =
    Ok (iv_of t0 t1 t2 ++ [u8 (Z.shiftl KeyId 6)] ++ rest, mk_wep (iv_of t0 t1 t2 ++ key ++ tl) PPPINITFCS32 c reg).
Proof.
  destruct w as [wk f0 c0 reg0]. cbn [WEPKEY]. intros Hw -> Hlen H4 [_ Hc].
  destruct wk as [|k0 [|k1 [|k2 wk]]]; try done. simpl in Hw. destruct four as [|a0 [|a1 [|a2 [|a3 [|]]]]]; try done.
  assert (∃ mid tl, wk = mid ++ tl ∧ length mid = length key) as (mid & tl & -> & Hmid).
  { exists (take (length key) wk), (drop (length key) wk). rewrite take_drop, length_take. split; [done|lia]. }
  rewrite length_app in Hw.
  exists tl, (RandomByte t2).1. split; [lia|].
  unfold RTMPInitWepEngine. rewrite (bind_run (modify _) _ _ _ _ eq_refl), (bind_run get _ _ _ _ eq_refl).
  erewrite bind_run by (unfold lift; rewrite <- (app_nil_l (key ++ more)), sub_bytes_part by done; reflexivity).
  cbn [WEPKEY set_fcs].
  erewrite bind_run by (unfold lift; rewrite (set_bytes_part [k0; k1; k2] mid tl) by done; reflexivity).
  rewrite (bind_run (modify _) _ _ _ _ eq_refl). unfold set_wepkey, set_fcs. cbn [FCSCRC32 WEPCONTEXT ShiftReg app].
  rewrite (bind_run _ _ _ _ _ (wep_iv_run t0 t1 t2 k0 k1 k2 (key ++ tl) PPPINITFCS32 c0 reg0)).
  rewrite (bind_run get _ _ _ _ eq_refl). cbn [WEPKEY].
  erewrite bind_run by (unfold on_context; cbn [WEPCONTEXT]; rewrite Hc by done; reflexivity).
  erewrite bind_run by (unfold lift; rewrite (sub_bytes_prefix (iv_of t0 t1 t2)) by done; reflexivity).
  change (a0 :: a1 :: a2 :: a3 :: rest) with ([a0; a1; a2] ++ [a3] ++ rest).
  erewrite bind_run by (unfold lift; rewrite set_bytes_prefix by done; reflexivity).
  unfold lift. rewrite set_bytes_part by done. reflexivity.
Qed.

Lemma stream_length n c ks c' : stream n c = Ok (ks, c') → length ks = n.
Proof.
  revert c ks. induction n as [|n IH]; intros c ks E; [by injection E as <- _|].
  cbn [stream] in E. inv_bind E. inv_bind E. injection E as <- <-. simpl. f_equal. by eapply IH.
Qed.

Lemma stream_split m n c ks c' :
  stream (m + n) c = Ok (ks, c') →
  ∃ ks1 c1 ks2, stream m c = Ok (ks1, c1) ∧ stream n c1 = Ok (ks2, c') ∧ ks = ks1 ++ ks2.
Proof.
  revert c ks. induction m as [|m IH]; intros c ks E; simpl in E; [by exists [], c, ks|].
  inv_bind E. inv_bind E. injection E as <- <-.
  match goal with H : stream (m + n) _ = _ |- _ => apply IH in H as (ks1 & c1 & ks2 & H1 & H2 & ->) end.
  eexists (_ :: ks1), c1, ks2. split; [|done]. cbn [stream]. erewrite bind_run by done. erewrite bind_run by done. done.
Qed.

(** Encrypting pieces is encrypting their concatenation. *)
Lemma encrypt_pieces_run ps dest a old b wk fcs c reg ks c' :
  stream (length (concat ps)) c = Ok (ks, c') → length old = length (concat ps) → dest = Z.of_nat (length a) →
  encrypt_pieces ps dest (a ++ old ++ b) (mk_wep wk fcs c reg) =
    Ok (a ++ xor_bytes (concat ps) ks ++ b, mk_wep wk (RTMP_CALC_FCS32 fcs (concat ps)) c' reg).
Proof.
  revert dest a old fcs c ks. induction ps as [|p ps IH]; intros dest a old fcs c ks E Hl Hd.
  { destruct old; [|done]. injection E as <- <-. done. }
  cbn [concat] in *. rewrite length_app in *. apply stream_split in E as (ks1 & c1 & ks2 & E1 & E2 & ->).
  assert (∃ o1 o2, old = o1 ++ o2 ∧ length o1 = length p) as (o1 & o2 & -> & Ho).
  { exists (take (length p) old), (drop (length p) old). rewrite take_drop, length_take. split; [done|lia]. }
  rewrite length_app in Hl. cbn [encrypt_pieces]. unfold RTMPEncryptData at 1. rewrite stm_bind_assoc.
  rewrite (bind_run (modify _) _ _ _ _ eq_refl). unfold set_fcs. cbn [WEPKEY FCSCRC32 WEPCONTEXT ShiftReg].
  erewrite bind_run.
  2: { unfold on_context. cbn [WEPCONTEXT]. rewrite <- app_assoc, (encrypt_run p dest a o1 (o2 ++ b) _ ks1 c1) by done. reflexivity. }
  unfold set_context. cbn [WEPKEY FCSCRC32 ShiftReg].
  rewrite app_assoc. rewrite (IH _ (a ++ xor_bytes p ks1) o2 _ c1 ks2); [|done|lia|].
  - unfold RTMP_CALC_FCS32. rewrite fold_left_app, <- (app_assoc a), (app_assoc (xor_bytes p ks1)),
      <- (xor_bytes_app p (concat ps) ks1 ks2) by (by rewrite (stream_length _ _ _ _ E1)). done.
  - rewrite length_app, length_xor_bytes, (stream_length _ _ _ _ E1). lia.
Qed.

(** A protected frame. *)
Definition icv (data : list Z) : list Z := le_bytes 4 (Z.lxor (RTMP_CALC_FCS32 PPPINITFCS32 data) 0xffffffff).
Definition wep_frame (iv : list Z) (KeyId : Z) (ks data : list Z) : list Z :=
  iv ++ [u8 (Z.shiftl KeyId 6)] ++ xor_bytes (data ++ icv data) ks.

Lemma seal_run t0 t1 t2 key more KeyId len ps buf rest w c ks c' :
  length (WEPKEY w) = 16%nat → len = Z.of_nat (length key) → len ≤ 13 → keyed (iv_of t0 t1 t2) key c →
  stream (length (concat ps) + 4) c = Ok (ks, c') → length buf = (8 + length (concat ps))%nat →
  ∃ w', seal t0 t1 t2 (key ++ more) KeyId len ps (buf ++ rest) w =
    Ok (wep_frame (iv_of t0 t1 t2) KeyId ks (concat ps) ++ rest, w') ∧ length (WEPKEY w') = 16%nat.
Proof.
  intros Hw Hlen H13 Hc Hs Hb. apply stream_split in Hs as (ks1 & c1 & ks2 & E1 & E2 & ->).
  assert (∃ four mid last, buf = four ++ mid ++ last ∧ length four = 4%nat ∧ length mid = length (concat ps) ∧ length last = 4%nat)
    as (four & mid & last & -> & H4 & Hm & Hla).
  { exists (take 4 buf), (take (length (concat ps)) (drop 4 buf)), (drop (length (concat ps)) (drop 4 buf)).
    rewrite !take_drop, !length_take, !length_drop. split; [done|lia]. }
  destruct (init_engine_run t0 t1 t2 key more KeyId len four (mid ++ last ++ rest) w c) as (tl & reg & Htl & E); try done.
  eexists. split; [|shelve]. unfold seal. rewrite <- !app_assoc, (bind_run _ _ _ _ _ E).
  rewrite (app_assoc (iv_of t0 t1 t2)).
  erewrite bind_run by (rewrite (encrypt_pieces_run ps 4 _ mid (last ++ rest) _ _ c reg ks1 c1) by done; reflexivity).
  unfold RTMPSetICV. rewrite (bind_run (modify _) _ _ _ _ eq_refl), (bind_run get _ _ _ _ eq_refl).
  unfold on_context, set_fcs. cbn [WEPCONTEXT FCSCRC32].
  rewrite (app_assoc _ (xor_bytes _ _)), (encrypt_run _ _ _ last rest _ ks2 c').
  - unfold wep_frame. rewrite (xor_bytes_app (concat ps) _ ks1 ks2) by (by rewrite (stream_length _ _ _ _ E1)).
    rewrite <- !app_assoc. reflexivity.
  - by rewrite length_le_bytes.
  - by rewrite length_le_bytes.
  - rewrite !length_app, length_xor_bytes, (stream_length _ _ _ _ E1). simpl. lia.
Unshelve.
  simpl. rewrite !length_app. simpl. lia.
Qed.

(** ** The checksum

    The reference is the division by the polynomial of CRC-32, bit by bit. *)
Definition POLY : Z := 0xEDB88320.
Definition bit_step (z : Z) : Z := Z.lxor (Z.shiftr z 1) (if Z.odd z then POLY else 0).
Definition byte_step (z b : Z) : Z := Nat.iter 8 bit_step (Z.lxor z b).
Definition crc_ref (z : Z) (bs : list Z) : Z := fold_left byte_step bs z.

Lemma bit_step_lxor a b : bit_step (Z.lxor a b) = Z.lxor (bit_step a) (bit_step b).
Proof.
  unfold bit_step. rewrite Z.shiftr_lxor, <- !Z.bit0_odd, Z.lxor_spec.
  destruct (Z.testbit a 0), (Z.testbit b 0); simpl xorb; cbv iota; apply Z.bits_inj'; intros i Hi;
    rewrite !Z.lxor_spec, ?Z.bits_0; destruct (Z.testbit (Z.shiftr a 1) i), (Z.testbit (Z.shiftr b 1) i), (Z.testbit POLY i); reflexivity.
Qed.

Lemma iter_bit_step_lxor n a b :
  Nat.iter n bit_step (Z.lxor a b) = Z.lxor (Nat.iter n bit_step a) (Nat.iter n bit_step b).
Proof. induction n as [|n IH]; [done|]. simpl. by rewrite IH, bit_step_lxor. Qed.

Lemma bit_step_double h : bit_step (2 * h) = h.
Proof.
  unfold bit_step. rewrite Z.odd_mul. simpl Z.odd. cbn [andb]. rewrite Z.lxor_0_r, Z.shiftr_div_pow2, Z.mul_comm by lia.
  by apply Z.div_mul.
Qed.

Lemma iter_bit_step_shift n h : Nat.iter n bit_step (2 ^ Z.of_nat n * h) = h.
Proof.
  revert h. induction n as [|n IH]; intros h; [simpl; lia|].
  rewrite Nat.iter_succ_r, Nat2Z.inj_succ, Z.pow_succ_r, <- Z.mul_assoc, bit_step_double by lia. apply IH.
Qed.

Lemma fcs_table i : is_u8 i → tab FCSTAB_32 i = Nat.iter 8 bit_step i.
Proof.
  intros Hi. apply Z.eqb_eq. apply (forall_range (fun i => tab FCSTAB_32 i =? Nat.iter 8 bit_step i) 0 256); [|done].
  vm_compute. reflexivity.
Qed.

Lemma shiftr_lxor_byte z b : is_u8 b → Z.shiftr (Z.lxor z b) 8 = Z.shiftr z 8.
Proof. intros Hb. rewrite Z.shiftr_lxor, (Z.shiftr_div_pow2 b), Z.div_small, Z.lxor_0_r by lia. done. Qed.

Lemma iter8_split v : Nat.iter 8 bit_step v = Z.lxor (Z.shiftr v 8) (Nat.iter 8 bit_step (v mod 2 ^ 8)).
Proof.
  transitivity (Nat.iter 8 bit_step (Z.lxor (v mod 2 ^ 8) (Z.shiftl (Z.shiftr v 8) 8))); [by rewrite <- split_word|].
  rewrite iter_bit_step_lxor, Z.shiftl_mul_pow2, (Z.mul_comm _ (2 ^ 8)) by lia.
  rewrite (iter_bit_step_shift 8). apply Z.lxor_comm.
Qed.

Lemma fcs_step_ref z b : is_u8 b → fcs_step z b = byte_step z b.
Proof.
  intros Hb. unfold fcs_step, byte_step. rewrite iter8_split, shiftr_lxor_byte by done. f_equal.
  rewrite (land_ones_mod _ 8) by done. apply fcs_table, Z.mod_pos_bound. lia.
Qed.

(** The table-driven checksum is the remainder of the division by the
    polynomial of CRC-32, bit by bit, for every start value and all data. *)
Theorem fcs32_is_crc32 Fcs Cp : bytes_ok Cp → RTMP_CALC_FCS32 Fcs Cp = crc_ref Fcs Cp.
Proof.
  intros Hc. unfold RTMP_CALC_FCS32, crc_ref. revert Fcs. induction Hc as [|b Cp Hb _ IH]; intros Fcs; [done|].
  simpl. by rewrite fcs_step_ref, IH.
Qed.

Lemma fcs32_is_crc32_witness :
  bytes_ok (str "123456789") ∧ crc_ref 0xffffffff (str "123456789") = Z.lxor 0xCBF43926 0xffffffff.
Proof.
  assert (bytes_ok (str "123456789")) as H by (apply (bool_decide_unpack _); vm_compute; exact I).
  split; [exact H|]. rewrite <- (fcs32_is_crc32 _ _ H). vm_compute. reflexivity.
Defined.

(** A step with the same byte, and one from the same register, is injective. *)
Definition inv8 (t : Z) : Z :=
  default 0 (list_find (fun i => Z.shiftr (tab FCSTAB_32 i) 24 = t) (seqZ 0 256) ≫= fun p => Some p.2).

Lemma top_byte_injective i j :
  is_u8 i → is_u8 j → Z.shiftr (tab FCSTAB_32 i) 24 = Z.shiftr (tab FCSTAB_32 j) 24 → i = j.
Proof.
  intros Hi Hj H.
  assert (∀ k, is_u8 k → inv8 (Z.shiftr (tab FCSTAB_32 k) 24) = k) as Hinv.
  { intros k Hk. apply Z.eqb_eq.
    apply (forall_range (fun k => inv8 (Z.shiftr (tab FCSTAB_32 k) 24) =? k) 0 256); [|done]. vm_compute. reflexivity. }
  by rewrite <- (Hinv i Hi), <- (Hinv j Hj), H.
Qed.

Lemma fcs_top z b : is_u32 z → Z.shiftr (fcs_step z b) 24 = Z.shiftr (tab FCSTAB_32 (Z.land (Z.lxor z b) 0xff)) 24.
Proof.
  intros Hz. unfold fcs_step. rewrite Z.shiftr_lxor, Z.shiftr_shiftr by lia.
  rewrite (Z.shiftr_div_pow2 z), (Z.div_small z), Z.lxor_0_l by (simpl; lia). done.
Qed.

Lemma fcs_step_injective z1 z2 b1 b2 :
  is_u32 z1 → is_u32 z2 → is_u8 b1 → is_u8 b2 → fcs_step z1 b1 = fcs_step z2 b2 →
  Z.shiftr z1 8 = Z.shiftr z2 8 ∧ Z.lxor z1 b1 mod 2 ^ 8 = Z.lxor z2 b2 mod 2 ^ 8.
Proof.
  intros H1 H2 Hb1 Hb2 E.
  assert (Z.land (Z.lxor z1 b1) 0xff = Z.land (Z.lxor z2 b2) 0xff) as El.
  { apply top_byte_injective; [apply masked..|]. rewrite <- !fcs_top by done. by rewrite E. }
  unfold fcs_step in E. rewrite El in E. apply lxor_inj_r in E. split; [done|].
  by rewrite <- !(land_ones_mod _ 8 0xff).
Qed.

Lemma fcs_step_range z b : is_u32 z → is_u32 (fcs_step z b).
Proof.
  intros Hz. apply (lxor_range 32); [lia| |].
  - pose proof (shiftr_range 32 8 z). lia.
  - apply (tab_Forall (fun x => is_u32 x)); [apply (bool_decide_unpack _); vm_compute; exact I|].
    change (length FCSTAB_32) with 256%nat. pose proof (masked (Z.lxor z b)). lia.
Qed.

Lemma word_parts z1 z2 : Z.shiftr z1 8 = Z.shiftr z2 8 → z1 mod 2 ^ 8 = z2 mod 2 ^ 8 → z1 = z2.
Proof. intros H1 H2. rewrite (split_word 8 z1), (split_word 8 z2), H1, H2 by lia. done. Qed.

Lemma fcs_parts z1 z2 b1 b2 :
  is_u32 z1 → is_u32 z2 → is_u8 b1 → is_u8 b2 → fcs_step z1 b1 = fcs_step z2 b2 → Z.lxor z1 b1 = Z.lxor z2 b2.
Proof.
  intros H1 H2 Hb1 Hb2 E. destruct (fcs_step_injective z1 z2 b1 b2) as [Hh Hl]; try done.
  apply word_parts; [by rewrite !shiftr_lxor_byte|done].
Qed.

Lemma fcs32_range z bs : is_u32 z → is_u32 (RTMP_CALC_FCS32 z bs).
Proof. unfold RTMP_CALC_FCS32. revert z. induction bs as [|b bs IH]; intros z Hz; [done|]. simpl. by apply IH, fcs_step_range. Qed.

Lemma fcs32_injective z1 z2 bs :
  bytes_ok bs → is_u32 z1 → is_u32 z2 → RTMP_CALC_FCS32 z1 bs = RTMP_CALC_FCS32 z2 bs → z1 = z2.
Proof.
  unfold RTMP_CALC_FCS32. intros Hb. revert z1 z2. induction Hb as [|b bs Hb _ IH]; intros z1 z2 H1 H2 E; [done|].
  simpl in E. apply IH in E; [|by apply fcs_step_range..]. apply fcs_parts in E; [|done..]. by apply lxor_inj_r in E.
Qed.

(** Data with one byte replaced has another checksum. *)
Lemma fcs32_differs z pre x y post :
  is_u32 z → bytes_ok (pre ++ x :: post) → is_u8 y → x ≠ y →
  RTMP_CALC_FCS32 z (pre ++ x :: post) ≠ RTMP_CALC_FCS32 z (pre ++ y :: post).
Proof.
  intros Hz Hb Hy Hne E. apply Forall_app in Hb as [Hpre Hb]. inversion Hb as [|? ? Hx Hpost]; subst.
  unfold RTMP_CALC_FCS32 in E. rewrite !fold_left_app in E. simpl in E.
  pose proof (fcs32_range z pre Hz) as Hr. unfold RTMP_CALC_FCS32 in Hr. set (r := fold_left fcs_step pre z) in *.
  apply fcs32_injective in E; [|done|by apply fcs_step_range..].
  apply fcs_parts in E; [|done..]. by apply lxor_inj_l in E.
Qed.

(** ** Taking the protection away *)

Definition accepts (data trail : list Z) : bool := Z.lxor (RTMP_CALC_FCS32 PPPINITFCS32 data) 0xffffffff =? le_val trail.

Lemma decrypt_data_run SharedKey key kb more iv ctl body rest w c ks c' data trail :
  SharedKey !! Z.to_nat (Z.shiftr (Z.land ctl 0xc0) 6) = Some key →
  Key key = kb ++ more → KeyLen key = Z.of_nat (length kb) → 0 < KeyLen key ≤ 13 → length (WEPKEY w) = 16%nat →
  length iv = 3%nat → keyed iv kb c → stream (length body) c = Ok (ks, c') →
  xor_bytes body ks = data ++ trail → length trail = 4%nat →
  ∃ tl w', length tl = 4%nat ∧ length (WEPKEY w') = 16%nat ∧
    RTMPDecryptData SharedKey (iv ++ ctl :: body ++ rest) (4 + Z.of_nat (length body)) w =
      Ok ((accepts data trail, data ++ trail ++ tl ++ rest), w').
Proof.
  intros Hsk Hk Hlen H13 Hw Hiv [_ Hc] Hs Hx Ht.
  destruct w as [wk f0 c0 reg0]. cbn [WEPKEY] in Hw.
  destruct wk as [|k0 [|k1 [|k2 wk]]]; try done. simpl in Hw. destruct iv as [|i0 [|i1 [|i2 [|]]]]; try done.
  assert (∃ mid tl0, wk = mid ++ tl0 ∧ length mid = length kb) as (mid & tl0 & -> & Hmid).
  { exists (take (length kb) wk), (drop (length kb) wk). rewrite take_drop, length_take. split; [done|lia]. }
  assert (length body = (length data + 4)%nat) as Hlb.
  { apply (f_equal length) in Hx. rewrite length_xor_bytes, length_app, (stream_length _ _ _ _ Hs), Nat.min_id in Hx. lia. }
  destruct (decrypt_run body 0 [] i0 [i1; i2; ctl] rest c ks c') as (tl & Htl & Ed); [done..|].
  change (0 + Z.of_nat (S (length [i1; i2; ctl]))) with 4 in Ed.
  exists tl. eexists. split; [done|]. split; [shelve|]. unfold RTMPDecryptData.
  rewrite (bind_run get _ _ _ _ eq_refl).
  erewrite bind_run by (unfold lift; rewrite (sub_bytes_prefix [i0; i1; i2]) by done; reflexivity). cbn [WEPKEY].
  erewrite bind_run by (unfold lift; rewrite (set_bytes_prefix [k0; k1; k2] (mid ++ tl0)) by done; reflexivity).
  rewrite (bind_run (modify _) _ _ _ _ eq_refl).
  erewrite bind_run by (unfold lift; rewrite (nth_byte_part [i0; i1; i2] ctl) by done; reflexivity).
  cbv zeta. rewrite Hsk, (proj2 (Z.eqb_neq _ 0)) by lia.
  rewrite (bind_run get _ _ _ _ eq_refl). unfold set_wepkey. cbn [WEPKEY FCSCRC32 WEPCONTEXT ShiftReg].
  erewrite bind_run by (unfold lift; rewrite Hk, sub_bytes_prefix by done; reflexivity).
  erewrite bind_run by (unfold lift; rewrite (set_bytes_part [i0; i1; i2] mid tl0) by done; reflexivity).
  rewrite (bind_run (modify _) _ _ _ _ eq_refl). cbn [WEPKEY FCSCRC32 WEPCONTEXT ShiftReg].
  erewrite bind_run by (unfold on_context; cbn [WEPCONTEXT]; rewrite (Hc c0 tl0 (KeyLen key)) by done; reflexivity).
  rewrite (proj2 (Z.ltb_ge _ 8)) by lia. replace (Z.to_nat (4 + Z.of_nat (length body) - 4)) with (length body) by lia.
  erewrite bind_run by (unfold on_context; cbn [WEPCONTEXT set_context]; cbn [app] in Ed; cbn [app]; rewrite Ed; reflexivity).
  rewrite Hx, <- app_assoc.
  erewrite bind_run by (unfold lift; rewrite (sub_bytes_part data trail) by lia; reflexivity).
  erewrite bind_run by (unfold lift; rewrite sub_bytes_prefix by lia; reflexivity).
  reflexivity.
Unshelve.
  simpl. rewrite length_app in *. lia.
Qed.

Lemma complement_range z : is_u32 z → is_u32 (Z.lxor z 0xffffffff).
Proof. intros Hz. apply (lxor_range 32); [lia|exact Hz|lia]. Qed.

Lemma icv_value data : le_val (icv data) = Z.lxor (RTMP_CALC_FCS32 PPPINITFCS32 data) 0xffffffff.
Proof.
  unfold icv. rewrite le_val_le_bytes, Z.mod_small; [done|]. apply complement_range, fcs32_range. unfold PPPINITFCS32. lia.
Qed.

Lemma accepts_own data : accepts data (icv data) = true.
Proof. unfold accepts. rewrite icv_value. apply Z.eqb_refl. Qed.

Lemma rejects_change data j x v :
  bytes_ok data →
  (data ++ icv data) !! j = Some x → v ≠ x → is_u8 v →
  ∃ data' trail', length trail' = 4%nat ∧ <[j := v]> (data ++ icv data) = data' ++ trail' ∧ accepts data' trail' = false.
Proof.
  intros Hd Hx Hne Hv. destruct (decide (j < length data)%nat) as [Hj|Hj].
  - rewrite insert_app_l by done. exists (<[j := v]> data), (icv data). split; [apply length_le_bytes|]. split; [done|].
    rewrite lookup_app_l in Hx by done. apply Z.eqb_neq. rewrite icv_value. intros E. apply lxor_inj_r in E. revert E.
    rewrite <- (take_drop_middle data j x Hx) in Hd |- *.
    assert (length (take j data) = j) as Hlj by (rewrite length_take; lia).
    rewrite insert_app_r_alt, Hlj, Nat.sub_diag by lia. cbn [insert list_insert].
    intros E. symmetry in E. revert E. apply fcs32_differs; [unfold PPPINITFCS32; lia|done|done|congruence].
  - rewrite insert_app_r_alt by lia. exists data, (<[(j - length data)%nat := v]> (icv data)).
    split; [rewrite length_insert; apply length_le_bytes|]. split; [done|].
    rewrite lookup_app_r in Hx by lia. apply Z.eqb_neq. rewrite <- icv_value.
    intros E. assert (bytes_ok (icv data)) as Hb by apply le_bytes_ok.
    assert (icv data = <[(j - length data)%nat := v]> (icv data)) as E'.
    { rewrite <- (le_bytes_le_val (icv data) 4) at 1 by (done || apply length_le_bytes). rewrite E.
      apply le_bytes_le_val; [by apply Forall_insert|]. rewrite length_insert. apply length_le_bytes. }
    apply (f_equal (lookup (j - length data)%nat)) in E'. rewrite Hx, list_lookup_insert_eq in E' by (by eapply lookup_lt_Some).
    congruence.
Qed.

Lemma key_id_bits k : 0 ≤ k < 4 → Z.shiftr (Z.land (u8 (Z.shiftl k 6)) 0xc0) 6 = k.
Proof. intros Hk. assert (k = 0 ∨ k = 1 ∨ k = 2 ∨ k = 3) as [-> | [-> | [-> | ->]]] by lia; reflexivity. Qed.

(** A receiver with the key of the sender. *)
Section Opening.
Context (SharedKey : list cipher_key) (KeyId : Z) (key : cipher_key) (kb more iv : list Z) (c c' : arcfour) (ks data : list Z) (w : wep).
Context (Hid : 0 ≤ KeyId < 4) (Hsk : SharedKey !! Z.to_nat KeyId = Some key) (Ek : Key key = kb ++ more)
  (Hkl : KeyLen key = Z.of_nat (length kb)) (H13 : 0 < KeyLen key ≤ 13) (Hw : length (WEPKEY w) = 16%nat)
  (Hiv : length iv = 3%nat) (Hc : keyed iv kb c) (Hd : bytes_ok data).
Context (Hs : stream (length data + 4) c = Ok (ks, c')) (Hks : bytes_ok ks).

Lemma length_sealed : length (xor_bytes (data ++ icv data) ks) = (length data + 4)%nat.
Proof.
  rewrite length_xor_bytes, length_app, (stream_length _ _ _ _ Hs). change (length (icv data)) with 4%nat. lia.
Qed.

Lemma unsealed : xor_bytes (xor_bytes (data ++ icv data) ks) ks = data ++ icv data.
Proof. apply xor_bytes_cancel. rewrite length_app, (stream_length _ _ _ _ Hs). reflexivity. Qed.

Lemma length_wep_frame : length (wep_frame iv KeyId ks data) = (8 + length data)%nat.
Proof. unfold wep_frame. rewrite !length_app, length_sealed, Hiv. simpl. lia. Qed.

(** A cipher text that decrypts to [data'] and [trail]. *)
Lemma opened_frame body data' trail :
  length body = (length data + 4)%nat → xor_bytes body ks = data' ++ trail → length trail = 4%nat →
  ∃ tl w', RTMPDecryptData SharedKey (iv ++ u8 (Z.shiftl KeyId 6) :: body) (Z.of_nat (8 + length data)) w =
    Ok ((accepts data' trail, data' ++ tl), w').
Proof.
  intros Hb Hx Ht.
  destruct (decrypt_data_run SharedKey key kb more iv (u8 (Z.shiftl KeyId 6)) body [] w c ks c' data' trail)
    as (tl & w' & _ & _ & E); try done; [by rewrite key_id_bits|by rewrite Hb|].
  exists (trail ++ tl), w'. rewrite !app_nil_r in E. replace (Z.of_nat (8 + length data)) with (4 + Z.of_nat (length body)) by lia.
  exact E.
Qed.

Lemma wep_accepts :
  ∃ tl w', RTMPDecryptData SharedKey (wep_frame iv KeyId ks data) (Z.of_nat (8 + length data)) w = Ok ((true, data ++ tl), w').
Proof.
  rewrite <- (accepts_own data). apply (opened_frame (xor_bytes (data ++ icv data) ks) data (icv data));
    [apply length_sealed|apply unsealed|done].
Qed.

Lemma wep_refuses i x y :
  (4 ≤ i)%nat → wep_frame iv KeyId ks data !! i = Some x → is_u8 y → y ≠ x →
  ∃ buf' w', RTMPDecryptData SharedKey (<[i := y]> (wep_frame iv KeyId ks data)) (Z.of_nat (8 + length data)) w =
    Ok ((false, buf'), w').
Proof.
  intros Hi Hx Hy Hne. set (sealed := xor_bytes (data ++ icv data) ks).
  assert (length (iv ++ [u8 (Z.shiftl KeyId 6)]) = 4%nat) as H4 by (rewrite length_app, Hiv; done).
  destruct (lookup_lt_is_Some_2 ks (i - 4)) as [k Hk].
  { apply lookup_lt_Some in Hx. rewrite length_wep_frame in Hx. rewrite (stream_length _ _ _ _ Hs). lia. }
  unfold wep_frame in *. fold sealed in Hx |- *. rewrite app_assoc in *. rewrite lookup_app_r, H4 in Hx by lia.
  assert ((data ++ icv data) !! (i - 4)%nat = Some (Z.lxor x k)) as Hp by (rewrite <- unsealed; by apply lookup_xor_bytes).
  destruct (rejects_change data (i - 4) (Z.lxor x k) (Z.lxor y k)) as (data' & trail & Ht & Ed & Ea); [done|exact Hp| | |].
  { intros H. by apply lxor_inj_r in H. }
  { apply (lxor_range 8); [lia|exact Hy|]. exact (Forall_lookup_1 _ _ _ _ Hks Hk). }
  rewrite insert_app_r_alt, H4, <- app_assoc by lia. rewrite <- Ea.
  destruct (opened_frame (<[(i - 4)%nat := y]> sealed) data' trail) as (tl & w' & E); [| |done|eexists _, w'; exact E].
  - rewrite length_insert. apply length_sealed.
  - rewrite (xor_bytes_insert _ _ _ _ k) by done. unfold sealed. rewrite unsealed. exact Ed.
Qed.
End Opening.

(** C32: A message that is protected piece by piece ([RTMPInitWepEngine],
    [RTMPEncryptData], [RTMPSetICV]) is accepted by [RTMPDecryptData] with the same
    keys, which leaves the message at the start of the buffer; with any one byte of
    the cipher text replaced it is refused. For keys of up to 13 bytes, any
    initialisation vector and whatever both sides did before. *)
Theorem wep_roundtrip t0 t1 t2 SharedKey KeyId key ps buf w1 w2 :
  0 ≤ KeyId < 4 → SharedKey !! Z.to_nat KeyId = Some key → 0 < KeyLen key ≤ 13 →
  KeyLen key ≤ Z.of_nat (length (Key key)) → bytes_ok (Key key) → bytes_ok (concat ps) →
  length (WEPKEY w1) = 16%nat → length (WEPKEY w2) = 16%nat → length buf = (8 + length (concat ps))%nat →
  ∃ frame w1',
    seal t0 t1 t2 (Key key) KeyId (KeyLen key) ps buf w1 = Ok (frame, w1') ∧ length frame = length buf ∧
    (∃ tl w2', RTMPDecryptData SharedKey frame (Z.of_nat (length frame)) w2 = Ok ((true, concat ps ++ tl), w2')) ∧
    (∀ i x y, (4 ≤ i)%nat → frame !! i = Some x → is_u8 y → y ≠ x →
      ∃ buf' w2', RTMPDecryptData SharedKey (<[i := y]> frame) (Z.of_nat (length frame)) w2 = Ok ((false, buf'), w2')).
Proof.
  intros Hid Hsk H13 Hlen Hk Hps Hw1 Hw2 Hbuf.
  assert (∃ kb more, Key key = kb ++ more ∧ KeyLen key = Z.of_nat (length kb)) as (kb & more & Ek & Hkl).
  { exists (take (Z.to_nat (KeyLen key)) (Key key)), (drop (Z.to_nat (KeyLen key)) (Key key)).
    rewrite take_drop, length_take. split; [done|lia]. }
  assert (bytes_ok kb) as Hkb by (rewrite Ek in Hk; by apply Forall_app in Hk as [? _]).
  set (iv := iv_of t0 t1 t2).
  assert (bytes_ok iv) as Hiv by (repeat constructor; apply random_byte_range).
  destruct (keyed_exists iv kb) as [c Hc]; [done..|].
  destruct (stream_ok (length (concat ps) + 4) c) as (ks & c' & Es & _ & Hks & _); [apply Hc|].
  destruct (seal_run t0 t1 t2 kb more KeyId (KeyLen key) ps buf [] w1 c ks c') as (w1' & E & _); try done; [lia|].
  rewrite !app_nil_r in E. rewrite <- Ek in E. exists (wep_frame iv KeyId ks (concat ps)), w1'. split; [exact E|].
  erewrite (length_wep_frame KeyId iv) by done. split; [done|]. split.
  - by eapply (wep_accepts SharedKey KeyId key kb more).
  - intros i x y. by eapply (wep_refuses SharedKey KeyId key kb more).
Qed.

(** Keys of both sides, with the third in use. *)
Definition two_keys : list cipher_key :=
  [mk_key 0 (replicate 16 0) [] []; mk_key 5 ([1; 2; 3; 4; 5] ++ replicate 11 0) [] []].

Lemma wep_roundtrip_witness :
  ∃ frame w1',
    seal 100 101 101 (Key (mk_key 5 ([1; 2; 3; 4; 5] ++ replicate 11 0) [] [])) 1 5 [str "sample"; str "s"] (replicate 15 0)
      (mk_wep WEPKEY_initial 0 (mk_arcfour 0 0 []) 0) = Ok (frame, w1') ∧ length frame = 15%nat ∧
    (∃ tl w2', RTMPDecryptData two_keys frame 15 (mk_wep (replicate 16 7) 0 (mk_arcfour 0 0 []) 0) = Ok ((true, str "samples" ++ tl), w2')).
Proof.
  destruct (wep_roundtrip 100 101 101 two_keys 1 (mk_key 5 ([1; 2; 3; 4; 5] ++ replicate 11 0) [] []) [str "sample"; str "s"]
    (replicate 15 0) (mk_wep WEPKEY_initial 0 (mk_arcfour 0 0 []) 0) (mk_wep (replicate 16 7) 0 (mk_arcfour 0 0 []) 0))
    as (frame & w1' & E1 & E2 & E3 & _).
  - lia.
  - reflexivity.
  - simpl. lia.
  - simpl. lia.
  - apply (bool_decide_unpack _). vm_compute. exact I.
  - apply (bool_decide_unpack _). vm_compute. exact I.
  - reflexivity.
  - reflexivity.
  - reflexivity.
  - exists frame, w1'. split; [exact E1|]. split; [exact E2|]. rewrite E2 in E3. exact E3.
Defined.

(** The three bytes of an initialisation vector are made from the clock alone: in
    the same tick they are equal, and the next message of the tick has the same. *)
Example iv_repeats t : iv_of t t t = [(RandomByte t).2; (RandomByte t).2; (RandomByte t).2].
Proof. reflexivity. Qed.

(** A key of more than 13 bytes overruns [WEPKEY]. *)
Example long_key_overruns SharedKey pSrc Len w key :
  length (WEPKEY w) = 16%nat → (4 ≤ length pSrc)%nat → SharedKey = replicate 4 key → KeyLen key = 16 → length (Key key) = 16%nat →
  RTMPDecryptData SharedKey pSrc Len w = Crash OutOfBounds.
Proof.
  intros Hw Hp -> Hl Hk. destruct w as [wk f c r]. cbn [WEPKEY] in Hw. destruct pSrc as [|p0 [|p1 [|p2 [|ctl rest]]]]; simpl in Hp; try lia.
  destruct wk as [|k0 [|k1 [|k2 wk]]]; try done. change (p0 :: p1 :: p2 :: ctl :: rest) with ([p0; p1; p2] ++ ctl :: rest).
  unfold RTMPDecryptData. rewrite (bind_run get _ _ _ _ eq_refl).
  erewrite bind_run by (unfold lift; rewrite (sub_bytes_prefix [p0; p1; p2]) by done; reflexivity). cbn [WEPKEY].
  erewrite bind_run by (unfold lift; rewrite (set_bytes_prefix [k0; k1; k2] wk) by done; reflexivity).
  rewrite (bind_run (modify _) _ _ _ _ eq_refl).
  erewrite bind_run by (unfold lift; rewrite (nth_byte_part [p0; p1; p2] ctl) by done; reflexivity). cbv zeta.
  rewrite lookup_replicate_2.
  2: { assert (0 ≤ Z.shiftr (Z.land ctl 0xc0) 6 < 4); [|lia]. apply (shiftr_range 8 6); [lia|].
       change 0xc0 with (Z.land 0xc0 0xff). rewrite Z.land_assoc. apply masked. }
  rewrite Hl. cbn [Z.eqb].
  rewrite (bind_run get _ _ _ _ eq_refl).
  erewrite bind_run by (unfold lift; rewrite <- (app_nil_r (Key key)), sub_bytes_prefix by lia; reflexivity).
  unfold set_wepkey. cbn [WEPKEY]. unfold mbind, stm_bind, lift, set_bytes.
  rewrite length_app. rewrite Hk. simpl in Hw. simpl length. 
  rewrite (proj2 (Z.leb_gt (3 + Z.of_nat 16) _)) by lia. done.
Qed.

(** The answer to a challenge of 128 bytes, decrypted by a peer with the keys. *)
Example challenge_opened :
  let ChlgText := seqZ 100 128 in
  match challenge_answer 7 7 8 two_keys 1 1 2 ChlgText (replicate 144 0) (mk_wep WEPKEY_initial 0 (mk_arcfour 0 0 []) 0) with
  | Ok (frame, w) =>
      match RTMPDecryptData two_keys frame 144 w with
      | Ok ((ok, buf), _) => ok = true ∧ take 136 buf = [1; 0; 3; 0; 0; 0; 16; 128] ++ ChlgText
      | Crash _ => False
      end
  | Crash _ => False
  end.
Proof. vm_compute. split; reflexivity. Qed.

(** ** The cipher and the frames of the standard

    RC4 on a permutation of the bytes, as published; and the WEP frame of IEEE 802.11
    with it and the division by the polynomial of CRC-32. *)
Definition swap (S : list Z) (i j : Z) : list Z := <[Z.to_nat i := tab S j]> (<[Z.to_nat j := tab S i]> S).
Fixpoint ksa (n : nat) (i j : Z) (key S : list Z) : list Z :=
  match n with
  | O => S
  | S n' =>
      let j := (j + tab S i + tab key (i mod Z.of_nat (length key))) mod 256 in
      ksa n' (i + 1) j key (swap S i j)
  end.
Fixpoint prga (n : nat) (i j : Z) (S : list Z) : list Z :=
  match n with
  | O => []
  | S n' =>
      let i := (i + 1) mod 256 in
      let j := (j + tab S i) mod 256 in
      let k := (tab S i + tab S j) mod 256 in
      tab (swap S i j) k :: prga n' i j (swap S i j)
  end.
Definition rc4 (key : list Z) (n : nat) : list Z := prga n 0 0 (ksa 256 0 0 key (seqZ 0 256)).

Definition std_icv (data : list Z) : list Z := le_bytes 4 (Z.lxor (crc_ref 0xffffffff data) 0xffffffff).
Definition std_wep_frame (iv : list Z) (KeyId : Z) (key data : list Z) : list Z :=
  iv ++ [64 * KeyId] ++ xor_bytes (data ++ std_icv data) (rc4 (iv ++ key) (length data + 4)).

Lemma land_ff z : Z.land z 0xff = z mod 256.
Proof. by apply (land_ones_mod z 8). Qed.

Lemma state_at l i : state_ok l → is_u8 i → nth_byte l i = Ok (tab l i) ∧ l !! Z.to_nat i = Some (tab l i).
Proof.
  intros Hl Hi. destruct (state_read l i Hl Hi) as (x & E & Hx & _). destruct Hl as (Hl & _ & _).
  rewrite tab_lookup in Hx by lia. injection Hx as <-. split; [done|]. apply tab_lookup. lia.
Qed.

Lemma swap_ok l i j : state_ok l → is_u8 i → is_u8 j → state_ok (swap l i j).
Proof.
  intros Hl Hi Hj. apply (state_swap l j i); [done..|apply state_at|apply state_at]; done.
Qed.

Lemma init_loop_ksa n i j key tl state :
  state_ok state → 0 ≤ i → i + Z.of_nat n ≤ 256 → key ≠ [] →
  init_loop n i (i mod Z.of_nat (length key)) j (key ++ tl) (Z.of_nat (length key)) state = Ok (ksa n i j key state).
Proof.
  intros Hs Hi Hn Hk. assert (0 < Z.of_nat (length key)) as Hl by (destruct key; [done|simpl; lia]).
  revert i j state Hs Hi Hn. induction n as [|n IH]; intros i j state Hs Hi Hn; [done|]. cbn [init_loop ksa].
  rewrite (proj1 (state_at state i Hs ltac:(lia))), result_bind_Ok.
  pose proof (Z.mod_pos_bound i (Z.of_nat (length key)) Hl) as Hm.
  rewrite nth_byte_tab by done. rewrite result_bind_Ok. cbv zeta. rewrite land_ff.
  replace (j + tab key (i mod Z.of_nat (length key)) + tab state i) with (j + tab state i + tab key (i mod Z.of_nat (length key))) by lia.
  set (j' := _ mod 256). assert (is_u8 j') as Hj by (apply Z.mod_pos_bound; lia).
  rewrite (proj1 (state_at state j' Hs Hj)), result_bind_Ok.
  replace (if Z.of_nat (length key) <=? i mod Z.of_nat (length key) + 1 then 0 else i mod Z.of_nat (length key) + 1)
    with ((i + 1) mod Z.of_nat (length key)).
  - apply IH; [apply swap_ok; [done|lia|done]|lia|lia].
  - rewrite <- Zplus_mod_idemp_l. destruct (Z.leb_spec (Z.of_nat (length key)) (i mod Z.of_nat (length key) + 1)).
    + replace (i mod Z.of_nat (length key) + 1) with (Z.of_nat (length key)) by lia. apply Z.mod_same. lia.
    + apply Z.mod_small. lia.
Qed.

Lemma stream_prga n x y state : is_u8 x → is_u8 y → state_ok state →
  ∃ c', stream n (mk_arcfour x y state) = Ok (prga n x y state, c').
Proof.
  revert x y state. induction n as [|n IH]; intros x y state Hx Hy Hs; [by eexists|]. cbn [stream prga]. cbv zeta.
  set (i := (x + 1) mod 256). set (j := (y + tab state i) mod 256). set (k := (tab state i + tab state j) mod 256).
  assert (is_u8 i ∧ is_u8 j ∧ is_u8 k) as (Hi & Hj & Hk) by (repeat split; apply Z.mod_pos_bound; lia).
  pose proof (swap_ok state i j Hs Hi Hj) as Hs'. destruct (IH i j (swap state i j) Hi Hj Hs') as (c' & E). exists c'.
  rewrite (bind_run ARCFOUR_BYTE _ _ (tab (swap state i j) k) (mk_arcfour i j (swap state i j))).
  - by rewrite (bind_run _ _ _ _ _ E).
  - unfold ARCFOUR_BYTE. rewrite (bind_run get _ _ _ _ eq_refl). cbn [X Y STATE]. rewrite !land_ff. fold i.
    erewrite bind_run by (unfold lift; rewrite (proj1 (state_at state i Hs Hi)); reflexivity).
    cbv zeta. rewrite !land_ff, (Z.add_comm (tab state i) y). fold j.
    erewrite bind_run by (unfold lift; rewrite (proj1 (state_at state j Hs Hj)); reflexivity).
    rewrite (bind_run (put _) _ _ _ _ eq_refl), land_ff. fold k. fold (swap state i j). unfold lift.
    by rewrite (proj1 (state_at _ k Hs' Hk)).
Qed.

Lemma ksa_ok n i j key state : state_ok state → 0 ≤ i → i + Z.of_nat n ≤ 256 → state_ok (ksa n i j key state).
Proof.
  revert i j state. induction n as [|n IH]; intros i j state Hs Hi Hn; [done|]. cbn [ksa]. cbv zeta.
  apply IH; [apply swap_ok; [done|lia|apply Z.mod_pos_bound; lia]|lia|lia].
Qed.

(** The cipher of the driver gives the key stream of RC4. *)
Lemma stream_rc4 n key : key ≠ [] →
  ∃ c c', ctx_ok c ∧ stream n c = Ok (rc4 key n, c') ∧
    ∀ tl len c0, len = Z.of_nat (length key) → ARCFOUR_INIT (key ++ tl) len c0 = Ok (tt, c).
Proof.
  intros Hk. set (st := ksa 256 0 0 key (seqZ 0 256)).
  assert (state_ok st) as Hst by (apply ksa_ok; [apply state_ok_init|lia|lia]).
  destruct (stream_prga n 0 0 st) as (c' & E); [lia..|done|]. exists (mk_arcfour 0 0 st), c'.
  split; [split; [simpl; lia|split; [simpl; lia|done]]|]. split; [exact E|]. intros tl len c0 ->.
  pose proof (init_loop_ksa 256 0 0 key tl (seqZ 0 256) state_ok_init ltac:(lia) ltac:(lia) Hk) as Ei.
  rewrite Z.mod_0_l in Ei by (destruct key; [done|simpl; lia]).
  unfold ARCFOUR_INIT. by erewrite bind_run by (unfold lift; rewrite Ei; reflexivity).
Qed.

Lemma rc4_ok n key : key ≠ [] → length (rc4 key n) = n ∧ bytes_ok (rc4 key n).
Proof.
  intros Hk. destruct (stream_rc4 n key Hk) as (c & c' & Hc & E & _).
  destruct (stream_ok n c Hc) as (ks & c2 & E2 & Hl & Hb & _). rewrite E in E2. by injection E2 as <- _.
Qed.

Lemma icv_std data : bytes_ok data → icv data = std_icv data.
Proof. intros Hd. unfold icv, std_icv. by rewrite fcs32_is_crc32. Qed.

(** The frame of the standard is [wep_frame] under the stream the cipher gives. *)
Lemma wep_frame_std iv KeyId key data : length iv = 3%nat → 0 ≤ KeyId < 4 → bytes_ok data →
  ∃ c c', keyed iv key c ∧ stream (length data + 4) c = Ok (rc4 (iv ++ key) (length data + 4), c') ∧
    std_wep_frame iv KeyId key data = wep_frame iv KeyId (rc4 (iv ++ key) (length data + 4)) data.
Proof.
  intros Hl Hid Hd. assert (iv ++ key ≠ []) as Hne by (destruct iv; done).
  destruct (stream_rc4 (length data + 4) (iv ++ key) Hne) as (c & c' & Hc & E & Hi). exists c, c'. split; [|split; [exact E|]].
  - split; [done|]. intros c0 tl len ->. rewrite app_assoc. apply Hi. rewrite length_app. lia.
  - unfold std_wep_frame, wep_frame. rewrite icv_std by done. do 3 f_equal.
    assert (KeyId = 0 ∨ KeyId = 1 ∨ KeyId = 2 ∨ KeyId = 3) as [-> | [-> | [-> | ->]]] by lia; reflexivity.
Qed.

(** Published streams. *)
Example rc4_vectors :
  rc4 [1; 2; 3; 4; 5] 5 = [0xb2; 0x39; 0x63; 0x05; 0xf0] ∧
  rc4 (str "Key") 5 = [0xeb; 0x9f; 0x77; 0x81; 0xb7].
Proof. vm_compute. split; reflexivity. Qed.
