(* ===== verification/Aes.v ===== *)
(** * AES

    Models the two implementations of AES in [rt2501/sources/Module/]: the one of
    [rtmp_tkip.c] works on bytes and makes the round keys as it goes along; the one
    of [md5.c] works on words, with tables for the rounds, and keeps the round keys
    in a context. *)

From S2P Require Import Prelude Words.

(** ** rtmp_tkip.c *)

Definition SboxTable : list Z := [
   0x63; 0x7c; 0x77; 0x7b; 0xf2; 0x6b; 0x6f; 0xc5; 0x30; 0x01; 0x67; 0x2b; 0xfe; 0xd7; 0xab; 0x76;
   0xca; 0x82; 0xc9; 0x7d; 0xfa; 0x59; 0x47; 0xf0; 0xad; 0xd4; 0xa2; 0xaf; 0x9c; 0xa4; 0x72; 0xc0;
   0xb7; 0xfd; 0x93; 0x26; 0x36; 0x3f; 0xf7; 0xcc; 0x34; 0xa5; 0xe5; 0xf1; 0x71; 0xd8; 0x31; 0x15;
   0x04; 0xc7; 0x23; 0xc3; 0x18; 0x96; 0x05; 0x9a; 0x07; 0x12; 0x80; 0xe2; 0xeb; 0x27; 0xb2; 0x75;
   0x09; 0x83; 0x2c; 0x1a; 0x1b; 0x6e; 0x5a; 0xa0; 0x52; 0x3b; 0xd6; 0xb3; 0x29; 0xe3; 0x2f; 0x84;
   0x53; 0xd1; 0x00; 0xed; 0x20; 0xfc; 0xb1; 0x5b; 0x6a; 0xcb; 0xbe; 0x39; 0x4a; 0x4c; 0x58; 0xcf;
   0xd0; 0xef; 0xaa; 0xfb; 0x43; 0x4d; 0x33; 0x85; 0x45; 0xf9; 0x02; 0x7f; 0x50; 0x3c; 0x9f; 0xa8;
   0x51; 0xa3; 0x40; 0x8f; 0x92; 0x9d; 0x38; 0xf5; 0xbc; 0xb6; 0xda; 0x21; 0x10; 0xff; 0xf3; 0xd2;
   0xcd; 0x0c; 0x13; 0xec; 0x5f; 0x97; 0x44; 0x17; 0xc4; 0xa7; 0x7e; 0x3d; 0x64; 0x5d; 0x19; 0x73;
   0x60; 0x81; 0x4f; 0xdc; 0x22; 0x2a; 0x90; 0x88; 0x46; 0xee; 0xb8; 0x14; 0xde; 0x5e; 0x0b; 0xdb;
   0xe0; 0x32; 0x3a; 0x0a; 0x49; 0x06; 0x24; 0x5c; 0xc2; 0xd3; 0xac; 0x62; 0x91; 0x95; 0xe4; 0x79;
   0xe7; 0xc8; 0x37; 0x6d; 0x8d; 0xd5; 0x4e; 0xa9; 0x6c; 0x56; 0xf4; 0xea; 0x65; 0x7a; 0xae; 0x08;
   0xba; 0x78; 0x25; 0x2e; 0x1c; 0xa6; 0xb4; 0xc6; 0xe8; 0xdd; 0x74; 0x1f; 0x4b; 0xbd; 0x8b; 0x8a;
   0x70; 0x3e; 0xb5; 0x66; 0x48; 0x03; 0xf6; 0x0e; 0x61; 0x35; 0x57; 0xb9; 0x86; 0xc1; 0x1d; 0x9e;
   0xe1; 0xf8; 0x98; 0x11; 0x69; 0xd9; 0x8e; 0x94; 0x9b; 0x1e; 0x87; 0xe9; 0xce; 0x55; 0x28; 0xdf;
   0x8c; 0xa1; 0x89; 0x0d; 0xbf; 0xe6; 0x42; 0x68; 0x41; 0x99; 0x2d; 0x0f; 0xb0; 0x54; 0xbb; 0x16].
Definition RTMPCkipSbox (a : Z) : Z := tab SboxTable a.

(** Of 16 bytes. *)
Definition byte_sub (inp : list Z) : list Z := RTMPCkipSbox <$> inp.
Definition shift_row (inp : list Z) : list Z :=
  [tab inp 0; tab inp 5; tab inp 10; tab inp 15; tab inp 4; tab inp 9; tab inp 14; tab inp 3;
   tab inp 8; tab inp 13; tab inp 2; tab inp 7; tab inp 12; tab inp 1; tab inp 6; tab inp 11].

(** [xor_32], [xor_128] and [bitwise_xor] differ only in the number of bytes. *)
Definition xor_32 (a b : list Z) : list Z := xor_bytes (take 4 a) (take 4 b).
Definition xor_128 (a b : list Z) : list Z := xor_bytes (take 16 a) (take 16 b).
Definition bitwise_xor (ina inb : list Z) : list Z := xor_bytes (take 16 ina) (take 16 inb).

(** One turn of the loop that shifts [andf7]: its byte, and the one before it. *)
Definition shift_turn (cur prev : Z) : Z :=
  let cur := u8 (Z.shiftl cur 1) in
  if Z.land prev 0x80 =? 0x80 then Z.lor cur 1 else cur.
Definition mix_column (inp : list Z) : list Z :=
  let add1b := (fun x => if Z.land x 0x80 =? 0x80 then 0x1b else 0) <$> take 4 inp in
  let swap_halfs := [tab inp 2; tab inp 3; tab inp 0; tab inp 1] in
  let rotl := [tab inp 3; tab inp 0; tab inp 1; tab inp 2] in
  let andf7 := (fun x => Z.land x 0x7f) <$> take 4 inp in
  let a3 := shift_turn (tab andf7 3) (tab andf7 2) in
  let a2 := shift_turn (tab andf7 2) (tab andf7 1) in
  let a1 := shift_turn (tab andf7 1) (tab andf7 0) in
  let a0 := Z.land (u8 (Z.shiftl (tab andf7 0) 1)) 0xfe in
  let add1bf7 := xor_32 add1b [a0; a1; a2; a3] in
  let rotr := xor_32 inp add1bf7 in
  let rotr := [tab rotr 1; tab rotr 2; tab rotr 3; tab rotr 0] in
  let temp := xor_32 add1bf7 rotr in
  let tempb := xor_32 swap_halfs rotl in
  xor_32 temp tempb.

Definition rcon_table : list Z := [0x01; 0x02; 0x04; 0x08; 0x10; 0x20; 0x40; 0x80; 0x1b; 0x36; 0x36; 0x36].
Definition next_key (key : list Z) (round : Z) : list Z :=
  let sbox_key := [RTMPCkipSbox (tab key 13); RTMPCkipSbox (tab key 14); RTMPCkipSbox (tab key 15); RTMPCkipSbox (tab key 12)] in
  let rcon := tab rcon_table round in
  let k0 := xor_32 key sbox_key in
  let k0 := <[0%nat := Z.lxor (tab k0 0) rcon]> k0 in
  let k4 := xor_32 (drop 4 key) k0 in
  let k8 := xor_32 (drop 8 key) k4 in
  let k12 := xor_32 (drop 12 key) k8 in
  k0 ++ k4 ++ k8 ++ k12.

(** One round: the round key and the text. *)
Definition aes_round (round : Z) (data : list Z) (s : list Z * list Z) : list Z * list Z :=
  let '(round_key, ciphertext) := s in
  if round =? 0 then (next_key round_key round, xor_128 round_key data)
  else
    let b := shift_row (byte_sub ciphertext) in
    if round =? 10 then (round_key, xor_128 b round_key)
    else
      let a := mix_column b ++ mix_column (drop 4 b) ++ mix_column (drop 8 b) ++ mix_column (drop 12 b) in
      (next_key round_key round, xor_128 a round_key).
Fixpoint aes_loop (n : nat) (round : Z) (data : list Z) (s : list Z * list Z) : list Z * list Z :=
  match n with O => s | S n' => aes_loop n' (round + 1) data (aes_round round data s) end.
Definition aes128k128d (key data : list Z) : list Z := (aes_loop 11 0 data (take 16 key, [])).2.

(** ** md5.c *)

Definition FSb : list Z := [
   0x63; 0x7C; 0x77; 0x7B; 0xF2; 0x6B; 0x6F; 0xC5; 0x30; 0x01; 0x67; 0x2B; 0xFE; 0xD7; 0xAB; 0x76;
   0xCA; 0x82; 0xC9; 0x7D; 0xFA; 0x59; 0x47; 0xF0; 0xAD; 0xD4; 0xA2; 0xAF; 0x9C; 0xA4; 0x72; 0xC0;
   0xB7; 0xFD; 0x93; 0x26; 0x36; 0x3F; 0xF7; 0xCC; 0x34; 0xA5; 0xE5; 0xF1; 0x71; 0xD8; 0x31; 0x15;
   0x04; 0xC7; 0x23; 0xC3; 0x18; 0x96; 0x05; 0x9A; 0x07; 0x12; 0x80; 0xE2; 0xEB; 0x27; 0xB2; 0x75;
   0x09; 0x83; 0x2C; 0x1A; 0x1B; 0x6E; 0x5A; 0xA0; 0x52; 0x3B; 0xD6; 0xB3; 0x29; 0xE3; 0x2F; 0x84;
   0x53; 0xD1; 0x00; 0xED; 0x20; 0xFC; 0xB1; 0x5B; 0x6A; 0xCB; 0xBE; 0x39; 0x4A; 0x4C; 0x58; 0xCF;
   0xD0; 0xEF; 0xAA; 0xFB; 0x43; 0x4D; 0x33; 0x85; 0x45; 0xF9; 0x02; 0x7F; 0x50; 0x3C; 0x9F; 0xA8;
   0x51; 0xA3; 0x40; 0x8F; 0x92; 0x9D; 0x38; 0xF5; 0xBC; 0xB6; 0xDA; 0x21; 0x10; 0xFF; 0xF3; 0xD2;
   0xCD; 0x0C; 0x13; 0xEC; 0x5F; 0x97; 0x44; 0x17; 0xC4; 0xA7; 0x7E; 0x3D; 0x64; 0x5D; 0x19; 0x73;
   0x60; 0x81; 0x4F; 0xDC; 0x22; 0x2A; 0x90; 0x88; 0x46; 0xEE; 0xB8; 0x14; 0xDE; 0x5E; 0x0B; 0xDB;
   0xE0; 0x32; 0x3A; 0x0A; 0x49; 0x06; 0x24; 0x5C; 0xC2; 0xD3; 0xAC; 0x62; 0x91; 0x95; 0xE4; 0x79;
   0xE7; 0xC8; 0x37; 0x6D; 0x8D; 0xD5; 0x4E; 0xA9; 0x6C; 0x56; 0xF4; 0xEA; 0x65; 0x7A; 0xAE; 0x08;
   0xBA; 0x78; 0x25; 0x2E; 0x1C; 0xA6; 0xB4; 0xC6; 0xE8; 0xDD; 0x74; 0x1F; 0x4B; 0xBD; 0x8B; 0x8A;
   0x70; 0x3E; 0xB5; 0x66; 0x48; 0x03; 0xF6; 0x0E; 0x61; 0x35; 0x57; 0xB9; 0x86; 0xC1; 0x1D; 0x9E;
   0xE1; 0xF8; 0x98; 0x11; 0x69; 0xD9; 0x8E; 0x94; 0x9B; 0x1E; 0x87; 0xE9; 0xCE; 0x55; 0x28; 0xDF;
   0x8C; 0xA1; 0x89; 0x0D; 0xBF; 0xE6; 0x42; 0x68; 0x41; 0x99; 0x2D; 0x0F; 0xB0; 0x54; 0xBB; 0x16].
(** [V(a,b,c,d)] is written [0xabcd]; the four tables are its rotations. *)
Definition FT : list Z := [
   0xC66363A5; 0xF87C7C84; 0xEE777799; 0xF67B7B8D; 0xFFF2F20D; 0xD66B6BBD; 0xDE6F6FB1; 0x91C5C554;
   0x60303050; 0x02010103; 0xCE6767A9; 0x562B2B7D; 0xE7FEFE19; 0xB5D7D762; 0x4DABABE6; 0xEC76769A;
   0x8FCACA45; 0x1F82829D; 0x89C9C940; 0xFA7D7D87; 0xEFFAFA15; 0xB25959EB; 0x8E4747C9; 0xFBF0F00B;
   0x41ADADEC; 0xB3D4D467; 0x5FA2A2FD; 0x45AFAFEA; 0x239C9CBF; 0x53A4A4F7; 0xE4727296; 0x9BC0C05B;
   0x75B7B7C2; 0xE1FDFD1C; 0x3D9393AE; 0x4C26266A; 0x6C36365A; 0x7E3F3F41; 0xF5F7F702; 0x83CCCC4F;
   0x6834345C; 0x51A5A5F4; 0xD1E5E534; 0xF9F1F108; 0xE2717193; 0xABD8D873; 0x62313153; 0x2A15153F;
   0x0804040C; 0x95C7C752; 0x46232365; 0x9DC3C35E; 0x30181828; 0x379696A1; 0x0A05050F; 0x2F9A9AB5;
   0x0E070709; 0x24121236; 0x1B80809B; 0xDFE2E23D; 0xCDEBEB26; 0x4E272769; 0x7FB2B2CD; 0xEA75759F;
   0x1209091B; 0x1D83839E; 0x582C2C74; 0x341A1A2E; 0x361B1B2D; 0xDC6E6EB2; 0xB45A5AEE; 0x5BA0A0FB;
   0xA45252F6; 0x763B3B4D; 0xB7D6D661; 0x7DB3B3CE; 0x5229297B; 0xDDE3E33E; 0x5E2F2F71; 0x13848497;
   0xA65353F5; 0xB9D1D168; 0x00000000; 0xC1EDED2C; 0x40202060; 0xE3FCFC1F; 0x79B1B1C8; 0xB65B5BED;
   0xD46A6ABE; 0x8DCBCB46; 0x67BEBED9; 0x7239394B; 0x944A4ADE; 0x984C4CD4; 0xB05858E8; 0x85CFCF4A;
   0xBBD0D06B; 0xC5EFEF2A; 0x4FAAAAE5; 0xEDFBFB16; 0x864343C5; 0x9A4D4DD7; 0x66333355; 0x11858594;
   0x8A4545CF; 0xE9F9F910; 0x04020206; 0xFE7F7F81; 0xA05050F0; 0x783C3C44; 0x259F9FBA; 0x4BA8A8E3;
   0xA25151F3; 0x5DA3A3FE; 0x804040C0; 0x058F8F8A; 0x3F9292AD; 0x219D9DBC; 0x70383848; 0xF1F5F504;
   0x63BCBCDF; 0x77B6B6C1; 0xAFDADA75; 0x42212163; 0x20101030; 0xE5FFFF1A; 0xFDF3F30E; 0xBFD2D26D;
   0x81CDCD4C; 0x180C0C14; 0x26131335; 0xC3ECEC2F; 0xBE5F5FE1; 0x359797A2; 0x884444CC; 0x2E171739;
   0x93C4C457; 0x55A7A7F2; 0xFC7E7E82; 0x7A3D3D47; 0xC86464AC; 0xBA5D5DE7; 0x3219192B; 0xE6737395;
   0xC06060A0; 0x19818198; 0x9E4F4FD1; 0xA3DCDC7F; 0x44222266; 0x542A2A7E; 0x3B9090AB; 0x0B888883;
   0x8C4646CA; 0xC7EEEE29; 0x6BB8B8D3; 0x2814143C; 0xA7DEDE79; 0xBC5E5EE2; 0x160B0B1D; 0xADDBDB76;
   0xDBE0E03B; 0x64323256; 0x743A3A4E; 0x140A0A1E; 0x924949DB; 0x0C06060A; 0x4824246C; 0xB85C5CE4;
   0x9FC2C25D; 0xBDD3D36E; 0x43ACACEF; 0xC46262A6; 0x399191A8; 0x319595A4; 0xD3E4E437; 0xF279798B;
   0xD5E7E732; 0x8BC8C843; 0x6E373759; 0xDA6D6DB7; 0x018D8D8C; 0xB1D5D564; 0x9C4E4ED2; 0x49A9A9E0;
   0xD86C6CB4; 0xAC5656FA; 0xF3F4F407; 0xCFEAEA25; 0xCA6565AF; 0xF47A7A8E; 0x47AEAEE9; 0x10080818;
   0x6FBABAD5; 0xF0787888; 0x4A25256F; 0x5C2E2E72; 0x381C1C24; 0x57A6A6F1; 0x73B4B4C7; 0x97C6C651;
   0xCBE8E823; 0xA1DDDD7C; 0xE874749C; 0x3E1F1F21; 0x964B4BDD; 0x61BDBDDC; 0x0D8B8B86; 0x0F8A8A85;
   0xE0707090; 0x7C3E3E42; 0x71B5B5C4; 0xCC6666AA; 0x904848D8; 0x06030305; 0xF7F6F601; 0x1C0E0E12;
   0xC26161A3; 0x6A35355F; 0xAE5757F9; 0x69B9B9D0; 0x17868691; 0x99C1C158; 0x3A1D1D27; 0x279E9EB9;
   0xD9E1E138; 0xEBF8F813; 0x2B9898B3; 0x22111133; 0xD26969BB; 0xA9D9D970; 0x078E8E89; 0x339494A7;
   0x2D9B9BB6; 0x3C1E1E22; 0x15878792; 0xC9E9E920; 0x87CECE49; 0xAA5555FF; 0x50282878; 0xA5DFDF7A;
   0x038C8C8F; 0x59A1A1F8; 0x09898980; 0x1A0D0D17; 0x65BFBFDA; 0xD7E6E631; 0x844242C6; 0xD06868B8;
   0x824141C3; 0x299999B0; 0x5A2D2D77; 0x1E0F0F11; 0x7BB0B0CB; 0xA85454FC; 0x6DBBBBD6; 0x2C16163A].
Definition RSb : list Z := [
   0x52; 0x09; 0x6A; 0xD5; 0x30; 0x36; 0xA5; 0x38; 0xBF; 0x40; 0xA3; 0x9E; 0x81; 0xF3; 0xD7; 0xFB;
   0x7C; 0xE3; 0x39; 0x82; 0x9B; 0x2F; 0xFF; 0x87; 0x34; 0x8E; 0x43; 0x44; 0xC4; 0xDE; 0xE9; 0xCB;
   0x54; 0x7B; 0x94; 0x32; 0xA6; 0xC2; 0x23; 0x3D; 0xEE; 0x4C; 0x95; 0x0B; 0x42; 0xFA; 0xC3; 0x4E;
   0x08; 0x2E; 0xA1; 0x66; 0x28; 0xD9; 0x24; 0xB2; 0x76; 0x5B; 0xA2; 0x49; 0x6D; 0x8B; 0xD1; 0x25;
   0x72; 0xF8; 0xF6; 0x64; 0x86; 0x68; 0x98; 0x16; 0xD4; 0xA4; 0x5C; 0xCC; 0x5D; 0x65; 0xB6; 0x92;
   0x6C; 0x70; 0x48; 0x50; 0xFD; 0xED; 0xB9; 0xDA; 0x5E; 0x15; 0x46; 0x57; 0xA7; 0x8D; 0x9D; 0x84;
   0x90; 0xD8; 0xAB; 0x00; 0x8C; 0xBC; 0xD3; 0x0A; 0xF7; 0xE4; 0x58; 0x05; 0xB8; 0xB3; 0x45; 0x06;
   0xD0; 0x2C; 0x1E; 0x8F; 0xCA; 0x3F; 0x0F; 0x02; 0xC1; 0xAF; 0xBD; 0x03; 0x01; 0x13; 0x8A; 0x6B;
   0x3A; 0x91; 0x11; 0x41; 0x4F; 0x67; 0xDC; 0xEA; 0x97; 0xF2; 0xCF; 0xCE; 0xF0; 0xB4; 0xE6; 0x73;
   0x96; 0xAC; 0x74; 0x22; 0xE7; 0xAD; 0x35; 0x85; 0xE2; 0xF9; 0x37; 0xE8; 0x1C; 0x75; 0xDF; 0x6E;
   0x47; 0xF1; 0x1A; 0x71; 0x1D; 0x29; 0xC5; 0x89; 0x6F; 0xB7; 0x62; 0x0E; 0xAA; 0x18; 0xBE; 0x1B;
   0xFC; 0x56; 0x3E; 0x4B; 0xC6; 0xD2; 0x79; 0x20; 0x9A; 0xDB; 0xC0; 0xFE; 0x78; 0xCD; 0x5A; 0xF4;
   0x1F; 0xDD; 0xA8; 0x33; 0x88; 0x07; 0xC7; 0x31; 0xB1; 0x12; 0x10; 0x59; 0x27; 0x80; 0xEC; 0x5F;
   0x60; 0x51; 0x7F; 0xA9; 0x19; 0xB5; 0x4A; 0x0D; 0x2D; 0xE5; 0x7A; 0x9F; 0x93; 0xC9; 0x9C; 0xEF;
   0xA0; 0xE0; 0x3B; 0x4D; 0xAE; 0x2A; 0xF5; 0xB0; 0xC8; 0xEB; 0xBB; 0x3C; 0x83; 0x53; 0x99; 0x61;
   0x17; 0x2B; 0x04; 0x7E; 0xBA; 0x77; 0xD6; 0x26; 0xE1; 0x69; 0x14; 0x63; 0x55; 0x21; 0x0C; 0x7D].
Definition RT : list Z := [
   0x51F4A750; 0x7E416553; 0x1A17A4C3; 0x3A275E96; 0x3BAB6BCB; 0x1F9D45F1; 0xACFA58AB; 0x4BE30393;
   0x2030FA55; 0xAD766DF6; 0x88CC7691; 0xF5024C25; 0x4FE5D7FC; 0xC52ACBD7; 0x26354480; 0xB562A38F;
   0xDEB15A49; 0x25BA1B67; 0x45EA0E98; 0x5DFEC0E1; 0xC32F7502; 0x814CF012; 0x8D4697A3; 0x6BD3F9C6;
   0x038F5FE7; 0x15929C95; 0xBF6D7AEB; 0x955259DA; 0xD4BE832D; 0x587421D3; 0x49E06929; 0x8EC9C844;
   0x75C2896A; 0xF48E7978; 0x99583E6B; 0x27B971DD; 0xBEE14FB6; 0xF088AD17; 0xC920AC66; 0x7DCE3AB4;
   0x63DF4A18; 0xE51A3182; 0x97513360; 0x62537F45; 0xB16477E0; 0xBB6BAE84; 0xFE81A01C; 0xF9082B94;
   0x70486858; 0x8F45FD19; 0x94DE6C87; 0x527BF8B7; 0xAB73D323; 0x724B02E2; 0xE31F8F57; 0x6655AB2A;
   0xB2EB2807; 0x2FB5C203; 0x86C57B9A; 0xD33708A5; 0x302887F2; 0x23BFA5B2; 0x02036ABA; 0xED16825C;
   0x8ACF1C2B; 0xA779B492; 0xF307F2F0; 0x4E69E2A1; 0x65DAF4CD; 0x0605BED5; 0xD134621F; 0xC4A6FE8A;
   0x342E539D; 0xA2F355A0; 0x058AE132; 0xA4F6EB75; 0x0B83EC39; 0x4060EFAA; 0x5E719F06; 0xBD6E1051;
   0x3E218AF9; 0x96DD063D; 0xDD3E05AE; 0x4DE6BD46; 0x91548DB5; 0x71C45D05; 0x0406D46F; 0x605015FF;
   0x1998FB24; 0xD6BDE997; 0x894043CC; 0x67D99E77; 0xB0E842BD; 0x07898B88; 0xE7195B38; 0x79C8EEDB;
   0xA17C0A47; 0x7C420FE9; 0xF8841EC9; 0x00000000; 0x09808683; 0x322BED48; 0x1E1170AC; 0x6C5A724E;
   0xFD0EFFFB; 0x0F853856; 0x3DAED51E; 0x362D3927; 0x0A0FD964; 0x685CA621; 0x9B5B54D1; 0x24362E3A;
   0x0C0A67B1; 0x9357E70F; 0xB4EE96D2; 0x1B9B919E; 0x80C0C54F; 0x61DC20A2; 0x5A774B69; 0x1C121A16;
   0xE293BA0A; 0xC0A02AE5; 0x3C22E043; 0x121B171D; 0x0E090D0B; 0xF28BC7AD; 0x2DB6A8B9; 0x141EA9C8;
   0x57F11985; 0xAF75074C; 0xEE99DDBB; 0xA37F60FD; 0xF701269F; 0x5C72F5BC; 0x44663BC5; 0x5BFB7E34;
   0x8B432976; 0xCB23C6DC; 0xB6EDFC68; 0xB8E4F163; 0xD731DCCA; 0x42638510; 0x13972240; 0x84C61120;
   0x854A247D; 0xD2BB3DF8; 0xAEF93211; 0xC729A16D; 0x1D9E2F4B; 0xDCB230F3; 0x0D8652EC; 0x77C1E3D0;
   0x2BB3166C; 0xA970B999; 0x119448FA; 0x47E96422; 0xA8FC8CC4; 0xA0F03F1A; 0x567D2CD8; 0x223390EF;
   0x87494EC7; 0xD938D1C1; 0x8CCAA2FE; 0x98D40B36; 0xA6F581CF; 0xA57ADE28; 0xDAB78E26; 0x3FADBFA4;
   0x2C3A9DE4; 0x5078920D; 0x6A5FCC9B; 0x547E4662; 0xF68D13C2; 0x90D8B8E8; 0x2E39F75E; 0x82C3AFF5;
   0x9F5D80BE; 0x69D0937C; 0x6FD52DA9; 0xCF2512B3; 0xC8AC993B; 0x10187DA7; 0xE89C636E; 0xDB3BBB7B;
   0xCD267809; 0x6E5918F4; 0xEC9AB701; 0x834F9AA8; 0xE6956E65; 0xAAFFE67E; 0x21BCCF08; 0xEF15E8E6;
   0xBAE79BD9; 0x4A6F36CE; 0xEA9F09D4; 0x29B07CD6; 0x31A4B2AF; 0x2A3F2331; 0xC6A59430; 0x35A266C0;
   0x744EBC37; 0xFC82CAA6; 0xE090D0B0; 0x33A7D815; 0xF104984A; 0x41ECDAF7; 0x7FCD500E; 0x1791F62F;
   0x764DD68D; 0x43EFB04D; 0xCCAA4D54; 0xE49604DF; 0x9ED1B5E3; 0x4C6A881B; 0xC12C1FB8; 0x4665517F;
   0x9D5EEA04; 0x018C355D; 0xFA877473; 0xFB0B412E; 0xB3671D5A; 0x92DBD252; 0xE9105633; 0x6DD64713;
   0x9AD7618C; 0x37A10C7A; 0x59F8148E; 0xEB133C89; 0xCEA927EE; 0xB761C935; 0xE11CE5ED; 0x7A47B13C;
   0x9CD2DF59; 0x55F2733F; 0x1814CE79; 0x73C737BF; 0x53F7CDEA; 0x5FFDAA5B; 0xDF3D6F14; 0x7844DB86;
   0xCAAFF381; 0xB968C43E; 0x3824342C; 0xC2A3405F; 0x161DC372; 0xBCE2250C; 0x283C498B; 0xFF0D9541;
   0x39A80171; 0x080CB3DE; 0xD8B4E49C; 0x6456C190; 0x7BCB8461; 0xD532B670; 0x486C5C74; 0xD0B85742].
Definition rotate (n v : Z) : Z := Z.lor (Z.shiftr v n) (u32 (Z.shiftl v (32 - n))).
Definition FT0 : list Z := FT.
Definition FT1 : list Z := rotate 8 <$> FT.
Definition FT2 : list Z := rotate 16 <$> FT.
Definition FT3 : list Z := rotate 24 <$> FT.
Definition RT0 : list Z := RT.
Definition RT1 : list Z := rotate 8 <$> RT.
Definition RT2 : list Z := rotate 16 <$> RT.
Definition RT3 : list Z := rotate 24 <$> RT.
Definition RCON : list Z :=
  [0x01000000; 0x02000000; 0x04000000; 0x08000000; 0x10000000; 0x20000000; 0x40000000; 0x80000000; 0x1B000000; 0x36000000].
(** Filled by the first call of [aes_set_key]. *)
Definition KT (rt : list Z) : list Z := (fun s => tab rt s) <$> FSb.
Definition KT0 : list Z := KT RT0.
Definition KT1 : list Z := KT RT1.
Definition KT2 : list Z := KT RT2.
Definition KT3 : list Z := KT RT3.

Definition GET_UINT32 (b : list Z) (i : Z) : Z :=
  Z.lor (Z.lor (Z.lor (Z.shiftl (tab b i) 24) (Z.shiftl (tab b (i + 1)) 16)) (Z.shiftl (tab b (i + 2)) 8)) (tab b (i + 3)).
Definition PUT_UINT32 (n : Z) : list Z := [u8 (Z.shiftr n 24); u8 (Z.shiftr n 16); u8 (Z.shiftr n 8); u8 n].

(** The words that were written to [erk] and [drk]. *)
Record aes_context : Type := mk_aes { erk : list Z; drk : list Z; nr : Z }.

(** [FSb] of the bytes of a word, rotated by one byte or not. *)
Definition sub_rot (w : Z) : Z :=
  Z.lxor (Z.lxor (Z.lxor (Z.shiftl (tab FSb (u8 (Z.shiftr w 16))) 24) (Z.shiftl (tab FSb (u8 (Z.shiftr w 8))) 16))
    (Z.shiftl (tab FSb (u8 w)) 8)) (tab FSb (u8 (Z.shiftr w 24))).
Definition sub_word (w : Z) : Z :=
  Z.lxor (Z.lxor (Z.lxor (Z.shiftl (tab FSb (u8 (Z.shiftr w 24))) 24) (Z.shiftl (tab FSb (u8 (Z.shiftr w 16))) 16))
    (Z.shiftl (tab FSb (u8 (Z.shiftr w 8))) 8)) (tab FSb (u8 w)).

Fixpoint expand128 (n : nat) (i : Z) (rk : list Z) : list Z :=
  match n with
  | O => rk
  | S n' =>
      let p := 4 * i in
      let r4 := Z.lxor (Z.lxor (tab rk p) (tab RCON i)) (sub_rot (tab rk (p + 3))) in
      let r5 := Z.lxor (tab rk (p + 1)) r4 in
      let r6 := Z.lxor (tab rk (p + 2)) r5 in
      let r7 := Z.lxor (tab rk (p + 3)) r6 in
      expand128 n' (i + 1) (rk ++ [r4; r5; r6; r7])
  end.
Fixpoint expand192 (n : nat) (i : Z) (rk : list Z) : list Z :=
  match n with
  | O => rk
  | S n' =>
      let p := 6 * i in
      let r6 := Z.lxor (Z.lxor (tab rk p) (tab RCON i)) (sub_rot (tab rk (p + 5))) in
      let r7 := Z.lxor (tab rk (p + 1)) r6 in
      let r8 := Z.lxor (tab rk (p + 2)) r7 in
      let r9 := Z.lxor (tab rk (p + 3)) r8 in
      let r10 := Z.lxor (tab rk (p + 4)) r9 in
      let r11 := Z.lxor (tab rk (p + 5)) r10 in
      expand192 n' (i + 1) (rk ++ [r6; r7; r8; r9; r10; r11])
  end.
Fixpoint expand256 (n : nat) (i : Z) (rk : list Z) : list Z :=
  match n with
  | O => rk
  | S n' =>
      let p := 8 * i in
      let r8 := Z.lxor (Z.lxor (tab rk p) (tab RCON i)) (sub_rot (tab rk (p + 7))) in
      let r9 := Z.lxor (tab rk (p + 1)) r8 in
      let r10 := Z.lxor (tab rk (p + 2)) r9 in
      let r11 := Z.lxor (tab rk (p + 3)) r10 in
      let r12 := Z.lxor (tab rk (p + 4)) (sub_word r11) in
      let r13 := Z.lxor (tab rk (p + 5)) r12 in
      let r14 := Z.lxor (tab rk (p + 6)) r13 in
      let r15 := Z.lxor (tab rk (p + 7)) r14 in
      expand256 n' (i + 1) (rk ++ [r8; r9; r10; r11; r12; r13; r14; r15])
  end.

(** A word of the key schedule for decryption. *)
Definition kt_word (w : Z) : Z :=
  Z.lxor (Z.lxor (Z.lxor (tab KT0 (u8 (Z.shiftr w 24))) (tab KT1 (u8 (Z.shiftr w 16)))) (tab KT2 (u8 (Z.shiftr w 8)))) (tab KT3 (u8 w)).
(** Four words of [erk], from place [p] on. *)
Definition four (rk : list Z) (p : Z) : list Z := [tab rk p; tab rk (p + 1); tab rk (p + 2); tab rk (p + 3)].
(** The loop over the inner rounds; [p]: the place of [RK] after [RK -= 8]. *)
Fixpoint drk_loop (n : nat) (p : Z) (rk : list Z) : list Z :=
  match n with O => [] | S n' => (kt_word <$> four rk p) ++ drk_loop n' (p - 4) rk end.

Fixpoint get_words (n : nat) (i : Z) (key : list Z) : list Z :=
  match n with O => [] | S n' => GET_UINT32 key (i * 4) :: get_words n' (i + 1) key end.

(** Returns 1 for other sizes. *)
Definition aes_set_key (key : list Z) (nbits : Z) (ctx : aes_context) : Z * aes_context :=
  let rounds := if nbits =? 128 then Some 10 else if nbits =? 192 then Some 12 else if nbits =? 256 then Some 14 else None in
  match rounds with
  | None => (1, ctx)
  | Some r =>
      let rk := get_words (Z.to_nat (Z.shiftr nbits 5)) 0 key in
      let rk := if nbits =? 128 then expand128 10 0 rk else if nbits =? 192 then expand192 8 0 rk else expand256 7 0 rk in
      let sk := four rk (4 * r) ++ drk_loop (Z.to_nat (r - 1)) (4 * (r - 1)) rk ++ four rk 0 in
      (0, mk_aes rk sk r)
  end.

Definition quad : Type := Z * Z * Z * Z.

Definition AES_FROUND (rk : list Z) (p : Z) (y : quad) : quad :=
  let '(Y0, Y1, Y2, Y3) := y in
  let x k a b c d := Z.lxor (Z.lxor (Z.lxor (Z.lxor (tab rk (p + k)) (tab FT0 (u8 (Z.shiftr a 24)))) (tab FT1 (u8 (Z.shiftr b 16))))
    (tab FT2 (u8 (Z.shiftr c 8)))) (tab FT3 (u8 d)) in
  (x 0 Y0 Y1 Y2 Y3, x 1 Y1 Y2 Y3 Y0, x 2 Y2 Y3 Y0 Y1, x 3 Y3 Y0 Y1 Y2).
Definition AES_RROUND (rk : list Z) (p : Z) (y : quad) : quad :=
  let '(Y0, Y1, Y2, Y3) := y in
  let x k a b c d := Z.lxor (Z.lxor (Z.lxor (Z.lxor (tab rk (p + k)) (tab RT0 (u8 (Z.shiftr a 24)))) (tab RT1 (u8 (Z.shiftr b 16))))
    (tab RT2 (u8 (Z.shiftr c 8)))) (tab RT3 (u8 d)) in
  (x 0 Y0 Y3 Y2 Y1, x 1 Y1 Y0 Y3 Y2, x 2 Y2 Y1 Y0 Y3, x 3 Y3 Y2 Y1 Y0).
(** The rounds from place [p] of the round keys on. *)
Fixpoint rounds (f : list Z → Z → quad → quad) (n : nat) (p : Z) (rk : list Z) (s : quad) : quad :=
  match n with O => s | S n' => rounds f n' (p + 4) rk (f rk p s) end.
(** The last round. *)
Definition last_word (sb : list Z) (k a b c d : Z) : Z :=
  Z.lxor (Z.lxor (Z.lxor (Z.lxor k (Z.shiftl (tab sb (u8 (Z.shiftr a 24))) 24)) (Z.shiftl (tab sb (u8 (Z.shiftr b 16))) 16))
    (Z.shiftl (tab sb (u8 (Z.shiftr c 8))) 8)) (tab sb (u8 d)).

(** Nine rounds, and two more for each larger size of the key. *)
Definition inner_rounds (ctx : aes_context) : Z := 9 + (if 10 <? nr ctx then 2 else 0) + (if 12 <? nr ctx then 2 else 0).
Definition whitened (rk input : list Z) : quad :=
  (Z.lxor (GET_UINT32 input 0) (tab rk 0), Z.lxor (GET_UINT32 input 4) (tab rk 1),
   Z.lxor (GET_UINT32 input 8) (tab rk 2), Z.lxor (GET_UINT32 input 12) (tab rk 3)).

Definition aes_encrypt (ctx : aes_context) (input : list Z) : list Z :=
  let n := inner_rounds ctx in
  let '(Y0, Y1, Y2, Y3) := rounds AES_FROUND (Z.to_nat n) 4 (erk ctx) (whitened (erk ctx) input) in
  let p := 4 * (n + 1) in
  let k i := tab (erk ctx) (p + i) in
  PUT_UINT32 (last_word FSb (k 0) Y0 Y1 Y2 Y3) ++ PUT_UINT32 (last_word FSb (k 1) Y1 Y2 Y3 Y0) ++
  PUT_UINT32 (last_word FSb (k 2) Y2 Y3 Y0 Y1) ++ PUT_UINT32 (last_word FSb (k 3) Y3 Y0 Y1 Y2).

Definition aes_decrypt (ctx : aes_context) (input : list Z) : list Z :=
  let n := inner_rounds ctx in
  let '(Y0, Y1, Y2, Y3) := rounds AES_RROUND (Z.to_nat n) 4 (drk ctx) (whitened (drk ctx) input) in
  let p := 4 * (n + 1) in
  let k i := tab (drk ctx) (p + i) in
  PUT_UINT32 (last_word RSb (k 0) Y0 Y3 Y2 Y1) ++ PUT_UINT32 (last_word RSb (k 1) Y1 Y0 Y3 Y2) ++
  PUT_UINT32 (last_word RSb (k 2) Y2 Y1 Y0 Y3) ++ PUT_UINT32 (last_word RSb (k 3) Y3 Y2 Y1 Y0).

(** The vectors of FIPS-197, appendix C. *)
Definition fips_plain : list Z := (fun i => 0x11 * i) <$> seqZ 0 16.
Definition no_ctx : aes_context := mk_aes [] [] 0.
Example aes_vectors :
  let c n := aes_encrypt (aes_set_key (seqZ 0 n) (8 * n) no_ctx).2 fips_plain in
  aes128k128d (seqZ 0 16) fips_plain = [0x69; 0xc4; 0xe0; 0xd8; 0x6a; 0x7b; 0x04; 0x30; 0xd8; 0xcd; 0xb7; 0x80; 0x70; 0xb4; 0xc5; 0x5a] ∧
  c 16 = [0x69; 0xc4; 0xe0; 0xd8; 0x6a; 0x7b; 0x04; 0x30; 0xd8; 0xcd; 0xb7; 0x80; 0x70; 0xb4; 0xc5; 0x5a] ∧
  c 24 = [0xdd; 0xa9; 0x7c; 0xa4; 0x86; 0x4c; 0xdf; 0xe0; 0x6e; 0xaf; 0x70; 0xa0; 0xec; 0x0d; 0x71; 0x91] ∧
  c 32 = [0x8e; 0xa2; 0xb7; 0xca; 0x51; 0x67; 0x45; 0xbf; 0xea; 0xfc; 0x49; 0x90; 0x4b; 0x49; 0x60; 0x89] ∧
  aes_decrypt (aes_set_key (seqZ 0 24) 192 no_ctx).2 (c 24) = fips_plain.
Proof. vm_compute. repeat split. Qed.

(** ** Columns

    Multiplication by the constants of the two matrices, and the matrices. *)
Definition m2 (x : Z) : Z := xtime x.
Definition m3 (x : Z) : Z := Z.lxor (xtime x) x.
Definition m4 (x : Z) : Z := xtime (xtime x).
Definition m8 (x : Z) : Z := xtime (xtime (xtime x)).
Definition m9 (x : Z) : Z := Z.lxor (m8 x) x.
Definition mB (x : Z) : Z := Z.lxor (Z.lxor (m8 x) (m2 x)) x.
Definition mD (x : Z) : Z := Z.lxor (Z.lxor (m8 x) (m4 x)) x.
Definition mE (x : Z) : Z := Z.lxor (Z.lxor (m8 x) (m4 x)) (m2 x).

Definition row (f g h k : Z → Z) (a b c d : Z) : Z := Z.lxor (Z.lxor (Z.lxor (f a) (g b)) (h c)) (k d).
Definition mixcol (a b c d : Z) : list Z :=
  [row m2 m3 id id a b c d; row id m2 m3 id a b c d; row id id m2 m3 a b c d; row m3 id id m2 a b c d].
Definition invcol (a b c d : Z) : list Z :=
  [row mE mB mD m9 a b c d; row m9 mE mB mD a b c d; row mD m9 mE mB a b c d; row mB mD m9 mE a b c d].
Definition on_cols (f : Z → Z → Z → Z → list Z) (st : list Z) : list Z :=
  match st with
  | [a0; a1; a2; a3; b0; b1; b2; b3; c0; c1; c2; c3; d0; d1; d2; d3] =>
      f a0 a1 a2 a3 ++ f b0 b1 b2 b3 ++ f c0 c1 c2 c3 ++ f d0 d1 d2 d3
  | _ => []
  end.

Definition block (st : list Z) : Prop := length st = 16%nat ∧ bytes_ok st.

(** Take a block apart into its bytes. *)
Ltac block_bytes st H :=
  let Hl := fresh "Hl" in let Hb := fresh "Hb" in
  destruct H as [Hl Hb];
  do 16 (let b := fresh "b" in destruct st as [|b st]; [discriminate Hl|]);
  destruct st as [|? st]; [|discriminate Hl]; clear Hl;
  unfold bytes_ok in Hb; rewrite !Forall_cons in Hb;
  destruct Hb as (? & ? & ? & ? & ? & ? & ? & ? & ? & ? & ? & ? & ? & ? & ? & ? & _).

Lemma sbox_range x : is_u8 x → is_u8 (RTMPCkipSbox x).
Proof.
  intros Hx. apply (tab_Forall (fun y => is_u8 y)); [apply (bool_decide_unpack _); vm_compute; exact I|].
  change (length SboxTable) with 256%nat. lia.
Qed.

Lemma double_code x :
  is_u8 x → Z.lxor (if Z.land x 0x80 =? 0x80 then 0x1b else 0) (u8 (Z.shiftl (Z.land x 0x7f) 1)) = xtime x ∧
            Z.lxor (if Z.land x 0x80 =? 0x80 then 0x1b else 0) (Z.land (u8 (Z.shiftl (Z.land x 0x7f) 1)) 0xfe) = xtime x.
Proof.
  intros Hx.
  assert ((let a := if Z.land x 0x80 =? 0x80 then 0x1b else 0 in let b := u8 (Z.shiftl (Z.land x 0x7f) 1) in
    (Z.lxor a b =? xtime x) && (Z.lxor a (Z.land b 0xfe) =? xtime x)) = true) as H.
  { apply (forall_range (fun x => let a := if Z.land x 0x80 =? 0x80 then 0x1b else 0 in let b := u8 (Z.shiftl (Z.land x 0x7f) 1) in
      (Z.lxor a b =? xtime x) && (Z.lxor a (Z.land b 0xfe) =? xtime x)) 0 256); [vm_compute; reflexivity|done]. }
  cbv zeta in H. bool_props. done.
Qed.

Lemma no_carry x : Z.land (Z.land x 0x7f) 0x80 = 0.
Proof. rewrite <- Z.land_assoc. apply Z.land_0_r. Qed.

Lemma mix_column_spec a b c d rest :
  is_u8 a → is_u8 b → is_u8 c → is_u8 d → mix_column (a :: b :: c :: d :: rest) = mixcol a b c d.
Proof.
  intros Ha Hb Hc Hd. unfold mix_column. cbv zeta.
  unfold xor_32, shift_turn.
  cbv [tab Z.to_nat Pos.to_nat Pos.iter_op Nat.add nth fmap list_fmap firstn xor_bytes]. rewrite !no_carry.
  cbn [Z.eqb]. 
  rewrite (proj2 (double_code a Ha)), (proj1 (double_code b Hb)), (proj1 (double_code c Hc)), (proj1 (double_code d Hd)).
  unfold mixcol, row, m2, m3, id. repeat (apply (f_equal2 cons); [xor_ring|]). reflexivity.
Qed.

(** The inverse matrix. *)
Lemma inv_mix a b c d :
  match mixcol a b c d with [a'; b'; c'; d'] => invcol a' b' c' d' | _ => [] end = [a; b; c; d].
Proof.
  unfold mixcol, invcol, row, mE, mD, mB, m9, m8, m4, m3, m2, id. rewrite !xtime_lxor.
  repeat (apply (f_equal2 cons); [xor_ring|]). reflexivity.
Qed.

Lemma invcol_lxor a b c d a' b' c' d' :
  invcol (Z.lxor a a') (Z.lxor b b') (Z.lxor c c') (Z.lxor d d') = xor_bytes (invcol a b c d) (invcol a' b' c' d').
Proof.
  unfold invcol, row, mE, mD, mB, m9, m8, m4, m2. rewrite !xtime_lxor. cbn [xor_bytes].
  repeat (apply (f_equal2 cons); [xor_ring|]). reflexivity.
Qed.

(** ** The tables *)

Lemma FSb_sbox x : tab FSb x = RTMPCkipSbox x.
Proof. reflexivity. Qed.

Definition tables_ok (x : Z) : bool :=
  let s := RTMPCkipSbox x in let r := tab RSb x in
  (tab FT0 x =? pack (m2 s) s s (m3 s)) && (tab FT1 x =? pack (m3 s) (m2 s) s s) &&
  (tab FT2 x =? pack s (m3 s) (m2 s) s) && (tab FT3 x =? pack s s (m3 s) (m2 s)) &&
  (tab RT0 x =? pack (mE r) (m9 r) (mD r) (mB r)) && (tab RT1 x =? pack (mB r) (mE r) (m9 r) (mD r)) &&
  (tab RT2 x =? pack (mD r) (mB r) (mE r) (m9 r)) && (tab RT3 x =? pack (m9 r) (mD r) (mB r) (mE r)) &&
  (tab KT0 x =? pack (mE x) (m9 x) (mD x) (mB x)) && (tab KT1 x =? pack (mB x) (mE x) (m9 x) (mD x)) &&
  (tab KT2 x =? pack (mD x) (mB x) (mE x) (m9 x)) && (tab KT3 x =? pack (m9 x) (mD x) (mB x) (mE x)) &&
  (tab RSb s =? x) && (0 <=? r) && (r <? 256).

Lemma tables x : is_u8 x → tables_ok x = true.
Proof. intros Hx. apply (forall_range tables_ok 0 256); [vm_compute; reflexivity|done]. Qed.

Lemma FT_pack x : is_u8 x → let s := RTMPCkipSbox x in
  tab FT0 x = pack (m2 s) s s (m3 s) ∧ tab FT1 x = pack (m3 s) (m2 s) s s ∧
  tab FT2 x = pack s (m3 s) (m2 s) s ∧ tab FT3 x = pack s s (m3 s) (m2 s).
Proof. intros Hx. pose proof (tables x Hx) as H. unfold tables_ok in H. cbv zeta in *. bool_props. done. Qed.

Lemma RT_pack x : is_u8 x → let r := tab RSb x in
  tab RT0 x = pack (mE r) (m9 r) (mD r) (mB r) ∧ tab RT1 x = pack (mB r) (mE r) (m9 r) (mD r) ∧
  tab RT2 x = pack (mD r) (mB r) (mE r) (m9 r) ∧ tab RT3 x = pack (m9 r) (mD r) (mB r) (mE r).
Proof. intros Hx. pose proof (tables x Hx) as H. unfold tables_ok in H. cbv zeta in *. bool_props. done. Qed.

Lemma KT_pack x : is_u8 x →
  tab KT0 x = pack (mE x) (m9 x) (mD x) (mB x) ∧ tab KT1 x = pack (mB x) (mE x) (m9 x) (mD x) ∧
  tab KT2 x = pack (mD x) (mB x) (mE x) (m9 x) ∧ tab KT3 x = pack (m9 x) (mD x) (mB x) (mE x).
Proof. intros Hx. pose proof (tables x Hx) as H. unfold tables_ok in H. cbv zeta in *. bool_props. done. Qed.

Lemma RSb_sbox x : is_u8 x → tab RSb (RTMPCkipSbox x) = x.
Proof. intros Hx. pose proof (tables x Hx) as H. unfold tables_ok in H. cbv zeta in *. bool_props. done. Qed.

Lemma RSb_range x : is_u8 x → is_u8 (tab RSb x).
Proof. intros Hx. pose proof (tables x Hx) as H. unfold tables_ok in H. cbv zeta in *. bool_props. lia. Qed.

(** ** Words are columns *)

Definition packs (st : list Z) : quad :=
  match st with
  | [a0; a1; a2; a3; b0; b1; b2; b3; c0; c1; c2; c3; d0; d1; d2; d3] =>
      (pack a0 a1 a2 a3, pack b0 b1 b2 b3, pack c0 c1 c2 c3, pack d0 d1 d2 d3)
  | _ => (0, 0, 0, 0)
  end.
(** The four round keys at place [p]. *)
Definition key_at (rk : list Z) (p : Z) : quad := (tab rk (p + 0), tab rk (p + 1), tab rk (p + 2), tab rk (p + 3)).

Lemma fword k0 k1 k2 k3 a b c d a' b' c' d' :
  u8 (Z.shiftr a' 24) = a → u8 (Z.shiftr b' 16) = b → u8 (Z.shiftr c' 8) = c → u8 d' = d →
  is_u8 a → is_u8 b → is_u8 c → is_u8 d →
  Z.lxor (Z.lxor (Z.lxor (Z.lxor (pack k0 k1 k2 k3) (tab FT0 (u8 (Z.shiftr a' 24)))) (tab FT1 (u8 (Z.shiftr b' 16))))
    (tab FT2 (u8 (Z.shiftr c' 8)))) (tab FT3 (u8 d')) =
  match xor_bytes (mixcol (RTMPCkipSbox a) (RTMPCkipSbox b) (RTMPCkipSbox c) (RTMPCkipSbox d)) [k0; k1; k2; k3] with
  | [x0; x1; x2; x3] => pack x0 x1 x2 x3 | _ => 0 end.
Proof.
  intros -> -> -> -> Ha Hb Hc Hd.
  destruct (FT_pack a Ha) as (-> & _), (FT_pack b Hb) as (_ & -> & _), (FT_pack c Hc) as (_ & _ & -> & _), (FT_pack d Hd) as (_ & _ & _ & ->).
  cbv zeta. rewrite !pack_lxor. unfold mixcol, row, id. cbn [xor_bytes]. f_equal; xor_ring.
Qed.

Lemma rword k0 k1 k2 k3 a b c d a' b' c' d' :
  u8 (Z.shiftr a' 24) = a → u8 (Z.shiftr b' 16) = b → u8 (Z.shiftr c' 8) = c → u8 d' = d →
  is_u8 a → is_u8 b → is_u8 c → is_u8 d →
  Z.lxor (Z.lxor (Z.lxor (Z.lxor (pack k0 k1 k2 k3) (tab RT0 (u8 (Z.shiftr a' 24)))) (tab RT1 (u8 (Z.shiftr b' 16))))
    (tab RT2 (u8 (Z.shiftr c' 8)))) (tab RT3 (u8 d')) =
  match xor_bytes (invcol (tab RSb a) (tab RSb b) (tab RSb c) (tab RSb d)) [k0; k1; k2; k3] with
  | [x0; x1; x2; x3] => pack x0 x1 x2 x3 | _ => 0 end.
Proof.
  intros -> -> -> -> Ha Hb Hc Hd.
  destruct (RT_pack a Ha) as (-> & _), (RT_pack b Hb) as (_ & -> & _), (RT_pack c Hc) as (_ & _ & -> & _), (RT_pack d Hd) as (_ & _ & _ & ->).
  cbv zeta. rewrite !pack_lxor. unfold invcol, row. cbn [xor_bytes].
  generalize (tab RSb a), (tab RSb b), (tab RSb c), (tab RSb d). intros x y z w.
  generalize (mE x) (m9 x) (mD x) (mB x) (mE y) (m9 y) (mD y) (mB y) (mE z) (m9 z) (mD z) (mB z) (mE w) (m9 w) (mD w) (mB w).
  intros. f_equal; xor_ring.
Qed.

Lemma ktword a b c d :
  is_u8 a → is_u8 b → is_u8 c → is_u8 d →
  kt_word (pack a b c d) = match invcol a b c d with [x0; x1; x2; x3] => pack x0 x1 x2 x3 | _ => 0 end.
Proof.
  intros Ha Hb Hc Hd. destruct (pack_bytes a b c d Ha Hb Hc Hd) as (E0 & E1 & E2 & E3). unfold kt_word. rewrite E0, E1, E2, E3.
  destruct (KT_pack a Ha) as (-> & _), (KT_pack b Hb) as (_ & -> & _), (KT_pack c Hc) as (_ & _ & -> & _), (KT_pack d Hd) as (_ & _ & _ & ->).
  rewrite !pack_lxor. unfold invcol, row.
  generalize (mE a) (m9 a) (mD a) (mB a) (mE b) (m9 b) (mD b) (mB b) (mE c) (m9 c) (mD c) (mB c) (mE d) (m9 d) (mD d) (mB d).
  intros. f_equal; xor_ring.
Qed.

Lemma last_word_pack sb k0 k1 k2 k3 a b c d a' b' c' d' :
  u8 (Z.shiftr a' 24) = a → u8 (Z.shiftr b' 16) = b → u8 (Z.shiftr c' 8) = c → u8 d' = d →
  last_word sb (pack k0 k1 k2 k3) a' b' c' d' =
    pack (Z.lxor (tab sb a) k0) (Z.lxor (tab sb b) k1) (Z.lxor (tab sb c) k2) (Z.lxor (tab sb d) k3).
Proof. intros <- <- <- <-. unfold last_word, pack. rewrite !Z.shiftl_lxor. xor_ring. Qed.

Definition inv_shift_row (inp : list Z) : list Z :=
  [tab inp 0; tab inp 13; tab inp 10; tab inp 7; tab inp 4; tab inp 1; tab inp 14; tab inp 11;
   tab inp 8; tab inp 5; tab inp 2; tab inp 15; tab inp 12; tab inp 9; tab inp 6; tab inp 3].
Definition inv_sub (inp : list Z) : list Z := (fun x => tab RSb x) <$> inp.

(** Blocks as words, and the bytes of the words. *)
Ltac open_words a b c d e f g h i j k l m n o p :=
  destruct (pack_bytes a b c d) as (A0 & A1 & A2 & A3); [assumption..|];
  destruct (pack_bytes e f g h) as (B0 & B1 & B2 & B3); [assumption..|];
  destruct (pack_bytes i j k l) as (C0 & C1 & C2 & C3); [assumption..|];
  destruct (pack_bytes m n o p) as (D0 & D1 & D2 & D3); [assumption..|].
Ltac two_blocks st Hst k Hk :=
  block_bytes st Hst; block_bytes k Hk; cbn [packs] in *.

Lemma fround st k rk p :
  block st → block k → key_at rk p = packs k →
  AES_FROUND rk p (packs st) = packs (xor_bytes (on_cols mixcol (shift_row (byte_sub st))) k).
Proof.
  intros Hst Hk Hrk. two_blocks st Hst k Hk. injection Hrk as R0 R1 R2 R3. unfold AES_FROUND. rewrite R0, R1, R2, R3.
  open_words b b0 b1 b2 b3 b4 b5 b6 b7 b8 b9 b10 b11 b12 b13 b14.
  rewrite (fword _ _ _ _ _ _ _ _ _ _ _ _ A0 B1 C2 D3), (fword _ _ _ _ _ _ _ _ _ _ _ _ B0 C1 D2 A3),
    (fword _ _ _ _ _ _ _ _ _ _ _ _ C0 D1 A2 B3), (fword _ _ _ _ _ _ _ _ _ _ _ _ D0 A1 B2 C3) by assumption.
  reflexivity.
Qed.

Lemma rround st k rk p :
  block st → block k → key_at rk p = packs k →
  AES_RROUND rk p (packs st) = packs (xor_bytes (on_cols invcol (inv_sub (inv_shift_row st))) k).
Proof.
  intros Hst Hk Hrk. two_blocks st Hst k Hk. injection Hrk as R0 R1 R2 R3. unfold AES_RROUND. rewrite R0, R1, R2, R3.
  open_words b b0 b1 b2 b3 b4 b5 b6 b7 b8 b9 b10 b11 b12 b13 b14.
  rewrite (rword _ _ _ _ _ _ _ _ _ _ _ _ A0 D1 C2 B3), (rword _ _ _ _ _ _ _ _ _ _ _ _ B0 A1 D2 C3),
    (rword _ _ _ _ _ _ _ _ _ _ _ _ C0 B1 A2 D3), (rword _ _ _ _ _ _ _ _ _ _ _ _ D0 C1 B2 A3) by assumption.
  reflexivity.
Qed.

(** The last rounds, as blocks. *)
Definition out_words (q : quad) : list Z :=
  let '(w0, w1, w2, w3) := q in PUT_UINT32 w0 ++ PUT_UINT32 w1 ++ PUT_UINT32 w2 ++ PUT_UINT32 w3.
Lemma out_packs st : block st → out_words (packs st) = st.
Proof.
  intros Hst. block_bytes st Hst. unfold out_words, packs, PUT_UINT32.
  open_words b b0 b1 b2 b3 b4 b5 b6 b7 b8 b9 b10 b11 b12 b13 b14.
  rewrite A0, A1, A2, A3, B0, B1, B2, B3, C0, C1, C2, C3, D0, D1, D2, D3. reflexivity.
Qed.

Lemma last_fround st k rk p :
  block st → block k → key_at rk p = packs k →
  (let '(Y0, Y1, Y2, Y3) := packs st in
   (last_word FSb (tab rk (p + 0)) Y0 Y1 Y2 Y3, last_word FSb (tab rk (p + 1)) Y1 Y2 Y3 Y0,
    last_word FSb (tab rk (p + 2)) Y2 Y3 Y0 Y1, last_word FSb (tab rk (p + 3)) Y3 Y0 Y1 Y2)) =
  packs (xor_bytes (shift_row (byte_sub st)) k).
Proof.
  intros Hst Hk Hrk. two_blocks st Hst k Hk. injection Hrk as R0 R1 R2 R3. rewrite R0, R1, R2, R3.
  open_words b b0 b1 b2 b3 b4 b5 b6 b7 b8 b9 b10 b11 b12 b13 b14.
  rewrite (last_word_pack _ _ _ _ _ _ _ _ _ _ _ _ _ A0 B1 C2 D3), (last_word_pack _ _ _ _ _ _ _ _ _ _ _ _ _ B0 C1 D2 A3),
    (last_word_pack _ _ _ _ _ _ _ _ _ _ _ _ _ C0 D1 A2 B3), (last_word_pack _ _ _ _ _ _ _ _ _ _ _ _ _ D0 A1 B2 C3).
  reflexivity.
Qed.

Lemma last_rround st k rk p :
  block st → block k → key_at rk p = packs k →
  (let '(Y0, Y1, Y2, Y3) := packs st in
   (last_word RSb (tab rk (p + 0)) Y0 Y3 Y2 Y1, last_word RSb (tab rk (p + 1)) Y1 Y0 Y3 Y2,
    last_word RSb (tab rk (p + 2)) Y2 Y1 Y0 Y3, last_word RSb (tab rk (p + 3)) Y3 Y2 Y1 Y0)) =
  packs (xor_bytes (inv_sub (inv_shift_row st)) k).
Proof.
  intros Hst Hk Hrk. two_blocks st Hst k Hk. injection Hrk as R0 R1 R2 R3. rewrite R0, R1, R2, R3.
  open_words b b0 b1 b2 b3 b4 b5 b6 b7 b8 b9 b10 b11 b12 b13 b14.
  rewrite (last_word_pack _ _ _ _ _ _ _ _ _ _ _ _ _ A0 D1 C2 B3), (last_word_pack _ _ _ _ _ _ _ _ _ _ _ _ _ B0 A1 D2 C3),
    (last_word_pack _ _ _ _ _ _ _ _ _ _ _ _ _ C0 B1 A2 D3), (last_word_pack _ _ _ _ _ _ _ _ _ _ _ _ _ D0 C1 B2 A3).
  reflexivity.
Qed.

(** ** The rounds on blocks *)

Definition mix_step (st : list Z) : list Z := on_cols mixcol (shift_row (byte_sub st)).
Definition inv_step (st : list Z) : list Z := on_cols invcol (inv_sub (inv_shift_row st)).

Lemma row_range f g h k a b c d :
  is_u8 (f a) → is_u8 (g b) → is_u8 (h c) → is_u8 (k d) → is_u8 (row f g h k a b c d).
Proof. intros. unfold row. repeat (apply (lxor_range 8); [lia| |]); assumption. Qed.

Lemma m_range x : is_u8 x → is_u8 (m2 x) ∧ is_u8 (m3 x) ∧ is_u8 (m9 x) ∧ is_u8 (mB x) ∧ is_u8 (mD x) ∧ is_u8 (mE x).
Proof.
  intros Hx. unfold m9, mB, mD, mE, m8, m4, m3, m2.
  pose proof (xtime_range x) as H2. pose proof (xtime_range (xtime x)) as H4. pose proof (xtime_range (xtime (xtime x))) as H8.
  generalize dependent (xtime (xtime (xtime x))). generalize dependent (xtime (xtime x)). generalize dependent (xtime x).
  intros x2 H2 x4 H4 x8 H8.
  refine (conj _ (conj _ (conj _ (conj _ (conj _ _))))); repeat (apply (lxor_range 8); [lia| |]); assumption.
Qed.

Lemma block_intro st : length st = 16%nat → bytes_ok st → block st.
Proof. by split. Qed.

Lemma cols_block f st :
  (∀ a b c d, is_u8 a → is_u8 b → is_u8 c → is_u8 d → length (f a b c d) = 4%nat ∧ bytes_ok (f a b c d)) →
  block st → block (on_cols f st).
Proof.
  intros Hf Hst. block_bytes st Hst. cbn [on_cols].
  destruct (Hf b b0 b1 b2) as [L0 F0]; [assumption..|]. destruct (Hf b3 b4 b5 b6) as [L1 F1]; [assumption..|].
  destruct (Hf b7 b8 b9 b10) as [L2 F2]; [assumption..|]. destruct (Hf b11 b12 b13 b14) as [L3 F3]; [assumption..|].
  split; [rewrite !length_app; lia|]. repeat (apply Forall_app; split); assumption.
Qed.

Lemma mixcol_ok a b c d : is_u8 a → is_u8 b → is_u8 c → is_u8 d → length (mixcol a b c d) = 4%nat ∧ bytes_ok (mixcol a b c d).
Proof.
  intros Ha Hb Hc Hd. split; [done|]. destruct (m_range a Ha) as (?&?&_), (m_range b Hb) as (?&?&_), (m_range c Hc) as (?&?&_), (m_range d Hd) as (?&?&_).
  repeat (apply Forall_cons; split; [by apply row_range|]). apply Forall_nil. exact I.
Qed.
Lemma invcol_ok a b c d : is_u8 a → is_u8 b → is_u8 c → is_u8 d → length (invcol a b c d) = 4%nat ∧ bytes_ok (invcol a b c d).
Proof.
  intros Ha Hb Hc Hd. split; [done|].
  destruct (m_range a Ha) as (_&_&?&?&?&?), (m_range b Hb) as (_&_&?&?&?&?), (m_range c Hc) as (_&_&?&?&?&?), (m_range d Hd) as (_&_&?&?&?&?).
  repeat (apply Forall_cons; split; [apply row_range; assumption|]). apply Forall_nil. exact I.
Qed.

Lemma permute_block (g : list Z → list Z) st :
  (∀ st, length (g st) = 16%nat) → (∀ st, length st = 16%nat → Forall (fun x => x ∈ st) (g st)) → block st → block (g st).
Proof.
  intros Hl Hg [Hs Hb]. split; [apply Hl|]. eapply Forall_impl; [by apply Hg|].
  intros x Hx. unfold bytes_ok in Hb. rewrite Forall_forall in Hb. by apply Hb.
Qed.

Lemma sub_block sb st : (∀ x, is_u8 x → is_u8 (sb x)) → block st → block (sb <$> st).
Proof. intros Hsb [Hl Hb]. split; [by rewrite length_fmap|]. apply Forall_fmap. eapply Forall_impl; [exact Hb|]. exact Hsb. Qed.

Lemma tab_in st i : 0 ≤ i < Z.of_nat (length st) → tab st i ∈ st.
Proof. intros Hi. eapply list_elem_of_lookup_2. by apply tab_lookup. Qed.

Lemma shift_block st : block st → block (shift_row st).
Proof.
  apply permute_block; [done|]. clear st. intros st Hl.
  repeat (apply Forall_cons; split; [apply tab_in; lia|]). by apply Forall_nil.
Qed.
Lemma inv_shift_block st : block st → block (inv_shift_row st).
Proof.
  apply permute_block; [done|]. clear st. intros st Hl.
  repeat (apply Forall_cons; split; [apply tab_in; lia|]). by apply Forall_nil.
Qed.
Lemma xor_block a b : block a → block b → block (xor_bytes a b).
Proof. intros [La Ba] [Lb Bb]. split; [rewrite length_xor_bytes; lia|by apply xor_bytes_ok]. Qed.

Lemma shiftsub_block st : block st → block (shift_row (byte_sub st)).
Proof. intros H. by apply shift_block, (sub_block RTMPCkipSbox), H; apply sbox_range. Qed.
Lemma mix_block st : block st → block (mix_step st).
Proof. intros H. apply cols_block; [apply mixcol_ok|by apply shiftsub_block]. Qed.
Lemma invsub_block st : block st → block (inv_sub (inv_shift_row st)).
Proof. intros H. apply (sub_block (fun x => tab RSb x)); [apply RSb_range|by apply inv_shift_block]. Qed.
Lemma inv_block st : block st → block (inv_step st).
Proof. intros H. apply cols_block; [apply invcol_ok|by apply invsub_block]. Qed.

Lemma inv_shift_shift st : block st → inv_shift_row (shift_row st) = st.
Proof. intros Hst. block_bytes st Hst. reflexivity. Qed.

Lemma inv_sub_sub st : block st → inv_sub (byte_sub st) = st.
Proof.
  intros [_ Hb]. unfold inv_sub, byte_sub. rewrite <- list_fmap_compose. rewrite <- (list_fmap_id st) at 2.
  apply list_fmap_ext. intros i x Hx. apply RSb_sbox. exact (Forall_lookup_1 _ _ _ _ Hb Hx).
Qed.

Lemma unshift st : block st → inv_sub (inv_shift_row (shift_row (byte_sub st))) = st.
Proof.
  intros Hst. rewrite inv_shift_shift by (apply (sub_block RTMPCkipSbox); [apply sbox_range|done]). by apply inv_sub_sub.
Qed.

Lemma inv_mix_cols st : block st → on_cols invcol (on_cols mixcol st) = st.
Proof.
  intros Hst. block_bytes st Hst. cbn [on_cols].
  pose proof (inv_mix b b0 b1 b2) as E0. pose proof (inv_mix b3 b4 b5 b6) as E1.
  pose proof (inv_mix b7 b8 b9 b10) as E2. pose proof (inv_mix b11 b12 b13 b14) as E3.
  unfold mixcol in *. cbn [app on_cols]. rewrite E0, E1, E2, E3. reflexivity.
Qed.

Lemma invcols_lxor a b :
  block a → block b → on_cols invcol (xor_bytes a b) = xor_bytes (on_cols invcol a) (on_cols invcol b).
Proof.
  intros Ha Hb. block_bytes a Ha. block_bytes b Hb. cbn [xor_bytes on_cols].
  rewrite !invcol_lxor, !xor_bytes_app by done. reflexivity.
Qed.

(** ** The whole cipher on blocks *)

Definition enc_round (st k : list Z) : list Z := xor_bytes (mix_step st) k.
Definition dec_round (st k : list Z) : list Z := xor_bytes (inv_step st) k.
Definition cipher (k0 : list Z) (ks : list (list Z)) (kl input : list Z) : list Z :=
  xor_bytes (shift_row (byte_sub (fold_left enc_round ks (xor_bytes input k0)))) kl.
Definition decipher (k0 : list Z) (ks : list (list Z)) (kl input : list Z) : list Z :=
  xor_bytes (inv_sub (inv_shift_row (fold_left dec_round ks (xor_bytes input k0)))) kl.

(** The words from place [p] on are the blocks [ks]. *)
Definition keys_at (rk : list Z) (p : Z) (ks : list (list Z)) : Prop :=
  ∀ i k, ks !! i = Some k → block k ∧ key_at rk (p + 4 * Z.of_nat i) = packs k.

Lemma keys_at_cons rk p k ks : keys_at rk p (k :: ks) ↔ (block k ∧ key_at rk p = packs k) ∧ keys_at rk (p + 4) ks.
Proof.
  split.
  - intros H. split; [specialize (H 0%nat k eq_refl); by rewrite Z.add_0_r in H|].
    intros i k' Hi. replace (p + 4 + 4 * Z.of_nat i) with (p + 4 * Z.of_nat (S i)) by lia. by apply (H (S i)).
  - intros [H0 H] [|i] k' Hi; [injection Hi as <-; by rewrite Z.add_0_r|].
    replace (p + 4 * Z.of_nat (S i)) with (p + 4 + 4 * Z.of_nat i) by lia. by apply H.
Qed.

Lemma frounds_run ks p rk st :
  block st → keys_at rk p ks →
  rounds AES_FROUND (length ks) p rk (packs st) = packs (fold_left enc_round ks st) ∧ block (fold_left enc_round ks st).
Proof.
  revert p st. induction ks as [|k ks IH]; intros p st Hst Hk; [done|]. apply keys_at_cons in Hk as [[Hb Hk0] Hk].
  cbn [length rounds fold_left]. rewrite (fround st k) by done.
  apply IH; [|done]. by apply xor_block; [apply mix_block|].
Qed.

Lemma rrounds_run ks p rk st :
  block st → keys_at rk p ks →
  rounds AES_RROUND (length ks) p rk (packs st) = packs (fold_left dec_round ks st) ∧ block (fold_left dec_round ks st).
Proof.
  revert p st. induction ks as [|k ks IH]; intros p st Hst Hk; [done|]. apply keys_at_cons in Hk as [[Hb Hk0] Hk].
  cbn [length rounds fold_left]. rewrite (rround st k) by done.
  apply IH; [|done]. by apply xor_block; [apply inv_block|].
Qed.

Lemma get_pack l i : bytes_ok l → 0 ≤ i → i + 4 ≤ Z.of_nat (length l) →
  GET_UINT32 l i = pack (tab l i) (tab l (i + 1)) (tab l (i + 2)) (tab l (i + 3)).
Proof. intros Hb Hi Hl. apply lor_pack; (apply (tab_Forall (fun x => is_u8 x)); [done|lia]). Qed.

Lemma whitened_packs rk input k :
  block input → block k → key_at rk 0 = packs k → whitened rk input = packs (xor_bytes input k).
Proof.
  intros [Hl Hb] Hk Hrk. unfold whitened. rewrite !get_pack by (done || lia).
  assert (block input) as Hi by done. clear Hl Hb. two_blocks input Hi k Hk. injection Hrk as R0 R1 R2 R3.
  change (0 + 0) with 0 in R0. change (0 + 1) with 1 in R1. change (0 + 2) with 2 in R2. change (0 + 3) with 3 in R3.
  rewrite R0, R1, R2, R3, !pack_lxor. reflexivity.
Qed.

Lemma keys_at_last rk p ks k : keys_at rk p (ks ++ [k]) → keys_at rk p ks ∧ block k ∧ key_at rk (p + 4 * Z.of_nat (length ks)) = packs k.
Proof.
  intros H. split; [|apply H; by rewrite list_lookup_middle].
  intros i k' Hi. apply H. by apply lookup_app_l_Some.
Qed.

Lemma aes_encrypt_cipher ctx k0 ks kl input :
  block input → keys_at (erk ctx) 0 (k0 :: ks ++ [kl]) → inner_rounds ctx = Z.of_nat (length ks) →
  aes_encrypt ctx input = cipher k0 ks kl input.
Proof.
  intros Hi Hk Hn. apply keys_at_cons in Hk as [[Hb0 Hk0] Hk]. apply keys_at_last in Hk as (Hk & Hbl & Hkl).
  unfold aes_encrypt. rewrite Hn, Nat2Z.id, (whitened_packs _ _ k0) by done.
  assert (block (xor_bytes input k0)) as Hw by by apply xor_block.
  destruct (frounds_run ks (0 + 4) (erk ctx) _ Hw Hk) as [E Hb]. change (0 + 4) with 4 in *. rewrite E.
  replace (4 * (Z.of_nat (length ks) + 1)) with (4 + 4 * Z.of_nat (length ks)) by lia.
  pose proof (last_fround _ kl (erk ctx) _ Hb Hbl Hkl) as El. unfold cipher.
  set (st := fold_left enc_round ks (xor_bytes input k0)) in *. clearbody st.
  rewrite <- (out_packs (xor_bytes (shift_row (byte_sub st)) kl)) by (apply xor_block; [by apply shiftsub_block|done]).
  rewrite <- El. destruct (packs st) as [[[Y0 Y1] Y2] Y3]. reflexivity.
Qed.

Lemma aes_decrypt_decipher ctx k0 ks kl input :
  block input → keys_at (drk ctx) 0 (k0 :: ks ++ [kl]) → inner_rounds ctx = Z.of_nat (length ks) →
  aes_decrypt ctx input = decipher k0 ks kl input.
Proof.
  intros Hi Hk Hn. apply keys_at_cons in Hk as [[Hb0 Hk0] Hk]. apply keys_at_last in Hk as (Hk & Hbl & Hkl).
  unfold aes_decrypt. rewrite Hn, Nat2Z.id, (whitened_packs _ _ k0) by done.
  assert (block (xor_bytes input k0)) as Hw by by apply xor_block.
  destruct (rrounds_run ks (0 + 4) (drk ctx) _ Hw Hk) as [E Hb]. change (0 + 4) with 4 in *. rewrite E.
  replace (4 * (Z.of_nat (length ks) + 1)) with (4 + 4 * Z.of_nat (length ks)) by lia.
  pose proof (last_rround _ kl (drk ctx) _ Hb Hbl Hkl) as El. unfold decipher.
  set (st := fold_left dec_round ks (xor_bytes input k0)) in *. clearbody st.
  rewrite <- (out_packs (xor_bytes (inv_sub (inv_shift_row st)) kl)) by (apply xor_block; [by apply invsub_block|done]).
  rewrite <- El. destruct (packs st) as [[[Y0 Y1] Y2] Y3]. reflexivity.
Qed.

(** ** Deciphering is the inverse *)

Lemma decipher_round st k :
  block st → block k → dec_round (shift_row (byte_sub (enc_round st k))) (on_cols invcol k) = shift_row (byte_sub st).
Proof.
  intros Hst Hk. unfold dec_round, inv_step, enc_round.
  assert (block (mix_step st)) as Hm by by apply mix_block.
  rewrite unshift by by apply xor_block. rewrite invcols_lxor by done.
  assert (block (on_cols invcol k)) as [Hl _] by (apply cols_block; [apply invcol_ok|done]).
  assert (on_cols invcol (mix_step st) = shift_row (byte_sub st)) as -> by (apply inv_mix_cols; by apply shiftsub_block).
  apply xor_bytes_cancel. rewrite Hl. by rewrite (proj1 (shiftsub_block st Hst)).
Qed.

Lemma decipher_rounds ks st :
  block st → Forall block ks →
  fold_left dec_round (reverse (on_cols invcol <$> ks)) (shift_row (byte_sub (fold_left enc_round ks st))) = shift_row (byte_sub st).
Proof.
  intros Hst Hk. revert st Hst. induction Hk as [|k ks Hk _ IH]; intros st Hst; [done|].
  rewrite fmap_cons, reverse_cons, fold_left_app. cbn [fold_left]. rewrite IH.
  - by apply decipher_round.
  - apply xor_block; [by apply mix_block|done].
Qed.

Lemma fold_block ks st : block st → Forall block ks → block (fold_left enc_round ks st).
Proof.
  intros Hst Hk. revert st Hst. induction Hk as [|k ks Hk _ IH]; intros st Hst; [done|].
  apply IH. apply xor_block; [by apply mix_block|done].
Qed.

Lemma decipher_cipher k0 ks kl input :
  block input → block k0 → Forall block ks → block kl →
  decipher kl (reverse (on_cols invcol <$> ks)) k0 (cipher k0 ks kl input) = input.
Proof.
  intros Hi H0 Hk Hl. assert (block (xor_bytes input k0)) as Hw by by apply xor_block.
  assert (block (fold_left enc_round ks (xor_bytes input k0))) as Hf by by apply fold_block.
  unfold decipher, cipher. destruct (shiftsub_block _ Hf) as [L1 _]. destruct Hl as [L2 _], Hi as [L3 _], H0 as [L4 _].
  rewrite xor_bytes_cancel by lia. rewrite decipher_rounds, unshift by done. apply xor_bytes_cancel. lia.
Qed.

(** ** The key schedules *)

Definition block_at (rk : list Z) (p : Z) : list Z := out_words (key_at rk p).
Definition words32 (l : list Z) : Prop := Forall (fun w => is_u32 w) l.

Lemma tab_default (P : Z → Prop) t i : Forall P t → P 0 → P (tab t i).
Proof.
  intros Ht H0. unfold tab. destruct (nth_in_or_default (Z.to_nat i) t 0) as [H| ->]; [|done].
  rewrite Forall_forall in Ht. by apply Ht, list_elem_of_In.
Qed.

Lemma put_bytes w : bytes_ok (PUT_UINT32 w).
Proof. repeat (apply Forall_cons; split; [apply u8_range|]). by apply Forall_nil. Qed.

Lemma pack_put w : is_u32 w → pack (u8 (Z.shiftr w 24)) (u8 (Z.shiftr w 16)) (u8 (Z.shiftr w 8)) (u8 w) = w.
Proof.
  intros Hw. rewrite pack_val by apply u8_range. unfold u8.
  rewrite (shiftr_div _ 24 (2 ^ 24)), (shiftr_div _ 16 (2 ^ 16)), (shiftr_div _ 8 (2 ^ 8)) by done. dlia.
Qed.

Lemma block_at_ok rk p : words32 rk → block (block_at rk p) ∧ key_at rk p = packs (block_at rk p).
Proof.
  intros Hw. split.
  - split; [done|]. repeat (apply Forall_app; split); apply put_bytes.
  - unfold block_at, key_at, out_words, PUT_UINT32. cbn [app packs].
    rewrite !pack_put; [done|..]; apply (tab_default (fun w => is_u32 w)); done || lia.
Qed.

Lemma keys_at_blocks rk p n :
  words32 rk → keys_at rk p ((fun i => block_at rk (p + 4 * Z.of_nat i)) <$> seq 0 n).
Proof.
  intros Hw i k Hi. rewrite list_lookup_fmap in Hi. destruct (seq 0 n !! i) as [j|] eqn:Ej; [|done].
  apply lookup_seq in Ej as [-> _]. injection Hi as <-. by apply block_at_ok.
Qed.

Lemma tab_app_r a b j : 0 ≤ j → tab (a ++ b) (Z.of_nat (length a) + j) = tab b j.
Proof. intros Hj. unfold tab. rewrite app_nth2 by lia. f_equal. lia. Qed.
Lemma tab_app_l a b i : 0 ≤ i < Z.of_nat (length a) → tab (a ++ b) i = tab a i.
Proof. intros Hi. unfold tab. rewrite app_nth1 by lia. done. Qed.

Lemma key_at_app pre ws rest : length ws = 4%nat → key_at (pre ++ ws ++ rest) (Z.of_nat (length pre)) = key_at ws 0.
Proof.
  intros Hl. unfold key_at. rewrite !tab_app_r, !tab_app_l by lia. done.
Qed.

Lemma kt_packs k :
  block k → (let '(w0, w1, w2, w3) := packs k in (kt_word w0, kt_word w1, kt_word w2, kt_word w3)) = packs (on_cols invcol k).
Proof. intros Hk. block_bytes k Hk. cbn [packs]. rewrite !ktword by assumption. reflexivity. Qed.

Lemma key_at_kt rk p : words32 rk → key_at (kt_word <$> four rk p) 0 = packs (on_cols invcol (block_at rk p)).
Proof.
  intros Hw. destruct (block_at_ok rk p Hw) as [Hb Hk]. rewrite <- kt_packs, <- Hk by done. unfold key_at.
  by rewrite (Z.add_0_r p).
Qed.

(** Leave that the blocks of the goal are those of [H]. *)
Ltac same_keys H :=
  match goal with |- keys_at _ _ ?l => match type of H with keys_at _ _ ?l' => replace l with l'; [exact H|] end end;
  apply list_fmap_ext.

(** The keys for the inner rounds of the decryption. *)
Lemma drk_loop_keys n p rk pre rest :
  words32 rk →
  keys_at (pre ++ drk_loop n p rk ++ rest) (Z.of_nat (length pre))
    ((fun i => on_cols invcol (block_at rk (p - 4 * Z.of_nat i))) <$> seq 0 n).
Proof.
  intros Hw. revert p pre. induction n as [|n IH]; intros p pre; [by intros i k Hi|].
  cbn [seq drk_loop]. rewrite fmap_cons, <- app_assoc. apply keys_at_cons. split.
  - rewrite Z.sub_0_r. destruct (block_at_ok rk p Hw) as [Hb Hk]. split; [apply cols_block; [apply invcol_ok|done]|].
    rewrite key_at_app by done. by apply key_at_kt.
  - rewrite <- fmap_S_seq, <- list_fmap_compose, app_assoc.
    replace (Z.of_nat (length pre) + 4) with (Z.of_nat (length (pre ++ (kt_word <$> four rk p)))) by (rewrite length_app; simpl; lia).
    specialize (IH (p - 4) (pre ++ (kt_word <$> four rk p))).
    same_keys IH. intros i j Hj. cbn [compose]. do 2 f_equal. lia.
Qed.

(** The contexts [aes_set_key] makes. *)
Definition schedule (rk : list Z) (r : Z) : aes_context :=
  mk_aes rk (four rk (4 * r) ++ drk_loop (Z.to_nat (r - 1)) (4 * (r - 1)) rk ++ four rk 0) r.

Lemma four_at rk p : key_at (four rk p) 0 = key_at rk p.
Proof. unfold key_at. by rewrite (Z.add_0_r p). Qed.

Lemma keys_at_app rk p ks ks' :
  keys_at rk p ks → keys_at rk (p + 4 * Z.of_nat (length ks)) ks' → keys_at rk p (ks ++ ks').
Proof.
  intros H1 H2 i k Hi. apply lookup_app_Some in Hi as [Hi | [Hl Hi]]; [by apply H1|].
  replace (p + 4 * Z.of_nat i) with (p + 4 * Z.of_nat (length ks) + 4 * Z.of_nat (i - length ks)) by lia. by apply H2.
Qed.

Lemma length_drk_loop n p rk : length (drk_loop n p rk) = (4 * n)%nat.
Proof. revert p. induction n as [|n IH]; intros p; [done|]. cbn [drk_loop]. rewrite length_app, IH. simpl. lia. Qed.

Lemma reverse_seq_fmap {A} (f : nat → A) n : reverse (f <$> seq 0 n) = (fun i => f (n - 1 - i)%nat) <$> seq 0 n.
Proof.
  induction n as [|n IH]; [done|]. rewrite (seq_S n 0) at 1. rewrite fmap_app, reverse_app, IH.
  change (reverse (f <$> [(0 + n)%nat])) with [f n].
  change (seq 0 (S n)) with (0%nat :: seq 1 n). rewrite fmap_cons, <- fmap_S_seq, <- list_fmap_compose. cbn [app]. f_equal; [f_equal; lia|].
  apply list_fmap_ext. intros i j Hj. cbn [compose]. f_equal. apply lookup_seq in Hj as [-> Hj]. lia.
Qed.

Lemma schedule_keys rk r :
  words32 rk → 1 ≤ r →
  let K i := block_at rk (4 * i) in
  let inner := (fun i => K (1 + Z.of_nat i)) <$> seq 0 (Z.to_nat (r - 1)) in
  keys_at rk 0 (K 0 :: inner ++ [K r]) ∧ keys_at (drk (schedule rk r)) 0 (K r :: reverse (on_cols invcol <$> inner) ++ [K 0]) ∧
  Forall block inner.
Proof.
  intros Hw Hr K inner. assert (length inner = Z.to_nat (r - 1)) as Hl by (subst inner; rewrite length_fmap; apply length_seq).
  assert (∀ i, block (K i) ∧ key_at rk (4 * i) = packs (K i)) as HK by (intros i; exact (block_at_ok rk (4 * i) Hw)).
  assert (∀ rk p k, block k → key_at rk p = packs k → keys_at rk p [k]) as Hone.
  { intros rk' p' k' Hb Hk'. apply keys_at_cons. split; [done|]. by intros i k'' Hi. }
  split; [|split].
  - apply keys_at_cons. split; [apply (HK 0)|]. apply keys_at_app.
    + intros i k Hi. subst inner. rewrite list_lookup_fmap in Hi. destruct (seq 0 _ !! i) as [j|] eqn:Ej; [|done].
      apply lookup_seq in Ej as [-> _]. injection Hi as <-. replace (0 + 4 + 4 * Z.of_nat i) with (4 * (1 + Z.of_nat (0 + i))) by lia. apply HK.
    + rewrite Hl. apply Hone; [apply HK|]. rewrite <- (proj2 (HK r)). f_equal. lia.
  - unfold schedule. cbn [drk]. apply keys_at_cons. split.
    + split; [apply HK|]. etransitivity; [exact (key_at_app [] (four rk (4 * r)) _ eq_refl)|]. rewrite four_at. apply HK.
    + apply keys_at_app.
      * pose proof (drk_loop_keys (Z.to_nat (r - 1)) (4 * (r - 1)) rk (four rk (4 * r)) (four rk 0) Hw) as H.
        change (Z.of_nat (length (four rk (4 * r)))) with (0 + 4) in H.
        subst inner. rewrite <- list_fmap_compose, reverse_seq_fmap. same_keys H.
        intros i j Hj. apply lookup_seq in Hj as [-> Hj]. cbn [compose]. subst K. cbv beta. do 2 f_equal. lia.
      * rewrite length_reverse, length_fmap, Hl. apply Hone; [apply HK|]. rewrite <- (proj2 (HK 0)).
        set (pre := four rk (4 * r) ++ drk_loop (Z.to_nat (r - 1)) (4 * (r - 1)) rk).
        assert (0 + 4 + 4 * Z.of_nat (Z.to_nat (r - 1)) = Z.of_nat (length pre)) as ->.
        { subst pre. rewrite length_app, length_drk_loop. simpl. lia. }
        pose proof (key_at_app pre (four rk 0) [] eq_refl) as E. rewrite app_nil_r in E. subst pre. rewrite <- app_assoc in E.
        etransitivity; [exact E|]. apply four_at.
  - apply Forall_fmap, Forall_forall. intros i _. apply HK.
Qed.

Lemma schedule_inverse rk r input :
  words32 rk → r = 10 ∨ r = 12 ∨ r = 14 → block input →
  aes_decrypt (schedule rk r) (aes_encrypt (schedule rk r) input) = input.
Proof.
  intros Hw Hr Hi. destruct (schedule_keys rk r Hw) as (He & Hd & Hb); [lia|]. set (K := fun i => block_at rk (4 * i)) in *.
  set (inner := (fun i => K (1 + Z.of_nat i)) <$> seq 0 (Z.to_nat (r - 1))) in *.
  assert (inner_rounds (schedule rk r) = Z.of_nat (length inner)) as Hn.
  { subst inner. rewrite length_fmap, length_seq. destruct Hr as [-> | [-> | ->]]; reflexivity. }
  assert (∀ i, block (K i)) as HK by (intros i; exact (proj1 (block_at_ok rk (4 * i) Hw))).
  rewrite (aes_encrypt_cipher (schedule rk r) (K 0) inner (K r)) by done.
  rewrite (aes_decrypt_decipher (schedule rk r) (K r) (reverse (on_cols invcol <$> inner)) (K 0)).
  - by apply decipher_cipher.
  - unfold cipher. apply xor_block; [|done]. apply shiftsub_block, fold_block; [by apply xor_block|done].
  - exact Hd.
  - rewrite Hn. by rewrite length_reverse, length_fmap.
Qed.

(** ** Expanded keys *)

Lemma lxor32 a b : is_u32 a → is_u32 b → is_u32 (Z.lxor a b).
Proof. by apply (lxor_range 32). Qed.

Lemma sub_rot_pack w : sub_rot w =
  pack (RTMPCkipSbox (u8 (Z.shiftr w 16))) (RTMPCkipSbox (u8 (Z.shiftr w 8))) (RTMPCkipSbox (u8 w)) (RTMPCkipSbox (u8 (Z.shiftr w 24))).
Proof. unfold sub_rot, pack. rewrite !FSb_sbox, !Z.lxor_assoc. reflexivity. Qed.
Lemma sub_word_pack w : sub_word w =
  pack (RTMPCkipSbox (u8 (Z.shiftr w 24))) (RTMPCkipSbox (u8 (Z.shiftr w 16))) (RTMPCkipSbox (u8 (Z.shiftr w 8))) (RTMPCkipSbox (u8 w)).
Proof. unfold sub_word, pack. rewrite !FSb_sbox, !Z.lxor_assoc. reflexivity. Qed.

Lemma sub_range w : is_u32 (sub_rot w) ∧ is_u32 (sub_word w).
Proof. rewrite sub_rot_pack, sub_word_pack. split; apply pack_range; apply sbox_range, u8_range. Qed.

Lemma rcon_range i : is_u32 (tab RCON i).
Proof. apply (tab_default (fun w => is_u32 w)); [apply (bool_decide_unpack _); vm_compute; exact I|lia]. Qed.

Lemma tab32 rk i : words32 rk → is_u32 (tab rk i).
Proof. intros H. apply (tab_default (fun w => is_u32 w)); [exact H|lia]. Qed.

Ltac new_words :=
  repeat (cbv beta; lazymatch goal with
  | |- Forall _ [] => apply Forall_nil; exact I
  | |- Forall _ (_ :: _) => apply Forall_cons; split
  | |- _ ≤ Z.lxor _ _ < _ => apply lxor32
  | |- _ ≤ sub_rot ?w < _ => apply (proj1 (sub_range w))
  | |- _ ≤ sub_word ?w < _ => apply (proj2 (sub_range w))
  | |- _ ≤ tab RCON _ < _ => apply rcon_range
  | |- _ ≤ tab _ _ < _ => apply tab32; assumption
  end).

Lemma expand128_words n i rk : words32 rk → words32 (expand128 n i rk).
Proof.
  revert i rk. induction n as [|n IH]; intros i rk Hw; [done|]. cbn [expand128]. cbv zeta.
  apply IH, Forall_app. split; [exact Hw|]. new_words.
Qed.
Lemma expand192_words n i rk : words32 rk → words32 (expand192 n i rk).
Proof.
  revert i rk. induction n as [|n IH]; intros i rk Hw; [done|]. cbn [expand192]. cbv zeta.
  apply IH, Forall_app. split; [exact Hw|]. new_words.
Qed.
Lemma expand256_words n i rk : words32 rk → words32 (expand256 n i rk).
Proof.
  revert i rk. induction n as [|n IH]; intros i rk Hw; [done|]. cbn [expand256]. cbv zeta.
  apply IH, Forall_app. split; [exact Hw|]. new_words.
Qed.

Lemma get_words_ok n i key : bytes_ok key → words32 (get_words n i key).
Proof.
  intros Hk. revert i. induction n as [|n IH]; intros i; [by apply Forall_nil|]. cbn [get_words]. apply Forall_cons. split; [|apply IH].
  assert (∀ j, is_u8 (tab key j)) as Hb by (intros j; apply (tab_default (fun x => is_u8 x)); [done|lia]).
  unfold GET_UINT32. rewrite lor_pack by apply Hb. by apply pack_range.
Qed.

Lemma aes_set_key_schedule key nbits ctx :
  bytes_ok key → nbits = 128 ∨ nbits = 192 ∨ nbits = 256 →
  ∃ rk r, aes_set_key key nbits ctx = (0, schedule rk r) ∧ words32 rk ∧ (r = 10 ∨ r = 12 ∨ r = 14) ∧
    (nbits = 128 → rk = expand128 10 0 (get_words 4 0 key) ∧ r = 10).
Proof.
  intros Hk [-> | [-> | ->]]; (eexists _, _; split; [reflexivity|]); (split; [|split; [auto|done]]).
  - by apply expand128_words, get_words_ok.
  - by apply expand192_words, get_words_ok.
  - by apply expand256_words, get_words_ok.
Qed.

(** C29: For keys of 128, 192 and 256 bits, whatever the context held before,
    [aes_decrypt] with the context that [aes_set_key] makes is the inverse of
    [aes_encrypt] on every block; other sizes are refused and leave the context
    alone. *)
Theorem aes_decrypt_encrypt key nbits ctx input :
  bytes_ok key → block input →
  match aes_set_key key nbits ctx with
  | (0, ctx') => (nbits = 128 ∨ nbits = 192 ∨ nbits = 256) ∧ aes_decrypt ctx' (aes_encrypt ctx' input) = input
  | (e, ctx') => e = 1 ∧ ctx' = ctx ∧ nbits ≠ 128 ∧ nbits ≠ 192 ∧ nbits ≠ 256
  end.
Proof.
  intros Hk Hi. destruct (decide (nbits = 128 ∨ nbits = 192 ∨ nbits = 256)) as [Hn|Hn].
  - destruct (aes_set_key_schedule key nbits ctx Hk Hn) as (rk & r & -> & Hw & Hr & _). split; [exact Hn|].
    by apply schedule_inverse.
  - unfold aes_set_key.
    rewrite (proj2 (Z.eqb_neq nbits 128)), (proj2 (Z.eqb_neq nbits 192)), (proj2 (Z.eqb_neq nbits 256)) by tauto.
    split; [reflexivity|]. split; [reflexivity|]. tauto.
Qed.

Lemma aes_decrypt_encrypt_witness :
  aes_decrypt (aes_set_key (seqZ 0 32) 256 no_ctx).2 (aes_encrypt (aes_set_key (seqZ 0 32) 256 no_ctx).2 fips_plain) = fips_plain.
Proof.
  assert (bytes_ok (seqZ 0 32)) as H1 by (apply (bool_decide_unpack _); vm_compute; exact I).
  assert (block fips_plain) as H2 by (split; [reflexivity|apply (bool_decide_unpack _); vm_compute; exact I]).
  pose proof (aes_decrypt_encrypt (seqZ 0 32) 256 no_ctx fips_plain H1 H2) as H.
  assert (aes_set_key (seqZ 0 32) 256 no_ctx = (0, (aes_set_key (seqZ 0 32) 256 no_ctx).2)) as E by (vm_compute; reflexivity).
  revert H. rewrite E at 1. intros H. exact (proj2 H).
Defined.

(** ** Both implementations are the same cipher *)

Lemma rcon_pack i : 0 ≤ i < 10 → tab RCON i = pack (tab rcon_table i) 0 0 0 ∧ is_u8 (tab rcon_table i).
Proof.
  intros Hi. assert ((tab RCON i =? pack (tab rcon_table i) 0 0 0) && (0 <=? tab rcon_table i) && (tab rcon_table i <? 256) = true) as H.
  { apply (forall_range (fun i => (tab RCON i =? pack (tab rcon_table i) 0 0 0) && (0 <=? tab rcon_table i) && (tab rcon_table i <? 256)) 0 10);
      [vm_compute; reflexivity|lia]. }
  bool_props. lia.
Qed.

Lemma next_key_packs k i :
  block k → 0 ≤ i < 10 → block (next_key k i) ∧
  (let '(w0, w1, w2, w3) := packs k in
   let r4 := Z.lxor (Z.lxor w0 (tab RCON i)) (sub_rot w3) in
   let r5 := Z.lxor w1 r4 in let r6 := Z.lxor w2 r5 in let r7 := Z.lxor w3 r6 in (r4, r5, r6, r7)) = packs (next_key k i).
Proof.
  intros Hk Hi. destruct (rcon_pack i Hi) as [Er Hr]. rewrite Er. unfold next_key.
  generalize dependent (tab rcon_table i). intros rcon _ Hr. split.
  - block_bytes k Hk. split; [reflexivity|]. cbv zeta.
    repeat (apply Forall_app; split); unfold xor_32; cbn [take drop xor_bytes insert list_insert];
      repeat (apply Forall_cons; split; [|]); try (by apply Forall_nil);
      repeat (apply (lxor_range 8); [lia| |]); try assumption; apply sbox_range; assumption.
  - block_bytes k Hk. cbn [packs]. rewrite sub_rot_pack.
    destruct (pack_bytes b11 b12 b13 b14) as (-> & -> & -> & ->); [assumption..|]. cbv zeta. rewrite !pack_lxor, !Z.lxor_0_r.
    unfold xor_32. cbv [tab Z.to_nat Pos.to_nat Pos.iter_op Nat.add nth firstn skipn xor_bytes insert list_insert app packs].
    repeat apply (f_equal2 pair); f_equal; xor_ring.
Qed.

(** The round keys in order. *)
Fixpoint sched (n : nat) (i : Z) (k : list Z) : list (list Z) :=
  match n with O => [] | S n' => next_key k i :: sched n' (i + 1) (next_key k i) end.

Lemma expand128_prefix n i rk : ∃ ext, expand128 n i rk = rk ++ ext.
Proof.
  revert i rk. induction n as [|n IH]; intros i rk; [exists []; by rewrite app_nil_r|].
  cbn [expand128]. cbv zeta. edestruct IH as [ext ->]. rewrite <- app_assoc. eexists. reflexivity.
Qed.

Lemma key_at_prefix rk ext p : 0 ≤ p → p + 4 ≤ Z.of_nat (length rk) → key_at (rk ++ ext) p = key_at rk p.
Proof. intros Hp Hl. unfold key_at. rewrite !tab_app_l by lia. done. Qed.

Lemma expand128_sched n i rk k :
  0 ≤ i → i + Z.of_nat n ≤ 10 → Z.of_nat (length rk) = 4 * i + 4 → block k → key_at rk (4 * i) = packs k →
  keys_at (expand128 n i rk) (4 * i) (k :: sched n i k).
Proof.
  revert i rk k. induction n as [|n IH]; intros i rk k Hi Hn Hl Hk Hrk; apply keys_at_cons.
  { split; [done|]. by intros j k' Hj. }
  destruct (next_key_packs k i Hk) as [Hb E]; [lia|].
  cbn [expand128 sched]. cbv zeta. unfold key_at in Hrk. rewrite Z.add_0_r in Hrk. rewrite <- Hrk in E. cbv zeta in E.
  set (ws := [_; _; _; _]). destruct (expand128_prefix n (i + 1) (rk ++ ws)) as [ext Ee].
  split.
  - split; [done|]. rewrite Ee, <- app_assoc, key_at_prefix by lia. unfold key_at. by rewrite Z.add_0_r.
  - replace (4 * i + 4) with (4 * (i + 1)) by lia. apply IH; [lia|lia| |done|].
    + rewrite length_app. simpl. lia.
    + replace (4 * (i + 1)) with (Z.of_nat (length rk)) by lia. rewrite <- (app_nil_r ws), key_at_app by done.
      rewrite <- E. reflexivity.
Qed.

Lemma mix_columns st :
  block st → mix_column st ++ mix_column (drop 4 st) ++ mix_column (drop 8 st) ++ mix_column (drop 12 st) = on_cols mixcol st.
Proof.
  intros Hst. block_bytes st Hst. cbn [drop on_cols]. rewrite !mix_column_spec by assumption. reflexivity.
Qed.

Lemma xor_128_bytes a b : block a → block b → xor_128 a b = xor_bytes a b.
Proof. intros [La _] [Lb _]. unfold xor_128. rewrite !take_ge by lia. done. Qed.

Lemma xor_bytes_comm a b : xor_bytes a b = xor_bytes b a.
Proof. revert b. induction a as [|x a IH]; intros [|y b]; simpl; [done..|]. by rewrite Z.lxor_comm, IH. Qed.

Lemma aes_loop_turn n i data s : aes_loop (S n) i data s = aes_loop n (i + 1) data (aes_round i data s).
Proof. reflexivity. Qed.

(** The inner rounds. *)
Lemma aes_loop_inner n i data k st :
  block k → block st → 1 ≤ i → i + Z.of_nat n ≤ 10 →
  ∃ ks kl, k :: sched n i k = ks ++ [kl] ∧ length ks = n ∧ block kl ∧ Forall block ks ∧
    ∀ m, aes_loop (n + m) i data (k, st) = aes_loop m (i + Z.of_nat n) data (kl, fold_left enc_round ks st).
Proof.
  revert i k st. induction n as [|n IH]; intros i k st Hk Hst Hi Hn.
  { exists [], k. rewrite Z.add_0_r. done. }
  destruct (next_key_packs k i Hk) as [Hb _]; [lia|].
  assert (block (enc_round st k)) as He by (apply xor_block; [by apply mix_block|done]).
  destruct (IH (i + 1) (next_key k i) (enc_round st k)) as (ks & kl & E & Hl & Hkl & Hks & Hrun); [done|done|lia|lia|].
  exists (k :: ks), kl. cbn [sched length app]. rewrite E. split; [done|]. split; [by rewrite Hl|]. split; [done|].
  split; [by constructor|]. intros m. cbn [Nat.add aes_loop fold_left]. unfold aes_round.
  rewrite (proj2 (Z.eqb_neq i 0)), (proj2 (Z.eqb_neq i 10)) by lia.
  rewrite mix_columns by by apply shiftsub_block. fold (mix_step st).
  rewrite xor_128_bytes by (done || by apply mix_block). fold (enc_round st k).
  rewrite Hrun. f_equal. lia.
Qed.

Lemma aes128k128d_cipher key data :
  block key → block data →
  ∃ ks kl, sched 10 0 key = ks ++ [kl] ∧ length ks = 9%nat ∧ aes128k128d key data = cipher key ks kl data.
Proof.
  intros Hk Hd. destruct (next_key_packs key 0 Hk) as [Hb _]; [lia|].
  assert (block (xor_bytes data key)) as Hw by by apply xor_block.
  destruct (aes_loop_inner 9 1 data (next_key key 0) (xor_bytes data key)) as (ks & kl & E & Hl & Hkl & Hks & Hrun); [done|done|lia|lia|].
  exists ks, kl. split; [exact E|]. split; [done|]. unfold aes128k128d. rewrite take_ge by (destruct Hk; lia).
  rewrite (aes_loop_turn 10 0 data (key, [])). cbn [aes_round Z.eqb]. change (0 + 1) with 1. change 10%nat with (9 + 1)%nat.
  rewrite xor_128_bytes, (xor_bytes_comm key) by done. rewrite Hrun.
  change (1 + Z.of_nat 9) with 10. rewrite aes_loop_turn. cbn [aes_loop aes_round Z.eqb Pos.eqb snd].
  rewrite xor_128_bytes; [done| |done]. by apply shiftsub_block, fold_block.
Qed.

Lemma sched_blocks n i k : block k → 0 ≤ i → i + Z.of_nat n ≤ 10 → Forall block (sched n i k).
Proof.
  revert i k. induction n as [|n IH]; intros i k Hk Hi Hn; [constructor|]. cbn [sched].
  destruct (next_key_packs k i Hk) as [Hb _]; [lia|]. constructor; [exact Hb|]. apply IH; [exact Hb|lia|lia].
Qed.

Lemma aes_block key data : block key → block data → block (aes128k128d key data).
Proof.
  intros Hk Hd. destruct (aes128k128d_cipher key data Hk Hd) as (ks & kl & Es & _ & ->).
  pose proof (sched_blocks 10 0 key Hk ltac:(lia) ltac:(lia)) as Hs. rewrite Es in Hs.
  apply Forall_app in Hs as [Hks Hkl]. apply Forall_cons in Hkl as [Hkl _].
  apply xor_block; [|exact Hkl]. by apply shiftsub_block, fold_block; [apply xor_block|].
Qed.

Lemma get_words_packs key : block key → key_at (get_words 4 0 key) 0 = packs key.
Proof.
  intros [Hl Hb]. cbn [get_words]. rewrite !get_pack by (done || (simpl; lia)).
  assert (block key) as Hk by done. clear Hl Hb. block_bytes key Hk. reflexivity.
Qed.

Lemma encrypt_same key ctx input :
  block key → block input →
  aes_encrypt (aes_set_key key 128 ctx).2 input = aes128k128d key input.
Proof.
  intros Hk Hi. destruct (aes128k128d_cipher key input Hk Hi) as (ks & kl & Es & Hl & ->).
  destruct (aes_set_key_schedule key 128 ctx) as (rk & r & -> & _ & _ & Hrk); [apply Hk|auto|].
  destruct (Hrk eq_refl) as [-> ->]. cbn [snd].
  apply aes_encrypt_cipher; [done| |by rewrite Hl]. rewrite <- Es.
  apply (expand128_sched 10 0 (get_words 4 0 key) key); [lia|lia|reflexivity|done|by apply get_words_packs].
Qed.

Lemma decrypt_block key ctx input :
  block key → block input → aes_decrypt (aes_set_key key 128 ctx).2 (aes128k128d key input) = input.
Proof.
  intros Hk Hi. rewrite <- (encrypt_same key ctx) by done.
  destruct (aes_set_key_schedule key 128 ctx) as (rk & r & -> & Hw & Hr & _); [apply Hk|auto|]. by apply schedule_inverse.
Qed.

(** With a key of 128 bits the implementation with tables ([aes_set_key],
    [aes_encrypt] of [md5.c]) and the one on bytes ([aes128k128d] of [rtmp_tkip.c])
    encrypt every block to the same block. *)
Theorem aes_implementations_agree key ctx input :
  block key → block input →
  aes_encrypt (aes_set_key key 128 ctx).2 input = aes128k128d key input.
Proof. apply encrypt_same. Qed.

Lemma aes_implementations_agree_witness :
  aes_encrypt (aes_set_key (seqZ 0 16) 128 no_ctx).2 fips_plain =
    [0x69; 0xc4; 0xe0; 0xd8; 0x6a; 0x7b; 0x04; 0x30; 0xd8; 0xcd; 0xb7; 0x80; 0x70; 0xb4; 0xc5; 0x5a].
Proof.
  rewrite (aes_implementations_agree (seqZ 0 16) no_ctx fips_plain).
  - vm_compute. reflexivity.
  - split; [reflexivity|]. apply (bool_decide_unpack _). vm_compute. exact I.
  - split; [reflexivity|]. apply (bool_decide_unpack _). vm_compute. exact I.
Defined.
