(* ===== verification/Tkip.v ===== *)
(** * TKIP

    Models the first part of [rt2501/sources/Module/rtmp_tkip.c]: the message
    integrity code of TKIP ("Michael"), the mixing of its keys, and the decryption
    of received frames by software. *)

From S2P Require Import Prelude Words Wep Aes.

(** ** Michael *)

(** What of [TKIP_KEY_INFO] the code of the MIC uses. *)
Record tkip_info : Type := mk_tkip {
  nBytesInM : Z; K0 : Z; K1 : Z; L : Z; R : Z; M : Z; MIC : list Z
}.

(** [ULONG] has 32 bits on the boards. *)
Definition ROL32 (A n : Z) : Z := Z.lor (u32 (Z.shiftl A n)) (Z.land (Z.shiftr A (32 - n)) (Z.shiftl 1 n - 1)).
Definition ROR32 (A n : Z) : Z := ROL32 A (32 - n).

Fixpoint get_loop (n : nat) (i res : Z) (p : list Z) : Z :=
  match n with
  | O => res
  | S n' => get_loop n' (i + 1) (Z.lor res (u32 (Z.shiftl (hd 0 p) (8 * i)))) (tl p)
  end.
(** [pMICKey]: at least four bytes. *)
Definition RTMPTkipGetUInt32 (pMICKey : list Z) : Z := get_loop 4 0 0 pMICKey.

Fixpoint put_loop (n : nat) (val : Z) : list Z :=
  match n with O => [] | S n' => u8 (Z.land val 0xff) :: put_loop n' (Z.shiftr val 8) end.
(** The four bytes stored. *)
Definition RTMPTkipPutUInt32 (val : Z) : list Z := put_loop 4 val.

Definition RTMPTkipSetMICKey (pMICKey : list Z) (t : tkip_info) : tkip_info :=
  let k0 := RTMPTkipGetUInt32 pMICKey in
  let k1 := RTMPTkipGetUInt32 (drop 4 pMICKey) in
  mk_tkip 0 k0 k1 k0 k1 0 (MIC t).

(** The word is full: it is mixed into [L] and [R]. *)
Definition michael_word (l r m : Z) : Z * Z :=
  let l := Z.lxor l m in
  let r := Z.lxor r (ROL32 l 17) in
  let l := u32 (l + r) in
  let r := Z.lxor r (Z.lor (Z.shiftr (Z.land l 0xff00ff00) 8) (u32 (Z.shiftl (Z.land l 0x00ff00ff) 8))) in
  let l := u32 (l + r) in
  let r := Z.lxor r (ROL32 l 3) in
  let l := u32 (l + r) in
  let r := Z.lxor r (ROR32 l 2) in
  let l := u32 (l + r) in
  (l, r).
Definition RTMPTkipAppendByte (t : tkip_info) (uChar : Z) : tkip_info :=
  let m := Z.lor (M t) (u32 (Z.shiftl uChar (8 * nBytesInM t))) in
  let n := nBytesInM t + 1 in
  if 4 <=? n then let '(l, r) := michael_word (L t) (R t) m in mk_tkip 0 (K0 t) (K1 t) l r 0 (MIC t)
  else mk_tkip n (K0 t) (K1 t) (L t) (R t) m (MIC t).
Definition RTMPTkipAppend (t : tkip_info) (pSrc : list Z) : tkip_info := fold_left RTMPTkipAppendByte pSrc t.

(** [while( pTkip->nBytesInM != 0 )]; [pad_loop_ends] shows that three turns are
    enough. *)
Fixpoint pad_loop (fuel : nat) (t : tkip_info) : result tkip_info :=
  if nBytesInM t =? 0 then Ok t
  else match fuel with O => Crash Diverges | S n => pad_loop n (RTMPTkipAppendByte t 0) end.
Definition RTMPTkipGetMIC (t : tkip_info) : result tkip_info :=
  let t := RTMPTkipAppendByte t 0x5a in
  let t := RTMPTkipAppendByte t 0 in
  let t := RTMPTkipAppendByte t 0 in
  let t := RTMPTkipAppendByte t 0 in
  let t := RTMPTkipAppendByte t 0 in
  t ← pad_loop 3 t;
  Ok (mk_tkip (nBytesInM t) (K0 t) (K1 t) (L t) (R t) (M t) (RTMPTkipPutUInt32 (L t) ++ RTMPTkipPutUInt32 (R t))).

(** [pDA], [pSA]: six bytes each. *)
Definition RTMPInitMICEngine (pDA pSA : list Z) (UserPriority : Z) (pMICKey : list Z) (tx : tkip_info) : tkip_info :=
  let tx := RTMPTkipSetMICKey pMICKey tx in
  let tx := RTMPTkipAppend tx pDA in
  let tx := RTMPTkipAppend tx pSA in
  RTMPTkipAppend tx (le_bytes 4 UserPriority).

(** [pSrc] holds [Len] bytes and the MIC after them. The priority is always 0. *)
Definition RTMPTkipCompareMICValue (pSrc pDA pSA pMICKey : list Z) (Len : Z) : stm tkip_info bool :=
  rx ← gets (RTMPTkipSetMICKey pMICKey);
  let rx := RTMPTkipAppend rx pDA in
  let rx := RTMPTkipAppend rx pSA in
  let rx := RTMPTkipAppend rx (le_bytes 4 0) in
  data ← lift (sub_bytes pSrc 0 Len);
  let rx := RTMPTkipAppend rx data in
  OldMic ← lift (sub_bytes pSrc Len 8);
  rx ← lift (RTMPTkipGetMIC rx);
  put rx;;
  mret (bool_decide (MIC rx = OldMic)).
Definition RTMPTkipCompareMICValueWithLLC (pLLC pSrc pDA pSA pMICKey : list Z) (Len : Z) : stm tkip_info bool :=
  rx ← gets (RTMPTkipSetMICKey pMICKey);
  let rx := RTMPTkipAppend rx pDA in
  let rx := RTMPTkipAppend rx pSA in
  let rx := RTMPTkipAppend rx (le_bytes 4 0) in
  llc ← lift (sub_bytes pLLC 0 8);
  let rx := RTMPTkipAppend rx llc in
  data ← lift (sub_bytes pSrc 0 Len);
  let rx := RTMPTkipAppend rx data in
  OldMic ← lift (sub_bytes pSrc Len 8);
  rx ← lift (RTMPTkipGetMIC rx);
  put rx;;
  mret (bool_decide (MIC rx = OldMic)).

(** [skb]: the bytes of the packet, from its Ethernet header on; [pEncap]: the LLC
    header, or NULL. With less than 14 bytes the length wraps. *)
Definition RTMPCalculateMICValue (skb : list Z) (UserPriority : Z) (pEncap : option (list Z)) (TxMicKey : list Z)
    : stm tkip_info unit :=
  da ← lift (sub_bytes skb 0 6);
  sa ← lift (sub_bytes skb 6 6);
  tx ← gets (RTMPInitMICEngine da sa UserPriority TxMicKey);
  tx ← match pEncap with
       | None => mret tx
       | Some e =>
           llc ← lift (sub_bytes e 0 6);
           proto ← lift (sub_bytes skb 12 2);
           mret (RTMPTkipAppend (RTMPTkipAppend tx llc) proto)
       end;
  data ← lift (sub_bytes skb 14 (Z.of_nat (length skb) - 14));
  tx ← lift (RTMPTkipGetMIC (RTMPTkipAppend tx data));
  put tx.

(** ** The mixing of keys *)

Definition Tkip_Sbox_Lower : list Z := [
   0xA5; 0x84; 0x99; 0x8D; 0x0D; 0xBD; 0xB1; 0x54; 0x50; 0x03; 0xA9; 0x7D; 0x19; 0x62; 0xE6; 0x9A;
   0x45; 0x9D; 0x40; 0x87; 0x15; 0xEB; 0xC9; 0x0B; 0xEC; 0x67; 0xFD; 0xEA; 0xBF; 0xF7; 0x96; 0x5B;
   0xC2; 0x1C; 0xAE; 0x6A; 0x5A; 0x41; 0x02; 0x4F; 0x5C; 0xF4; 0x34; 0x08; 0x93; 0x73; 0x53; 0x3F;
   0x0C; 0x52; 0x65; 0x5E; 0x28; 0xA1; 0x0F; 0xB5; 0x09; 0x36; 0x9B; 0x3D; 0x26; 0x69; 0xCD; 0x9F;
   0x1B; 0x9E; 0x74; 0x2E; 0x2D; 0xB2; 0xEE; 0xFB; 0xF6; 0x4D; 0x61; 0xCE; 0x7B; 0x3E; 0x71; 0x97;
   0xF5; 0x68; 0x00; 0x2C; 0x60; 0x1F; 0xC8; 0xED; 0xBE; 0x46; 0xD9; 0x4B; 0xDE; 0xD4; 0xE8; 0x4A;
   0x6B; 0x2A; 0xE5; 0x16; 0xC5; 0xD7; 0x55; 0x94; 0xCF; 0x10; 0x06; 0x81; 0xF0; 0x44; 0xBA; 0xE3;
   0xF3; 0xFE; 0xC0; 0x8A; 0xAD; 0xBC; 0x48; 0x04; 0xDF; 0xC1; 0x75; 0x63; 0x30; 0x1A; 0x0E; 0x6D;
   0x4C; 0x14; 0x35; 0x2F; 0xE1; 0xA2; 0xCC; 0x39; 0x57; 0xF2; 0x82; 0x47; 0xAC; 0xE7; 0x2B; 0x95;
   0xA0; 0x98; 0xD1; 0x7F; 0x66; 0x7E; 0xAB; 0x83; 0xCA; 0x29; 0xD3; 0x3C; 0x79; 0xE2; 0x1D; 0x76;
   0x3B; 0x56; 0x4E; 0x1E; 0xDB; 0x0A; 0x6C; 0xE4; 0x5D; 0x6E; 0xEF; 0xA6; 0xA8; 0xA4; 0x37; 0x8B;
   0x32; 0x43; 0x59; 0xB7; 0x8C; 0x64; 0xD2; 0xE0; 0xB4; 0xFA; 0x07; 0x25; 0xAF; 0x8E; 0xE9; 0x18;
   0xD5; 0x88; 0x6F; 0x72; 0x24; 0xF1; 0xC7; 0x51; 0x23; 0x7C; 0x9C; 0x21; 0xDD; 0xDC; 0x86; 0x85;
   0x90; 0x42; 0xC4; 0xAA; 0xD8; 0x05; 0x01; 0x12; 0xA3; 0x5F; 0xF9; 0xD0; 0x91; 0x58; 0x27; 0xB9;
   0x38; 0x13; 0xB3; 0x33; 0xBB; 0x70; 0x89; 0xA7; 0xB6; 0x22; 0x92; 0x20; 0x49; 0xFF; 0x78; 0x7A;
   0x8F; 0xF8; 0x80; 0x17; 0xDA; 0x31; 0xC6; 0xB8; 0xC3; 0xB0; 0x77; 0x11; 0xCB; 0xFC; 0xD6; 0x3A].
Definition Tkip_Sbox_Upper : list Z := [
   0xC6; 0xF8; 0xEE; 0xF6; 0xFF; 0xD6; 0xDE; 0x91; 0x60; 0x02; 0xCE; 0x56; 0xE7; 0xB5; 0x4D; 0xEC;
   0x8F; 0x1F; 0x89; 0xFA; 0xEF; 0xB2; 0x8E; 0xFB; 0x41; 0xB3; 0x5F; 0x45; 0x23; 0x53; 0xE4; 0x9B;
   0x75; 0xE1; 0x3D; 0x4C; 0x6C; 0x7E; 0xF5; 0x83; 0x68; 0x51; 0xD1; 0xF9; 0xE2; 0xAB; 0x62; 0x2A;
   0x08; 0x95; 0x46; 0x9D; 0x30; 0x37; 0x0A; 0x2F; 0x0E; 0x24; 0x1B; 0xDF; 0xCD; 0x4E; 0x7F; 0xEA;
   0x12; 0x1D; 0x58; 0x34; 0x36; 0xDC; 0xB4; 0x5B; 0xA4; 0x76; 0xB7; 0x7D; 0x52; 0xDD; 0x5E; 0x13;
   0xA6; 0xB9; 0x00; 0xC1; 0x40; 0xE3; 0x79; 0xB6; 0xD4; 0x8D; 0x67; 0x72; 0x94; 0x98; 0xB0; 0x85;
   0xBB; 0xC5; 0x4F; 0xED; 0x86; 0x9A; 0x66; 0x11; 0x8A; 0xE9; 0x04; 0xFE; 0xA0; 0x78; 0x25; 0x4B;
   0xA2; 0x5D; 0x80; 0x05; 0x3F; 0x21; 0x70; 0xF1; 0x63; 0x77; 0xAF; 0x42; 0x20; 0xE5; 0xFD; 0xBF;
   0x81; 0x18; 0x26; 0xC3; 0xBE; 0x35; 0x88; 0x2E; 0x93; 0x55; 0xFC; 0x7A; 0xC8; 0xBA; 0x32; 0xE6;
   0xC0; 0x19; 0x9E; 0xA3; 0x44; 0x54; 0x3B; 0x0B; 0x8C; 0xC7; 0x6B; 0x28; 0xA7; 0xBC; 0x16; 0xAD;
   0xDB; 0x64; 0x74; 0x14; 0x92; 0x0C; 0x48; 0xB8; 0x9F; 0xBD; 0x43; 0xC4; 0x39; 0x31; 0xD3; 0xF2;
   0xD5; 0x8B; 0x6E; 0xDA; 0x01; 0xB1; 0x9C; 0x49; 0xD8; 0xAC; 0xF3; 0xCF; 0xCA; 0xF4; 0x47; 0x10;
   0x6F; 0xF0; 0x4A; 0x5C; 0x38; 0x57; 0x73; 0x97; 0xCB; 0xA1; 0xE8; 0x3E; 0x96; 0x61; 0x0D; 0x0F;
   0xE0; 0x7C; 0x71; 0xCC; 0x90; 0x06; 0xF7; 0x1C; 0xC2; 0x6A; 0xAE; 0x69; 0x17; 0x99; 0x3A; 0x27;
   0xD9; 0xEB; 0x2B; 0x22; 0xD2; 0xA9; 0x07; 0x33; 0x2D; 0x3C; 0x15; 0xC9; 0x87; 0xAA; 0x50; 0xA5;
   0x03; 0x59; 0x09; 0x1A; 0x65; 0xD7; 0x84; 0xD0; 0x82; 0x29; 0x5A; 0x1E; 0x7B; 0xA8; 0x6D; 0x2C].

Definition tkip_sbox (index : Z) : Z :=
  let index_low := index mod 256 in
  let index_high := Z.shiftr index 8 mod 256 in
  let left := tab Tkip_Sbox_Lower index_low + tab Tkip_Sbox_Upper index_low * 256 in
  let right := tab Tkip_Sbox_Upper index_high + tab Tkip_Sbox_Lower index_high * 256 in
  Z.lxor left right.

Definition rotr1 (a : Z) : Z :=
  let b := if Z.land a 1 =? 1 then Z.lor (Z.shiftr a 1) 0x8000 else Z.land (Z.shiftr a 1) 0x7fff in
  b mod 65536.

(** [(256*key[i+1]) + key[i]]; the key has 16 bytes. *)
Definition key_word (key : list Z) (i : Z) : Z := 256 * tab key (i + 1) + tab key i.

Definition p1k : Type := Z * Z * Z * Z * Z.
Definition phase1_turn (key : list Z) (i : Z) (p : p1k) : p1k :=
  let '(p0, p1, p2, p3, p4) := p in
  let j := 2 * Z.land i 1 in
  let p0 := (p0 + tkip_sbox (Z.lxor p4 (key_word key j) mod 65536)) mod 65536 in
  let p1 := (p1 + tkip_sbox (Z.lxor p0 (key_word key (4 + j)) mod 65536)) mod 65536 in
  let p2 := (p2 + tkip_sbox (Z.lxor p1 (key_word key (8 + j)) mod 65536)) mod 65536 in
  let p3 := (p3 + tkip_sbox (Z.lxor p2 (key_word key (12 + j)) mod 65536)) mod 65536 in
  let p4 := (p4 + tkip_sbox (Z.lxor p3 (key_word key j) mod 65536)) mod 65536 in
  let p4 := (p4 + i) mod 65536 in
  (p0, p1, p2, p3, p4).
Fixpoint phase1_loop (key : list Z) (n : nat) (i : Z) (p : p1k) : p1k :=
  match n with O => p | S n' => phase1_loop key n' (i + 1) (phase1_turn key i p) end.

(** The sums of the second phase are not reduced; they stay below [2 ^ 18]. The
    result is the key for the cipher, and [p1k]. *)
Definition RTMPTkipMixKey (key ta : list Z) (pnl pnh : Z) : list Z * p1k :=
  let tsc0 := Z.shiftr pnh 16 mod 65536 in
  let tsc1 := pnh mod 65536 in
  let tsc2 := pnl mod 65536 in
  let start := (tsc1, tsc0, tab ta 0 + tab ta 1 * 256, tab ta 2 + tab ta 3 * 256, tab ta 4 + tab ta 5 * 256) in
  let p := phase1_loop key 8 0 start in
  let '(ppk0, ppk1, ppk2, ppk3, ppk4) := p in
  let ppk5 := (ppk4 + tsc2) mod 65536 in
  let ppk0 := ppk0 + tkip_sbox (Z.lxor ppk5 (key_word key 0) mod 65536) in
  let ppk1 := ppk1 + tkip_sbox (Z.lxor ppk0 (key_word key 2) mod 65536) in
  let ppk2 := ppk2 + tkip_sbox (Z.lxor ppk1 (key_word key 4) mod 65536) in
  let ppk3 := ppk3 + tkip_sbox (Z.lxor ppk2 (key_word key 6) mod 65536) in
  let ppk4 := ppk4 + tkip_sbox (Z.lxor ppk3 (key_word key 8) mod 65536) in
  let ppk5 := ppk5 + tkip_sbox (Z.lxor ppk4 (key_word key 10) mod 65536) in
  let ppk0 := ppk0 + rotr1 (Z.lxor ppk5 (key_word key 12)) in
  let ppk1 := ppk1 + rotr1 (Z.lxor ppk0 (key_word key 14)) in
  let ppk2 := ppk2 + rotr1 ppk1 in
  let ppk3 := ppk3 + rotr1 ppk2 in
  let ppk4 := ppk4 + rotr1 ppk3 in
  let ppk5 := ppk5 + rotr1 ppk4 in
  ([Z.shiftr tsc2 8 mod 256; Z.land (Z.lor (Z.shiftr tsc2 8 mod 256) 0x20) 0x7f; tsc2 mod 256;
    Z.shiftr (Z.lxor ppk5 (key_word key 0)) 1 mod 256;
    ppk0 mod 256; Z.shiftr ppk0 8 mod 256; ppk1 mod 256; Z.shiftr ppk1 8 mod 256;
    ppk2 mod 256; Z.shiftr ppk2 8 mod 256; ppk3 mod 256; Z.shiftr ppk3 8 mod 256;
    ppk4 mod 256; Z.shiftr ppk4 8 mod 256; ppk5 mod 256; Z.shiftr ppk5 8 mod 256], p).

(** The words [pIV16] and [pIV32]; [pTSC]: the six bytes of the counter. *)
Definition RTMPInitTkipEngine (KeyId : Z) (pTSC : list Z) : Z * Z :=
  let rc0 := tab pTSC 1 in
  let rc1 := Z.land (Z.lor rc0 0x20) 0x7f in
  let rc2 := tab pTSC 0 in
  let CONTROL := Z.lor (Z.shiftl 1 5) (Z.shiftl (Z.land KeyId 3) 6) in
  (le_val [rc0; rc1; rc2; CONTROL], le_val [tab pTSC 2; tab pTSC 3; tab pTSC 4; tab pTSC 5]).

(** ** Frames *)

(** Where the addresses are: DA, SA and TA, by [to_ds] and [from_ds]. *)
Definition addresses (to_ds from_ds : Z) : Z * Z * Z :=
  if (to_ds =? 0) && (from_ds =? 1) then (4, 16, 10)
  else if (to_ds =? 0) && (from_ds =? 0) then (4, 10, 10)
  else if (to_ds =? 1) && (from_ds =? 0) then (16, 10, 10)
  else (16, 22, 10).

(** The second half of [RTMPSoftDecryptTKIP]: decryption, and the checks of the ICV
    and of the MIC. The lengths are unsigned: where one would be negative, it wraps
    and the loop that uses it leaves the buffer. *)
Definition tkip_payload (pData : list Z) (DataByteCnt HeaderLen UserPriority : Z) (DA SA RC4Key : list Z) (key : cipher_key)
    : stm tkip_info (bool * list Z) :=
  if DataByteCnt - HeaderLen - 8 <? 0 then throw OutOfBounds
  else
    pData ← lift (
      '(buf, _) ← (ARCFOUR_INIT RC4Key 16;;
                   ARCFOUR_DECRYPT (Z.to_nat (DataByteCnt - HeaderLen - 8)) HeaderLen (HeaderLen + 8) pData)
                    (mk_arcfour 0 0 []);
      Ok buf);
    trailfcs ← lift (sub_bytes pData (DataByteCnt - 8 - 4) 4);
    body ← lift (sub_bytes pData HeaderLen (DataByteCnt - HeaderLen - 8 - 4));
    let crc32 := Z.lxor (RTMP_CALC_FCS32 PPPINITFCS32 body) 0xffffffff in
    if negb (crc32 =? le_val trailfcs) then mret (false, pData)
    else
      TrailMIC ← lift (sub_bytes pData (DataByteCnt - 8 - 8 - 4) 8);
      tx ← gets (RTMPInitMICEngine DA SA UserPriority (RxMic key));
      data ← lift (sub_bytes pData HeaderLen (DataByteCnt - HeaderLen - 8 - 12));
      tx ← lift (RTMPTkipGetMIC (RTMPTkipAppend tx data));
      put tx;;
      mret (bool_decide (MIC tx = TrailMIC), pData).

(** [pWpaKey]: the keys from the one pointed to. The result is whether the frame
    was accepted, and the buffer. *)
Definition RTMPSoftDecryptTKIP (pData : list Z) (DataByteCnt UserPriority : Z) (pWpaKey : list cipher_key)
    : stm tkip_info (bool * list Z) :=
  fc1 ← lift (nth_byte pData 1);
  let from_ds := Z.shiftr (Z.land fc1 2) 1 in
  let to_ds := Z.land fc1 1 in
  let HeaderLen := if truthy (Z.land from_ds to_ds) then 24 + 6 else 24 in
  ctl ← lift (nth_byte pData (HeaderLen + 3));
  let KeyID := Z.shiftr ctl 6 in
  match pWpaKey !! Z.to_nat KeyID with
  | None => throw OutOfBounds
  | Some key =>
      if KeyLen key =? 0 then mret (false, pData)
      else
        let '(oda, osa, ota) := addresses to_ds from_ds in
        DA ← lift (sub_bytes pData oda 6);
        SA ← lift (sub_bytes pData osa 6);
        TA ← lift (sub_bytes pData ota 6);
        b0 ← lift (nth_byte pData HeaderLen);
        b2 ← lift (nth_byte pData (HeaderLen + 2));
        eiv ← lift (sub_bytes pData (HeaderLen + 4) 4);
        let RC4Key := (RTMPTkipMixKey (Key key) TA (b0 * 256 + b2) (le_val eiv)).1 in
        tkip_payload pData DataByteCnt HeaderLen UserPriority DA SA RC4Key key
  end.

(** Test vectors of IEEE 802.11i. *)
Definition fresh : tkip_info := mk_tkip 0 0 0 0 0 0 (replicate 8 0).
Definition mic_of (key msg : list Z) : result (list Z) :=
  t ← RTMPTkipGetMIC (RTMPTkipAppend (RTMPTkipSetMICKey key fresh) msg); Ok (MIC t).
Example michael_vectors :
  mic_of (replicate 8 0) [] = Ok [0x82; 0x92; 0x5c; 0x1c; 0xa1; 0xd1; 0x30; 0xb8] ∧
  mic_of [0x82; 0x92; 0x5c; 0x1c; 0xa1; 0xd1; 0x30; 0xb8] (str "M") = Ok [0x43; 0x47; 0x21; 0xca; 0x40; 0x63; 0x9b; 0x3f] ∧
  mic_of [0xd5; 0x5e; 0x10; 0x05; 0x10; 0x12; 0x89; 0x86] (str "Michael") = Ok [0x0a; 0x94; 0x2b; 0x12; 0x4e; 0xca; 0xa5; 0x46].
Proof. vm_compute. repeat split. Qed.
Example mix_key_vector :
  RTMPTkipMixKey (seqZ 0 16) [0x10; 0x22; 0x33; 0x44; 0x55; 0x66] 0 0 =
    ([0x00; 0x20; 0x00; 0x33; 0xEA; 0x8D; 0x2F; 0x60; 0xCA; 0x6D; 0x13; 0x74; 0x23; 0x4A; 0x66; 0x0B],
     (0x3DD2, 0x016E, 0x76F4, 0x8697, 0xB2E8)).
Proof. vm_compute. reflexivity. Qed.

(** ** Michael on words

    The reference: the message is padded with 0x5a and four to seven zeroes and
    taken as words. *)
Fixpoint words_of (n : nat) (bs : list Z) : list Z :=
  match n with O => [] | S n' => le_val (take 4 bs) :: words_of n' (drop 4 bs) end.
Definition padding (n : nat) : list Z := 0x5a :: replicate (7 - n mod 4) 0.
Definition absorb (s : Z * Z) (ws : list Z) : Z * Z := fold_left (fun s m => michael_word s.1 s.2 m) ws s.
Definition michael (key msg : list Z) : list Z :=
  let m := msg ++ padding (length msg) in
  let s := absorb (le_val (take 4 key), le_val (take 4 (drop 4 key))) (words_of (length m / 4) m) in
  le_bytes 4 s.1 ++ le_bytes 4 s.2.

(** A state with the bytes [rest] waiting. *)
Definition hold (k0 k1 : Z) (mic : list Z) (s : Z * Z) (rest : list Z) : tkip_info :=
  mk_tkip (Z.of_nat (length rest)) k0 k1 s.1 s.2 (le_val rest) mic.

Lemma le_val_snoc rest b : le_val (rest ++ [b]) = le_val rest + b * 2 ^ (8 * Z.of_nat (length rest)).
Proof.
  induction rest as [|x rest IH]; [simpl; lia|]. cbn [le_val app length]. rewrite IH.
  replace (8 * Z.of_nat (S (length rest))) with (8 + 8 * Z.of_nat (length rest)) by lia.
  rewrite Z.pow_add_r by lia. lia.
Qed.

Section Hold.
Context (k0 k1 : Z) (mic : list Z).

Lemma append_word s rest b :
  bytes_ok rest → is_u8 b → (length rest < 4)%nat →
  Z.lor (le_val rest) (u32 (Z.shiftl b (8 * Z.of_nat (length rest)))) = le_val (rest ++ [b]) ∧
  RTMPTkipAppendByte (hold k0 k1 mic s rest) b =
    if (length rest =? 3)%nat then hold k0 k1 mic (michael_word s.1 s.2 (le_val (rest ++ [b]))) []
    else hold k0 k1 mic s (rest ++ [b]).
Proof.
  intros Hr Hb Hl.
  assert (Z.lor (le_val rest) (u32 (Z.shiftl b (8 * Z.of_nat (length rest)))) = le_val (rest ++ [b])) as E.
  { pose proof (le_val_range rest Hr) as Hv. replace (256 ^ Z.of_nat (length rest)) with (2 ^ (8 * Z.of_nat (length rest))) in Hv
      by (rewrite Z.pow_mul_r by lia; done).
    assert (is_u32 (Z.shiftl b (8 * Z.of_nat (length rest)))) as Hs.
    { rewrite Z.shiftl_mul_pow2 by lia. assert (2 ^ (8 * Z.of_nat (length rest)) ≤ 2 ^ 24) by (apply Z.pow_le_mono_r; lia).
      assert (0 < 2 ^ (8 * Z.of_nat (length rest))) by (apply Z.pow_pos_nonneg; lia). nia. }
    rewrite u32_small, Z.lor_comm, lor_shiftl_add by (try lia; exact Hs). rewrite le_val_snoc. lia. }
  split; [done|]. unfold RTMPTkipAppendByte, hold. cbn [M nBytesInM L R K0 K1 MIC]. rewrite E.
  destruct (Nat.eqb_spec (length rest) 3) as [H3|H3].
  - rewrite (proj2 (Z.leb_le 4 _)) by lia. destruct (michael_word _ _ _) as [l r]. done.
  - rewrite (proj2 (Z.leb_gt 4 _)) by lia. rewrite length_app. f_equal. simpl. lia.
Qed.

Lemma append_chunk s b0 b1 b2 b3 :
  is_u8 b0 → is_u8 b1 → is_u8 b2 → is_u8 b3 →
  RTMPTkipAppend (hold k0 k1 mic s []) [b0; b1; b2; b3] = hold k0 k1 mic (michael_word s.1 s.2 (le_val [b0; b1; b2; b3])) [].
Proof.
  intros H0 H1 H2 H3. unfold RTMPTkipAppend. cbn [fold_left].
  rewrite (proj2 (append_word s [] b0 ltac:(constructor) H0 ltac:(simpl; lia))).
  cbn [length Nat.eqb app].
  rewrite (proj2 (append_word s [b0] b1 ltac:(repeat constructor; lia) H1 ltac:(simpl; lia))). cbn [length Nat.eqb app].
  rewrite (proj2 (append_word s [b0; b1] b2 ltac:(repeat constructor; lia) H2 ltac:(simpl; lia))). cbn [length Nat.eqb app].
  rewrite (proj2 (append_word s [b0; b1; b2] b3 ltac:(repeat constructor; lia) H3 ltac:(simpl; lia))). cbn [length Nat.eqb app].
  done.
Qed.

Lemma append_words n bs s :
  length bs = (4 * n)%nat → bytes_ok bs →
  RTMPTkipAppend (hold k0 k1 mic s []) bs = hold k0 k1 mic (absorb s (words_of n bs)) [].
Proof.
  revert bs s. induction n as [|n IH]; intros bs s Hl Hb.
  { destruct bs; [done|discriminate Hl]. }
  destruct bs as [|b0 [|b1 [|b2 [|b3 bs]]]]; simpl in Hl; try lia.
  apply Forall_cons in Hb as [H0 Hb]. apply Forall_cons in Hb as [H1 Hb].
  apply Forall_cons in Hb as [H2 Hb]. apply Forall_cons in Hb as [H3 Hb].
  change (b0 :: b1 :: b2 :: b3 :: bs) with ([b0; b1; b2; b3] ++ bs).
  unfold RTMPTkipAppend in *. rewrite fold_left_app. fold (RTMPTkipAppend (hold k0 k1 mic s []) [b0; b1; b2; b3]).
  rewrite append_chunk by done. rewrite IH by (done || lia). done.
Qed.
End Hold.

Lemma append_count t bs :
  0 ≤ nBytesInM t < 4 → nBytesInM (RTMPTkipAppend t bs) = (nBytesInM t + Z.of_nat (length bs)) mod 4.
Proof.
  unfold RTMPTkipAppend. revert t. induction bs as [|b bs IH]; intros t Ht; cbn [fold_left length].
  { rewrite Z.mod_small; lia. }
  assert (nBytesInM (RTMPTkipAppendByte t b) = (nBytesInM t + 1) mod 4) as E.
  { unfold RTMPTkipAppendByte. destruct (Z.leb_spec 4 (nBytesInM t + 1)).
    - assert (nBytesInM t = 3) as -> by lia. destruct (michael_word _ _ _). done.
    - simpl. rewrite Z.mod_small; lia. }
  rewrite IH, E by (rewrite E; apply Z.mod_pos_bound; lia). rewrite Zplus_mod_idemp_l. f_equal. lia.
Qed.

(** The loop of the padding ends, after the zeroes that fill the word. *)
Lemma pad_loop_ends t :
  0 ≤ nBytesInM t < 4 →
  pad_loop 3 t = Ok (RTMPTkipAppend t (replicate (Z.to_nat ((4 - nBytesInM t) mod 4)) 0)).
Proof.
  intros Ht. pose proof (append_count t [0] Ht) as H1. pose proof (append_count t [0; 0] Ht) as H2.
  pose proof (append_count t [0; 0; 0] Ht) as H3. unfold RTMPTkipAppend in *. cbn [fold_left length] in *.
  cbn [pad_loop]. rewrite H1, H2, H3.
  assert (nBytesInM t = 0 ∨ nBytesInM t = 1 ∨ nBytesInM t = 2 ∨ nBytesInM t = 3) as [-> | [-> | [-> | ->]]] by lia; reflexivity.
Qed.

Lemma put_uint32 v : RTMPTkipPutUInt32 v = le_bytes 4 v.
Proof.
  unfold RTMPTkipPutUInt32. generalize 4%nat as n. intros n. revert v. induction n as [|n IH]; intros v; [done|].
  cbn [put_loop le_bytes]. rewrite IH, (land_ones_mod v 8), (shiftr_div v 8 256) by done.
  rewrite u8_small by (apply Z.mod_pos_bound; lia). done.
Qed.

Lemma get_uint32 p : bytes_ok p → (4 ≤ length p)%nat → RTMPTkipGetUInt32 p = le_val (take 4 p).
Proof.
  intros Hb Hl. destruct p as [|b0 [|b1 [|b2 [|b3 p]]]]; simpl in Hl; try lia.
  apply Forall_cons in Hb as [H0 Hb]. apply Forall_cons in Hb as [H1 Hb].
  apply Forall_cons in Hb as [H2 Hb]. apply Forall_cons in Hb as [H3 Hb].
  unfold RTMPTkipGetUInt32. cbn [get_loop hd tl]. rewrite !firstn_cons, firstn_O.
  pose proof (proj1 (append_word 0 0 [] (0, 0) [] b0 ltac:(constructor) H0 ltac:(simpl; lia))) as E0.
  pose proof (proj1 (append_word 0 0 [] (0, 0) [b0] b1 ltac:(repeat constructor; lia) H1 ltac:(simpl; lia))) as E1.
  pose proof (proj1 (append_word 0 0 [] (0, 0) [b0; b1] b2 ltac:(repeat constructor; lia) H2 ltac:(simpl; lia))) as E2.
  pose proof (proj1 (append_word 0 0 [] (0, 0) [b0; b1; b2] b3 ltac:(repeat constructor; lia) H3 ltac:(simpl; lia))) as E3.
  cbn [length app] in *. change (le_val []) with 0 in E0.
  change (8 * 0) with (8 * Z.of_nat 0). rewrite E0.
  change (8 * (0 + 1)) with (8 * Z.of_nat 1). rewrite E1.
  change (8 * (0 + 1 + 1)) with (8 * Z.of_nat 2). rewrite E2.
  change (8 * (0 + 1 + 1 + 1)) with (8 * Z.of_nat 3). rewrite E3. done.
Qed.

Lemma set_key_hold key t :
  bytes_ok key → (8 ≤ length key)%nat →
  ∃ k0 k1, RTMPTkipSetMICKey key t = hold k0 k1 (MIC t) (le_val (take 4 key), le_val (take 4 (drop 4 key))) [].
Proof.
  intros Hb Hl. eexists _, _. unfold RTMPTkipSetMICKey. cbv zeta.
  rewrite !get_uint32; [reflexivity|by apply Forall_drop|rewrite length_drop; lia|done|lia].
Qed.

Lemma append_app t a b : RTMPTkipAppend (RTMPTkipAppend t a) b = RTMPTkipAppend t (a ++ b).
Proof. unfold RTMPTkipAppend. by rewrite fold_left_app. Qed.

Lemma get_mic_append t : RTMPTkipGetMIC t =
  (t ← pad_loop 3 (RTMPTkipAppend t [0x5a; 0; 0; 0; 0]);
   Ok (mk_tkip (nBytesInM t) (K0 t) (K1 t) (L t) (R t) (M t) (RTMPTkipPutUInt32 (L t) ++ RTMPTkipPutUInt32 (R t)))).
Proof. reflexivity. Qed.

Lemma padding_split n :
  [0x5a; 0; 0; 0; 0] ++ replicate (Z.to_nat ((4 - (Z.of_nat n + 5) mod 4) mod 4)) 0 = padding n.
Proof.
  unfold padding. rewrite (Nat.div_mod_eq n 4) at 1.
  pose proof (Nat.mod_upper_bound n 4 ltac:(lia)). set (q := (n / 4)%nat). set (r := (n mod 4)%nat) in *.
  replace (Z.of_nat (4 * q + r) + 5) with (Z.of_nat r + 5 + Z.of_nat q * 4) by lia. rewrite Z.mod_add by lia.
  assert (r = 0 ∨ r = 1 ∨ r = 2 ∨ r = 3)%nat as [-> | [-> | [-> | ->]]] by lia; reflexivity.
Qed.

Lemma padding_bytes n : bytes_ok (padding n).
Proof. constructor; [lia|]. apply Forall_replicate. lia. Qed.

Lemma padded_length n : ∃ q, (n + length (padding n) = 4 * q)%nat.
Proof.
  unfold padding. cbn [length]. rewrite length_replicate.
  exists (n / 4 + 2)%nat. pose proof (Nat.div_mod_eq n 4). pose proof (Nat.mod_upper_bound n 4). lia.
Qed.

(** Any sequence of appends after the key is set is one message. *)
Lemma mic_run key t msg :
  bytes_ok key → (8 ≤ length key)%nat → bytes_ok msg →
  ∃ t', RTMPTkipGetMIC (RTMPTkipAppend (RTMPTkipSetMICKey key t) msg) = Ok t' ∧ MIC t' = michael key msg ∧ nBytesInM t' = 0.
Proof.
  intros Hk Hl Hm. destruct (set_key_hold key t Hk Hl) as (k0 & k1 & ->). rewrite get_mic_append, append_app.
  set (t1 := RTMPTkipAppend _ _).
  assert (nBytesInM t1 = (Z.of_nat (length msg) + 5) mod 4) as En.
  { unfold t1. rewrite append_count by (simpl; lia). rewrite length_app. f_equal. simpl. lia. }
  rewrite pad_loop_ends by (rewrite En; apply Z.mod_pos_bound; lia). rewrite result_bind_Ok, En. unfold t1.
  rewrite append_app, <- app_assoc, padding_split.
  destruct (padded_length (length msg)) as [q Hq]. rewrite <- length_app in Hq.
  rewrite (append_words _ _ _ q); [|done|apply Forall_app; split; [done|apply padding_bytes]].
  eexists. split; [reflexivity|]. split; [|done]. unfold michael. cbn [MIC]. rewrite !put_uint32. cbn [L R hold].
  replace (length (msg ++ padding (length msg)) / 4)%nat with q by (rewrite Hq, Nat.mul_comm, Nat.div_mul; lia). done.
Qed.

(** Fed with the pieces of a message in any way, byte by byte, the driver
    computes the Michael code of the whole message as defined on words, whatever
    the state held before; the loop of the padding always ends. *)
Theorem michael_incremental key t pieces :
  bytes_ok key → (8 ≤ length key)%nat → bytes_ok (concat pieces) →
  ∃ t', RTMPTkipGetMIC (fold_left RTMPTkipAppend pieces (RTMPTkipSetMICKey key t)) = Ok t' ∧
    MIC t' = michael key (concat pieces) ∧ nBytesInM t' = 0.
Proof.
  intros Hk Hl Hp.
  assert (∀ t, fold_left RTMPTkipAppend pieces t = RTMPTkipAppend t (concat pieces)) as ->; [|by apply mic_run].
  clear. induction pieces as [|p ps IH]; intros t; [done|]. cbn [fold_left concat]. by rewrite IH, append_app.
Qed.

Lemma michael_incremental_witness :
  ∃ t', RTMPTkipGetMIC (fold_left RTMPTkipAppend [str "Mich"; str "ael"]
    (RTMPTkipSetMICKey [0xd5; 0x5e; 0x10; 0x05; 0x10; 0x12; 0x89; 0x86] (mk_tkip 3 1 2 3 4 5 []))) = Ok t' ∧
    MIC t' = [0x0a; 0x94; 0x2b; 0x12; 0x4e; 0xca; 0xa5; 0x46].
Proof.
  destruct (michael_incremental [0xd5; 0x5e; 0x10; 0x05; 0x10; 0x12; 0x89; 0x86] (mk_tkip 3 1 2 3 4 5 [])
    [str "Mich"; str "ael"]) as (t' & E & H & _).
  - apply (bool_decide_unpack _). vm_compute. exact I.
  - simpl. lia.
  - apply (bool_decide_unpack _). vm_compute. exact I.
  - exists t'. split; [exact E|]. rewrite H. vm_compute. reflexivity.
Defined.

(** ** Changes of a word are noticed *)

Lemma rol32_range a n : 0 ≤ n ≤ 32 → is_u32 (ROL32 a n).
Proof.
  intros Hn. apply (lor_range 32); [lia|apply u32_range|].
  assert (Z.shiftl 1 n - 1 = Z.ones n) as E by (rewrite Z.ones_equiv, Z.shiftl_1_l; lia).
  pose proof (land_range n (Z.shiftr a (32 - n)) _ ltac:(lia) E) as H.
  assert (2 ^ n ≤ 2 ^ 32) by (apply Z.pow_le_mono_r; lia). lia.
Qed.

Lemma u32_add_inj a b r : is_u32 a → is_u32 b → u32 (a + r) = u32 (b + r) → a = b.
Proof.
  intros Ha Hb E. unfold u32 in E. rewrite <- (Z.mod_small a (2 ^ 32)), <- (Z.mod_small b (2 ^ 32)) by lia.
  replace a with (a + r - r) by lia. replace b with (b + r - r) by lia. by rewrite Zminus_mod, E, <- Zminus_mod.
Qed.

Lemma swap_range l : is_u32 (Z.lor (Z.shiftr (Z.land l 0xff00ff00) 8) (u32 (Z.shiftl (Z.land l 0x00ff00ff) 8))).
Proof.
  apply (lor_range 32); [lia| |apply u32_range].
  change 0xff00ff00 with (Z.land 0xff00ff00 (Z.ones 32)). rewrite Z.land_assoc.
  pose proof (shiftr_range 32 8 _ ltac:(lia) (land_range 32 (Z.land l 0xff00ff00) _ ltac:(lia) eq_refl)). lia.
Qed.

(** The rounds of [michael_word], each of them invertible. *)
Definition mix_round (f : Z → Z) (s : Z * Z) : Z * Z := let r := Z.lxor s.2 (f s.1) in (u32 (s.1 + r), r).
Definition u32_pair (s : Z * Z) : Prop := is_u32 s.1 ∧ is_u32 s.2.

Lemma michael_word_rounds l r m : michael_word l r m =
  mix_round (fun l => ROR32 l 2) (mix_round (fun l => ROL32 l 3)
    (mix_round (fun l => Z.lor (Z.shiftr (Z.land l 0xff00ff00) 8) (u32 (Z.shiftl (Z.land l 0x00ff00ff) 8)))
      (mix_round (fun l => ROL32 l 17) (Z.lxor l m, r)))).
Proof. reflexivity. Qed.

Lemma mix_round_ok f s : (∀ l, is_u32 (f l)) → u32_pair s → u32_pair (mix_round f s).
Proof. intros Hf [H1 H2]. split; [apply u32_range|]. by apply (lxor_range 32). Qed.

Lemma mix_round_inj f s1 s2 : u32_pair s1 → u32_pair s2 → mix_round f s1 = mix_round f s2 → s1 = s2.
Proof.
  destruct s1 as [l1 r1], s2 as [l2 r2]. unfold mix_round. simpl. intros [H1 _] [H2 _] [= El Er]. simpl in *.
  rewrite Er in El. apply u32_add_inj in El as ->; [|done..]. by apply lxor_inj_r in Er as ->.
Qed.

Lemma michael_word_ok l r m : is_u32 l → is_u32 r → is_u32 m → u32_pair (michael_word l r m).
Proof.
  intros Hl Hr Hm. rewrite michael_word_rounds.
  repeat apply mix_round_ok; intros; try (apply rol32_range; lia); try apply swap_range.
  split; [by apply (lxor_range 32)|done].
Qed.

Lemma michael_word_inj l1 r1 m1 l2 r2 m2 :
  is_u32 l1 → is_u32 r1 → is_u32 m1 → is_u32 l2 → is_u32 r2 → is_u32 m2 →
  michael_word l1 r1 m1 = michael_word l2 r2 m2 → Z.lxor l1 m1 = Z.lxor l2 m2 ∧ r1 = r2.
Proof.
  intros. assert (u32_pair (Z.lxor l1 m1, r1) ∧ u32_pair (Z.lxor l2 m2, r2)) as [P1 P2].
  { split; split; simpl; try done; by apply (lxor_range 32). }
  rewrite !michael_word_rounds in *.
  repeat match goal with
  | H : mix_round ?f ?a = mix_round ?f ?b |- _ =>
      apply (mix_round_inj f) in H; [|repeat apply mix_round_ok; intros; try (apply rol32_range; lia); try apply swap_range; done..]
  end.
  split; congruence.
Qed.

Lemma absorb_ok s ws : u32_pair s → Forall (fun w => is_u32 w) ws → u32_pair (absorb s ws).
Proof.
  intros Hs Hw. revert s Hs. induction Hw as [|w ws Hw _ IH]; intros s [Hl Hr]; [done|].
  apply IH. by apply michael_word_ok.
Qed.

Lemma absorb_inj s1 s2 ws :
  u32_pair s1 → u32_pair s2 → Forall (fun w => is_u32 w) ws → absorb s1 ws = absorb s2 ws → s1 = s2.
Proof.
  intros H1 H2 Hw. revert s1 s2 H1 H2. induction Hw as [|w ws Hw _ IH]; intros s1 s2 H1 H2 E; [done|].
  apply IH in E; [|destruct H1, H2; by apply michael_word_ok..]. destruct s1 as [l1 r1], s2 as [l2 r2], H1, H2. cbn [fst snd] in *.
  apply michael_word_inj in E as [E ->]; [|done..]. by apply lxor_inj_r in E as ->.
Qed.

Lemma words_app n m a b : length a = (4 * n)%nat → words_of (n + m) (a ++ b) = words_of n a ++ words_of m b.
Proof.
  revert a. induction n as [|n IH]; intros a Hl; [by destruct a|].
  cbn [words_of Nat.add app]. rewrite take_app_le, drop_app_le by lia. f_equal. apply IH. rewrite length_drop. lia.
Qed.

Lemma words_u32 n bs : bytes_ok bs → Forall (fun w => is_u32 w) (words_of n bs).
Proof.
  revert bs. induction n as [|n IH]; intros bs Hb; cbn [words_of]; constructor; [|by apply IH, Forall_drop].
  pose proof (le_val_range (take 4 bs) (Forall_take _ _ _ Hb)) as H.
  assert (256 ^ Z.of_nat (length (take 4 bs)) ≤ 2 ^ 32); [|lia].
  replace (2 ^ 32) with (256 ^ 4) by reflexivity. apply Z.pow_le_mono_r; [lia|]. rewrite length_take. lia.
Qed.

Lemma le_val_inj a b : bytes_ok a → bytes_ok b → length a = length b → le_val a = le_val b → a = b.
Proof.
  intros Ha Hb Hl E. rewrite <- (le_bytes_le_val a (length a)), <- (le_bytes_le_val b (length a)) by done. by rewrite E.
Qed.

Lemma le_bytes_inj n a b : 0 ≤ a < 256 ^ Z.of_nat n → 0 ≤ b < 256 ^ Z.of_nat n → le_bytes n a = le_bytes n b → a = b.
Proof.
  intros Ha Hb E. apply (f_equal le_val) in E. rewrite !le_val_le_bytes, !Z.mod_small in E by done. done.
Qed.

(** Messages that differ in one word have different codes. *)
Lemma michael_differs key pre w1 w2 post n :
  bytes_ok key → (8 ≤ length key)%nat → bytes_ok pre → bytes_ok w1 → bytes_ok w2 → bytes_ok post →
  length pre = (4 * n)%nat → length w1 = 4%nat → length w2 = 4%nat → w1 ≠ w2 →
  michael key (pre ++ w1 ++ post) ≠ michael key (pre ++ w2 ++ post).
Proof.
  intros Hk Hkl Hp H1 H2 Ho Hn Hl1 Hl2 Hne E. unfold michael in E.
  assert (length (pre ++ w1 ++ post) = length (pre ++ w2 ++ post)) as El by (rewrite !length_app; lia).
  rewrite El in E. set (pad := padding (length (pre ++ w2 ++ post))) in *.
  assert (bytes_ok (post ++ pad)) as Hq by (apply Forall_app; split; [done|apply padding_bytes]).
  destruct (padded_length (length (pre ++ w2 ++ post))) as [q Hqn]. fold pad in Hqn.
  assert (∀ w, length w = 4%nat → words_of (length ((pre ++ w ++ post) ++ pad) / 4) ((pre ++ w ++ post) ++ pad) =
    words_of n pre ++ le_val w :: words_of (q - n - 1) (post ++ pad)) as Ew.
  { intros w Hw. rewrite !length_app in *.
    replace ((length pre + (length w + length post) + length pad) / 4)%nat with (n + (1 + (q - n - 1)))%nat.
    2: { replace (length pre + (length w + length post) + length pad)%nat with (q * 4)%nat by lia. rewrite Nat.div_mul; lia. }
    rewrite <- !app_assoc, words_app by done. f_equal.
    rewrite (words_app 1 _ w) by lia. cbn [words_of app]. rewrite take_ge by lia. done. }
  rewrite !Ew in E by done. unfold absorb in E. rewrite !fold_left_app in E. cbn [fold_left] in E.
  fold (absorb (le_val (take 4 key), le_val (take 4 (drop 4 key))) (words_of n pre)) in E.
  assert (u32_pair (le_val (take 4 key), le_val (take 4 (drop 4 key)))) as Hs0.
  { pose proof (words_u32 2 key Hk) as Hw. cbn [words_of] in Hw. apply Forall_cons in Hw as [Ha Hw].
    apply Forall_cons in Hw as [Hb _]. split; [exact Ha|exact Hb]. }
  pose proof (absorb_ok _ _ Hs0 (words_u32 n pre Hp)) as [Hsl Hsr]. set (s := absorb _ _) in *.
  assert (∀ w, bytes_ok w → length w = 4%nat → is_u32 (le_val w)) as Hwr.
  { intros w Hb Hl. pose proof (le_val_range w Hb). rewrite Hl in *. lia. }
  fold (absorb (michael_word s.1 s.2 (le_val w1)) (words_of (q - n - 1) (post ++ pad))) in E.
  fold (absorb (michael_word s.1 s.2 (le_val w2)) (words_of (q - n - 1) (post ++ pad))) in E.
  assert (∀ w, bytes_ok w → length w = 4%nat → u32_pair (absorb (michael_word s.1 s.2 (le_val w)) (words_of (q - n - 1) (post ++ pad)))) as Hf.
  { intros w Hb Hl. apply absorb_ok; [|by apply words_u32]. apply michael_word_ok; auto. }
  destruct (Hf w1 H1 Hl1) as [A1 A2], (Hf w2 H2 Hl2) as [B1 B2].
  apply app_inj_1 in E as [E1 E2]; [|done]. apply le_bytes_inj in E1, E2; [|lia..].
  assert (michael_word s.1 s.2 (le_val w1) = michael_word s.1 s.2 (le_val w2)) as E3.
  { eapply (absorb_inj _ _ (words_of (q - n - 1) (post ++ pad))); [apply michael_word_ok; auto..|by apply words_u32|].
    by apply injective_projections. }
  apply michael_word_inj in E3 as [E3 _]; auto. apply lxor_inj_l in E3. apply Hne, le_val_inj; congruence.
Qed.

(** ** The check of received packets *)

Lemma compare_run pSrc pDA pSA key data mic rest t :
  bytes_ok key → (8 ≤ length key)%nat → bytes_ok pDA → bytes_ok pSA → bytes_ok data →
  pSrc = data ++ mic ++ rest → length mic = 8%nat →
  ∃ t', RTMPTkipCompareMICValue pSrc pDA pSA key (Z.of_nat (length data)) t =
    Ok (bool_decide (michael key (pDA ++ pSA ++ le_bytes 4 0 ++ data) = mic), t').
Proof.
  intros Hk Hkl Hda Hsa Hd -> Hm.
  destruct (mic_run key t (pDA ++ pSA ++ le_bytes 4 0 ++ data)) as (t' & E & Em & _); [done..| |].
  { repeat (apply Forall_app; split); try done. apply le_bytes_ok. }
  exists t'. unfold RTMPTkipCompareMICValue. rewrite (bind_run (gets _) _ _ _ _ eq_refl). cbv zeta.
  erewrite bind_run by (unfold lift; rewrite sub_bytes_prefix by done; reflexivity).
  erewrite bind_run by (unfold lift; rewrite sub_bytes_part by (done || lia); reflexivity).
  rewrite !append_app. erewrite bind_run by (unfold lift; rewrite E; reflexivity).
  rewrite (bind_run (put _) _ _ _ _ eq_refl). by rewrite <- Em.
Qed.

Lemma calculate_run da sa proto payload prio llc key t :
  bytes_ok key → (8 ≤ length key)%nat → bytes_ok (da ++ sa ++ llc ++ proto ++ payload) →
  length da = 6%nat → length sa = 6%nat → length proto = 2%nat → length llc = 6%nat →
  ∃ t', RTMPCalculateMICValue (da ++ sa ++ proto ++ payload) prio (Some llc) key t = Ok (tt, t') ∧
    MIC t' = michael key (da ++ sa ++ le_bytes 4 prio ++ llc ++ proto ++ payload).
Proof.
  intros Hk Hkl Hb Hda Hsa Hp Hllc. unfold bytes_ok in Hb. rewrite !Forall_app in Hb. destruct Hb as (B1 & B2 & B3 & B4 & B5).
  destruct (mic_run key t (da ++ sa ++ le_bytes 4 prio ++ llc ++ proto ++ payload)) as (t' & E & Em & _); [done..| |].
  { repeat (apply Forall_app; split); try done. apply le_bytes_ok. }
  exists t'. split; [|done]. unfold RTMPCalculateMICValue.
  erewrite bind_run by (unfold lift; rewrite sub_bytes_prefix by lia; reflexivity).
  erewrite bind_run by (unfold lift; rewrite sub_bytes_part by lia; reflexivity).
  rewrite (bind_run (gets _) _ _ _ _ eq_refl). cbv beta iota.
  rewrite stm_bind_assoc.
  erewrite bind_run by (unfold lift; rewrite (sub_bytes_all llc) by lia; reflexivity).
  rewrite stm_bind_assoc.
  rewrite (app_assoc da sa).
  erewrite bind_run by (unfold lift; rewrite sub_bytes_part by (rewrite ?length_app; lia); reflexivity).
  rewrite (bind_run (mret _) _ _ _ _ eq_refl).
  rewrite (app_assoc (da ++ sa) proto).
  erewrite bind_run by (unfold lift; rewrite sub_bytes_suffix by (rewrite !length_app; lia); reflexivity).
  unfold RTMPInitMICEngine. cbv zeta. rewrite !append_app.
  erewrite bind_run by (unfold lift; rewrite E; reflexivity). done.
Qed.

(** The MIC that is calculated for a packet that is sent is accepted by the
    check of received packets with the same key exactly when the packet has
    priority 0; the check accepts no MIC but its own, and no packet in which one
    aligned word was changed. *)
Theorem mic_check da sa llc proto payload prio key t1 t2 :
  bytes_ok key → (8 ≤ length key)%nat → bytes_ok (da ++ sa ++ llc ++ proto ++ payload) →
  length da = 6%nat → length sa = 6%nat → length proto = 2%nat → length llc = 6%nat → is_u8 prio →
  let data := llc ++ proto ++ payload in
  ∃ t1', RTMPCalculateMICValue (da ++ sa ++ proto ++ payload) prio (Some llc) key t1 = Ok (tt, t1') ∧
    (∃ t2', RTMPTkipCompareMICValue (data ++ MIC t1') da sa key (Z.of_nat (length data)) t2 = Ok (prio =? 0, t2')) ∧
    (∀ mic, length mic = 8%nat → prio = 0 →
      ∃ t2', RTMPTkipCompareMICValue (data ++ mic) da sa key (Z.of_nat (length data)) t2 = Ok (bool_decide (mic = MIC t1'), t2')) ∧
    (∀ a w w' b n, data = a ++ w ++ b → length a = (4 * n)%nat → length w = 4%nat → length w' = 4%nat → bytes_ok w' → w' ≠ w →
      prio = 0 →
      ∃ t2', RTMPTkipCompareMICValue ((a ++ w' ++ b) ++ MIC t1') da sa key (Z.of_nat (length data)) t2 = Ok (false, t2')).
Proof.
  intros Hk Hkl Hb Hda Hsa Hp Hllc Hprio data.
  destruct (calculate_run da sa proto payload prio llc key t1) as (t1' & E1 & Em); [done..|]. exists t1'. split; [done|].
  change (llc ++ proto ++ payload) with data in Hb, Em.
  assert (bytes_ok da ∧ bytes_ok sa ∧ bytes_ok data) as (B1 & B2 & B3) by (unfold bytes_ok in *; by rewrite !Forall_app in Hb).
  assert (∀ m, length (michael key m) = 8%nat) as Hml.
  { intros m. unfold michael. cbv zeta. rewrite length_app, !length_le_bytes. done. }
  assert (∀ d mic, bytes_ok d → length d = length data → length mic = 8%nat →
    ∃ t2', RTMPTkipCompareMICValue (d ++ mic) da sa key (Z.of_nat (length data)) t2 =
      Ok (bool_decide (michael key (da ++ sa ++ le_bytes 4 0 ++ d) = mic), t2')) as Hrun.
  { intros d mic Hd Hl Hm. rewrite <- Hl. apply (compare_run _ da sa key d mic [] t2); try done. by rewrite app_nil_r. }
  split; [|split].
  - destruct (Hrun data (MIC t1')) as (t2' & E2); [done|done|rewrite Em; apply Hml|]. exists t2'. rewrite E2. do 2 f_equal.
    rewrite Em. destruct (Z.eqb_spec prio 0) as [-> | Hne]; [by apply bool_decide_eq_true_2|]. apply bool_decide_eq_false_2.
    rewrite !(app_assoc da sa). apply (michael_differs key (da ++ sa) _ _ data 3); try done; try apply le_bytes_ok.
    + by apply Forall_app.
    + rewrite length_app. lia.
    + intros E. apply le_bytes_inj in E; [done|lia|lia].
  - intros mic Hm ->. destruct (Hrun data mic B3 eq_refl Hm) as (t2' & E2). exists t2'. rewrite E2, <- Em. do 2 f_equal.
    apply bool_decide_ext. naive_solver.
  - intros a w w' b n Ed Ha Hw Hw' Bw' Hne ->. rewrite Ed in B3, Em. unfold bytes_ok in B3. rewrite !Forall_app in B3. destruct B3 as (Ba & Bw & Bb).
    destruct (Hrun (a ++ w' ++ b) (MIC t1')) as (t2' & E2).
    + by repeat (apply Forall_app; split).
    + rewrite Ed, !length_app. lia.
    + rewrite Em. apply Hml.
    + exists t2'. rewrite E2, Em. do 2 f_equal. apply bool_decide_eq_false_2.
      rewrite !(app_assoc da sa), !(app_assoc (da ++ sa)), !(app_assoc ((da ++ sa) ++ _) a).
      apply (michael_differs key _ _ _ b (4 + n)); try done.
      * repeat (apply Forall_app; split); try done. apply le_bytes_ok.
      * rewrite !length_app, length_le_bytes. lia.
Qed.

Lemma mic_check_witness :
  let data := [0xAA; 0xAA; 3; 0; 0; 0; 8; 0; 1; 2; 3] in
  ∃ t1', RTMPCalculateMICValue (seqZ 0 6 ++ seqZ 10 6 ++ [8; 0] ++ [1; 2; 3]) 5 (Some [0xAA; 0xAA; 3; 0; 0; 0]) (seqZ 20 8) fresh = Ok (tt, t1') ∧
    ∃ t2', RTMPTkipCompareMICValue (data ++ MIC t1') (seqZ 0 6) (seqZ 10 6) (seqZ 20 8) 11 fresh = Ok (false, t2').
Proof.
  destruct (mic_check (seqZ 0 6) (seqZ 10 6) [0xAA; 0xAA; 3; 0; 0; 0] [8; 0] [1; 2; 3] 5 (seqZ 20 8) fresh fresh)
    as (t1' & E1 & E2 & _).
  - apply (bool_decide_unpack _). vm_compute. exact I.
  - apply Nat.leb_le. vm_compute. reflexivity.
  - apply (bool_decide_unpack _). vm_compute. exact I.
  - reflexivity.
  - reflexivity.
  - reflexivity.
  - reflexivity.
  - lia.
  - exists t1'. split; [exact E1|exact E2].
Defined.

(** ** The mixing of keys is that of IEEE 802.11i

    The reference works on words of 16 bits, with the S-box of AES. *)
Definition std_word (bs : list Z) (i : Z) : Z := tab bs i + 256 * tab bs (i + 1).
Definition S16 (x : Z) : Z :=
  let l := RTMPCkipSbox (x mod 256) in
  let h := RTMPCkipSbox (Z.shiftr x 8) in
  Z.lxor (m2 l * 256 + m3 l) (m3 h * 256 + m2 h).
Definition rotr16 (x : Z) : Z := Z.lor (Z.shiftr x 1) (Z.shiftl (Z.land x 1) 15).

Definition phase1_ref (key : list Z) (i : Z) (p : p1k) : p1k :=
  let '(p0, p1, p2, p3, p4) := p in
  let j := 2 * Z.land i 1 in
  let p0 := u16 (p0 + S16 (Z.lxor p4 (std_word key j))) in
  let p1 := u16 (p1 + S16 (Z.lxor p0 (std_word key (4 + j)))) in
  let p2 := u16 (p2 + S16 (Z.lxor p1 (std_word key (8 + j)))) in
  let p3 := u16 (p3 + S16 (Z.lxor p2 (std_word key (12 + j)))) in
  let p4 := u16 (u16 (p4 + S16 (Z.lxor p3 (std_word key j))) + i) in
  (p0, p1, p2, p3, p4).
(** [ttak]: the result of the first phase; [iv16]: the low word of the counter. *)
Definition phase2_ref (key : list Z) (ttak : p1k) (iv16 : Z) : list Z :=
  let '(p0, p1, p2, p3, p4) := ttak in
  let p5 := u16 (p4 + iv16) in
  let p0 := u16 (p0 + S16 (Z.lxor p5 (std_word key 0))) in
  let p1 := u16 (p1 + S16 (Z.lxor p0 (std_word key 2))) in
  let p2 := u16 (p2 + S16 (Z.lxor p1 (std_word key 4))) in
  let p3 := u16 (p3 + S16 (Z.lxor p2 (std_word key 6))) in
  let p4 := u16 (p4 + S16 (Z.lxor p3 (std_word key 8))) in
  let p5 := u16 (p5 + S16 (Z.lxor p4 (std_word key 10))) in
  let p0 := u16 (p0 + rotr16 (Z.lxor p5 (std_word key 12))) in
  let p1 := u16 (p1 + rotr16 (Z.lxor p0 (std_word key 14))) in
  let p2 := u16 (p2 + rotr16 p1) in
  let p3 := u16 (p3 + rotr16 p2) in
  let p4 := u16 (p4 + rotr16 p3) in
  let p5 := u16 (p5 + rotr16 p4) in
  [Z.shiftr iv16 8; Z.land (Z.lor (Z.shiftr iv16 8) 0x20) 0x7f; u8 iv16; u8 (Z.shiftr (Z.lxor p5 (std_word key 0)) 1)]
    ++ concat (le_bytes 2 <$> [p0; p1; p2; p3; p4; p5]).

Lemma std_word_key key i : key_word key i = std_word key i.
Proof. unfold key_word, std_word. lia. Qed.

Lemma sbox_tables i : is_u8 i → tab Tkip_Sbox_Lower i = m3 (RTMPCkipSbox i) ∧ tab Tkip_Sbox_Upper i = m2 (RTMPCkipSbox i).
Proof.
  intros Hi.
  assert (((tab Tkip_Sbox_Lower i =? m3 (RTMPCkipSbox i)) && (tab Tkip_Sbox_Upper i =? m2 (RTMPCkipSbox i))) = true) as H.
  { apply (forall_range (fun i => (tab Tkip_Sbox_Lower i =? m3 (RTMPCkipSbox i)) && (tab Tkip_Sbox_Upper i =? m2 (RTMPCkipSbox i))) 0 256);
      [vm_compute; reflexivity|lia]. }
  bool_props. done.
Qed.

Lemma tkip_sbox_S16 x : is_u16 x → tkip_sbox x = S16 x.
Proof.
  intros Hx. unfold tkip_sbox, S16. cbv zeta. rewrite (shiftr_div x 8 256) by done.
  assert (is_u8 (x / 256)) as Hh by (split; [apply Z.div_pos; lia|apply Z.div_lt_upper_bound; lia]).
  assert (is_u8 (x mod 256)) as Hl by (apply Z.mod_pos_bound; lia). rewrite (Z.mod_small (x / 256)) by exact Hh.
  destruct (sbox_tables (x mod 256) Hl) as [-> ->], (sbox_tables (x / 256) Hh) as [-> ->]. f_equal; lia.
Qed.

Lemma lxor_mod16 a k : is_u16 k → Z.lxor a k mod 65536 = Z.lxor (u16 a) k.
Proof.
  intros Hk. change 65536 with (2 ^ 16). apply Z.bits_inj'. intros i Hi. unfold u16.
  destruct (Z.lt_ge_cases i 16) as [H|H].
  - rewrite Z.mod_pow2_bits_low, !Z.lxor_spec, Z.mod_pow2_bits_low by lia. done.
  - rewrite Z.mod_pow2_bits_high, Z.lxor_spec, Z.mod_pow2_bits_high, (range_bits 16 k) by lia. done.
Qed.

Lemma land1_bit a i : 0 ≤ i → Z.testbit (Z.land a 1) i = Z.testbit a 0 && (i =? 0).
Proof.
  intros Hi. rewrite Z.land_spec. destruct (Z.eqb_spec i 0) as [-> | Hne]; [reflexivity|].
  rewrite (range_bits 1 1 i) by lia. by rewrite !andb_false_r.
Qed.

Lemma rotr1_rotr16 a : rotr1 a = rotr16 (u16 a).
Proof.
  unfold rotr1, rotr16, u16. change 65536 with (2 ^ 16).
  assert (Z.testbit (a mod 2 ^ 16) 0 = Z.testbit a 0) as E0 by (by apply Z.mod_pow2_bits_low).
  assert ((Z.land a 1 =? 1) = Z.testbit a 0) as ->.
  { rewrite (land_ones_mod a 1) by done. change (2 ^ 1) with 2. rewrite <- (Z.bit0_mod a). by destruct (Z.testbit a 0). }
  apply Z.bits_inj'. intros i Hi. rewrite Z.lor_spec, Z.shiftl_spec by lia.
  rewrite (Z.shiftr_spec (a mod 2 ^ 16)) by lia.
  destruct (Z.lt_ge_cases i 16) as [H|H].
  2: { rewrite Z.mod_pow2_bits_high, (Z.mod_pow2_bits_high a) by lia. rewrite (land1_bit _ (i - 15)) by lia.
       rewrite (proj2 (Z.eqb_neq (i - 15) 0)) by lia. by rewrite andb_false_r. }
  rewrite Z.mod_pow2_bits_low by lia. destruct (Z.eqb_spec i 15) as [-> | Hne].
  - rewrite (Z.mod_pow2_bits_high a 16 (15 + 1)), (land1_bit _ (15 - 15)), E0 by lia.
    change (15 - 15 =? 0) with true. rewrite andb_true_r, orb_false_l.
    destruct (Z.testbit a 0); [by rewrite Z.lor_spec, orb_true_r|by rewrite Z.land_spec, andb_false_r].
  - rewrite (Z.mod_pow2_bits_low a 16 (i + 1)) by lia.
    assert (Z.testbit (Z.land (a mod 2 ^ 16) 1) (i - 15) = false) as -> by (apply Z.testbit_neg_r; lia). rewrite orb_false_r.
    destruct (Z.testbit a 0).
    + rewrite Z.lor_spec, Z.shiftr_spec by lia. change 0x8000 with (2 ^ 15). rewrite Z.pow2_bits_false by lia. by rewrite orb_false_r.
    + rewrite Z.land_spec, Z.shiftr_spec by lia. change 0x7fff with (Z.ones 15). rewrite Z.ones_spec_low by lia. by rewrite andb_true_r.
Qed.

Lemma key_word_range key i : bytes_ok key → is_u16 (key_word key i).
Proof.
  intros Hk. unfold key_word. pose proof (tab_default (fun x => is_u8 x) key (i + 1) Hk) as H1.
  pose proof (tab_default (fun x => is_u8 x) key i Hk) as H2. cbv beta in *. lia.
Qed.

(** A sum that is not reduced, and the one that is. *)
Lemma sbox_step c d k r : is_u16 k → u16 c = r → tkip_sbox (Z.lxor c k mod 65536) = S16 (Z.lxor r k) ∧
  u16 (d + tkip_sbox (Z.lxor c k mod 65536)) = u16 (u16 d + S16 (Z.lxor r k)).
Proof.
  intros Hk <-. rewrite lxor_mod16 by done.
  assert (is_u16 (Z.lxor (u16 c) k)) as Hx by (apply (lxor_range 16); [lia|apply u16_range|exact Hk]).
  rewrite tkip_sbox_S16 by done. split; [done|]. unfold u16. by rewrite Zplus_mod_idemp_l.
Qed.

Lemma rotr_step d a : u16 (d + rotr1 a) = u16 (u16 d + rotr16 (u16 a)).
Proof. rewrite rotr1_rotr16. unfold u16. by rewrite Zplus_mod_idemp_l. Qed.

Lemma u16_idem a : u16 (u16 a) = u16 a.
Proof. apply u16_small, u16_range. Qed.

Lemma u16_lxor a k : is_u16 k → u16 (Z.lxor a k) = Z.lxor (u16 a) k.
Proof. apply lxor_mod16. Qed.

Definition words16 (p : p1k) : Prop :=
  let '(p0, p1, p2, p3, p4) := p in is_u16 p0 ∧ is_u16 p1 ∧ is_u16 p2 ∧ is_u16 p3 ∧ is_u16 p4.

Lemma phase1_turn_ref key i p : bytes_ok key → words16 p → phase1_turn key i p = phase1_ref key i p ∧ words16 (phase1_ref key i p).
Proof.
  destruct p as [[[[p0 p1] p2] p3] p4]. intros Hk (H0 & H1 & H2 & H3 & H4). unfold phase1_turn, phase1_ref. cbv zeta. rewrite <- !std_word_key.
  split; [|repeat apply conj; apply u16_range].
  assert (∀ c d j, is_u16 c → (d + tkip_sbox (Z.lxor c (key_word key j) mod 65536)) mod 65536 = u16 (d + S16 (Z.lxor c (key_word key j)))) as Hstep.
  { intros c d j Hc. rewrite (proj1 (sbox_step c d (key_word key j) c (key_word_range key j Hk) (u16_small c Hc))). done. }
  rewrite !Hstep by (assumption || apply u16_range || (rewrite Hstep; [apply u16_range|assumption])).
  reflexivity.
Qed.

Fixpoint phase1_refs (key : list Z) (n : nat) (i : Z) (p : p1k) : p1k :=
  match n with O => p | S n' => phase1_refs key n' (i + 1) (phase1_ref key i p) end.

Lemma phase1_loop_ref key n i p :
  bytes_ok key → words16 p → phase1_loop key n i p = phase1_refs key n i p ∧ words16 (phase1_refs key n i p).
Proof.
  intros Hk. revert i p. induction n as [|n IH]; intros i p Hp; [done|].
  cbn [phase1_loop phase1_refs]. destruct (phase1_turn_ref key i p Hk Hp) as [-> Hw]. by apply IH.
Qed.

Lemma lo_hi c : [c mod 256; Z.shiftr c 8 mod 256] = le_bytes 2 (u16 c).
Proof.
  cbn [le_bytes]. rewrite (shiftr_div c 8 256) by done. unfold u16. repeat (apply (f_equal2 cons)); [dlia|dlia|done].
Qed.

Lemma third_byte c k : is_u16 k → Z.shiftr (Z.lxor c k) 1 mod 256 = u8 (Z.shiftr (Z.lxor (u16 c) k) 1).
Proof.
  intros Hk. rewrite <- u16_lxor by done. generalize (Z.lxor c k). intros a. unfold u8, u16.
  rewrite !(shiftr_div _ 1 2) by done. change (2 ^ 8) with 256. dlia.
Qed.

(** The second phase. *)
Lemma phase2_run key ta pnl pnh :
  bytes_ok key → bytes_ok ta →
  let iv16 := u16 pnl in
  let start := (pnh mod 65536, Z.shiftr pnh 16 mod 65536, tab ta 0 + tab ta 1 * 256, tab ta 2 + tab ta 3 * 256, tab ta 4 + tab ta 5 * 256) in
  RTMPTkipMixKey key ta pnl pnh = (phase2_ref key (phase1_refs key 8 0 start) iv16, phase1_refs key 8 0 start).
Proof.
  intros Hk Hta iv16 start.
  assert (words16 start) as Hs.
  { assert (∀ i, is_u8 (tab ta i)) as Hb by (intros i; apply (tab_default (fun x => is_u8 x)); [done|lia]).
    pose proof (Hb 0); pose proof (Hb 1); pose proof (Hb 2); pose proof (Hb 3); pose proof (Hb 4); pose proof (Hb 5).
    repeat apply conj; try (apply Z.mod_pos_bound; lia); lia. }
  destruct (phase1_loop_ref key 8 0 start Hk Hs) as [E Hw].
  unfold RTMPTkipMixKey. cbv zeta. fold start. rewrite E. set (p := phase1_refs key 8 0 start) in *.
  destruct p as [[[[p0 p1] p2] p3] p4]. destruct Hw as (H0 & H1 & H2 & H3 & H4). f_equal. clear E Hs start.
  unfold phase2_ref. cbv zeta. rewrite <- !std_word_key. change (pnl mod 65536) with iv16.
  change ((p4 + iv16) mod 65536) with (u16 (p4 + iv16)).
  assert (∀ i, is_u16 (key_word key i)) as Hkw by (intros i; by apply key_word_range).
  assert (∀ c d r e k, u16 c = r → u16 d = e → u16 (e + S16 (Z.lxor r (key_word key k))) = u16 (d + tkip_sbox (Z.lxor c (key_word key k) mod 65536)))
    as HS by (intros c d r e k Hc <-; symmetry; by apply sbox_step).
  assert (∀ c d r e, u16 c = r → u16 d = e → u16 (e + rotr16 r) = u16 (d + rotr1 c)) as HR by (intros c d r e <- <-; symmetry; apply rotr_step).
  set (c5 := u16 (p4 + iv16)). assert (u16 c5 = c5) as E5 by apply u16_idem. clearbody c5.
  set (a0 := p0 + tkip_sbox (Z.lxor c5 _ mod 65536)). rewrite (HS c5 p0 c5 p0 0 E5 (u16_small p0 H0)). fold a0. clearbody a0.
  set (a1 := p1 + tkip_sbox (Z.lxor a0 _ mod 65536)). rewrite (HS a0 p1 _ p1 2 eq_refl (u16_small p1 H1)). fold a1. clearbody a1.
  set (a2 := p2 + tkip_sbox (Z.lxor a1 _ mod 65536)). rewrite (HS a1 p2 _ p2 4 eq_refl (u16_small p2 H2)). fold a2. clearbody a2.
  set (a3 := p3 + tkip_sbox (Z.lxor a2 _ mod 65536)). rewrite (HS a2 p3 _ p3 6 eq_refl (u16_small p3 H3)). fold a3. clearbody a3.
  set (a4 := p4 + tkip_sbox (Z.lxor a3 _ mod 65536)). rewrite (HS a3 p4 _ p4 8 eq_refl (u16_small p4 H4)). fold a4. clearbody a4.
  set (a5 := c5 + tkip_sbox (Z.lxor a4 _ mod 65536)). rewrite (HS a4 c5 _ c5 10 eq_refl E5). fold a5. clearbody a5.
  set (b0 := a0 + rotr1 (Z.lxor a5 _)).
  rewrite (HR (Z.lxor a5 (key_word key 12)) a0 _ _ (u16_lxor a5 _ (Hkw 12)) eq_refl). fold b0. clearbody b0.
  set (b1 := a1 + rotr1 (Z.lxor b0 _)).
  rewrite (HR (Z.lxor b0 (key_word key 14)) a1 _ _ (u16_lxor b0 _ (Hkw 14)) eq_refl). fold b1. clearbody b1.
  set (b2 := a2 + rotr1 b1). rewrite (HR b1 a2 _ _ eq_refl eq_refl). fold b2. clearbody b2.
  set (b3 := a3 + rotr1 b2). rewrite (HR b2 a3 _ _ eq_refl eq_refl). fold b3. clearbody b3.
  set (b4 := a4 + rotr1 b3). rewrite (HR b3 a4 _ _ eq_refl eq_refl). fold b4. clearbody b4.
  set (b5 := a5 + rotr1 b4). rewrite (HR b4 a5 _ _ eq_refl eq_refl). fold b5. clearbody b5.
  assert (0 ≤ Z.shiftr iv16 8 < 256) as Hiv by (apply (shiftr_range 16 8); [lia|apply u16_range]).
  rewrite (Z.mod_small (Z.shiftr iv16 8)) by exact Hiv. rewrite (third_byte b5) by apply Hkw.
  cbn [fmap list_fmap concat]. rewrite <- !lo_hi. reflexivity.
Qed.

(** C38: The mixing of keys computes the per-frame key of IEEE 802.11i, although its
    sums are not reduced to 16 bits and its S-box is put together from two tables:
    for every key, transmitter address and counter. *)
Theorem tkip_mix_key_spec key ta pnl pnh :
  bytes_ok key → bytes_ok ta →
  let ttak := phase1_refs key 8 0 (u16 pnh, u16 (Z.shiftr pnh 16), tab ta 0 + tab ta 1 * 256, tab ta 2 + tab ta 3 * 256, tab ta 4 + tab ta 5 * 256) in
  RTMPTkipMixKey key ta pnl pnh = (phase2_ref key ttak (u16 pnl), ttak).
Proof. exact (phase2_run key ta pnl pnh). Qed.

Lemma tkip_mix_key_spec_witness :
  bytes_ok (seqZ 0 16) ∧ RTMPTkipMixKey (seqZ 0 16) [0x10; 0x22; 0x33; 0x44; 0x55; 0x66] 1 0 =
    (let ttak := phase1_refs (seqZ 0 16) 8 0 (0, 0, 0x2210, 0x4433, 0x6655) in (phase2_ref (seqZ 0 16) ttak 1, ttak)).
Proof.
  assert (bytes_ok (seqZ 0 16)) as H1 by (apply (bool_decide_unpack _); vm_compute; exact I).
  assert (bytes_ok [0x10; 0x22; 0x33; 0x44; 0x55; 0x66]) as H2 by (apply (bool_decide_unpack _); vm_compute; exact I).
  split; [exact H1|]. exact (tkip_mix_key_spec (seqZ 0 16) [0x10; 0x22; 0x33; 0x44; 0x55; 0x66] 1 0 H1 H2).
Defined.

(** ** Michael, once more

    The block function of the standard in plain arithmetic: rotations, the exchange of
    the bytes of each half, and sums modulo [2 ^ 32]. *)
Definition std_rol (x n : Z) : Z := (x * 2 ^ n) mod 2 ^ 32 + x / 2 ^ (32 - n).
Definition std_xswap (x : Z) : Z :=
  le_val [(x / 2 ^ 8) mod 256; x mod 256; (x / 2 ^ 24) mod 256; (x / 2 ^ 16) mod 256].
Definition std_block (s : Z * Z) : Z * Z :=
  let '(l, r) := s in
  let r := Z.lxor r (std_rol l 17) in
  let l := (l + r) mod 2 ^ 32 in
  let r := Z.lxor r (std_xswap l) in
  let l := (l + r) mod 2 ^ 32 in
  let r := Z.lxor r (std_rol l 3) in
  let l := (l + r) mod 2 ^ 32 in
  let r := Z.lxor r (std_rol l 30) in
  ((l + r) mod 2 ^ 32, r).
Definition std_michael (key msg : list Z) : list Z :=
  let m := msg ++ padding (length msg) in
  let s := fold_left (fun s w => std_block (Z.lxor s.1 w, s.2)) (words_of (length m / 4) m)
             (le_val (take 4 key), le_val (take 4 (drop 4 key))) in
  le_bytes 4 s.1 ++ le_bytes 4 s.2.

Lemma ROL32_std a n : is_u32 a → 0 ≤ n ≤ 32 → ROL32 a n = std_rol a n.
Proof.
  intros Ha Hn. unfold ROL32, std_rol, u32.
  assert (Z.shiftl 1 n - 1 = Z.ones n) as -> by (rewrite Z.ones_equiv, Z.shiftl_1_l; lia).
  assert (0 < 2 ^ n ∧ 0 < 2 ^ (32 - n)) as [Hp Hq] by (split; apply Z.pow_pos_nonneg; lia).
  assert (2 ^ 32 = 2 ^ (32 - n) * 2 ^ n) as E by (rewrite <- Z.pow_add_r by lia; f_equal; lia).
  assert (0 ≤ a / 2 ^ (32 - n) < 2 ^ n) as Hd.
  { split; [apply Z.div_pos; lia|]. apply Z.div_lt_upper_bound; [lia|]. rewrite <- E. lia. }
  rewrite Z.land_ones, Z.shiftr_div_pow2, (Z.mod_small (a / _)) by lia.
  rewrite Z.shiftl_mul_pow2, E, Z.mul_mod_distr_r by lia.
  rewrite <- Z.shiftl_mul_pow2, lor_shiftl_add, Z.shiftl_mul_pow2 by lia. done.
Qed.

Lemma land_byte a n : 0 ≤ n → Z.land a (Z.shiftl 255 n) = Z.shiftl ((a / 2 ^ n) mod 256) n.
Proof.
  intros Hn. rewrite <- Z.shiftr_div_pow2 by done. change 256 with (2 ^ 8). rewrite <- Z.land_ones by done.
  change (Z.ones 8) with 255. apply Z.bits_inj'. intros i Hi.
  rewrite Z.land_spec, !Z.shiftl_spec, Z.land_spec by done. destruct (Z.lt_ge_cases i n) as [H|H].
  - by rewrite !(Z.testbit_neg_r _ (i - n)), andb_false_r by lia.
  - rewrite Z.shiftr_spec by lia. do 2 f_equal. lia.
Qed.

Lemma xswap_std a : is_u32 a →
  Z.lor (Z.shiftr (Z.land a 0xff00ff00) 8) (u32 (Z.shiftl (Z.land a 0x00ff00ff) 8)) = std_xswap a.
Proof.
  intros Ha. change 0xff00ff00 with (Z.lor (Z.shiftl 255 24) (Z.shiftl 255 8)).
  change 0x00ff00ff with (Z.lor (Z.shiftl 255 16) (Z.shiftl 255 0)).
  rewrite !Z.land_lor_distr_r, !land_byte by done. change (2 ^ 0) with 1. rewrite Z.div_1_r, (Z.shiftl_0_r (a mod 256)).
  unfold std_xswap.
  pose proof (Z.mod_pos_bound a 256 ltac:(lia)). pose proof (Z.mod_pos_bound (a / 2 ^ 8) 256 ltac:(lia)).
  pose proof (Z.mod_pos_bound (a / 2 ^ 16) 256 ltac:(lia)). pose proof (Z.mod_pos_bound (a / 2 ^ 24) 256 ltac:(lia)).
  set (b0 := a mod 256) in *. set (b1 := (a / 2 ^ 8) mod 256) in *.
  set (b2 := (a / 2 ^ 16) mod 256) in *. set (b3 := (a / 2 ^ 24) mod 256) in *. clearbody b0 b1 b2 b3. clear Ha a.
  rewrite Z.shiftr_lor, Z.shiftl_lor, !Z.shiftr_shiftl_l, Z.shiftl_shiftl by lia.
  change (24 - 8) with 16. change (8 - 8) with 0. change (16 + 8) with 24. rewrite Z.shiftl_0_r.
  rewrite u32_small by (rewrite (Z.shiftl_mul_pow2 b0 8), lor_shiftl_add by lia; lia).
  rewrite (Z.lor_comm (Z.shiftl b3 16) b1), (Z.lor_comm (Z.lor b1 _)), <- Z.lor_assoc.
  rewrite (Z.lor_comm b1), (Z.lor_assoc (Z.shiftl b0 8)), (Z.lor_comm (Z.shiftl b0 8)), <- (Z.lor_assoc (Z.shiftl b3 16)).
  rewrite (lor_shiftl_add b0), (lor_shiftl_add b3), (lor_shiftl_add b2) by lia. cbn [le_val]. lia.
Qed.

Lemma michael_word_std l r m : is_u32 l → is_u32 m → michael_word l r m = std_block (Z.lxor l m, r).
Proof.
  intros Hl Hm. unfold michael_word, std_block, ROR32. cbv zeta. change (32 - 2) with 30.
  assert (is_u32 (Z.lxor l m)) as Hx by (by apply (lxor_range 32)).
  rewrite (ROL32_std _ 17 Hx) by lia. set (l0 := Z.lxor l m) in *. set (r1 := Z.lxor r _).
  change ((l0 + r1) mod 2 ^ 32) with (u32 (l0 + r1)). rewrite xswap_std by apply u32_range. set (l1 := u32 (l0 + r1)).
  set (r2 := Z.lxor r1 _). change ((l1 + r2) mod 2 ^ 32) with (u32 (l1 + r2)).
  rewrite (ROL32_std _ 3 (u32_range _)) by lia. set (l2 := u32 (l1 + r2)). set (r3 := Z.lxor r2 _).
  change ((l2 + r3) mod 2 ^ 32) with (u32 (l2 + r3)). rewrite (ROL32_std _ 30 (u32_range _)) by lia. reflexivity.
Qed.

Lemma absorb_std ws s : u32_pair s → Forall (fun w => is_u32 w) ws →
  absorb s ws = fold_left (fun s w => std_block (Z.lxor s.1 w, s.2)) ws s.
Proof.
  intros Hs Hw. revert s Hs. induction Hw as [|w ws Hw _ IH]; intros s [Hl Hr]; [done|].
  unfold absorb. cbn [fold_left]. rewrite <- michael_word_std by done. apply IH. by apply michael_word_ok.
Qed.

Lemma michael_std key msg : bytes_ok key → bytes_ok msg → michael key msg = std_michael key msg.
Proof.
  intros Hk Hm. unfold michael, std_michael. cbv zeta. rewrite absorb_std; [done| |].
  - pose proof (words_u32 2 key Hk) as Hw. cbn [words_of] in Hw. apply Forall_cons in Hw as [Ha Hw].
    apply Forall_cons in Hw as [Hb _]. split; [exact Ha|exact Hb].
  - apply words_u32, Forall_app. split; [done|apply padding_bytes].
Qed.

(** ** Frames of the standard

    IEEE 802.11: which of the addresses of a header are those of the destination, the
    source and the transmitter.  The fourth address follows the sequence control. *)
Definition ToDS (hdr : list Z) : bool := Z.testbit (tab hdr 1) 0.
Definition FromDS (hdr : list Z) : bool := Z.testbit (tab hdr 1) 1.
Definition four_addresses (hdr : list Z) : bool := ToDS hdr && FromDS hdr.
Definition Address1 (hdr : list Z) : list Z := take 6 (drop 4 hdr).
Definition Address2 (hdr : list Z) : list Z := take 6 (drop 10 hdr).
Definition Address3 (hdr : list Z) : list Z := take 6 (drop 16 hdr).
Definition Address4 (hdr : list Z) : list Z := take 6 (drop 24 hdr).
Definition std_DA (hdr : list Z) : list Z := if ToDS hdr then Address3 hdr else Address1 hdr.
Definition std_SA (hdr : list Z) : list Z :=
  if FromDS hdr then (if ToDS hdr then Address4 hdr else Address3 hdr) else Address2 hdr.
Definition std_TA (hdr : list Z) : list Z := Address2 hdr.

(** The key of a frame with the counter [tsc], of six bytes. *)
Definition std_mix (key ta tsc : list Z) : list Z :=
  phase2_ref key (phase1_refs key 8 0 (std_word tsc 2, std_word tsc 4, std_word ta 0, std_word ta 2, std_word ta 4))
    (std_word tsc 0).
Definition frame_key (key : cipher_key) (hdr tsc : list Z) : list Z := std_mix (Key key) (std_TA hdr) tsc.

(** The extended initialisation vector. *)
Definition tkip_iv (KeyId : Z) (tsc : list Z) : list Z :=
  [tab tsc 1; Z.land (Z.lor (tab tsc 1) 0x20) 0x7f; tab tsc 0; 0x20 + 64 * KeyId;
   tab tsc 2; tab tsc 3; tab tsc 4; tab tsc 5].

(** The MIC: destination, source, priority in a word, and the data. *)
Definition mic_input (hdr : list Z) (prio : Z) (d : list Z) : list Z :=
  std_DA hdr ++ std_SA hdr ++ le_bytes 4 prio ++ d.
Definition frame_mic (key : cipher_key) (hdr : list Z) (prio : Z) (d : list Z) : list Z :=
  std_michael (RxMic key) (mic_input hdr prio d).

(** What [RTMPInitTkipEngine] makes of the counter is this vector. *)
Lemma init_engine_iv KeyId tsc : 0 ≤ KeyId < 4 → bytes_ok tsc → length tsc = 6%nat →
  let '(iv16, iv32) := RTMPInitTkipEngine KeyId tsc in le_bytes 4 iv16 ++ le_bytes 4 iv32 = tkip_iv KeyId tsc.
Proof.
  intros Hid Htsc Htl.
  assert (∀ i, is_u8 (tab tsc i)) as Hb by (intros i; apply (tab_default (fun x => is_u8 x)); [done|lia]).
  unfold RTMPInitTkipEngine, tkip_iv. cbv zeta. assert (KeyId = 0 ∨ KeyId = 1 ∨ KeyId = 2 ∨ KeyId = 3) as Hk by lia.
  assert (Z.lor (Z.shiftl 1 5) (Z.shiftl (Z.land KeyId 3) 6) = 0x20 + 64 * KeyId) as ->
    by (destruct Hk as [-> | [-> | [-> | ->]]]; reflexivity).
  assert (is_u8 (Z.land (Z.lor (tab tsc 1) 0x20) 0x7f)) as Hr
    by (pose proof (land_range 7 (Z.lor (tab tsc 1) 0x20) 0x7f ltac:(lia) eq_refl); lia).
  assert (is_u8 (0x20 + 64 * KeyId)) as Hc by lia.
  assert (∀ a b c d, is_u8 a → is_u8 b → is_u8 c → is_u8 d → le_bytes 4 (le_val [a; b; c; d]) = [a; b; c; d]) as H4.
  { intros a b c d Ha Hb' Hc' Hd. apply le_bytes_le_val; [|done]. by repeat (apply Forall_cons_2; [done|]). }
  rewrite !H4 by auto. reflexivity.
Qed.

(** The code mixes the key of the standard. *)
Lemma mix_key_std key ta tsc : bytes_ok key → bytes_ok ta → bytes_ok tsc → length tsc = 6%nat →
  (RTMPTkipMixKey key ta (tab tsc 1 * 256 + tab tsc 0) (le_val (take 4 (drop 2 tsc)))).1 = std_mix key ta tsc.
Proof.
  intros Hk Hta Htsc Htl. rewrite phase2_run by done. cbn [fst]. unfold std_mix, std_word.
  destruct tsc as [|s0 [|s1 [|s2 [|s3 [|s4 [|s5 [|]]]]]]]; try discriminate Htl.
  unfold bytes_ok in Htsc. rewrite !Forall_cons in Htsc. destruct Htsc as (B0 & B1 & B2 & B3 & B4 & B5 & _).
  change (tab [s0; s1; s2; s3; s4; s5] 0) with s0. change (tab [s0; s1; s2; s3; s4; s5] 1) with s1.
  change (tab [s0; s1; s2; s3; s4; s5] 2) with s2. change (tab [s0; s1; s2; s3; s4; s5] (2 + 1)) with s3.
  change (tab [s0; s1; s2; s3; s4; s5] 4) with s4. change (tab [s0; s1; s2; s3; s4; s5] (4 + 1)) with s5.
  change (tab [s0; s1; s2; s3; s4; s5] (0 + 1)) with s1. cbn [drop take le_val].
  rewrite (shiftr_div _ 16 65536) by done.
  assert (u16 (s1 * 256 + s0) = s0 + 256 * s1) as -> by (unfold u16; rewrite Z.mod_small; lia).
  assert ((s2 + 256 * (s3 + 256 * (s4 + 256 * (s5 + 256 * 0)))) mod 65536 = s2 + 256 * s3) as -> by dlia.
  assert ((s2 + 256 * (s3 + 256 * (s4 + 256 * (s5 + 256 * 0)))) / 65536 mod 65536 = s4 + 256 * s5) as -> by dlia.
  by rewrite !(Z.mul_comm (tab ta _) 256).
Qed.

Lemma ds_bits x : Z.land x 1 = Z.b2z (Z.testbit x 0) ∧ Z.shiftr (Z.land x 2) 1 = Z.b2z (Z.testbit x 1).
Proof.
  assert (∀ y, Z.land y 1 = Z.b2z (Z.testbit y 0)) as H.
  { intros y. rewrite (land_ones_mod y 1) by done. by rewrite Z.bit0_mod. }
  split; [apply H|]. rewrite Z.shiftr_land. change (Z.shiftr 2 1) with 1. by rewrite H, Z.shiftr_spec.
Qed.

(** The length of the header, by the second byte of the frame. *)
Definition header_len (fc1 : Z) : Z := if truthy (Z.land (Z.shiftr (Z.land fc1 2) 1) (Z.land fc1 1)) then 24 + 6 else 24.

Lemma header_len_three hdr : four_addresses hdr = false → header_len (tab hdr 1) = 24.
Proof.
  unfold four_addresses, ToDS, FromDS, header_len. destruct (ds_bits (tab hdr 1)) as [-> ->].
  by destruct (Z.testbit _ 0), (Z.testbit _ 1).
Qed.

(** The code finds the addresses of the standard in headers with three. *)
Lemma read_addresses hdr b : length hdr = 24%nat → four_addresses hdr = false →
  let '(oda, osa, ota) := addresses (Z.land (tab hdr 1) 1) (Z.shiftr (Z.land (tab hdr 1) 2) 1) in
  sub_bytes (hdr ++ b) oda 6 = Ok (std_DA hdr) ∧ sub_bytes (hdr ++ b) osa 6 = Ok (std_SA hdr) ∧
  sub_bytes (hdr ++ b) ota 6 = Ok (std_TA hdr).
Proof.
  intros Hl. unfold four_addresses, std_DA, std_SA, std_TA, ToDS, FromDS, addresses.
  destruct (ds_bits (tab hdr 1)) as [-> ->].
  destruct (Z.testbit _ 0), (Z.testbit _ 1); intros H; try discriminate H; cbn [Z.b2z Z.eqb andb Pos.eqb];
    rewrite !sub_bytes_app_l, !sub_bytes_in by lia; done.
Qed.

Lemma addresses_ok hdr : bytes_ok hdr → bytes_ok (std_DA hdr) ∧ bytes_ok (std_SA hdr) ∧ bytes_ok (std_TA hdr).
Proof.
  intros H. unfold std_DA, std_SA, std_TA, Address1, Address2, Address3, Address4.
  repeat case_match; auto using bytes_ok_slice.
Qed.

(** ** Decrypting a frame *)

Lemma read_iv KeyId tsc : 0 ≤ KeyId < 4 → bytes_ok tsc → length tsc = 6%nat →
  ∃ i0 i1 i2 ctl e, tkip_iv KeyId tsc = i0 :: i1 :: i2 :: ctl :: e ∧ length e = 4%nat ∧ Z.shiftr ctl 6 = KeyId ∧
  i0 * 256 + i2 = tab tsc 1 * 256 + tab tsc 0 ∧ le_val e = le_val (take 4 (drop 2 tsc)).
Proof.
  intros Hid Htsc Htl. destruct tsc as [|s0 [|s1 [|s2 [|s3 [|s4 [|s5 [|]]]]]]]; try discriminate Htl.
  do 4 eexists. exists [s2; s3; s4; s5]. split; [reflexivity|]. split; [done|]. split; [|done].
  assert (KeyId = 0 ∨ KeyId = 1 ∨ KeyId = 2 ∨ KeyId = 3) as [-> | [-> | [-> | ->]]] by lia; reflexivity.
Qed.

(** The cipher is ready with a key. *)
Definition ready (k : list Z) (c : arcfour) : Prop := ARCFOUR_INIT k 16 (mk_arcfour 0 0 []) = Ok (tt, c).

Lemma mic_input_ok hdr prio d : bytes_ok hdr → bytes_ok d → bytes_ok (mic_input hdr prio d).
Proof.
  intros Hh Hd. destruct (addresses_ok hdr Hh) as (H1 & H2 & _). unfold mic_input.
  repeat (apply Forall_app; split); try assumption. apply le_bytes_ok.
Qed.

Section Frame.
Context (keys : list cipher_key) (KeyId : Z) (key : cipher_key) (hdr tsc : list Z) (prio : Z) (c c' : arcfour) (ks : list Z).
Context (Hid : 0 ≤ KeyId < 4) (Hkey : keys !! Z.to_nat KeyId = Some key) (Hkl : KeyLen key ≠ 0)
  (Hk : bytes_ok (Key key)) (Hrx : bytes_ok (RxMic key)) (Hrxl : (8 ≤ length (RxMic key))%nat).
Context (Hhdr : bytes_ok hdr) (Hhl : length hdr = 24%nat) (H3a : four_addresses hdr = false) (Htsc : bytes_ok tsc) (Htl : length tsc = 6%nat).
Context (Hc : ready (frame_key key hdr tsc) c).

(** A cipher text [body] that decrypts to [d], [mic] and [trail]. *)
Lemma tkip_payload_run iv body rest trail d mic t :
  length iv = 8%nat → stream (length body) c = Ok (ks, c') → xor_bytes body ks = (d ++ mic) ++ trail →
  length trail = 4%nat → length mic = 8%nat → bytes_ok d →
  ∃ tl t', length tl = 8%nat ∧
  tkip_payload (hdr ++ iv ++ body ++ rest) (Z.of_nat (length hdr) + 8 + Z.of_nat (length body)) (Z.of_nat (length hdr)) prio
    (std_DA hdr) (std_SA hdr) (frame_key key hdr tsc) key t =
    Ok ((accepts (d ++ mic) trail && bool_decide (frame_mic key hdr prio d = mic), hdr ++ (d ++ mic) ++ trail ++ tl ++ rest), t').
Proof.
  intros Hiv Hs Hx Ht Hm Hd. destruct iv as [|i0 iv]; [done|]. simpl in Hiv.
  assert (length body = (length d + 8 + 4)%nat) as Hlb.
  { apply (f_equal length) in Hx. rewrite length_xor_bytes, !length_app, (stream_length _ _ _ _ Hs), Nat.min_id in Hx. lia. }
  destruct (decrypt_run body (Z.of_nat (length hdr)) hdr i0 iv rest c ks c' Hs eq_refl) as (tl & Htl' & Ed).
  destruct (mic_run (RxMic key) t (mic_input hdr prio d) Hrx Hrxl (mic_input_ok hdr prio d Hhdr Hd)) as (t1 & E1 & Em1 & _).
  exists tl, (if accepts (d ++ mic) trail then t1 else t). split; [lia|].
  unfold tkip_payload. rewrite (proj2 (Z.ltb_ge _ 0)) by lia.
  replace (Z.to_nat (Z.of_nat (length hdr) + 8 + Z.of_nat (length body) - Z.of_nat (length hdr) - 8)) with (length body) by lia.
  rewrite Hiv in Ed. change (Z.of_nat 8) with 8 in Ed. rewrite Hx in Ed.
  set (buf := hdr ++ ((d ++ mic) ++ trail) ++ tl ++ rest) in Ed.
  replace (hdr ++ (d ++ mic) ++ trail ++ tl ++ rest) with buf by (subst buf; by rewrite <- !app_assoc).
  erewrite bind_run by (unfold lift; rewrite (bind_run _ _ _ _ _ Hc), Ed; reflexivity).
  erewrite bind_run.
  2: { unfold lift. rewrite (sub_bytes_at buf (hdr ++ d ++ mic) trail (tl ++ rest));
         [reflexivity|subst buf; by rewrite <- !app_assoc|rewrite ?length_app; lia..]. }
  erewrite bind_run.
  2: { unfold lift. rewrite (sub_bytes_at buf hdr (d ++ mic) (trail ++ tl ++ rest));
         [reflexivity|subst buf; by rewrite <- !app_assoc|rewrite ?length_app; lia..]. }
  cbv zeta. fold (accepts (d ++ mic) trail). destruct (accepts (d ++ mic) trail); cbn [negb andb]; [|reflexivity].
  erewrite bind_run.
  2: { unfold lift. rewrite (sub_bytes_at buf (hdr ++ d) mic (trail ++ tl ++ rest));
         [reflexivity|subst buf; by rewrite <- !app_assoc|rewrite ?length_app; lia..]. }
  rewrite (bind_run (gets _) _ _ _ _ eq_refl).
  erewrite bind_run.
  2: { unfold lift. rewrite (sub_bytes_at buf hdr d (mic ++ trail ++ tl ++ rest));
         [reflexivity|subst buf; by rewrite <- !app_assoc|rewrite ?length_app; lia..]. }
  unfold RTMPInitMICEngine. cbv zeta. rewrite !append_app. fold (mic_input hdr prio d).
  erewrite bind_run by (unfold lift; rewrite E1; reflexivity). rewrite (bind_run (put _) _ _ _ _ eq_refl), Em1.
  rewrite (michael_std _ _ Hrx (mic_input_ok hdr prio d Hhdr Hd)). reflexivity.
Qed.

Lemma decrypt_tkip_run pBody t :
  RTMPSoftDecryptTKIP (hdr ++ tkip_iv KeyId tsc ++ pBody) (Z.of_nat (length hdr + 8 + length pBody)) prio keys t =
    tkip_payload (hdr ++ tkip_iv KeyId tsc ++ pBody) (Z.of_nat (length hdr + 8 + length pBody)) (Z.of_nat (length hdr)) prio
      (std_DA hdr) (std_SA hdr) (frame_key key hdr tsc) key t.
Proof.
  destruct (read_iv KeyId tsc Hid Htsc Htl) as (i0 & i1 & i2 & ctl & e & Eiv & He & Ectl & Epn & Eeiv). rewrite Eiv.
  unfold RTMPSoftDecryptTKIP.
  erewrite bind_run by (unfold lift; rewrite nth_byte_tab by lia; reflexivity). cbv zeta.
  fold (header_len (tab hdr 1)). rewrite (header_len_three hdr H3a). cbn [app].
  replace 24 with (Z.of_nat (length hdr)) by lia.
  erewrite bind_run.
  2: { unfold lift. change (hdr ++ i0 :: i1 :: i2 :: ctl :: e ++ pBody) with (hdr ++ [i0; i1; i2] ++ ctl :: e ++ pBody).
       rewrite (app_assoc hdr [i0; i1; i2]), nth_byte_part by (rewrite length_app; simpl; lia). reflexivity. }
  rewrite Ectl, Hkey, (proj2 (Z.eqb_neq _ 0) Hkl). unfold frame_key.
  pose proof (read_addresses hdr (i0 :: i1 :: i2 :: ctl :: e ++ pBody) Hhl H3a) as Ha.
  destruct (addresses _ _) as [[oda osa] ota]. destruct Ha as (Ha1 & Ha2 & Ha3).
  erewrite bind_run by (unfold lift; rewrite Ha1; reflexivity).
  erewrite bind_run by (unfold lift; rewrite Ha2; reflexivity).
  erewrite bind_run by (unfold lift; rewrite Ha3; reflexivity).
  erewrite bind_run by (unfold lift; rewrite nth_byte_part by reflexivity; reflexivity).
  erewrite bind_run.
  2: { unfold lift. change (hdr ++ i0 :: i1 :: i2 :: ctl :: e ++ pBody) with (hdr ++ [i0; i1] ++ i2 :: ctl :: e ++ pBody).
       rewrite (app_assoc hdr [i0; i1]), nth_byte_part by (rewrite length_app; simpl; lia). reflexivity. }
  erewrite bind_run.
  2: { unfold lift. change (hdr ++ i0 :: i1 :: i2 :: ctl :: e ++ pBody) with (hdr ++ [i0; i1; i2; ctl] ++ e ++ pBody).
       rewrite (app_assoc hdr), sub_bytes_part by (rewrite ?length_app; simpl; lia). reflexivity. }
  destruct (addresses_ok hdr Hhdr) as (_ & _ & Hta).
  rewrite Epn, Eeiv, (mix_key_std _ _ _ Hk Hta Htsc Htl). reflexivity.
Qed.
End Frame.

(** A frame as the standard has it: the counter, and data, MIC and ICV encrypted
    with the stream [ks]. *)
Definition tkip_plain (key : cipher_key) (hdr : list Z) (prio : Z) (data : list Z) : list Z :=
  (data ++ frame_mic key hdr prio data) ++ icv (data ++ frame_mic key hdr prio data).
Definition tkip_frame (key : cipher_key) (hdr tsc : list Z) (KeyId prio : Z) (ks data : list Z) : list Z :=
  hdr ++ tkip_iv KeyId tsc ++ xor_bytes (tkip_plain key hdr prio data) ks.

Lemma michael_bytes key msg : length (std_michael key msg) = 8%nat ∧ bytes_ok (std_michael key msg).
Proof.
  unfold std_michael. cbv zeta. split; [by rewrite length_app, !length_le_bytes|].
  apply Forall_app. split; apply le_bytes_ok.
Qed.

Lemma length_tkip_iv KeyId tsc : length (tkip_iv KeyId tsc) = 8%nat.
Proof. reflexivity. Qed.

Lemma length_tkip_plain key hdr prio data : length (tkip_plain key hdr prio data) = (length data + 12)%nat.
Proof.
  unfold tkip_plain, frame_mic. rewrite !length_app, (proj1 (michael_bytes _ _)).
  change (length (icv _)) with 4%nat. lia.
Qed.

Lemma tkip_plain_ok key hdr prio data : bytes_ok data → bytes_ok (tkip_plain key hdr prio data).
Proof.
  intros Hd. unfold tkip_plain, frame_mic. set (m := std_michael _ _).
  assert (bytes_ok m) as Hm by apply michael_bytes. clearbody m.
  apply Forall_app. split; [by apply Forall_app|apply le_bytes_ok].
Qed.

(** A receiver with the keys of the sender. *)
Section Receiving.
Context (keys : list cipher_key) (KeyId : Z) (key : cipher_key) (hdr tsc : list Z) (prio : Z) (c c' : arcfour) (ks data : list Z) (t : tkip_info).
Context (Hid : 0 ≤ KeyId < 4) (Hkey : keys !! Z.to_nat KeyId = Some key) (Hkl : KeyLen key ≠ 0)
  (Hkk : bytes_ok (Key key)) (Hrx : bytes_ok (RxMic key)) (Hrxl : (8 ≤ length (RxMic key))%nat).
Context (Hhdr : bytes_ok hdr) (Hhl : length hdr = 24%nat) (H3a : four_addresses hdr = false) (Htsc : bytes_ok tsc) (Htl : length tsc = 6%nat).
Context (Hd : bytes_ok data) (Hr : ready (frame_key key hdr tsc) c) (Hs : stream (length data + 12) c = Ok (ks, c')) (Hks : bytes_ok ks).

Lemma tkip_unsealed : xor_bytes (xor_bytes (tkip_plain key hdr prio data) ks) ks = tkip_plain key hdr prio data.
Proof. apply xor_bytes_cancel. rewrite length_tkip_plain, (stream_length _ _ _ _ Hs). reflexivity. Qed.

Lemma length_tkip_sealed : length (xor_bytes (tkip_plain key hdr prio data) ks) = (length data + 12)%nat.
Proof. rewrite length_xor_bytes, length_tkip_plain, (stream_length _ _ _ _ Hs). lia. Qed.

Lemma length_tkip_frame : length (tkip_frame key hdr tsc KeyId prio ks data) = (length hdr + 8 + (length data + 12))%nat.
Proof. unfold tkip_frame. rewrite !length_app, length_tkip_iv, length_tkip_sealed. lia. Qed.

Lemma tkip_opened body d mic trail :
  length body = (length data + 12)%nat → xor_bytes body ks = (d ++ mic) ++ trail → length trail = 4%nat → length mic = 8%nat → bytes_ok d →
  ∃ tl t', RTMPSoftDecryptTKIP (hdr ++ tkip_iv KeyId tsc ++ body) (Z.of_nat (length hdr + 8 + (length data + 12))) prio keys t =
    Ok ((accepts (d ++ mic) trail && bool_decide (frame_mic key hdr prio d = mic), hdr ++ d ++ tl), t').
Proof.
  intros Hb Hx Ht Hm Hd'.
  destruct (tkip_payload_run key hdr tsc prio c c' ks Hrx Hrxl Hhdr Hhl Htl Hr (tkip_iv KeyId tsc) body [] trail d mic t)
    as (tl & t' & _ & E); try assumption; [apply length_tkip_iv|by rewrite Hb|].
  exists (mic ++ trail ++ tl), t'. rewrite !app_nil_r, <- app_assoc in E. rewrite <- E, <- Hb.
  rewrite (decrypt_tkip_run keys KeyId key hdr tsc prio) by assumption. f_equal. lia.
Qed.

Lemma tkip_accepts :
  ∃ tl t', RTMPSoftDecryptTKIP (tkip_frame key hdr tsc KeyId prio ks data) (Z.of_nat (length hdr + 8 + (length data + 12))) prio keys t =
    Ok ((true, hdr ++ data ++ tl), t').
Proof.
  destruct (tkip_opened (xor_bytes (tkip_plain key hdr prio data) ks) data (frame_mic key hdr prio data)
    (icv (data ++ frame_mic key hdr prio data))) as (tl & t' & E);
    [apply length_tkip_sealed|exact tkip_unsealed|reflexivity|apply michael_bytes|exact Hd|].
  exists tl, t'. rewrite accepts_own, bool_decide_eq_true_2 in E by reflexivity. exact E.
Qed.

Lemma tkip_refuses i x y :
  (length hdr + 8 ≤ i)%nat → tkip_frame key hdr tsc KeyId prio ks data !! i = Some x → is_u8 y → y ≠ x →
  ∃ buf t', RTMPSoftDecryptTKIP (<[i := y]> (tkip_frame key hdr tsc KeyId prio ks data))
    (Z.of_nat (length hdr + 8 + (length data + 12))) prio keys t = Ok ((false, buf), t').
Proof.
  intros Hi Hx Hy Hne. pose proof tkip_unsealed as Hun. pose proof length_tkip_sealed as Hxl.
  pose proof (stream_length _ _ _ _ Hs) as Hksl. pose proof (tkip_plain_ok key hdr prio data Hd) as Hpb.
  assert (length (hdr ++ tkip_iv KeyId tsc) = (length hdr + 8)%nat) as Hhi by (by rewrite length_app, length_tkip_iv).
  unfold tkip_frame in *. set (sealed := xor_bytes _ ks) in *. rewrite app_assoc in *.
  rewrite lookup_app_r, Hhi in Hx by lia. rewrite insert_app_r_alt, Hhi, <- app_assoc by lia.
  set (j := (i - (length hdr + 8))%nat) in *.
  destruct (lookup_lt_is_Some_2 ks j) as [k Hk]; [apply lookup_lt_Some in Hx; lia|].
  assert (tkip_plain key hdr prio data !! j = Some (Z.lxor x k)) as Hp by (rewrite <- Hun; by apply lookup_xor_bytes).
  assert (is_u8 (Z.lxor y k)) as Hv.
  { apply (lxor_range 8); [lia|exact Hy|]. exact (Forall_lookup_1 _ _ _ _ Hks Hk). }
  assert (bytes_ok (data ++ frame_mic key hdr prio data)) as Hwb.
  { apply Forall_app. split; [exact Hd|exact (proj2 (michael_bytes _ _))]. }
  destruct (rejects_change (data ++ frame_mic key hdr prio data) j (Z.lxor x k) (Z.lxor y k)) as (w & trail & Ht & Ed & Ea);
    [exact Hwb|exact Hp|intros H; exact (Hne (lxor_inj_r _ _ _ H))|exact Hv|].
  fold (tkip_plain key hdr prio data) in Ed.
  assert (bytes_ok (w ++ trail)) as Hwt by (rewrite <- Ed; by apply Forall_insert).
  assert (length w = (length data + 8)%nat) as Hwl.
  { apply (f_equal length) in Ed. rewrite length_insert, length_tkip_plain, length_app in Ed. lia. }
  destruct (tkip_opened (<[j := y]> sealed) (take (length data) w) (drop (length data) w) trail) as (tl & t' & E).
  - by rewrite length_insert.
  - rewrite (xor_bytes_insert _ _ _ _ k Hk), Hun, take_drop. exact Ed.
  - exact Ht.
  - rewrite length_drop. lia.
  - apply Forall_app in Hwt as [Hwt _]. by apply Forall_take.
  - rewrite take_drop, Ea in E. eexists _, t'. exact E.
Qed.
End Receiving.

(** The frame of the standard: header, vector, and data, MIC and checksum under the
    stream of the mixed key. *)
Definition std_tkip_plain (key : cipher_key) (hdr : list Z) (prio : Z) (data : list Z) : list Z :=
  (data ++ frame_mic key hdr prio data) ++ std_icv (data ++ frame_mic key hdr prio data).
Definition std_tkip_frame (key : cipher_key) (hdr tsc : list Z) (KeyId prio : Z) (data : list Z) : list Z :=
  hdr ++ tkip_iv KeyId tsc ++
  xor_bytes (std_tkip_plain key hdr prio data) (rc4 (frame_key key hdr tsc) (length data + 12)).

Lemma length_frame_key key hdr tsc : length (frame_key key hdr tsc) = 16%nat.
Proof. unfold frame_key, std_mix, phase2_ref. destruct (phase1_refs _ _ _ _) as [[[[p0 p1] p2] p3] p4]. reflexivity. Qed.

(** It is [tkip_frame] under the stream the cipher gives. *)
Lemma tkip_frame_std key hdr tsc KeyId prio data : bytes_ok data →
  ∃ c ks c', ready (frame_key key hdr tsc) c ∧ stream (length data + 12) c = Ok (ks, c') ∧ bytes_ok ks ∧
    std_tkip_frame key hdr tsc KeyId prio data = tkip_frame key hdr tsc KeyId prio ks data.
Proof.
  intros Hd. pose proof (length_frame_key key hdr tsc) as Hl. assert (frame_key key hdr tsc ≠ []) as Hk by (intros E; rewrite E in Hl; discriminate Hl).
  destruct (stream_rc4 (length data + 12) _ Hk) as (c & c' & _ & E & Hi).
  exists c, (rc4 (frame_key key hdr tsc) (length data + 12)), c'.
  split; [|split; [exact E|split; [by apply rc4_ok|]]].
  - unfold ready. rewrite <- (app_nil_r (frame_key key hdr tsc)). apply Hi. by rewrite Hl.
  - unfold tkip_frame, std_tkip_frame, std_tkip_plain, tkip_plain. rewrite icv_std; [done|].
    apply Forall_app. split; [done|]. apply michael_bytes.
Qed.

(** C33: A frame without a QoS field and with three addresses (not one between access
    points), protected as IEEE 802.11i has it with a key of the receiver: the extended
    initialisation vector, then data, Michael code over destination, source, priority and
    data, and checksum under the stream of the mixed key.  It is accepted by
    [RTMPSoftDecryptTKIP], which leaves the data after the header; with any one byte of
    the cipher text replaced it is refused.  The addresses, the mixing of keys, the code,
    the checksum and the cipher are those of the standard, written down apart from the
    source. *)
Theorem tkip_decrypts keys KeyId key hdr tsc prio data t :
  0 ≤ KeyId < 4 → keys !! Z.to_nat KeyId = Some key → KeyLen key ≠ 0 →
  bytes_ok (Key key) → bytes_ok (RxMic key) → (8 ≤ length (RxMic key))%nat →
  bytes_ok hdr → length hdr = 24%nat → four_addresses hdr = false → bytes_ok tsc → length tsc = 6%nat → bytes_ok data →
  let frame := std_tkip_frame key hdr tsc KeyId prio data in
  (∃ tl t', RTMPSoftDecryptTKIP frame (Z.of_nat (length frame)) prio keys t = Ok ((true, hdr ++ data ++ tl), t')) ∧
  (∀ i x y, (length hdr + 8 ≤ i)%nat → frame !! i = Some x → is_u8 y → y ≠ x →
    ∃ buf t', RTMPSoftDecryptTKIP (<[i := y]> frame) (Z.of_nat (length frame)) prio keys t = Ok ((false, buf), t')).
Proof.
  intros Hid Hkey Hkl Hk Hrx Hrxl Hhdr Hhl H3a Htsc Htl Hd frame.
  destruct (tkip_frame_std key hdr tsc KeyId prio data Hd) as (c & ks & c' & Hr & Es & Hksb & Ef).
  fold frame in Ef. rewrite Ef. erewrite (length_tkip_frame KeyId key hdr tsc prio) by eassumption. split.
  - eapply (tkip_accepts keys KeyId key hdr tsc prio c c'); eassumption.
  - intros i x y. eapply (tkip_refuses keys KeyId key hdr tsc prio c c'); eassumption.
Qed.

(** A frame from an access point. *)
Definition tkip_key : cipher_key := mk_key 16 (seqZ 0 16) (seqZ 30 8) (seqZ 40 8).
Definition tkip_hdr : list Z := [8; 2; 0; 0] ++ seqZ 1 6 ++ seqZ 11 6 ++ seqZ 21 6 ++ [0; 0].

Lemma tkip_decrypts_witness :
  ∃ tl t', RTMPSoftDecryptTKIP (std_tkip_frame tkip_key tkip_hdr [7; 1; 0; 0; 0; 0] 1 0 (str "sample")) 50 0 [tkip_key; tkip_key] fresh =
    Ok ((true, tkip_hdr ++ str "sample" ++ tl), t').
Proof.
  assert (∀ l, bool_decide (Forall (fun b => is_u8 b) l) = true → bytes_ok l) as Hb by (intros l; apply bool_decide_eq_true_1).
  refine (proj1 (tkip_decrypts [tkip_key; tkip_key] 1 tkip_key tkip_hdr [7; 1; 0; 0; 0; 0] 0 (str "sample") fresh
    _ _ _ _ _ _ _ _ _ _ _ _)); [lia|reflexivity|discriminate|apply Hb|apply Hb|simpl; lia|apply Hb|reflexivity|reflexivity|
    apply Hb|reflexivity|apply Hb]; vm_compute; reflexivity.
Defined.

(** A frame between access points, with four addresses.  The code takes the source
    address at 22, where the sequence control and the start of Address 4 are, and
    refuses the frame of the standard. *)
Definition wds_hdr : list Z := [8; 3; 0; 0] ++ seqZ 1 6 ++ seqZ 11 6 ++ seqZ 21 6 ++ [0; 0] ++ seqZ 31 6.
Example four_address_refused :
  let frame := std_tkip_frame tkip_key wds_hdr [7; 1; 0; 0; 0; 0] 0 0 (str "sample") in
  four_addresses wds_hdr = true ∧ std_SA wds_hdr = seqZ 31 6 ∧ addresses 1 1 = (16, 22, 10) ∧
  match RTMPSoftDecryptTKIP frame (Z.of_nat (length frame)) 0 [tkip_key] fresh with
  | Ok ((ok, _), _) => ok = false
  | Crash _ => False
  end.
Proof. vm_compute. repeat split. Qed.

(** A data frame with a QoS field is not recognised either: its header is taken to have
    24 bytes, so that the QoS field is read as the start of the vector. *)
Definition qos_hdr : list Z := [0x88; 2; 0; 0] ++ seqZ 1 6 ++ seqZ 11 6 ++ seqZ 21 6 ++ [0; 0] ++ [5; 0].
Example qos_frame_refused :
  let frame := std_tkip_frame tkip_key qos_hdr [7; 1; 0; 0; 0; 0] 0 5 (str "sample") in
  match RTMPSoftDecryptTKIP frame (Z.of_nat (length frame)) 5 [tkip_key] fresh with
  | Ok ((ok, _), _) => ok = false
  | Crash _ => False
  end.
Proof. vm_compute. reflexivity. Qed.
