(* ===== verification/Ccmp.v ===== *)
(** * CCMP

    Models the second part of [rt2501/sources/Module/rtmp_tkip.c], the decryption of
    frames protected with AES by software, and the choice of the cipher for a
    received frame ([RTMPDecryptPktBySoftware] of [rtusb_data.c]). The reference is
    CCM on bytes: counter mode, and CBC-MAC over the header and the payload. *)

From S2P Require Import Prelude Words Wep Aes Tkip.

(** ** The blocks of the code *)

Definition construct_mic_header1 (header_length : Z) (mpdu : list Z) : result (list Z) :=
  b0 ← nth_byte mpdu 0;
  b1 ← nth_byte mpdu 1;
  a ← sub_bytes mpdu 4 12;
  Ok ([u8 ((header_length - 2) / 256); u8 ((header_length - 2) mod 256); Z.land b0 0xcf; Z.land b1 0xc7] ++ a).

Definition construct_mic_header2 (mpdu : list Z) (a4_exists qc_exists : bool) : result (list Z) :=
  a3 ← sub_bytes mpdu 16 6;
  sc ← nth_byte mpdu 22;
  rest ← (if negb qc_exists && a4_exists then a4 ← sub_bytes mpdu 24 6; Ok (a4 ++ [0; 0])
          else if qc_exists && negb a4_exists then
            q ← nth_byte mpdu 24;
            r ← nth_byte mpdu 25;
            Ok ([Z.land q 0x0f; Z.land r 0x00] ++ replicate 6 0)
          else if qc_exists && a4_exists then
            a4 ← sub_bytes mpdu 24 6;
            q ← nth_byte mpdu 30;
            r ← nth_byte mpdu 31;
            Ok (a4 ++ [Z.land q 0x0f; Z.land r 0x00])
          else Ok (replicate 8 0));
  Ok (a3 ++ [Z.land sc 0x0f; 0] ++ rest).

(** The byte of the priority, in both blocks below. *)
Definition qos_byte (qc_exists a4_exists : bool) (mpdu : list Z) : result Z :=
  if qc_exists && a4_exists then q ← nth_byte mpdu 30; Ok (Z.land q 0x0f)
  else if qc_exists && negb a4_exists then q ← nth_byte mpdu 24; Ok (Z.land q 0x0f)
  else Ok 0.

(** [CONSISTENT_PN_ORDER] is not defined; [pn_vector] has six bytes. *)
Definition construct_mic_iv (qc_exists a4_exists : bool) (mpdu : list Z) (payload_length : Z) (pn_vector : list Z)
    : result (list Z) :=
  q ← qos_byte qc_exists a4_exists mpdu;
  a2 ← sub_bytes mpdu 10 6;
  Ok ([0x59; q] ++ a2 ++ reverse pn_vector ++ [u8 (payload_length / 256); u8 (payload_length mod 256)]).

Definition construct_ctr_preload (a4_exists qc_exists : bool) (mpdu pn_vector : list Z) (c : Z) : result (list Z) :=
  q ← qos_byte qc_exists a4_exists mpdu;
  a2 ← sub_bytes mpdu 10 6;
  Ok ([0x01; q] ++ a2 ++ reverse pn_vector ++ [u8 (c / 256); u8 (c mod 256)]).

(** ** The decryption *)

(** The whole blocks of the payload: each is written eight bytes before the place it
    was read from, where the CCMP header was. *)
Fixpoint ctr_loop (n : nat) (key : list Z) (a4 qc : bool) (PN : list Z) (i payload_index : Z) (pData : list Z)
    : result (list Z) :=
  match n with
  | O => Ok pData
  | S n' =>
      preload ← construct_ctr_preload a4 qc pData PN (i + 1);
      blk ← sub_bytes pData payload_index 16;
      pData ← set_bytes pData (payload_index - 8) (bitwise_xor (aes128k128d key preload) blk);
      ctr_loop n' key a4 qc PN (i + 1) (payload_index + 16) pData
  end.

(** The payload, and the MIC after it. *)
Definition ccmp_payload (key : list Z) (a4 qc : bool) (PN : list Z) (HeaderLen payload_len : Z) (pData : list Z)
    : result (list Z * list Z) :=
  let payload_remainder := payload_len mod 16 in
  let num_blocks := payload_len / 16 in
  pData ← ctr_loop (Z.to_nat num_blocks) key a4 qc PN 0 (HeaderLen + 8) pData;
  let payload_index := HeaderLen + 8 + 16 * num_blocks in
  '(pData, payload_index) ←
    (if 0 <? payload_remainder then
       preload ← construct_ctr_preload a4 qc pData PN (num_blocks + 1);
       part ← sub_bytes pData payload_index payload_remainder;
       let padded_buffer := part ++ replicate (Z.to_nat (16 - payload_remainder)) 0 in
       let chain_buffer := bitwise_xor (aes128k128d key preload) padded_buffer in
       pData ← set_bytes pData (payload_index - 8) (take (Z.to_nat payload_remainder) chain_buffer);
       Ok (pData, payload_index + payload_remainder)
     else Ok (pData, payload_index));
  preload ← construct_ctr_preload a4 qc pData PN 0;
  part ← sub_bytes pData payload_index 8;
  Ok (pData, take 8 (bitwise_xor (aes128k128d key preload) (part ++ replicate 8 0))).

Fixpoint mic_loop (n : nat) (key : list Z) (payload_index : Z) (pData aes_out : list Z) : result (list Z) :=
  match n with
  | O => Ok aes_out
  | S n' =>
      blk ← sub_bytes pData payload_index 16;
      mic_loop n' key (payload_index + 16) pData (aes128k128d key (bitwise_xor aes_out blk))
  end.

(** The MIC of the payload, that now follows the header. *)
Definition ccmp_mic (key : list Z) (a4 qc : bool) (PN : list Z) (HeaderLen payload_len : Z) (pData : list Z)
    : result (list Z) :=
  mic_iv ← construct_mic_iv qc a4 pData payload_len PN;
  mic_header1 ← construct_mic_header1 HeaderLen pData;
  mic_header2 ← construct_mic_header2 pData a4 qc;
  let aes_out := aes128k128d key mic_iv in
  let aes_out := aes128k128d key (bitwise_xor aes_out mic_header1) in
  let aes_out := aes128k128d key (bitwise_xor aes_out mic_header2) in
  let payload_remainder := payload_len mod 16 in
  let num_blocks := payload_len / 16 in
  aes_out ← mic_loop (Z.to_nat num_blocks) key HeaderLen pData aes_out;
  aes_out ← (if 0 <? payload_remainder then
               part ← sub_bytes pData (HeaderLen + 16 * num_blocks) payload_remainder;
               let padded_buffer := part ++ replicate (Z.to_nat (16 - payload_remainder)) 0 in
               Ok (aes128k128d key (bitwise_xor aes_out padded_buffer))
             else Ok aes_out);
  Ok (take 8 aes_out).

(** [pWpaKey]: the keys from the one pointed to. The result is whether the frame was
    accepted, and the buffer. The length is unsigned: where it would be negative, it
    wraps and the loop over the blocks leaves the buffer. *)
Definition RTMPSoftDecryptAES (pData : list Z) (DataByteCnt : Z) (pWpaKey : list cipher_key) : result (bool * list Z) :=
  fc0 ← nth_byte pData 0;
  fc1 ← nth_byte pData 1;
  let frame_subtype := Z.land (Z.shiftr fc0 4) 0x0f in
  let from_ds := Z.shiftr (Z.land fc1 2) 1 in
  let to_ds := Z.land fc1 1 in
  let a4_exists := truthy (Z.land from_ds to_ds) in
  let qc_exists := (frame_subtype =? 0x08) || (frame_subtype =? 0x09) || (frame_subtype =? 0x0a) || (frame_subtype =? 0x0b) in
  let HeaderLen := if a4_exists then 24 + 6 else 24 in
  ctl ← nth_byte pData (HeaderLen + 3);
  let KeyID := Z.shiftr ctl 6 in
  match pWpaKey !! Z.to_nat KeyID with
  | None => Crash OutOfBounds
  | Some key =>
      if KeyLen key =? 0 then Ok (false, pData)
      else
        pn01 ← sub_bytes pData HeaderLen 2;
        pn25 ← sub_bytes pData (HeaderLen + 4) 4;
        let PN := pn01 ++ pn25 in
        let payload_len := DataByteCnt - HeaderLen - 8 - 8 in
        if payload_len <? 0 then Crash OutOfBounds
        else
          '(pData, TrailMIC) ← ccmp_payload (Key key) a4_exists qc_exists PN HeaderLen payload_len pData;
          b1 ← nth_byte pData 1;
          pData ← set_bytes pData 1 [Z.lor b1 0x40];
          mic ← ccmp_mic (Key key) a4_exists qc_exists PN HeaderLen payload_len pData;
          Ok (bool_decide (mic = TrailMIC), pData)
  end.

(** A frame of the annex of IEEE 802.11i. *)
Definition annex_key : cipher_key :=
  mk_key 16 [0xc9; 0x7c; 0x1f; 0x67; 0xce; 0x37; 0x11; 0x85; 0x51; 0x4a; 0x8a; 0x19; 0xf2; 0xbd; 0xd5; 0x2f] [] [].
Definition annex_hdr : list Z :=
  [0x08; 0x48; 0xc3; 0x2c; 0x0f; 0xd2; 0xe1; 0x28; 0xa5; 0x7c; 0x50; 0x30; 0xf1; 0x84; 0x44; 0x08; 0xab; 0xae; 0xa5; 0xb8; 0xfc; 0xba; 0x80; 0x33].
Definition annex_data : list Z :=
  [0xf8; 0xba; 0x1a; 0x55; 0xd0; 0x2f; 0x85; 0xae; 0x96; 0x7b; 0xb6; 0x2f; 0xb6; 0xcd; 0xa8; 0xeb; 0x7e; 0x78; 0xa0; 0x50].
Definition annex_frame : list Z :=
  annex_hdr ++ [0x0c; 0xe7; 0x00; 0x20; 0x76; 0x97; 0x03; 0xb5] ++
  [0xf3; 0xd0; 0xa2; 0xfe; 0x9a; 0x3d; 0xbf; 0x23; 0x42; 0xa6; 0x43; 0xe4; 0x32; 0x46; 0xe8; 0x0c; 0x3c; 0x04; 0xd0; 0x19;
   0x78; 0x45; 0xce; 0x0b; 0x16; 0xf9; 0x76; 0x23].
Example ccmp_vector :
  (fun r => (r.1, take 44 r.2)) <$> RTMPSoftDecryptAES annex_frame 60 [annex_key] = Ok (true, annex_hdr ++ annex_data).
Proof. vm_compute. reflexivity. Qed.

Lemma tab_u8 l i : bytes_ok l → is_u8 (tab l i).
Proof. intros Hl. apply (tab_default (fun x => is_u8 x)); [exact Hl|lia]. Qed.

(** ** CCM *)

Definition pad16 (l : list Z) : list Z := l ++ replicate ((16 - length l mod 16) mod 16) 0.

Section Ccm.
Context (E : list Z → list Z) (nonce : list Z).

Definition ctr_block (i : Z) : list Z := E (0x01 :: nonce ++ be_bytes 2 i).
Fixpoint keystream (n : nat) (i : Z) : list Z :=
  match n with O => [] | S n' => ctr_block i ++ keystream n' (i + 1) end.
(** Encryption and decryption. *)
Definition ccm_crypt (data : list Z) : list Z := xor_bytes (keystream (S (length data / 16)) 1) data.

Fixpoint cbc (n : nat) (x l : list Z) : list Z :=
  match n with O => x | S n' => cbc n' (E (xor_bytes x (take 16 l))) (drop 16 l) end.
(** The blocks that are authenticated: MIC of eight bytes, length of two bytes. *)
Definition ccm_blocks (aad data : list Z) : list Z :=
  (0x59 :: nonce ++ be_bytes 2 (Z.of_nat (length data))) ++
  pad16 (be_bytes 2 (Z.of_nat (length aad)) ++ aad) ++ pad16 data.
Definition ccm_mac (aad data : list Z) : list Z :=
  cbc (length (ccm_blocks aad data) / 16) (replicate 16 0) (ccm_blocks aad data).
Definition ccm_tag (aad data : list Z) : list Z := xor_bytes (take 8 (ctr_block 0)) (take 8 (ccm_mac aad data)).

Lemma cbc_app n m x a b : length a = (16 * n)%nat → cbc (n + m) x (a ++ b) = cbc m (cbc n x a) b.
Proof.
  revert x a. induction n as [|n IH]; intros x a Ha; [by destruct a|].
  cbn [Nat.add cbc]. rewrite take_app_le, drop_app_le by lia. apply IH. rewrite length_drop. lia.
Qed.
End Ccm.

(** ** CCMP of IEEE 802.11i, for data frames without the QoS field *)

Definition ccmp_header (KeyId : Z) (pn : list Z) : list Z :=
  [tab pn 0; tab pn 1; 0; 0x20 + 64 * KeyId; tab pn 2; tab pn 3; tab pn 4; tab pn 5].
Definition ccmp_nonce (hdr pn : list Z) : list Z := 0 :: take 6 (drop 10 hdr) ++ reverse pn.
(** Whoever protects a frame marks it. *)
Definition protected (hdr : list Z) : list Z := <[1%nat := Z.lor (tab hdr 1) 0x40]> hdr.
(** The frame control with subtype, retry, power management and more data muted, the
    addresses, the fragment number. *)
Definition ccmp_aad (hdr : list Z) : list Z :=
  [Z.land (tab hdr 0) 0x8f; Z.land (tab hdr 1) 0xc7] ++ take 18 (drop 4 hdr) ++ [Z.land (tab hdr 22) 0x0f; 0] ++ drop 24 hdr.
Definition ccmp_frame (key : cipher_key) (KeyId : Z) (hdr pn data : list Z) : list Z :=
  let E := aes128k128d (Key key) in
  hdr ++ ccmp_header KeyId pn ++ ccm_crypt E (ccmp_nonce hdr pn) data ++ ccm_tag E (ccmp_nonce hdr pn) (ccmp_aad (protected hdr)) data.

Lemma bitwise_xor_bytes a b : length a = 16%nat → length b = 16%nat → bitwise_xor a b = xor_bytes a b.
Proof. intros Ha Hb. unfold bitwise_xor. by rewrite !take_ge by lia. Qed.

Lemma be2 n : [u8 (n / 256); u8 (n mod 256)] = be_bytes 2 n.
Proof. unfold be_bytes, u8. cbn [le_bytes reverse rev_append]. rewrite (Z.mod_mod n) by lia. reflexivity. Qed.

Lemma length_be2 n : length (be_bytes 2 n) = 2%nat.
Proof. reflexivity. Qed.

#[local] Opaque aes128k128d.

Section Frame.
Context (key hdr pn : list Z) (a4 : bool).
Context (Hkey : block key) (Hhdr : bytes_ok hdr) (Hhl : (24 ≤ length hdr)%nat) (Hpn : bytes_ok pn) (Hpl : length pn = 6%nat).

Local Abbreviation E := (aes128k128d key).
Local Abbreviation nonce := (ccmp_nonce hdr pn).

Lemma length_nonce : length nonce = 13%nat.
Proof. unfold ccmp_nonce. cbn [length]. rewrite length_app, length_take, length_drop, length_reverse. lia. Qed.

Lemma nonce_ok : bytes_ok nonce.
Proof.
  apply Forall_cons. split; [lia|]. apply Forall_app. split; [by apply bytes_ok_slice|by apply Forall_reverse].
Qed.

Lemma nonce_block flag n : is_u8 flag → block (flag :: nonce ++ be_bytes 2 n).
Proof.
  intros Hf. split; [cbn [length]; rewrite length_app, length_nonce; reflexivity|].
  apply Forall_cons. split; [done|]. apply Forall_app. split; [apply nonce_ok|]. apply Forall_reverse, le_bytes_ok.
Qed.

Lemma ctr_block_eq i : E (0x01 :: nonce ++ be_bytes 2 i) = ctr_block E nonce i.
Proof. unfold ctr_block. reflexivity. Qed.

Lemma ctr_block_ok i : block (ctr_block E nonce i).
Proof. apply aes_block; [done|]. apply nonce_block. lia. Qed.

Lemma preload_run x c : construct_ctr_preload a4 false (hdr ++ x) pn c = Ok (0x01 :: nonce ++ be_bytes 2 c).
Proof.
  unfold construct_ctr_preload, qos_byte. cbn [andb]. rewrite sub_bytes_app_l, sub_bytes_in by lia.
  cbn [mbind result_bind]. rewrite be2. unfold ccmp_nonce. cbn [app]. by rewrite <- app_assoc.
Qed.

(** The whole blocks are decrypted into the place eight bytes before. *)
Lemma ctr_loop_run n i done gap ct rest :
  length gap = 8%nat → length ct = (16 * n)%nat →
  ctr_loop n key a4 false pn i (Z.of_nat (length hdr + length done) + 8) (hdr ++ done ++ gap ++ ct ++ rest) =
    Ok (hdr ++ done ++ xor_bytes (keystream E nonce n (i + 1)) ct ++ drop (16 * n) (gap ++ ct) ++ rest).
Proof.
  revert i done gap ct. induction n as [|n IH]; intros i done gap ct Hg Hc.
  { destruct ct; [|discriminate Hc]. cbn [ctr_loop xor_bytes keystream app Nat.mul]. by rewrite app_nil_r. }
  cbn [ctr_loop]. rewrite preload_run. cbn [mbind result_bind].
  rewrite (ctr_block_eq (i + 1)).
  destruct (ctr_block_ok (i + 1)) as [Hs _].
  set (c1 := take 16 ct). set (c2 := drop 16 ct).
  assert (ct = c1 ++ c2) as Ec by (subst c1 c2; by rewrite take_drop).
  assert (length c1 = 16%nat) as H1 by (subst c1; rewrite length_take; lia).
  assert (length c2 = (16 * n)%nat) as H2 by (subst c2; rewrite length_drop; lia). clearbody c1 c2. subst ct.
  rewrite (sub_bytes_at _ (hdr ++ done ++ gap) c1 (c2 ++ rest));
    [|by rewrite <- !app_assoc|rewrite !length_app; lia|lia].
  cbn [mbind result_bind]. rewrite bitwise_xor_bytes by done. set (p1 := xor_bytes (ctr_block E nonce (i + 1)) c1).
  assert (length p1 = 16%nat) as Hp by (unfold p1; rewrite length_xor_bytes, Hs, H1; reflexivity).
  set (g1 := drop 8 c1). assert (length g1 = 8%nat) as Hg1 by (subst g1; rewrite length_drop; lia).
  replace (hdr ++ done ++ gap ++ (c1 ++ c2) ++ rest) with ((hdr ++ done) ++ (gap ++ take 8 c1) ++ g1 ++ c2 ++ rest).
  2: { subst g1. rewrite <- (take_drop 8 c1) at 3. by rewrite <- !app_assoc. }
  rewrite set_bytes_part by (rewrite ?length_app, ?length_take; lia). cbn [mbind result_bind].
  replace (Z.of_nat (length hdr + length done) + 8 + 16) with (Z.of_nat (length hdr + length (done ++ p1)) + 8)
    by (rewrite length_app; lia).
  replace ((hdr ++ done) ++ p1 ++ g1 ++ c2 ++ rest) with (hdr ++ (done ++ p1) ++ g1 ++ c2 ++ rest) by by rewrite <- !app_assoc.
  rewrite IH by done. cbn [keystream]. rewrite xor_bytes_app by lia. fold p1.
  replace (drop (16 * S n) (gap ++ c1 ++ c2)) with (drop (16 * n) (g1 ++ c2)); [by rewrite <- !app_assoc|].
  replace (16 * S n)%nat with (16 + 16 * n)%nat by lia. rewrite <- drop_drop. f_equal.
  rewrite drop_app, Hg, (drop_ge gap) by lia. cbn [app]. change (16 - 8)%nat with 8%nat. by rewrite drop_app_le by lia.
Qed.

Lemma keystream_app n m i : keystream E nonce (n + m) i = keystream E nonce n i ++ keystream E nonce m (i + Z.of_nat n).
Proof.
  revert i. induction n as [|n IH]; intros i; [by rewrite Z.add_0_r|]. cbn [Nat.add keystream].
  rewrite IH, <- app_assoc. by replace (i + 1 + Z.of_nat n) with (i + Z.of_nat (S n)) by lia.
Qed.

Lemma keystream_ok n i : length (keystream E nonce n i) = (16 * n)%nat ∧ bytes_ok (keystream E nonce n i).
Proof.
  revert i. induction n as [|n IH]; intros i; [split; [reflexivity|constructor]|]. cbn [keystream]. destruct (ctr_block_ok i) as [Hl Hb], (IH (i + 1)) as [Hl' Hb'].
  split; [rewrite length_app; lia|by apply Forall_app].
Qed.

Lemma xor_bytes_nil_r s : xor_bytes s [] = [].
Proof. by destruct s. Qed.

Lemma xor_bytes_take s p z : (length p ≤ length s)%nat → take (length p) (xor_bytes s (p ++ z)) = xor_bytes s p.
Proof.
  revert p. induction s as [|x s IH]; intros [|y p]; simpl; intros H; [done|lia|done|]. f_equal. apply IH. lia.
Qed.

(** The payload is its whole blocks and what is left. *)
Lemma blocks_split (body : list Z) : ∃ n part, (length part < 16)%nat ∧ length body = (16 * n + length part)%nat ∧
  body = take (16 * n) body ++ part ∧ Z.of_nat (length body) / 16 = Z.of_nat n ∧ Z.of_nat (length body) mod 16 = Z.of_nat (length part) ∧
  (length body / 16)%nat = n.
Proof.
  pose proof (Nat.div_mod_eq (length body) 16) as Hd. pose proof (Nat.mod_upper_bound (length body) 16 ltac:(lia)) as Hm.
  exists (length body / 16)%nat, (drop (16 * (length body / 16)) body). rewrite length_drop, take_drop.
  split; [lia|]. split; [lia|]. split; [done|]. split; [by rewrite Nat2Z.inj_div|]. split; [|done].
  rewrite <- (Nat2Z.inj_mod _ 16). apply inj_eq. lia.
Qed.

Lemma crypt_split full part n :
  length full = (16 * n)%nat → (length part < 16)%nat →
  ccm_crypt E nonce (full ++ part) = xor_bytes (keystream E nonce n 1) full ++ xor_bytes (ctr_block E nonce (Z.of_nat n + 1)) part.
Proof.
  intros Hf Hp. unfold ccm_crypt. replace (length (full ++ part) / 16)%nat with n.
  2: { rewrite length_app, Hf. apply Nat.div_unique with (r := length part); lia. }
  replace (S n) with (n + 1)%nat by lia. rewrite keystream_app, xor_bytes_app by (rewrite (proj1 (keystream_ok n 1)); done).
  cbn [keystream]. rewrite app_nil_r. by replace (1 + Z.of_nat n) with (Z.of_nat n + 1) by lia.
Qed.

(** The short block at the end, if there is one. *)
Definition short_block (n : Z) (part : list Z) (pData : list Z) (payload_index : Z) : result (list Z * Z) :=
  if 0 <? Z.of_nat (length part) then
    preload ← construct_ctr_preload a4 false pData pn (n + 1);
    part' ← sub_bytes pData payload_index (Z.of_nat (length part));
    let padded_buffer := part' ++ replicate (Z.to_nat (16 - Z.of_nat (length part))) 0 in
    let chain_buffer := bitwise_xor (aes128k128d key preload) padded_buffer in
    pData ← set_bytes pData (payload_index - 8) (take (Z.to_nat (Z.of_nat (length part))) chain_buffer);
    Ok (pData, payload_index + Z.of_nat (length part))
  else Ok (pData, payload_index).

Lemma short_block_run n p gap part rest :
  length gap = 8%nat → (length part < 16)%nat →
  short_block n part (hdr ++ p ++ gap ++ part ++ rest) (Z.of_nat (length hdr + length p) + 8) =
    Ok (hdr ++ p ++ xor_bytes (ctr_block E nonce (n + 1)) part ++ drop (length part) (gap ++ part) ++ rest,
        Z.of_nat (length hdr + length p) + 8 + Z.of_nat (length part)).
Proof.
  intros Hg Hp. unfold short_block. destruct (ctr_block_ok (n + 1)) as [Hs _].
  destruct part as [|x part']; [cbn; rewrite xor_bytes_nil_r, app_nil_r, Z.add_0_r; done|].
  set (part := x :: part') in *. rewrite (proj2 (Z.ltb_lt _ _)) by (subst part; cbn [length]; lia).
  rewrite preload_run. cbn [mbind result_bind]. rewrite (ctr_block_eq (n + 1)).
  rewrite (sub_bytes_at _ (hdr ++ p ++ gap) part rest);
    [|by rewrite <- !app_assoc|rewrite !length_app; lia|lia].
  cbn [mbind result_bind]. rewrite Nat2Z.id.
  rewrite bitwise_xor_bytes by (rewrite ?length_app, ?length_replicate; lia). rewrite xor_bytes_take by lia.
  set (xp := xor_bytes _ part). assert (length xp = length part) as Hx by (unfold xp; rewrite length_xor_bytes, Hs; lia).
  replace (hdr ++ p ++ gap ++ part ++ rest)
    with ((hdr ++ p) ++ take (length part) (gap ++ part) ++ drop (length part) (gap ++ part) ++ rest).
  2: { rewrite (app_assoc (take _ _)), take_drop. by rewrite <- !app_assoc. }
  rewrite set_bytes_part by (rewrite ?length_app, ?length_take, ?length_app; lia). cbn [mbind result_bind].
  by rewrite <- !app_assoc.
Qed.

Lemma ccmp_payload_run gap body tag rest :
  length gap = 8%nat → length tag = 8%nat →
  ccmp_payload key a4 false pn (Z.of_nat (length hdr)) (Z.of_nat (length body)) (hdr ++ gap ++ body ++ tag ++ rest) =
    Ok (hdr ++ ccm_crypt E nonce body ++ drop (length body) (gap ++ body ++ tag ++ rest), xor_bytes (take 8 (ctr_block E nonce 0)) tag).
Proof.
  intros Hg Ht. destruct (blocks_split body) as (n & part & Hp & Hlb & Eb & Ed & Em & _).
  set (full := take (16 * n) body) in *. assert (length full = (16 * n)%nat) as Hf by (subst full; rewrite length_take; lia).
  clearbody full. subst body. unfold ccmp_payload. rewrite Ed, Em, (Nat2Z.id n). cbv zeta.
  pose proof (ctr_loop_run n 0 [] gap full (part ++ tag ++ rest) Hg Hf) as Hrun.
  cbn [app length] in Hrun. rewrite Nat.add_0_r in Hrun. rewrite <- app_assoc, Hrun. cbn [mbind result_bind].
  change (0 + 1) with 1. set (p := xor_bytes (keystream E nonce n 1) full).
  assert (length p = (16 * n)%nat) as Hpl' by (unfold p; rewrite length_xor_bytes, (proj1 (keystream_ok n 1)); lia).
  set (gap' := drop (16 * n) (gap ++ full)). assert (length gap' = 8%nat) as Hg' by (unfold gap'; rewrite length_drop, length_app; lia).
  fold (short_block (Z.of_nat n) part (hdr ++ p ++ gap' ++ part ++ tag ++ rest) (Z.of_nat (length hdr) + 8 + 16 * Z.of_nat n)).
  replace (Z.of_nat (length hdr) + 8 + 16 * Z.of_nat n) with (Z.of_nat (length hdr + length p) + 8) by lia.
  rewrite (short_block_run (Z.of_nat n) p gap' part (tag ++ rest) Hg' Hp). cbn [mbind result_bind].
  set (xp := xor_bytes _ part). assert (length xp = length part) as Hx.
  { unfold xp. rewrite length_xor_bytes, (proj1 (ctr_block_ok _)). lia. }
  rewrite preload_run. cbn [mbind result_bind]. rewrite (ctr_block_eq 0).
  rewrite (sub_bytes_at _ (hdr ++ p ++ xp ++ drop (length part) (gap' ++ part)) tag rest);
    [|by rewrite <- !app_assoc|rewrite !length_app, length_drop, length_app; lia|lia].
  cbn [mbind result_bind]. destruct (ctr_block_ok 0) as [Hs _].
  rewrite bitwise_xor_bytes by (rewrite ?length_app, ?length_replicate; lia).
  rewrite (crypt_split full part n Hf Hp). fold p xp. do 2 f_equal.
  - rewrite <- !app_assoc. do 3 f_equal. rewrite Hlb, <- drop_drop, (app_assoc gap full), (drop_app_le (gap ++ full)) by (rewrite length_app; lia).
    fold gap'. rewrite (app_assoc gap' part), (drop_app_le (gap' ++ part)) by (rewrite length_app; lia). done.
  - rewrite <- (take_drop 8 (ctr_block E nonce 0)) at 1. rewrite xor_bytes_app by (rewrite length_take; lia).
    apply take_app_length'. rewrite length_xor_bytes, length_take. lia.
Qed.

(** The header in the blocks that are authenticated. *)
Lemma mic_headers x :
  length hdr = (if a4 then 30 else 24)%nat → tab hdr 0 < 64 →
  ∃ h1 h2, construct_mic_header1 (Z.of_nat (length hdr)) (hdr ++ x) = Ok h1 ∧ construct_mic_header2 (hdr ++ x) a4 false = Ok h2 ∧
    block h1 ∧ block h2 ∧ h1 ++ h2 = pad16 (be_bytes 2 (Z.of_nat (length (ccmp_aad hdr))) ++ ccmp_aad hdr).
Proof.
  intros Hl Hd. unfold construct_mic_header1, construct_mic_header2. cbn [negb andb].
  rewrite !nth_byte_tab by lia. cbn [mbind result_bind]. rewrite !(sub_bytes_app_l hdr x) by (destruct a4; lia).
  rewrite !sub_bytes_in by lia. cbn [mbind result_bind].
  assert (∀ i, is_u8 (tab hdr i)) as Hb by (intros i; by apply tab_u8).
  assert (∀ i m, is_u8 m → is_u8 (Z.land (tab hdr i) m)) as Hlm.
  { intros i m Hmr. apply (bits_range 8); [lia|]. intros j Hj. by rewrite Z.land_spec, (range_bits 8 m), andb_false_r. }
  assert (Z.land (tab hdr 0) 0xcf = Z.land (tab hdr 0) 0x8f) as E0.
  { apply Z.eqb_eq. apply (forall_range (fun z => Z.land z 0xcf =? Z.land z 0x8f) 0 64); [reflexivity|]. pose proof (Hb 0). lia. }
  rewrite E0. set (rest := if a4 then take 6 (drop 24 hdr) ++ [0; 0] else replicate 8 0).
  exists ([u8 ((Z.of_nat (length hdr) - 2) / 256); u8 ((Z.of_nat (length hdr) - 2) mod 256); Z.land (tab hdr 0) 0x8f; Z.land (tab hdr 1) 0xc7]
          ++ take 12 (drop 4 hdr)), (take 6 (drop 16 hdr) ++ [Z.land (tab hdr 22) 0x0f; 0] ++ rest).
  split; [done|]. split; [subst rest; destruct a4; cbn [negb andb mbind result_bind]; rewrite ?sub_bytes_app_l, ?sub_bytes_in by lia; reflexivity|].
  assert (bytes_ok rest ∧ length rest = 8%nat) as [Hr1 Hr2].
  { subst rest. destruct a4; [|split; [apply Forall_replicate; lia|done]]. split.
    - apply Forall_app. split; [by apply bytes_ok_slice|]. repeat (apply Forall_cons; split; [lia|]). constructor.
    - rewrite length_app, length_take, length_drop, Hl. reflexivity. }
  assert (∀ z, is_u8 (u8 z)) as Hu by (intros z; apply Z.mod_pos_bound; lia).
  split; [|split].
  - split; [rewrite length_app, length_take, length_drop; cbn [length]; lia|]. apply Forall_app. split; [|by apply bytes_ok_slice].
    rewrite !Forall_cons, Forall_nil. repeat split; try apply Hu; apply Hlm; lia.
  - split; [rewrite !length_app, length_take, length_drop, Hr2; cbn [length]; lia|]. apply Forall_app. split; [by apply bytes_ok_slice|].
    apply Forall_app. split; [|done]. rewrite !Forall_cons, Forall_nil. repeat split; try apply Hlm; lia.
  - clear - Hl. subst rest. revert Hl. generalize hdr as l. generalize a4 as b. clear. intros b l Hl.
    do 24 (destruct l as [|? l]; [destruct b; discriminate Hl|]).
    destruct b; [do 6 (destruct l as [|? l]; [discriminate Hl|])|]; (destruct l; [|discriminate Hl]); reflexivity.
Qed.

Lemma xor_zeros l : xor_bytes (replicate (length l) 0) l = l.
Proof. induction l as [|x l IH]; [done|]. cbn [length replicate xor_bytes]. by rewrite IH, Z.lxor_0_l. Qed.

Lemma cbc_block n x d : block x → bytes_ok d → length d = (16 * n)%nat → block (cbc E n x d).
Proof.
  revert x d. induction n as [|n IH]; intros x d Hx Hd Hl; [done|]. cbn [cbc]. apply IH.
  - apply aes_block; [done|]. apply xor_block; [done|]. split; [rewrite length_take; lia|by apply Forall_take].
  - by apply Forall_drop.
  - rewrite length_drop. lia.
Qed.

Lemma cbc_one x d : length d = 16%nat → cbc E 1 x d = E (xor_bytes x d).
Proof. intros Hd. cbn [cbc]. by rewrite take_ge by lia. Qed.

Lemma mic_loop_run n a d rest x :
  block x → bytes_ok d → length d = (16 * n)%nat →
  mic_loop n key (Z.of_nat (length a)) (a ++ d ++ rest) x = Ok (cbc E n x d).
Proof.
  revert a d x. induction n as [|n IH]; intros a d x Hx Hd Hl; [done|]. cbn [mic_loop cbc].
  set (d1 := take 16 d). set (d2 := drop 16 d).
  assert (d = d1 ++ d2) as Ec by (subst d1 d2; by rewrite take_drop).
  assert (length d1 = 16%nat) as H1 by (subst d1; rewrite length_take; lia).
  assert (length d2 = (16 * n)%nat) as H2 by (subst d2; rewrite length_drop; lia). clearbody d1 d2. subst d.
  apply Forall_app in Hd as [Hd1 Hd2].
  rewrite (sub_bytes_at _ a d1 (d2 ++ rest)); [|by rewrite <- !app_assoc|done|lia].
  cbn [mbind result_bind]. rewrite bitwise_xor_bytes by (apply Hx || done).
  replace (Z.of_nat (length a) + 16) with (Z.of_nat (length (a ++ d1))) by (rewrite length_app; lia).
  replace (a ++ (d1 ++ d2) ++ rest) with ((a ++ d1) ++ d2 ++ rest) by by rewrite <- !app_assoc.
  apply IH; [|done|done]. apply aes_block; [done|]. by apply xor_block.
Qed.

Lemma pad16_split full part n :
  length full = (16 * n)%nat → (length part < 16)%nat →
  pad16 (full ++ part) = full ++ (if decide (part = []) then [] else part ++ replicate (16 - length part) 0).
Proof.
  intros Hf Hp. unfold pad16. rewrite length_app, Hf, Nat.add_comm, Nat.mul_comm, Nat.Div0.mod_add, (Nat.mod_small (length part)) by lia.
  rewrite <- app_assoc. f_equal. destruct (decide (part = [])) as [-> | Hne]; [done|].
  f_equal. f_equal. apply Nat.mod_small. destruct part; [done|simpl; lia].
Qed.

Lemma ccmp_mic_run data rest :
  length hdr = (if a4 then 30 else 24)%nat → tab hdr 0 < 64 → bytes_ok data →
  ccmp_mic key a4 false pn (Z.of_nat (length hdr)) (Z.of_nat (length data)) (hdr ++ data ++ rest) =
    Ok (take 8 (ccm_mac E nonce (ccmp_aad hdr) data)) ∧ length (ccm_mac E nonce (ccmp_aad hdr) data) = 16%nat.
Proof.
  intros Hl Hd Hdata. destruct (mic_headers (data ++ rest) Hl Hd) as (h1 & h2 & E1 & E2 & B1 & B2 & Eh).
  unfold ccmp_mic, construct_mic_iv, qos_byte. cbn [andb]. rewrite (sub_bytes_app_l hdr (data ++ rest) 10 6), (sub_bytes_in hdr 10 6) by lia.
  cbn [mbind result_bind]. rewrite E1, E2. cbn [mbind result_bind]. rewrite be2.
  set (b0 := 0x59 :: nonce ++ be_bytes 2 (Z.of_nat (length data))).
  replace ([0x59; 0] ++ _) with b0 by (subst b0; unfold ccmp_nonce; cbn [app]; by rewrite <- app_assoc).
  assert (block b0) as B0 by (apply nonce_block; lia).
  destruct (blocks_split data) as (n & part & Hp & Hlb & Eb & Ed & Em & _). rewrite Ed, Em, (Nat2Z.id n).
  set (full := take (16 * n) data) in *. assert (length full = (16 * n)%nat) as Hf by (subst full; rewrite length_take; lia).
  unfold ccm_mac, ccm_blocks. fold b0. rewrite <- Eh. clear Eh E1 E2 Ed Em. clearbody full b0. subst data.
  apply Forall_app in Hdata as [Hfull Hpart]. rewrite (pad16_split full part n Hf Hp).
  set (tl := if decide (part = []) then _ else _).
  set (m := if decide (part = []) then 0%nat else 1%nat).
  assert (length tl = (16 * m)%nat) as Htl.
  { subst tl m. destruct (decide (part = [])); [done|]. rewrite length_app, length_replicate. lia. }
  replace (length (b0 ++ (h1 ++ h2) ++ full ++ tl) / 16)%nat with (1 + (1 + (1 + (n + m))))%nat.
  2: { rewrite !length_app, (proj1 B0), (proj1 B1), (proj1 B2), Hf, Htl.
       apply Nat.div_unique with (r := 0%nat); lia. }
  rewrite <- (app_assoc h1), (cbc_app E 1), (cbc_app E 1), (cbc_app E 1), (cbc_app E n) by (apply B0 || apply B1 || apply B2 || done).
  rewrite !cbc_one by (apply B0 || apply B1 || apply B2).
  replace (xor_bytes (replicate 16 0) b0) with b0 by (rewrite <- (proj1 B0), xor_zeros; done).
  set (x0 := E b0). assert (block x0) as Hx0 by by apply aes_block.
  rewrite (bitwise_xor_bytes x0 h1) by (apply Hx0 || apply B1).
  set (x1 := E (xor_bytes x0 h1)). assert (block x1) as Hx1 by by apply aes_block, xor_block.
  rewrite (bitwise_xor_bytes x1 h2) by (apply Hx1 || apply B2).
  set (x2 := E (xor_bytes x1 h2)). assert (block x2) as Hx2 by by apply aes_block, xor_block.
  rewrite <- (app_assoc full), (mic_loop_run n hdr full (part ++ rest) x2 Hx2 Hfull Hf). cbn [mbind result_bind].
  pose proof (cbc_block n x2 full Hx2 Hfull Hf) as Hx3. set (x3 := cbc E n x2 full) in *. clearbody x3.
  subst tl m. destruct (decide (part = [])) as [-> | Hne]; [split; [done|apply Hx3]|].
  rewrite (proj2 (Z.ltb_lt 0 _)) by (destruct part; [done|simpl; lia]).
  rewrite (sub_bytes_at _ (hdr ++ full) part rest);
    [|by rewrite <- !app_assoc|rewrite !length_app; lia|lia].
  cbn [mbind result_bind]. replace (Z.to_nat (16 - Z.of_nat (length part))) with (16 - length part)%nat by lia.
  assert (block (part ++ replicate (16 - length part) 0)) as Hb.
  { split; [rewrite length_app, length_replicate; lia|]. apply Forall_app. split; [done|]. apply Forall_replicate. lia. }
  rewrite bitwise_xor_bytes, cbc_one by (apply Hx3 || apply Hb). split; [done|]. by apply aes_block, xor_block.
Qed.

Lemma crypt_twice body : bytes_ok body →
  let data := ccm_crypt E nonce body in
  length data = length body ∧ bytes_ok data ∧ ccm_crypt E nonce data = body.
Proof.
  intros Hb. cbv zeta. destruct (keystream_ok (S (length body / 16)) 1) as [Hks Hkb].
  assert (length (ccm_crypt E nonce body) = length body) as Hl.
  { unfold ccm_crypt. rewrite length_xor_bytes, Hks. pose proof (Nat.div_mod_eq (length body) 16).
    pose proof (Nat.mod_upper_bound (length body) 16). lia. }
  split; [exact Hl|]. split; [by apply xor_bytes_ok|]. unfold ccm_crypt at 1. rewrite Hl. unfold ccm_crypt.
  rewrite !(xor_bytes_comm (keystream _ _ _ _)). apply xor_bytes_cancel. rewrite Hks.
  pose proof (Nat.div_mod_eq (length body) 16). pose proof (Nat.mod_upper_bound (length body) 16). lia.
Qed.
End Frame.

Lemma xor_solve s a b : length a = length s → length b = length s → a = xor_bytes s b ↔ b = xor_bytes s a.
Proof.
  intros Ha Hb. rewrite !(xor_bytes_comm s). split; intros ->; by rewrite xor_bytes_cancel by lia.
Qed.

Lemma length_protected hdr : length (protected hdr) = length hdr.
Proof. apply length_insert. Qed.

Lemma protected_ok hdr : bytes_ok hdr → bytes_ok (protected hdr).
Proof.
  intros Hh. apply Forall_insert; [done|]. apply (lor_range 8); [lia|by apply tab_u8|lia].
Qed.

Lemma protect_run hdr x : (2 ≤ length hdr)%nat →
  set_bytes (hdr ++ x) 1 [Z.lor (tab hdr 1) 0x40] = Ok (protected hdr ++ x).
Proof.
  intros Hl. destruct hdr as [|h0 [|h1 hdr]]; [simpl in Hl; lia..|].
  exact (set_bytes_part [h0] [h1] (hdr ++ x) [Z.lor h1 0x40] 1 eq_refl eq_refl).
Qed.

Lemma nonce_protected hdr pn : ccmp_nonce (protected hdr) pn = ccmp_nonce hdr pn.
Proof. unfold ccmp_nonce, protected. by rewrite drop_insert_lt by lia. Qed.

(** A frame without the QoS field has no subtype of those the code asks for. *)
Lemma no_qos z : 0 ≤ z < 64 → let s := Z.land (Z.shiftr z 4) 0x0f in
  (s =? 0x08) || (s =? 0x09) || (s =? 0x0a) || (s =? 0x0b) = false.
Proof.
  intros Hz. cbv zeta. apply negb_true_iff.
  apply (forall_range (fun z => let s := Z.land (Z.shiftr z 4) 0x0f in negb ((s =? 0x08) || (s =? 0x09) || (s =? 0x0a) || (s =? 0x0b))) 0 64);
    [vm_compute; reflexivity|lia].
Qed.

Section Whole.
Context (keys : list cipher_key) (KeyId : Z) (key : cipher_key) (hdr pn : list Z).
Context (Hid : 0 ≤ KeyId < 4) (Hkey : keys !! Z.to_nat KeyId = Some key) (Hkl : KeyLen key ≠ 0) (Hk : block (Key key)).
Context (Hhdr : bytes_ok hdr) (Hhl : Z.of_nat (length hdr) = header_len (tab hdr 1)) (Hd : tab hdr 0 < 64).
Context (Hpn : bytes_ok pn) (Hpl : length pn = 6%nat).

Local Abbreviation E := (aes128k128d (Key key)).

Lemma header_fields : ∃ p0 p1 p2 p3 p4 p5, pn = [p0; p1; p2; p3; p4; p5] ∧
  ccmp_header KeyId pn = [p0; p1; 0; 0x20 + 64 * KeyId; p2; p3; p4; p5].
Proof.
  destruct pn as [|p0 [|p1 [|p2 [|p3 [|p4 [|p5 [|]]]]]]]; try discriminate Hpl. by exists p0, p1, p2, p3, p4, p5.
Qed.

Lemma key_id_read : Z.shiftr (0x20 + 64 * KeyId) 6 = KeyId.
Proof.
  assert (KeyId = 0 ∨ KeyId = 1 ∨ KeyId = 2 ∨ KeyId = 3) as H by lia. destruct H as [-> | [-> | [-> | ->]]]; reflexivity.
Qed.

Lemma long_header : (24 ≤ length hdr)%nat.
Proof using Hhl. clear - Hhl. unfold header_len in Hhl. destruct (truthy _); lia. Qed.

Lemma mac_run data x : bytes_ok data →
  let a4 := truthy (Z.land (Z.shiftr (Z.land (tab hdr 1) 2) 1) (Z.land (tab hdr 1) 1)) in
  ccmp_mic (Key key) a4 false pn (Z.of_nat (length (protected hdr))) (Z.of_nat (length data)) (protected hdr ++ data ++ x) =
    Ok (take 8 (ccm_mac E (ccmp_nonce hdr pn) (ccmp_aad (protected hdr)) data)) ∧
  length (ccm_mac E (ccmp_nonce hdr pn) (ccmp_aad (protected hdr)) data) = 16%nat.
Proof.
  intros Hdata a4. pose proof long_header as H24. rewrite <- nonce_protected.
  apply ccmp_mic_run; rewrite ?length_protected; try assumption.
  - by apply protected_ok.
  - unfold header_len in Hhl. fold a4 in Hhl. destruct a4; lia.
  - destruct hdr as [|h0 [|h1 h]]; [simpl in H24; lia..|exact Hd].
Qed.

Lemma decrypt_aes_run body tag rest :
  bytes_ok body → length tag = 8%nat →
  let data := ccm_crypt E (ccmp_nonce hdr pn) body in
  RTMPSoftDecryptAES (hdr ++ ccmp_header KeyId pn ++ body ++ tag ++ rest) (Z.of_nat (length hdr + 8 + length body + 8)) keys =
    Ok (bool_decide (tag = ccm_tag E (ccmp_nonce hdr pn) (ccmp_aad (protected hdr)) data),
        protected hdr ++ data ++ drop (length body) (ccmp_header KeyId pn ++ body ++ tag ++ rest)).
Proof.
  intros Hbody Htag data.
  set (a4 := truthy (Z.land (Z.shiftr (Z.land (tab hdr 1) 2) 1) (Z.land (tab hdr 1) 1))).
  assert (length hdr = (if a4 then 30 else 24)%nat) as Hl by (unfold header_len in Hhl; fold a4 in Hhl; destruct a4; lia).
  pose proof long_header as H24.
  unfold RTMPSoftDecryptAES. rewrite !nth_byte_tab by lia. cbn [mbind result_bind]. cbv zeta. fold a4.
  rewrite no_qos by (pose proof (tab_u8 hdr 0 Hhdr); lia).
  replace (if a4 then 24 + 6 else 24) with (Z.of_nat (length hdr)) by (rewrite Hl; by destruct a4).
  destruct header_fields as (p0 & p1 & p2 & p3 & p4 & p5 & Ep & Eh).
  set (gap := ccmp_header KeyId pn) in *. set (buf := hdr ++ gap ++ body ++ tag ++ rest).
  assert (length gap = 8%nat) as Hg by by rewrite Eh.
  assert (buf = (hdr ++ [p0; p1; 0]) ++ (0x20 + 64 * KeyId) :: ([p2; p3; p4; p5] ++ body ++ tag ++ rest)) as B1
    by (subst buf; rewrite Eh, <- app_assoc; reflexivity).
  assert (nth_byte buf (Z.of_nat (length hdr) + 3) = Ok (0x20 + 64 * KeyId)) as -> by
    (rewrite B1; apply nth_byte_part; rewrite length_app; cbn [length]; lia).
  cbn [mbind result_bind]. rewrite key_id_read, Hkey, (proj2 (Z.eqb_neq _ 0) Hkl).
  rewrite (sub_bytes_at buf hdr [p0; p1] ([0; 0x20 + 64 * KeyId; p2; p3; p4; p5] ++ body ++ tag ++ rest) (Z.of_nat (length hdr)) 2);
    [|subst buf; rewrite Eh; reflexivity|reflexivity|reflexivity].
  rewrite (sub_bytes_at buf (hdr ++ [p0; p1; 0; 0x20 + 64 * KeyId]) [p2; p3; p4; p5] (body ++ tag ++ rest));
    [|by rewrite B1, <- !app_assoc|rewrite length_app; cbn [length]; lia|done].
  cbn [mbind result_bind]. change ([p0; p1] ++ [p2; p3; p4; p5]) with [p0; p1; p2; p3; p4; p5]. rewrite <- Ep.
  replace (Z.of_nat (length hdr + 8 + length body + 8) - Z.of_nat (length hdr) - 8 - 8) with (Z.of_nat (length body)) by lia.
  rewrite (proj2 (Z.ltb_ge _ 0)) by lia. subst buf.
  rewrite (ccmp_payload_run (Key key) hdr pn a4 Hk Hhdr H24 Hpn Hpl gap body tag rest Hg Htag). fold data.
  cbn [mbind result_bind]. rewrite nth_byte_tab by lia. cbn [mbind result_bind].
  rewrite protect_run by lia. cbn [mbind result_bind].
  destruct (crypt_twice (Key key) hdr pn Hk Hhdr H24 Hpn Hpl body Hbody) as (Hld & Hdok & _). fold data in Hld, Hdok.
  rewrite <- Hld, <- (length_protected hdr).
  destruct (mac_run data (drop (length data) (gap ++ body ++ tag ++ rest)) Hdok) as [Hrun Hmac].
  cbv zeta in Hrun. fold a4 in Hrun. rewrite Hrun.
  cbn [mbind result_bind]. f_equal. f_equal. apply bool_decide_ext.
  unfold ccm_tag. apply xor_solve; rewrite ?length_take, ?Hmac, (proj1 (ctr_block_ok (Key key) hdr pn Hk Hhdr H24 Hpn Hpl 0)); done.
Qed.
(** What the standard makes of a payload is accepted. *)
Lemma ccmp_accepts body rest :
  bytes_ok body →
  ∃ tl, RTMPSoftDecryptAES (ccmp_frame key KeyId hdr pn body ++ rest) (Z.of_nat (length hdr + 8 + length body + 8)) keys =
    Ok (true, protected hdr ++ body ++ tl).
Proof.
  intros Hb. pose proof (long_header) as H24. set (data := ccm_crypt E (ccmp_nonce hdr pn) body).
  destruct (crypt_twice (Key key) hdr pn Hk Hhdr H24 Hpn Hpl body Hb) as (Hl & Hok & Htw). cbv zeta in Htw.
  exists (drop (length body) (ccmp_header KeyId pn ++ data ++ ccm_tag E (ccmp_nonce hdr pn) (ccmp_aad (protected hdr)) body ++ rest)).
  unfold ccmp_frame. rewrite <- !app_assoc. cbv zeta. fold data. rewrite <- Hl. fold data.
  rewrite decrypt_aes_run; [|exact Hok|].
  - unfold data. rewrite Htw. by rewrite bool_decide_eq_true_2.
  - unfold ccm_tag. rewrite length_xor_bytes, !length_take.
    rewrite (proj1 (ctr_block_ok (Key key) hdr pn Hk Hhdr H24 Hpn Hpl 0)), (proj2 (mac_run body [] Hb)). done.
Qed.

Lemma length_ccmp_frame body : bytes_ok body →
  length (ccmp_frame key KeyId hdr pn body) = (length hdr + 8 + length body + 8)%nat.
Proof.
  intros Hb. pose proof long_header as H24. unfold ccmp_frame. cbv zeta. rewrite !length_app.
  rewrite (proj1 (crypt_twice (Key key) hdr pn Hk Hhdr H24 Hpn Hpl body Hb)).
  unfold ccm_tag. rewrite length_xor_bytes, !length_take.
  rewrite (proj1 (ctr_block_ok (Key key) hdr pn Hk Hhdr H24 Hpn Hpl 0)), (proj2 (mac_run body [] Hb)).
  change (length (ccmp_header KeyId pn)) with 8%nat. simpl. lia.
Qed.
End Whole.

(** C27: Decryption by software implements CCM for frames without the QoS field: a frame
    protected with AES, with a header of three or four addresses and of a subtype without
    QoS, is accepted exactly when its MIC is the CCM tag of the header and of what the
    payload decrypts to, and the buffer then holds the header and the plain text; so
    every such frame protected as the standard says is accepted, and its data recovered.
    ([qos_refused] shows the frames left out.) *)
Theorem ccmp_refines_ccm keys KeyId key hdr pn body tag rest :
  0 ≤ KeyId < 4 → keys !! Z.to_nat KeyId = Some key → KeyLen key ≠ 0 → block (Key key) →
  bytes_ok hdr → Z.of_nat (length hdr) = header_len (tab hdr 1) → tab hdr 0 < 64 → bytes_ok pn → length pn = 6%nat →
  bytes_ok body → length tag = 8%nat →
  let E := aes128k128d (Key key) in
  let data := ccm_crypt E (ccmp_nonce hdr pn) body in
  let n := Z.of_nat (length hdr + 8 + length body + 8) in
  RTMPSoftDecryptAES (hdr ++ ccmp_header KeyId pn ++ body ++ tag ++ rest) n keys =
    Ok (bool_decide (tag = ccm_tag E (ccmp_nonce hdr pn) (ccmp_aad (protected hdr)) data),
        protected hdr ++ data ++ drop (length body) (ccmp_header KeyId pn ++ body ++ tag ++ rest)) ∧
  ∃ tl, RTMPSoftDecryptAES (ccmp_frame key KeyId hdr pn body ++ rest) n keys = Ok (true, protected hdr ++ body ++ tl).
Proof.
  intros Hid Hkey Hkl Hk Hhdr Hhl Hd Hpn Hpl Hb Ht E data n. split; [by apply decrypt_aes_run|by apply ccmp_accepts].
Qed.

Lemma ccmp_refines_ccm_witness :
  ∃ tl, RTMPSoftDecryptAES (ccmp_frame annex_key 0 annex_hdr [0x0c; 0xe7; 0x76; 0x97; 0x03; 0xb5] annex_data) 60 [annex_key] =
    Ok (true, protected annex_hdr ++ annex_data ++ tl).
Proof.
  assert (∀ l, bool_decide (Forall (fun b => is_u8 b) l) = true → bytes_ok l) as Hb by (intros l; apply bool_decide_eq_true_1).
  destruct (ccmp_refines_ccm [annex_key] 0 annex_key annex_hdr [0x0c; 0xe7; 0x76; 0x97; 0x03; 0xb5] annex_data (replicate 8 0) [])
    as [_ [tl H]].
  - lia.
  - reflexivity.
  - discriminate.
  - split; [reflexivity|]. apply Hb. vm_compute. reflexivity.
  - apply Hb. vm_compute. reflexivity.
  - vm_compute. reflexivity.
  - vm_compute. reflexivity.
  - apply Hb. vm_compute. reflexivity.
  - reflexivity.
  - apply Hb. vm_compute. reflexivity.
  - reflexivity.
  - exists tl. rewrite app_nil_r in H. exact H.
Defined.

(** The frame of the annex is the one the reference makes. *)
Example annex_frame_reference : ccmp_frame annex_key 0 annex_hdr [0x0c; 0xe7; 0x76; 0x97; 0x03; 0xb5] annex_data = annex_frame.
Proof. vm_compute. reflexivity. Qed.

(** A data frame with a QoS field, as the standard protects it: the priority goes into
    the nonce, and the field into the authenticated header.  The code knows these
    subtypes, but takes the header to be two bytes shorter, and refuses the frame. *)
Definition qos_data_hdr : list Z := 0x88 :: drop 1 annex_hdr ++ [5; 0].
Definition ccmp_qos_frame (key : cipher_key) (KeyId : Z) (hdr pn data : list Z) : list Z :=
  let E := aes128k128d (Key key) in
  let nonce := Z.land (tab hdr 24) 0x0f :: take 6 (drop 10 hdr) ++ reverse pn in
  let aad := ccmp_aad (protected (take 24 hdr)) ++ [Z.land (tab hdr 24) 0x0f; 0] in
  hdr ++ ccmp_header KeyId pn ++ ccm_crypt E nonce data ++ ccm_tag E nonce aad data.
Example qos_refused :
  let frame := ccmp_qos_frame annex_key 0 qos_data_hdr [7; 1; 0; 0; 0; 0] annex_data in
  fst <$> RTMPSoftDecryptAES frame (Z.of_nat (length frame)) [annex_key] = Ok false.
Proof. vm_compute. reflexivity. Qed.
