(* ===== verification/Decrypt.v ===== *)
(** * The decryption of a received packet

    Models [RTMPDecryptPktBySoftware] of [rt2501/sources/Module/rtusb_data.c], which
    chooses between [Wep], [Tkip] and [Ccmp], and shows that it undoes each of the
    three protections. *)

From S2P Require Import Prelude Words Wep Aes Tkip Ccmp.

(** [NDIS_802_11_WEP_STATUS], as far as the function asks. *)
Definition Ndis802_11WEPEnabled : Z := 0.
Definition Ndis802_11Encryption2Enabled : Z := 4.
Definition Ndis802_11Encryption3Enabled : Z := 6.
Definition NDIS_STATUS_SUCCESS : Z := 0.
Definition NDIS_STATUS_FAILURE : Z := 1.
Definition LENGTH_802_11 : Z := 24.
Definition CIPHER_WEP64 : Z := 1.
Definition CIPHER_TKIP : Z := 3.
Definition CIPHER_AES : Z := 4.

(** What the function changes: the engines of the adapter ([PrivateInfo]; the check of
    received frames uses the MIC state for sending), and the
    fields of three and of twelve bits of the descriptor. *)
Record receive : Type := mk_receive { Wep : wep; Tx : tkip_info; CipherAlg : Z; DataByteCnt : Z }.
Definition on_wep {A} (m : stm wep A) : stm receive A := fun s =>
  match m (Wep s) with Ok (a, w) => Ok (a, mk_receive w (Tx s) (CipherAlg s) (DataByteCnt s)) | Crash e => Crash e end.
Definition on_tkip {A} (m : stm tkip_info A) : stm receive A := fun s =>
  match m (Tx s) with Ok (a, t) => Ok (a, mk_receive (Wep s) t (CipherAlg s) (DataByteCnt s)) | Crash e => Crash e end.
Definition decrypted (minus alg : Z) : stm receive unit :=
  modify (fun s => mk_receive (Wep s) (Tx s) alg ((DataByteCnt s - minus) mod 4096)).

(** The keys are [SharedKey] for WEP; for the others, the array from the element of
    the default key on, in which they look for the key of the frame. *)
Definition RTMPDecryptPktBySoftware (WepStatus DefaultKeyId : Z) (SharedKey : list cipher_key) (pData : list Z)
    : stm receive (Z * list Z) :=
  s ← get;
  if WepStatus =? Ndis802_11WEPEnabled then
    '(ok, pPayload) ← on_wep (RTMPDecryptData SharedKey (drop 24 pData) (DataByteCnt s - LENGTH_802_11));
    let pData := take 24 pData ++ pPayload in
    if negb ok then mret (NDIS_STATUS_FAILURE, pData)
    else decrypted 8 CIPHER_WEP64;; mret (NDIS_STATUS_SUCCESS, pData)
  else if WepStatus =? Ndis802_11Encryption2Enabled then
    '(ok, pData) ← on_tkip (RTMPSoftDecryptTKIP pData (DataByteCnt s) 0 (drop (Z.to_nat DefaultKeyId) SharedKey));
    if (ok : bool) then decrypted 20 CIPHER_TKIP;; mret (NDIS_STATUS_SUCCESS, pData)
    else mret (NDIS_STATUS_FAILURE, pData)
  else if WepStatus =? Ndis802_11Encryption3Enabled then
    '(ok, pData) ← lift (RTMPSoftDecryptAES pData (DataByteCnt s) (drop (Z.to_nat DefaultKeyId) SharedKey));
    if (ok : bool) then decrypted 16 CIPHER_AES;; mret (NDIS_STATUS_SUCCESS, pData)
    else mret (NDIS_STATUS_FAILURE, pData)
  else mret (NDIS_STATUS_FAILURE, pData).

(** ** Protected packets *)

(** The frame that carries [data] after [hdr], without a QoS field, protected as the
    standards have it with one of [keys]; the status that selects the cipher, and the
    cipher reported.  For TKIP and AES the number in the frame counts from the default
    key [dk].  The TKIP frames have three addresses. *)
Inductive secured (keys : list cipher_key) (dk : Z) (hdr data : list Z) : Z → Z → list Z → Prop :=
| by_wep KeyId key kb more iv :
    length hdr = 24%nat → 0 ≤ KeyId < 4 → keys !! Z.to_nat KeyId = Some key →
    Key key = kb ++ more → KeyLen key = Z.of_nat (length kb) → 0 < KeyLen key ≤ 13 → length iv = 3%nat →
    secured keys dk hdr data Ndis802_11WEPEnabled CIPHER_WEP64 (hdr ++ std_wep_frame iv KeyId kb data)
| by_tkip KeyId key tsc :
    0 ≤ KeyId < 4 → keys !! Z.to_nat (dk + KeyId) = Some key → KeyLen key ≠ 0 →
    bytes_ok (Key key) → bytes_ok (RxMic key) → (8 ≤ length (RxMic key))%nat →
    length hdr = 24%nat → four_addresses hdr = false → bytes_ok tsc → length tsc = 6%nat →
    secured keys dk hdr data Ndis802_11Encryption2Enabled CIPHER_TKIP (std_tkip_frame key hdr tsc KeyId 0 data)
| by_ccmp KeyId key pn :
    0 ≤ KeyId < 4 → keys !! Z.to_nat (dk + KeyId) = Some key → KeyLen key ≠ 0 → block (Key key) →
    Z.of_nat (length hdr) = header_len (tab hdr 1) → tab hdr 0 < 64 → bytes_ok pn → length pn = 6%nat →
    secured keys dk hdr data Ndis802_11Encryption3Enabled CIPHER_AES (ccmp_frame key KeyId hdr pn data).

Lemma counted_key {A} (l : list A) dk i : 0 ≤ dk → 0 ≤ i → l !! Z.to_nat (dk + i) = drop (Z.to_nat dk) l !! Z.to_nat i.
Proof. intros Hd Hi. rewrite lookup_drop. f_equal. lia. Qed.

(** The bit for protection is set already. *)
Lemma protected_id hdr : (2 ≤ length hdr)%nat → Z.testbit (tab hdr 1) 6 = true → protected hdr = hdr.
Proof.
  intros Hl Hb. unfold protected.
  replace (Z.lor (tab hdr 1) 0x40) with (tab hdr 1).
  - destruct hdr as [|h0 [|h1 h]]; [simpl in Hl; lia..|reflexivity].
  - apply Z.bits_inj'. intros i Hi. rewrite Z.lor_spec. change 0x40 with (2 ^ 6). rewrite Z.pow2_bits_eqb by lia.
    destruct (Z.eqb_spec 6 i) as [<- | _]; [by rewrite Hb|by rewrite orb_false_r].
Qed.

Lemma header_long hdr : Z.of_nat (length hdr) = header_len (tab hdr 1) → (2 ≤ length hdr)%nat.
Proof. unfold header_len. destruct (truthy _); lia. Qed.

Lemma count_small n k : (k ≤ n)%nat → Z.of_nat n < 4096 → (Z.of_nat n - Z.of_nat k) mod 4096 = Z.of_nat (n - k).
Proof. intros Hk Hn. rewrite Z.mod_small by lia. lia. Qed.

(** C28: Software decryption is a left inverse of each protection: a packet without a
    QoS field that is protected with WEP, TKIP (three addresses) or AES, in a frame that
    says it is protected, is reported as decrypted, with its count reduced to header and
    data, which is then what the buffer starts with.  With WEP the frame names its key
    among the shared keys; with TKIP and AES the driver counts the number in the frame
    from the default key on, so that it is the key the frame names only when the default
    key is 0.  The buffer has the count of the descriptor, of twelve bits. *)
Theorem packet_decrypted keys DefaultKeyId hdr data WepStatus alg frame s :
  0 ≤ DefaultKeyId →
  secured keys DefaultKeyId hdr data WepStatus alg frame → bytes_ok hdr → bytes_ok data → Z.testbit (tab hdr 1) 6 = true →
  length (WEPKEY (Wep s)) = 16%nat → DataByteCnt s = Z.of_nat (length frame) → Z.of_nat (length frame) < 4096 →
  ∃ buf s', RTMPDecryptPktBySoftware WepStatus DefaultKeyId keys frame s = Ok ((NDIS_STATUS_SUCCESS, buf), s') ∧
    CipherAlg s' = alg ∧ DataByteCnt s' = Z.of_nat (length hdr + length data) ∧
    take (length hdr + length data) buf = hdr ++ data.
Proof.
  intros Hdk Hs Hhdr Hd Hb Hw Hn H12.
  assert (∀ x, take (length hdr + length data) (hdr ++ data ++ x) = hdr ++ data) as Htake.
  { intros x. rewrite app_assoc. apply take_app_length'. by rewrite length_app. }
  destruct Hs as [KeyId key kb more iv Hhl Hid Hkey Ek Hkl H13 Hiv
    | KeyId key tsc Hid Hkey Hkl Hk Hrx Hrxl Hhl H3a Htsc Htl
    | KeyId key pn Hid Hkey Hkl Hk Hhl Hdt Hpn Hpl]; unfold RTMPDecryptPktBySoftware; rewrite (bind_run get _ _ _ _ eq_refl).
  - destruct (wep_frame_std iv KeyId kb data Hiv Hid Hd) as (c & c' & Hc & Hst & Ef). rewrite Ef in *.
    assert (bytes_ok (rc4 (iv ++ kb) (length data + 4))) as Hks by (apply rc4_ok; by destruct iv).
    set (ks := rc4 _ _) in *.
    destruct (wep_accepts keys KeyId key kb more iv c c' ks data (Wep s)) as (tl & w' & E); try assumption.
    assert (length (wep_frame iv KeyId ks data) = (8 + length data)%nat) as Hlw by (by eapply length_wep_frame).
    rewrite length_app, Hlw in Hn, H12.
    rewrite (drop_app_length' hdr), (take_app_length' hdr) by done.
    change (Ndis802_11WEPEnabled =? Ndis802_11WEPEnabled) with true. cbv iota.
    erewrite bind_run.
    2: { unfold on_wep, LENGTH_802_11. replace (DataByteCnt s - 24) with (Z.of_nat (8 + length data)) by lia. rewrite E. reflexivity. }
    cbn [negb]. rewrite (bind_run (decrypted _ _) _ _ _ _ eq_refl). eexists _, _. split; [reflexivity|].
    split; [reflexivity|]. split; [|apply Htake]. cbn [DataByteCnt]. rewrite ?Hn.
    rewrite (count_small _ 8) by lia. f_equal. lia.
  - destruct (tkip_frame_std key hdr tsc KeyId 0 data Hd) as (c & ks & c' & Hr & Hst & Hks & Ef). rewrite Ef in *.
    rewrite counted_key in Hkey by lia.
    destruct (tkip_accepts (drop (Z.to_nat DefaultKeyId) keys) KeyId key hdr tsc 0 c c' ks data (Tx s)) as (tl & t' & E); try assumption.
    assert (length (tkip_frame key hdr tsc KeyId 0 ks data) = (length hdr + 8 + (length data + 12))%nat) as Hlf by (by eapply length_tkip_frame).
    rewrite Hlf in Hn, H12.
    change (Ndis802_11Encryption2Enabled =? Ndis802_11WEPEnabled) with false.
    change (Ndis802_11Encryption2Enabled =? Ndis802_11Encryption2Enabled) with true. cbv iota.
    erewrite bind_run.
    2: { unfold on_tkip. rewrite Hn, E. reflexivity. }
    cbv beta iota. rewrite (bind_run (decrypted _ _) _ _ _ _ eq_refl). eexists _, _. split; [reflexivity|].
    split; [reflexivity|]. split; [|apply Htake]. cbn [DataByteCnt]. rewrite ?Hn.
    rewrite (count_small _ 20) by lia. f_equal. lia.
  - pose proof (header_long hdr Hhl) as H2.
    rewrite counted_key in Hkey by lia.
    destruct (ccmp_accepts (drop (Z.to_nat DefaultKeyId) keys) KeyId key hdr pn Hid Hkey Hkl Hk Hhdr Hhl Hdt Hpn Hpl data [] Hd) as (tl & E).
    rewrite app_nil_r, protected_id in E by done.
    assert (length (ccmp_frame key KeyId hdr pn data) = (length hdr + 8 + length data + 8)%nat) as Hlf by (by apply length_ccmp_frame).
    rewrite Hlf in Hn, H12.
    change (Ndis802_11Encryption3Enabled =? Ndis802_11WEPEnabled) with false.
    change (Ndis802_11Encryption3Enabled =? Ndis802_11Encryption2Enabled) with false.
    change (Ndis802_11Encryption3Enabled =? Ndis802_11Encryption3Enabled) with true. cbv iota.
    erewrite bind_run.
    2: { unfold lift. rewrite Hn, E. reflexivity. }
    cbv beta iota. rewrite (bind_run (decrypted _ _) _ _ _ _ eq_refl). eexists _, _. split; [reflexivity|].
    split; [reflexivity|]. split; [|apply Htake]. cbn [DataByteCnt]. rewrite ?Hn.
    rewrite (count_small _ 16) by lia. f_equal. lia.
Qed.

Definition idle : receive := mk_receive (mk_wep (replicate 16 0) 0 (mk_arcfour 0 0 []) 0) fresh 0 60.
Definition annex_pn : list Z := [0x0c; 0xe7; 0x76; 0x97; 0x03; 0xb5].
Definition no_key : cipher_key := mk_key 0 (replicate 16 0) [] [].
Definition four_keys : list cipher_key := [no_key; annex_key; no_key; no_key].

(** The key 1 of a frame, with the default key 1. *)
Definition shifted_keys : list cipher_key := [no_key; no_key; annex_key; no_key].

Lemma packet_decrypted_witness :
  ∃ buf s', RTMPDecryptPktBySoftware 6 1 shifted_keys (ccmp_frame annex_key 1 annex_hdr annex_pn annex_data) idle =
      Ok ((NDIS_STATUS_SUCCESS, buf), s') ∧
    CipherAlg s' = CIPHER_AES ∧ DataByteCnt s' = 44 ∧ take 44 buf = annex_hdr ++ annex_data.
Proof.
  assert (∀ l, bool_decide (Forall (fun b => is_u8 b) l) = true → bytes_ok l) as Hb by (intros l; apply bool_decide_eq_true_1).
  assert (length (ccmp_frame annex_key 1 annex_hdr annex_pn annex_data) = 60%nat) as Hl by (vm_compute; reflexivity).
  apply (packet_decrypted shifted_keys 1 annex_hdr annex_data 6 CIPHER_AES (ccmp_frame annex_key 1 annex_hdr annex_pn annex_data) idle).
  - lia.
  - apply by_ccmp.
    + lia.
    + reflexivity.
    + discriminate.
    + split; [reflexivity|]. apply Hb. vm_compute. reflexivity.
    + vm_compute. reflexivity.
    + vm_compute. reflexivity.
    + apply Hb. vm_compute. reflexivity.
    + reflexivity.
  - apply Hb. vm_compute. reflexivity.
  - apply Hb. vm_compute. reflexivity.
  - vm_compute. reflexivity.
  - reflexivity.
  - rewrite Hl. reflexivity.
  - rewrite Hl. reflexivity.
Defined.

(** With another default key, the key of the frame is counted from that one: a frame
    under the key 1, which is accepted with the default key 0, is then tried with the
    key 2 and refused, or the array is left. *)
Example default_key_shifts :
  let frame := ccmp_frame annex_key 1 annex_hdr annex_pn annex_data in
  (fun r => r.1.1) <$> RTMPDecryptPktBySoftware 6 0 four_keys frame idle = Ok NDIS_STATUS_SUCCESS ∧
  fst <$> RTMPDecryptPktBySoftware 6 1 four_keys frame idle = Ok (NDIS_STATUS_FAILURE, frame) ∧
  RTMPDecryptPktBySoftware 6 3 four_keys frame idle = Crash OutOfBounds.
Proof. repeat split; vm_compute; reflexivity. Qed.
