(* ===== verification/KeyWrap.v ===== *)
(** * The unwrapping of group keys

    Models [AES_GTK_KEY_UNWRAP] of [rt2501/sources/Module/wpa.c]: the access point
    sends the group key wrapped as in RFC 3394. *)

From S2P Require Import Prelude Words Aes.

(** One turn of the inner loop: the block [i], from 1, in the pass [j]. *)
Definition unwrap_turn (ctx : aes_context) (num_blocks j i : Z) (s : list Z * list Z) : result (list Z * list Z) :=
  let '(A, R) := s in
  let xor := u8 ((num_blocks - 1) * j + i) in
  a7 ← nth_byte A 7;
  BIN ← set_bytes A 7 [Z.lxor a7 xor];
  r ← sub_bytes R ((i - 1) * 8) 8;
  let BOUT := aes_decrypt ctx (BIN ++ r) in
  R ← set_bytes R ((i - 1) * 8) (drop 8 BOUT);
  Ok (take 8 BOUT, R).

Fixpoint unwrap_pass (i : nat) (ctx : aes_context) (num_blocks j : Z) (s : list Z * list Z) : result (list Z * list Z) :=
  match i with
  | O => Ok s
  | S i' => s ← unwrap_turn ctx num_blocks j (Z.of_nat i) s; unwrap_pass i' ctx num_blocks j s
  end.
(** The passes [n - 1] to 0. *)
Fixpoint unwrap_passes (n : nat) (ctx : aes_context) (num_blocks : Z) (s : list Z * list Z) : result (list Z * list Z) :=
  match n with
  | O => Ok s
  | S n' =>
      s ← unwrap_pass (Z.to_nat (num_blocks - 1)) ctx num_blocks (Z.of_nat n') s;
      unwrap_passes n' ctx num_blocks s
  end.

(** [c_len] is a byte; [mpool]: what the allocated memory holds from [R] on, or NULL;
    the result is what [plaintext] holds then. Of [A] nothing is asked. *)
Definition AES_GTK_KEY_UNWRAP (key : list Z) (c_len : Z) (ciphertext : list Z) (mpool : option (list Z)) (plaintext : list Z)
    : result (list Z) :=
  match mpool with
  | None => Ok plaintext
  | Some R =>
      let num_blocks := c_len / 8 in
      A ← sub_bytes ciphertext 0 8;
      body ← (if 0 <? c_len - 8 then sub_bytes ciphertext 8 (c_len - 8) else Ok []);
      R ← set_bytes R 0 body;
      let ctx := (aes_set_key key 128 (mk_aes [] [] 0)).2 in
      '(A, R) ← unwrap_passes 6 ctx num_blocks (A, R);
      out ← sub_bytes R 0 c_len;
      set_bytes plaintext 0 out
  end.

(** A vector of RFC 3394. *)
Definition rfc_data : list Z := (fun i => 0x11 * i) <$> seqZ 0 16.
Definition rfc_wrapped : list Z :=
  [0x1F; 0xA6; 0x8B; 0x0A; 0x81; 0x12; 0xB4; 0x47; 0xAE; 0xF3; 0x4B; 0xD8; 0xFB; 0x5A; 0x7B; 0x82;
   0x9D; 0x3E; 0x86; 0x23; 0x71; 0xD2; 0xCF; 0xE5].
Example unwrap_vector :
  AES_GTK_KEY_UNWRAP (seqZ 0 16) 24 rfc_wrapped (Some (replicate 984 0xee)) (replicate 24 0) = Ok (rfc_data ++ replicate 8 0xee).
Proof. vm_compute. reflexivity. Qed.

(** ** The wrapping of RFC 3394

    On blocks of eight bytes: [E] encrypts a block, [t] counts the steps. *)
Section Wrap.
Context (E : list Z → list Z).

Definition wrap_turn (n j i : Z) (s : list Z * list (list Z)) : list Z * list (list Z) :=
  let '(A, Rs) := s in
  let B := E (A ++ nth (Z.to_nat (i - 1)) Rs []) in
  (xor_bytes (take 8 B) (be_bytes 8 (n * j + i)), <[Z.to_nat (i - 1) := drop 8 B]> Rs).
Definition wrap_pass (n : nat) (j : Z) (s : list Z * list (list Z)) : list Z * list (list Z) :=
  fold_left (fun s i => wrap_turn (Z.of_nat n) j i s) (seqZ 1 (Z.of_nat n)) s.
Definition wrap_passes (n m : nat) (s : list Z * list (list Z)) : list Z * list (list Z) :=
  fold_left (fun s j => wrap_pass n j s) (seqZ 0 (Z.of_nat m)) s.
Definition wrap (iv : list Z) (Rs : list (list Z)) : list Z :=
  let '(A, Rs) := wrap_passes (length Rs) 6 (iv, Rs) in A ++ concat Rs.
End Wrap.

Example wrap_vector : wrap (aes128k128d (seqZ 0 16)) (replicate 8 0xa6) [take 8 rfc_data; drop 8 rfc_data] = rfc_wrapped.
Proof. vm_compute. reflexivity. Qed.

(** ** The inverse *)

Definition half (a : list Z) : Prop := length a = 8%nat ∧ bytes_ok a.
(** The state of the code that corresponds to one of the reference; [junk]: the rest
    of the allocated memory. *)
Definition memory (junk : list Z) (s : list Z * list (list Z)) : list Z * list Z := (s.1, concat s.2 ++ junk).
Definition halves (n : nat) (s : list Z * list (list Z)) : Prop := half s.1 ∧ length s.2 = n ∧ Forall half s.2.

Lemma split_concat (Rs : list (list Z)) k b :
  Forall half Rs → Rs !! k = Some b → concat Rs = concat (take k Rs) ++ b ++ concat (drop (S k) Rs) ∧
    length (concat (take k Rs)) = (8 * k)%nat ∧ half b.
Proof.
  revert k. induction Rs as [|r Rs IH]; intros [|k] Hf Hk; try discriminate.
  - injection Hk as ->. apply Forall_cons in Hf as [Hb _]. simpl. rewrite drop_0. done.
  - apply Forall_cons in Hf as [Hr Hf]. destruct (IH k Hf Hk) as (E & El & Hb). cbn [concat take drop].
    split; [by rewrite <- app_assoc, <- E|]. split; [|exact Hb]. rewrite length_app, El, (proj1 Hr). lia.
Qed.

Lemma insert_concat (Rs : list (list Z)) k b x :
  Rs !! k = Some b → concat (<[k := x]> Rs) = concat (take k Rs) ++ x ++ concat (drop (S k) Rs).
Proof.
  intros Hk. rewrite (insert_take_drop Rs k x) by (by eapply lookup_lt_Some). by rewrite concat_app.
Qed.

(** The count is below 256: it changes the last byte only. *)
Lemma be8 t : 0 ≤ t < 256 → be_bytes 8 t = [0; 0; 0; 0; 0; 0; 0; t].
Proof.
  intros Ht. unfold be_bytes. cbn [le_bytes]. rewrite !(Z.div_small t), (Z.mod_small t) by lia. reflexivity.
Qed.

Lemma xor_count a t : half a → 0 ≤ t < 256 → half (xor_bytes a (be_bytes 8 t)) ∧
  (a7 ← nth_byte (xor_bytes a (be_bytes 8 t)) 7; set_bytes (xor_bytes a (be_bytes 8 t)) 7 [Z.lxor a7 (u8 t)]) = Ok a.
Proof.
  intros [Hl Hb] Ht. rewrite be8 by done. split.
  { split; [by rewrite length_xor_bytes, Hl|]. apply xor_bytes_ok; [done|]. unfold bytes_ok. rewrite !Forall_cons, Forall_nil. lia. }
  destruct a as [|a0 [|a1 [|a2 [|a3 [|a4 [|a5 [|a6 [|a7 [|]]]]]]]]]; try discriminate Hl.
  cbn [xor_bytes]. rewrite !Z.lxor_0_r. rewrite (u8_small t) by exact Ht.
  match goal with |- context [nth_byte ?l 7] => change (nth_byte l 7) with (Ok (Z.lxor a7 t)) end. cbn [mbind result_bind].
  rewrite lxor_cancel. reflexivity.
Qed.

Section Inverse.
Context (E : list Z → list Z) (ctx : aes_context) (n : nat).
Context (HE : ∀ b, block b → block (E b)) (Hinv : ∀ b, block b → aes_decrypt ctx (E b) = b) (Hn : (n ≤ 30)%nat).

Lemma wrap_turn_ok j i s : halves n s → 0 ≤ j < 6 → 1 ≤ i ≤ Z.of_nat n → halves n (wrap_turn E (Z.of_nat n) j i s).
Proof.
  destruct s as [A Rs]. intros (HA & Hl & HR) Hj Hi. cbn [fst snd] in *.
  destruct (lookup_lt_is_Some_2 Rs (Z.to_nat (i - 1))) as [r Er]; [lia|].
  pose proof (Forall_lookup_1 _ _ _ _ HR Er) as Hr.
  assert (block (A ++ r)) as Hb by (split; [rewrite length_app, (proj1 HA), (proj1 Hr); done|apply Forall_app; split; [apply HA|apply Hr]]).
  pose proof (HE _ Hb) as [Hel Heb].
  unfold wrap_turn. rewrite (nth_lookup_Some _ _ _ _ Er). split; [|split]; cbn [fst snd].
  - apply xor_count; [|nia]. split; [rewrite length_take, Hel; done|by apply Forall_take].
  - by rewrite length_insert.
  - apply Forall_insert; [done|]. split; [rewrite length_drop, Hel; done|by apply Forall_drop].
Qed.

Lemma unwrap_turn_run junk j i s :
  halves n s → 0 ≤ j < 6 → 1 ≤ i ≤ Z.of_nat n →
  unwrap_turn ctx (Z.of_nat n + 1) j i (memory junk (wrap_turn E (Z.of_nat n) j i s)) = Ok (memory junk s).
Proof.
  destruct s as [A Rs]. intros (HA & Hl & HR) Hj Hi. cbn [fst snd] in *.
  pose proof (wrap_turn_ok j i (A, Rs) (conj HA (conj Hl HR)) Hj Hi) as (_ & Hl' & HR').
  set (k := Z.to_nat (i - 1)) in *.
  destruct (lookup_lt_is_Some_2 Rs k) as [r Er]; [lia|].
  pose proof (Forall_lookup_1 _ _ _ _ HR Er) as Hr.
  assert (block (A ++ r)) as Hb by (split; [rewrite length_app, (proj1 HA), (proj1 Hr); done|apply Forall_app; split; [apply HA|apply Hr]]).
  pose proof (HE _ Hb) as [Hel Heb].
  unfold wrap_turn in *. fold k in Hl', HR' |- *. rewrite (nth_lookup_Some _ _ _ _ Er) in *. cbn [fst snd] in *.
  set (B := E (A ++ r)) in *. set (Rs' := <[k := drop 8 B]> Rs) in *.
  assert (Rs' !! k = Some (drop 8 B)) as Er' by (apply list_lookup_insert_eq; by eapply lookup_lt_Some).
  destruct (split_concat Rs' k (drop 8 B) HR' Er') as (Ec & Elc & Hd).
  assert (half (take 8 B)) as Ht by (split; [rewrite length_take, Hel; done|by apply Forall_take]).
  destruct (xor_count (take 8 B) (Z.of_nat n * j + i) Ht ltac:(nia)) as [_ Ex].
  unfold unwrap_turn, memory. cbn [fst snd]. replace (Z.of_nat n + 1 - 1) with (Z.of_nat n) by lia.
  revert Ex. destruct (nth_byte _ 7) as [a7|]; cbn [mbind result_bind]; [|discriminate]. intros ->. cbn [mbind result_bind].
  replace ((i - 1) * 8) with (Z.of_nat (length (concat (take k Rs')))) by lia.
  rewrite (sub_bytes_at _ (concat (take k Rs')) (drop 8 B) (concat (drop (S k) Rs') ++ junk));
    [|rewrite Ec at 1; by rewrite <- !app_assoc|done|by rewrite (proj1 Hd)].
  cbn [mbind result_bind]. rewrite take_drop. subst B. rewrite !Hinv by done. set (B := E (A ++ r)) in *.
  rewrite (take_app_length' A), (drop_app_length' A) by by rewrite (proj1 HA).
  replace (concat Rs' ++ junk) with (concat (take k Rs') ++ drop 8 B ++ concat (drop (S k) Rs') ++ junk)
    by (rewrite Ec; by rewrite <- !app_assoc).
  rewrite set_bytes_part by (done || by rewrite (proj1 Hr), (proj1 Hd)). cbn [mbind result_bind].
  do 2 f_equal. rewrite !app_assoc. f_equal. rewrite <- app_assoc, <- (insert_concat Rs' k (drop 8 B) r Er').
  subst Rs'. rewrite list_insert_insert_eq. by rewrite list_insert_id.
Qed.

(** The first [i] turns of a pass, taken back. *)
Lemma unwrap_pass_run junk j i s :
  halves n s → 0 ≤ j < 6 → (i ≤ n)%nat →
  let s' := fold_left (fun s i => wrap_turn E (Z.of_nat n) j i s) (seqZ 1 (Z.of_nat i)) s in
  halves n s' ∧ unwrap_pass i ctx (Z.of_nat n + 1) j (memory junk s') = Ok (memory junk s).
Proof.
  intros Hs Hj. induction i as [|i IH]; intros Hi; [done|]. cbv zeta in *.
  destruct IH as [Hh Hrun]; [lia|]. rewrite seqZ_S, fold_left_app. cbn [fold_left].
  replace (1 + Z.of_nat i) with (Z.of_nat (S i)) by lia.
  set (s1 := fold_left _ _ s) in *. split; [apply wrap_turn_ok; [done|done|lia]|].
  cbn [unwrap_pass]. rewrite unwrap_turn_run by (done || lia). exact Hrun.
Qed.

Lemma unwrap_passes_run junk m s :
  halves n s → (m ≤ 6)%nat →
  halves n (wrap_passes E n m s) ∧ unwrap_passes m ctx (Z.of_nat n + 1) (memory junk (wrap_passes E n m s)) = Ok (memory junk s).
Proof.
  intros Hs. unfold wrap_passes. induction m as [|m IH]; intros Hm; [done|].
  destruct IH as [Hh Hrun]; [lia|]. rewrite seqZ_S, fold_left_app. cbn [fold_left]. set (s1 := fold_left _ _ s) in *.
  destruct (unwrap_pass_run junk (Z.of_nat m) n s1 Hh) as [Hp Hr]; [lia|lia|].
  rewrite Z.add_0_l. split; [exact Hp|]. cbn [unwrap_passes]. replace (Z.to_nat (Z.of_nat n + 1 - 1)) with n by lia.
  unfold wrap_pass. rewrite Hr. exact Hrun.
Qed.
End Inverse.

Lemma length_halves (Rs : list (list Z)) : Forall half Rs → length (concat Rs) = (8 * length Rs)%nat.
Proof. induction 1 as [|r Rs Hr _ IH]; [done|]. cbn [concat length]. rewrite length_app, IH, (proj1 Hr). lia. Qed.

(** C34: What an access point wraps as RFC 3394 says is unwrapped to the same keys,
    whatever initial value it was wrapped with: the code never compares the value
    it recovers with the one the standard prescribes, so it cannot tell a forged
    message; and the output is eight bytes longer than the keys, the last eight
    being what the allocated memory held before. *)
Theorem unwrap_wrap key iv Rs more junk plaintext :
  block key → half iv → Forall half Rs → (1 ≤ length Rs ≤ 30)%nat → length junk = 984%nat →
  (8 * length Rs + 8 ≤ length plaintext)%nat →
  AES_GTK_KEY_UNWRAP key (8 * Z.of_nat (length Rs) + 8) (wrap (aes128k128d key) iv Rs ++ more) (Some junk) plaintext =
    Ok (concat Rs ++ take 8 (drop (8 * length Rs) junk) ++ drop (8 * length Rs + 8) plaintext).
Proof.
  intros Hkey Hiv HR Hn Hj Hp. set (n := length Rs) in *. set (ctx := (aes_set_key key 128 (mk_aes [] [] 0)).2).
  set (J := drop (8 * n) junk). assert (length J = (984 - 8 * n)%nat) as HJ by (unfold J; rewrite length_drop; lia).
  destruct (unwrap_passes_run (aes128k128d key) ctx n (fun b => aes_block key b Hkey) (fun b => decrypt_block key _ b Hkey) ltac:(lia)
    J 6 (iv, Rs)) as [(HA & Hl & HW) Hrun]; [done|lia|].
  unfold wrap. fold n. set (W := wrap_passes (aes128k128d key) n 6 (iv, Rs)) in *. destruct W as [A Ws]. cbn [fst snd] in *.
  assert (length (concat Ws) = (8 * n)%nat) as Hlw by (rewrite length_halves by done; lia).
  unfold AES_GTK_KEY_UNWRAP. rewrite <- !app_assoc, sub_bytes_prefix by (by rewrite (proj1 HA)). cbn [mbind result_bind].
  rewrite (proj2 (Z.ltb_lt 0 _)) by lia. rewrite sub_bytes_part by (rewrite ?(proj1 HA); lia). cbn [mbind result_bind].
  rewrite <- (take_drop (8 * n) junk). fold J.
  rewrite set_bytes_prefix by (rewrite length_take; lia). cbn [mbind result_bind].
  replace ((8 * Z.of_nat n + 8) / 8) with (Z.of_nat n + 1) by (apply Z.div_unique with (r := 0); lia).
  fold ctx. unfold memory in Hrun. cbn [fst snd] in Hrun. rewrite Hrun. cbn [mbind result_bind].
  rewrite sub_bytes_in by (rewrite ?length_app, ?length_halves by done; lia). cbn [mbind result_bind].
  replace (Z.to_nat (8 * Z.of_nat n + 8)) with (length (concat Rs) + 8)%nat by (rewrite length_halves by done; lia).
  rewrite drop_0, take_app_add.
  rewrite <- (take_drop (8 * n + 8) plaintext) at 1.
  rewrite set_bytes_prefix by (rewrite length_app, !length_take, length_halves by done; fold n; lia). by rewrite <- app_assoc.
Qed.

Lemma unwrap_wrap_witness :
  AES_GTK_KEY_UNWRAP (seqZ 0 16) 24 (wrap (aes128k128d (seqZ 0 16)) (replicate 8 7) [take 8 rfc_data; drop 8 rfc_data])
    (Some (replicate 984 0xee)) (replicate 24 0) = Ok (rfc_data ++ replicate 8 0xee).
Proof.
  pose proof (unwrap_wrap (seqZ 0 16) (replicate 8 7) [take 8 rfc_data; drop 8 rfc_data] [] (replicate 984 0xee) (replicate 24 0)) as H.
  rewrite app_nil_r in H. apply H.
  - split; [reflexivity|]. apply (bool_decide_unpack _). vm_compute. exact I.
  - split; [reflexivity|]. apply (bool_decide_unpack _). vm_compute. exact I.
  - apply Forall_cons. split; [split; [reflexivity|]|].
    + apply (bool_decide_unpack _). vm_compute. exact I.
    + apply Forall_cons. split; [split; [reflexivity|]|constructor]. apply (bool_decide_unpack _). vm_compute. exact I.
  - simpl. lia.
  - reflexivity.
  - simpl. lia.
Defined.

(** A message of a single block has no key: the output is old memory. *)
Example short_message key ct junk : (8 ≤ length ct)%nat → (8 ≤ length junk)%nat →
  AES_GTK_KEY_UNWRAP key 8 ct (Some junk) (replicate 8 0) = Ok (take 8 junk).
Proof.
  intros Hc Hj. unfold AES_GTK_KEY_UNWRAP. rewrite (sub_bytes_in ct 0 8) by lia. cbn [mbind result_bind].
  change (0 <? 8 - 8) with false. cbv iota. cbn [mbind result_bind].
  pose proof (set_bytes_prefix [] junk [] eq_refl) as E0. cbn [app] in E0. rewrite E0. cbn [mbind result_bind].
  set (ctx := (aes_set_key key 128 _).2). clearbody ctx.
  match goal with |- context [unwrap_passes 6 ctx (8 / 8) ?s] => change (unwrap_passes 6 ctx (8 / 8) s) with (Ok s) end.
  cbn [mbind result_bind].
  rewrite sub_bytes_in by lia. cbn [mbind result_bind]. rewrite drop_0. change (Z.to_nat 8) with 8%nat.
  pose proof (set_bytes_prefix (replicate 8 0) [] (take 8 junk)) as E1. rewrite !app_nil_r in E1. apply E1. rewrite length_take, length_replicate. lia.
Qed.
