(* ===== verification/Digest.v ===== *)
(** * Digests

    Models the digests of the wireless driver: MD5 and SHA-1 of
    [rt2501/sources/Module/md5.c], the authentication codes and the hash of
    passwords that are built on them ([HMAC_SHA1] is in [wpa.c]).

    [ULONG] has 32 bits on the boards, which are little endian ([byteReverse] does
    nothing). *)

From S2P Require Import Prelude Words.

(** ** Contexts *)

(** [MD5_CTX] and [SHA_CTX]: four and five words, 64 and 80 bytes of input. *)
Record hash_ctx : Type := mk_hash { Buf : list Z; Input : list Z; LenInBitCount0 : Z; LenInBitCount1 : Z }.

Definition CYCLIC_LEFT_SHIFT (w s : Z) : Z := Z.lor (u32 (Z.shiftl w s)) (Z.shiftr w (32 - s)).
Definition not32 (x : Z) : Z := Z.lxor x 0xffffffff.

(** The input, read as words. *)
Fixpoint input_words (n : nat) (bs : list Z) : list Z :=
  match n with O => [] | S n' => le_val (take 4 bs) :: input_words n' (drop 4 bs) end.

(** ** MD5 *)

Definition MD5_F1 (x y z : Z) : Z := Z.lor (Z.land x y) (Z.land (not32 x) z).
Definition MD5_F2 (x y z : Z) : Z := Z.lor (Z.land x z) (Z.land y (not32 z)).
Definition MD5_F3 (x y z : Z) : Z := Z.lxor (Z.lxor x y) z.
Definition MD5_F4 (x y z : Z) : Z := Z.lxor y (Z.lor x (not32 z)).

Definition LShiftVal : list Z := [7; 12; 17; 22; 5; 9; 14; 20; 4; 11; 16; 23; 6; 10; 15; 21].
Definition MD5Table : list Z := [
  0xd76aa478; 0xe8c7b756; 0x242070db; 0xc1bdceee; 0xf57c0faf; 0x4787c62a; 0xa8304613; 0xfd469501;
  0x698098d8; 0x8b44f7af; 0xffff5bb1; 0x895cd7be; 0x6b901122; 0xfd987193; 0xa679438e; 0x49b40821;
  0xf61e2562; 0xc040b340; 0x265e5a51; 0xe9b6c7aa; 0xd62f105d; 0x02441453; 0xd8a1e681; 0xe7d3fbc8;
  0x21e1cde6; 0xc33707d6; 0xf4d50d87; 0x455a14ed; 0xa9e3e905; 0xfcefa3f8; 0x676f02d9; 0x8d2a4c8a;
  0xfffa3942; 0x8771f681; 0x6d9d6122; 0xfde5380c; 0xa4beea44; 0x4bdecfa9; 0xf6bb4b60; 0xbebfbc70;
  0x289b7ec6; 0xeaa127fa; 0xd4ef3085; 0x04881d05; 0xd9d4d039; 0xe6db99e5; 0x1fa27cf8; 0xc4ac5665;
  0xf4292244; 0x432aff97; 0xab9423a7; 0xfc93a039; 0x655b59c3; 0x8f0ccc92; 0xffeff47d; 0x85845dd1;
  0x6fa87e4f; 0xfe2ce6e0; 0xa3014314; 0x4e0811a1; 0xf7537e82; 0xbd3af235; 0x2ad7d2bb; 0xeb86d391].

Definition regs4 : Type := Z * Z * Z * Z.
(** [MD5Step] and the shift of the registers after it. *)
Definition MD5Step (f : Z → Z → Z → Z) (data t s : Z) (r : regs4) : regs4 :=
  let '(w, x, y, z) := r in
  let w := u32 (w + (f x y z + data + t)) in
  let w := Z.land (CYCLIC_LEFT_SHIFT w s) 0xffffffff in
  let w := u32 (w + x) in
  (z, w, x, y).

Definition MD5Transform (buf Mes : list Z) : list Z :=
  let r := (tab buf 0, tab buf 1, tab buf 2, tab buf 3) in
  let r := fold_left (fun r i => MD5Step MD5_F1 (tab Mes i) (tab MD5Table i) (tab LShiftVal (Z.land i 3)) r) (seqZ 0 16) r in
  let r := fold_left (fun r i => MD5Step MD5_F2 (tab Mes (Z.land (5 * Z.land i 0xf + 1) 0xf)) (tab MD5Table i)
                                   (tab LShiftVal (Z.shiftl 1 2 + Z.land i 3)) r) (seqZ 16 16) r in
  let r := fold_left (fun r i => MD5Step MD5_F3 (tab Mes (Z.land (3 * Z.land i 0xf + 5) 0xf)) (tab MD5Table i)
                                   (tab LShiftVal (Z.shiftl 1 3 + Z.land i 3)) r) (seqZ 32 16) r in
  let r := fold_left (fun r i => MD5Step MD5_F4 (tab Mes (Z.land (7 * Z.land i 0xf) 0xf)) (tab MD5Table i)
                                   (tab LShiftVal (Z.shiftl 3 2 + Z.land i 3)) r) (seqZ 48 16) r in
  let '(r0, r1, r2, r3) := r in
  [u32 (tab buf 0 + r0); u32 (tab buf 1 + r1); u32 (tab buf 2 + r2); u32 (tab buf 3 + r3)].

(** ** SHA-1 *)

Definition SHA1_F1 (b c d : Z) : Z := Z.lor (Z.land b c) (Z.land (not32 b) d).
Definition SHA1_F2 (b c d : Z) : Z := Z.lxor (Z.lxor b c) d.
Definition SHA1_F3 (b c d : Z) : Z := Z.lor (Z.lor (Z.land b c) (Z.land b d)) (Z.land c d).
Definition SHA1Table : list Z := [0x5a827999; 0x6ed9eba1; 0x8f1bbcdc; 0xca62c1d6].

Definition regs5 : Type := Z * Z * Z * Z * Z.
(** [SHA1Step] and the shift of the registers after it. *)
Definition SHA1Step (f : Z → Z → Z → Z) (w k : Z) (r : regs5) : regs5 :=
  let '(a, b, c, d, e) := r in
  let e := u32 (e + Z.land (f b c d + w + k + CYCLIC_LEFT_SHIFT a 5) 0xffffffff) in
  let b := CYCLIC_LEFT_SHIFT b 30 in
  (e, a, b, c, d).

(** The bytes of a word in the other order. *)
Definition swap_word (m : Z) : Z :=
  Z.lor (Z.lor (Z.lor (Z.land (Z.shiftr m 24) 0xff) (Z.land (Z.shiftr m 8) 0xff00)) (Z.land (u32 (Z.shiftl m 8)) 0xff0000))
    (Z.land (u32 (Z.shiftl m 24)) 0xff000000).
(** [W] from its first [16 + i] words on. *)
Fixpoint expand_words (n : nat) (i : Z) (W : list Z) : list Z :=
  match n with
  | O => W
  | S n' =>
      expand_words n' (i + 1)
        (W ++ [CYCLIC_LEFT_SHIFT (Z.lxor (Z.lxor (Z.lxor (tab W i) (tab W (2 + i))) (tab W (8 + i))) (tab W (13 + i))) 1])
  end.

Definition sha_turn (W : list Z) (r : regs5) (i : Z) : regs5 :=
  if i <? 20 then SHA1Step SHA1_F1 (tab W i) (tab SHA1Table 0) r
  else if (20 <=? i) && (i <? 40) then SHA1Step SHA1_F2 (tab W i) (tab SHA1Table 1) r
  else if (40 <=? i) && (i <? 60) then SHA1Step SHA1_F3 (tab W i) (tab SHA1Table 2) r
  else SHA1Step SHA1_F2 (tab W i) (tab SHA1Table 3) r.
Definition SHATransform (buf Mes : list Z) : list Z :=
  let W := expand_words 64 0 (swap_word <$> take 16 Mes) in
  let '(r0, r1, r2, r3, r4) :=
    fold_left (sha_turn W) (seqZ 0 80) (tab buf 0, tab buf 1, tab buf 2, tab buf 3, tab buf 4) in
  [u32 (tab buf 0 + r0); u32 (tab buf 1 + r1); u32 (tab buf 2 + r2); u32 (tab buf 3 + r3); u32 (tab buf 4 + r4)].

(** ** The input

    The functions for the two digests read and pad their input with the same code;
    [tr] is what they do with a full input. *)

Definition transform : Type := list Z → list Z → result (list Z * list Z).
Definition md5_transform : transform := fun buf inp => Ok (MD5Transform buf (input_words 16 inp), inp).
(** With the [n] bytes after the first 64 cleared. *)
Definition sha_transform (n : nat) : transform := fun buf inp =>
  inp ← set_bytes inp 64 (replicate n 0);
  Ok (SHATransform buf (input_words 20 inp), inp).

Fixpoint full_blocks (tr : transform) (n : nat) (buf inp pData : list Z) : result (list Z * list Z * list Z) :=
  match n with
  | O => Ok (buf, inp, pData)
  | S n' =>
      part ← sub_bytes pData 0 64;
      inp ← set_bytes inp 0 part;
      '(buf, inp) ← tr buf inp;
      full_blocks tr n' buf inp (drop 64 pData)
  end.

(** From "mod 64 bytes" on; [temp]: the old low word of the length. *)
Definition take_input (tr : transform) (temp : Z) (ctx : hash_ctx) (pData : list Z) (LenInBytes : Z) : result hash_ctx :=
  let temp := Z.land (Z.shiftr temp 3) 0x3f in
  let keep buf inp := mk_hash buf inp (LenInBitCount0 ctx) (LenInBitCount1 ctx) in
  let rest buf inp pData LenInBytes :=
    '(buf, inp, pData) ← full_blocks tr (Z.to_nat (Z.shiftr LenInBytes 6)) buf inp pData;
    let LenInBytes := LenInBytes - 64 * Z.shiftr LenInBytes 6 in
    if truthy LenInBytes then
      part ← sub_bytes pData 0 LenInBytes;
      inp ← set_bytes inp 0 part;
      Ok (keep buf inp)
    else Ok (keep buf inp) in
  if truthy temp then
    if u32 (temp + LenInBytes) <? 64 then
      part ← sub_bytes pData 0 LenInBytes;
      inp ← set_bytes (Input ctx) temp part;
      Ok (keep (Buf ctx) inp)
    else
      part ← sub_bytes pData 0 (64 - temp);
      inp ← set_bytes (Input ctx) temp part;
      '(buf, inp) ← tr (Buf ctx) inp;
      rest buf inp (drop (Z.to_nat (64 - temp)) pData) (LenInBytes - (64 - temp))
  else rest (Buf ctx) (Input ctx) pData LenInBytes.

(** The padding; [lens]: the bytes of the length; [tr1]: what is done when the
    padding fits the input. *)
Definition pad_input (tr1 tr : transform) (lens : list Z) (ctx : hash_ctx) : result (list Z * list Z) :=
  let Remainder := u8 (Z.land (Z.shiftr (LenInBitCount0 ctx) 3) 0x3f) in
  let PadLenInBytes := if Remainder <? 56 then 56 - Remainder else 120 - Remainder in
  inp ← set_bytes (Input ctx) Remainder [0x80];
  let PadLenInBytes := PadLenInBytes - 1 in
  if Remainder <? 56 then
    inp ← set_bytes inp (Remainder + 1) (replicate (Z.to_nat PadLenInBytes) 0);
    inp ← set_bytes inp 56 lens;
    tr1 (Buf ctx) inp
  else
    inp ← set_bytes inp (Remainder + 1) (replicate (Z.to_nat (64 - Remainder - 1)) 0);
    let PadLenInBytes := PadLenInBytes - (64 - Remainder - 1) in
    '(buf, inp) ← tr (Buf ctx) inp;
    inp ← set_bytes inp 0 (replicate (Z.to_nat PadLenInBytes) 0);
    inp ← set_bytes inp 56 lens;
    tr buf inp.

(** ** The operations *)

(** The bytes of the context's input are what the memory holds. *)
Definition MD5Init (pCtx : hash_ctx) : hash_ctx := mk_hash [0x67452301; 0xefcdab89; 0x98badcfe; 0x10325476] (Input pCtx) 0 0.

Definition MD5Update (pCtx : hash_ctx) (pData : list Z) (LenInBytes : Z) : result hash_ctx :=
  let temp := LenInBitCount0 pCtx in
  let c0 := u32 (temp + u32 (Z.shiftl LenInBytes 3)) in
  let c1 := if c0 <? temp then u32 (LenInBitCount1 pCtx + 1) else LenInBitCount1 pCtx in
  let c1 := u32 (c1 + Z.shiftr LenInBytes 29) in
  take_input md5_transform temp (mk_hash (Buf pCtx) (Input pCtx) c0 c1) pData LenInBytes.

(** The digest, and the context: [sizeof(pCtx)] is the size of a pointer, so that
    only the first word is cleared. *)
Definition MD5Final (pCtx : hash_ctx) : result (list Z * hash_ctx) :=
  let lens := le_bytes 4 (LenInBitCount0 pCtx) ++ le_bytes 4 (LenInBitCount1 pCtx) in
  '(buf, inp) ← pad_input md5_transform md5_transform lens pCtx;
  Ok (concat (le_bytes 4 <$> buf), mk_hash (0 :: tl buf) inp (LenInBitCount0 pCtx) (LenInBitCount1 pCtx)).

Definition SHAInit (pCtx : hash_ctx) : hash_ctx :=
  mk_hash [0x67452301; 0xefcdab89; 0x98badcfe; 0x10325476; 0xc3d2e1f0] (Input pCtx) 0 0.

(** The first component is the value returned. *)
Definition SHAUpdate (pCtx : hash_ctx) (pData : list Z) (LenInBytes : Z) : result (Z * hash_ctx) :=
  let temp1 := LenInBitCount0 pCtx in
  let temp2 := LenInBitCount1 pCtx in
  let c0 := u32 (temp1 + u32 (Z.shiftl LenInBytes 3)) in
  let c1 := if c0 <? temp1 then u32 (LenInBitCount1 pCtx + 1) else LenInBitCount1 pCtx in
  let c1 := u32 (c1 + Z.shiftr LenInBytes 29) in
  let ctx := mk_hash (Buf pCtx) (Input pCtx) c0 c1 in
  if c1 <? temp2 then Ok (1, ctx)
  else ctx ← take_input (sha_transform 16) temp1 ctx pData LenInBytes; Ok (0, ctx).

Definition SHAFinal (pCtx : hash_ctx) : result (list Z * hash_ctx) :=
  let lens := be_bytes 4 (LenInBitCount1 pCtx) ++ be_bytes 4 (LenInBitCount0 pCtx) in
  '(buf, inp) ← pad_input (sha_transform 14) (sha_transform 16) lens pCtx;
  Ok (concat (be_bytes 4 <$> buf), mk_hash (0 :: tl buf) inp (LenInBitCount0 pCtx) (LenInBitCount1 pCtx)).

(** ** Authentication codes

    [stack]: what the memory of the local contexts holds. A list stands for a
    pointer together with its length. *)

Definition md5_mac (stack : hash_ctx) (key data : list Z) : result (list Z) :=
  let context := MD5Init stack in
  context ← MD5Update context key (Z.of_nat (length key));
  context ← MD5Update context data (Z.of_nat (length data));
  context ← MD5Update context key (Z.of_nat (length key));
  '(mac, _) ← MD5Final context;
  Ok mac.

(** A pad of 65 bytes, with the key and then [b] added to its first 64. *)
Definition key_pad (b : Z) (key : list Z) : result (list Z) :=
  k ← set_bytes (replicate 65 0) 0 key;
  Ok (xor_bytes (take 64 k) (replicate 64 b) ++ drop 64 k).

Definition hmac_md5 (stack : hash_ctx) (key data : list Z) : result (list Z) :=
  key ← (if (64 <? Z.of_nat (length key))%Z then
           ttcontext ← MD5Update (MD5Init stack) key (Z.of_nat (length key));
           '(tk, _) ← MD5Final ttcontext;
           Ok tk
         else Ok key);
  k_ipad ← key_pad 0x36 key;
  k_opad ← key_pad 0x5c key;
  context ← MD5Update (MD5Init stack) (take 64 k_ipad) 64;
  context ← MD5Update context data (Z.of_nat (length data));
  '(mac, context) ← MD5Final context;
  context ← MD5Update (MD5Init context) (take 64 k_opad) 64;
  context ← MD5Update context mac 16;
  '(mac, _) ← MD5Final context;
  Ok mac.

(** The digest, and the key, which is overwritten when it is long. *)
Definition HMAC_SHA1 (stack : hash_ctx) (text key : list Z) : result (list Z * list Z) :=
  '(key, key_len) ←
    (if (64 <? Z.of_nat (length key))%Z then
       '(_, tctx) ← SHAUpdate (SHAInit stack) key (Z.of_nat (length key));
       '(d, _) ← SHAFinal tctx;
       key ← set_bytes key 0 d;
       Ok (key, 20)
     else Ok (key, Z.of_nat (length key)));
  k ← sub_bytes key 0 key_len;
  k_ipad ← key_pad 0x36 k;
  k_opad ← key_pad 0x5c k;
  '(_, context) ← SHAUpdate (SHAInit stack) (take 64 k_ipad) 64;
  '(_, context) ← SHAUpdate context text (Z.of_nat (length text));
  '(digest, context) ← SHAFinal context;
  '(_, context) ← SHAUpdate (SHAInit context) (take 64 k_opad) 64;
  '(_, context) ← SHAUpdate context digest 20;
  '(digest, _) ← SHAFinal context;
  Ok (digest, key).

(** ** The hash of passwords

    [password]: its characters, without the zero that ends them. *)

Definition SHA_DIGEST_LEN : Z := 20.

(** [output ^= Un], [n] times. *)
Fixpoint F_loop (n : nat) (stack : hash_ctx) (password digest1 digest output : list Z) : result (list Z) :=
  match n with
  | O => Ok output
  | S n' =>
      '(d, password) ← HMAC_SHA1 stack digest1 password;
      digest ← set_bytes digest 0 d;
      digest1 ← sub_bytes digest 0 SHA_DIGEST_LEN;
      F_loop n' stack password digest1 digest (xor_bytes output digest1)
  end.

(** [buffer]: what the 36 bytes of [digest] hold. *)
Definition F (stack : hash_ctx) (buffer password ssid : list Z) (iterations count : Z) : result (list Z) :=
  let ssidlength := Z.of_nat (length ssid) in
  digest ← set_bytes buffer 0 ssid;
  digest ← set_bytes digest ssidlength
    [u8 (Z.land (Z.shiftr count 24) 0xff); u8 (Z.land (Z.shiftr count 16) 0xff); u8 (Z.land (Z.shiftr count 8) 0xff); u8 (Z.land count 0xff)];
  text ← sub_bytes digest 0 (ssidlength + 4);
  '(digest1, password) ← HMAC_SHA1 stack text password;
  F_loop (Z.to_nat (iterations - 1)) stack password digest1 digest digest1.

(** The first component is the value returned; [output] has 40 bytes. *)
Definition PasswordHash (stack : hash_ctx) (buffer password ssid output : list Z) : result (Z * list Z) :=
  if (63 <? Z.of_nat (length password)) || (32 <? Z.of_nat (length ssid)) then Ok (0, output)
  else
    o ← F stack buffer password ssid 4096 1;
    output ← set_bytes output 0 o;
    o ← F stack buffer password ssid 4096 2;
    output ← set_bytes output SHA_DIGEST_LEN o;
    Ok (1, output).

(** Vectors of RFC 1321, RFC 3174, RFC 2202 and RFC 6070. *)
Definition unset (n : nat) : hash_ctx := mk_hash [] (replicate n 0xaa) 7 7.
Definition md5_of (msg : list Z) : result (list Z) :=
  c ← MD5Update (MD5Init (unset 64)) msg (Z.of_nat (length msg)); '(d, _) ← MD5Final c; Ok d.
Definition sha_of (msg : list Z) : result (list Z) :=
  '(_, c) ← SHAUpdate (SHAInit (unset 80)) msg (Z.of_nat (length msg)); '(d, _) ← SHAFinal c; Ok d.
Example md5_vectors :
  md5_of (str "abc") = Ok (be_bytes 16 0x900150983cd24fb0d6963f7d28e17f72) ∧
  md5_of (str "12345678901234567890123456789012345678901234567890123456789012345678901234567890") =
    Ok (be_bytes 16 0x57edf4a22be3c955ac49da2e2107b67a).
Proof. split; vm_compute; reflexivity. Qed.
Example sha_vectors :
  sha_of (str "abc") = Ok (be_bytes 20 0xa9993e364706816aba3e25717850c26c9cd0d89d) ∧
  sha_of (str "abcdbcdecdefdefgefghfghighijhijkijkljklmklmnlmnomnopnopq") = Ok (be_bytes 20 0x84983e441c3bd26ebaae4aa1f95129e5e54670f1).
Proof. split; vm_compute; reflexivity. Qed.
Example hmac_vectors :
  hmac_md5 (unset 64) (str "Jefe") (str "what do ya want for nothing?") = Ok (be_bytes 16 0x750c783e6ab0b503eaa86e310a5db738) ∧
  fst <$> HMAC_SHA1 (unset 80) (str "what do ya want for nothing?") (str "Jefe") =
    Ok (be_bytes 20 0xeffcdf6ae5eb2fa2d27416d5f184df9c259a7c79) ∧
  F (unset 80) (replicate 36 0) (str "password") (str "salt") 2 1 = Ok (be_bytes 20 0xea6c014dc72d6f8ccd1ed92ace1d41f0d8de8957).
Proof. repeat split; vm_compute; reflexivity. Qed.

(** ** Incremental hashing

    What the code for the input does, for any function [T] on blocks of 64 bytes;
    [N]: the size of the input of the context. *)

Fixpoint absorb (T : list Z → list Z → list Z) (n : nat) (st l : list Z) : list Z :=
  match n with O => st | S n' => absorb T n' (T st (take 64 l)) (drop 64 l) end.
(** The length in bits is given by its bytes. *)
Definition padded (lens m : list Z) : list Z :=
  let r := (length m mod 64)%nat in
  m ++ [0x80] ++ replicate (if decide (r < 56)%nat then 55 - r else 119 - r) 0 ++ lens.
Definition hash (T : list Z → list Z → list Z) (init lens m : list Z) : list Z :=
  absorb T (length (padded lens m) / 64) init (padded lens m).

Section Hashing.
Context (T : list Z → list Z → list Z) (init : list Z) (N : nat) (HN : (64 ≤ N)%nat).

Lemma absorb_app n m st a b : length a = (64 * n)%nat → absorb T (n + m) st (a ++ b) = absorb T m (absorb T n st a) b.
Proof.
  revert st a. induction n as [|n IH]; intros st a Ha; [by destruct a|].
  cbn [Nat.add absorb]. rewrite take_app_le, drop_app_le by lia. apply IH. rewrite length_drop. lia.
Qed.

Lemma absorb_one st a : length a = 64%nat → absorb T 1 st a = T st a.
Proof. intros Ha. cbn [absorb]. by rewrite take_ge by lia. Qed.

(** The message [m] is absorbed up to its last bytes [t]. *)
Definition consumed (m st t : list Z) : Prop :=
  ∃ q full, m = full ++ t ∧ length full = (64 * q)%nat ∧ (length t < 64)%nat ∧ st = absorb T q init full.

Lemma consumed_mod m st t : consumed m st t → (length m mod 64)%nat = length t.
Proof.
  intros (q & full & -> & Hf & Ht & _). rewrite length_app, Hf. symmetry. apply Nat.mod_unique with (q := q); lia.
Qed.

Lemma consumed_more m st t d : consumed m st t → (length t + length d < 64)%nat → consumed (m ++ d) st (t ++ d).
Proof.
  intros (q & full & -> & Hf & Ht & ->) Hd. exists q, full. rewrite <- app_assoc, length_app. done.
Qed.

Lemma consumed_blocks m st t d n :
  consumed m st t → length (t ++ d) = (64 * n)%nat → consumed (m ++ d) (absorb T n st (t ++ d)) [].
Proof.
  intros (q & full & -> & Hf & Ht & ->) Hd. exists (q + n)%nat, (full ++ t ++ d).
  rewrite <- app_assoc, app_nil_r, (absorb_app q n) by done. split; [done|]. split; [rewrite length_app; lia|]. split; [simpl; lia|done].
Qed.

(** What [tr] does with a full input. *)
Definition does (tr : transform) : Prop := ∀ buf inp, length inp = N →
  ∃ inp', tr buf inp = Ok (T buf (take 64 inp), inp') ∧ length inp' = N.

Context (tr : transform) (Htr : does tr).

Lemma full_blocks_run n buf inp pData :
  length inp = N → (64 * n ≤ length pData)%nat →
  ∃ inp', full_blocks tr n buf inp pData = Ok (absorb T n buf pData, inp', drop (64 * n) pData) ∧ length inp' = N.
Proof.
  revert buf inp pData. induction n as [|n IH]; intros buf inp pData Hi Hp; [by exists inp|].
  cbn [full_blocks absorb]. rewrite sub_bytes_in by lia. change (Z.to_nat 0) with 0%nat. change (Z.to_nat 64) with 64%nat.
  cbn [mbind result_bind]. rewrite drop_0. rewrite <- (take_drop 64 inp).
  rewrite set_bytes_prefix by (rewrite !length_take; lia). cbn [mbind result_bind].
  destruct (Htr buf (take 64 pData ++ drop 64 inp)) as (inp' & E & Hi'); [rewrite length_app, length_take, length_drop; lia|].
  rewrite E. cbn [mbind result_bind]. rewrite take_app_length' by (rewrite length_take; lia).
  destruct (IH (T buf (take 64 pData)) inp' (drop 64 pData) Hi') as (inp'' & E' & Hi''); [rewrite length_drop; lia|].
  exists inp''. rewrite E', drop_drop. split; [|done]. do 2 f_equal. f_equal. lia.
Qed.

(** The context holds the message [m]. *)
Definition holds (m : list Z) (ctx : hash_ctx) : Prop :=
  ∃ t, consumed m (Buf ctx) t ∧ take (length t) (Input ctx) = t ∧ length (Input ctx) = N.

Lemma split64 (d : list Z) : ∃ n, (64 * n ≤ length d < 64 * n + 64)%nat ∧ Z.to_nat (Z.shiftr (Z.of_nat (length d)) 6) = n ∧
  Z.of_nat (length d) - 64 * Z.shiftr (Z.of_nat (length d)) 6 = Z.of_nat (length d - 64 * n).
Proof.
  exists (length d / 64)%nat. pose proof (Nat.div_mod_eq (length d) 64). pose proof (Nat.mod_upper_bound (length d) 64 ltac:(lia)).
  rewrite (shiftr_div _ 6 64) by done. rewrite <- (Nat2Z.inj_div _ 64). lia.
Qed.

(** The part of [take_input] for an input that starts a block. *)
Lemma fresh_input m buf inp d c0 c1 :
  consumed m buf [] → length inp = N →
  ∃ ctx', (
    '(buf, inp, pData) ← full_blocks tr (Z.to_nat (Z.shiftr (Z.of_nat (length d)) 6)) buf inp d;
    let LenInBytes := Z.of_nat (length d) - 64 * Z.shiftr (Z.of_nat (length d)) 6 in
    if truthy LenInBytes then
      part ← sub_bytes pData 0 LenInBytes;
      inp ← set_bytes inp 0 part;
      Ok (mk_hash buf inp c0 c1)
    else Ok (mk_hash buf inp c0 c1)) = Ok ctx' ∧
    holds (m ++ d) ctx' ∧ LenInBitCount0 ctx' = c0 ∧ LenInBitCount1 ctx' = c1.
Proof.
  intros Hc Hi. destruct (split64 d) as (n & Hn & -> & El). rewrite El.
  destruct (full_blocks_run n buf inp d Hi) as (inp' & E & Hi'); [lia|]. rewrite E. cbn [mbind result_bind].
  set (a := take (64 * n) d). set (t := drop (64 * n) d).
  assert (d = a ++ t) as Ed by (subst a t; by rewrite take_drop).
  assert (length a = (64 * n)%nat) as Ha by (subst a; rewrite length_take; lia).
  assert (length t = (length d - 64 * n)%nat) as Ht by (subst t; rewrite length_drop; lia).
  assert (absorb T n buf d = absorb T n buf a) as ->.
  { rewrite Ed at 1. pose proof (absorb_app n 0 buf a t Ha) as H. rewrite Nat.add_0_r in H. exact H. }
  pose proof (consumed_blocks m buf [] a n Hc Ha) as Hc'. cbn [app] in Hc'.
  pose proof (consumed_more _ _ _ t Hc' ltac:(simpl; lia)) as Hc''. rewrite <- app_assoc, <- Ed in Hc''. cbn [app] in Hc''.
  rewrite <- Ht. clearbody a t. cbv zeta. unfold truthy. destruct (Z.eqb_spec (Z.of_nat (length t)) 0) as [E0|E0]; cbn [negb].
  - destruct t; [|discriminate E0]. eexists. split; [reflexivity|]. split; [|done]. exists []. done.
  - rewrite sub_bytes_all by done. cbn [mbind result_bind]. rewrite <- (take_drop (length t) inp').
    rewrite set_bytes_prefix by (rewrite length_take; lia). cbn [mbind result_bind].
    eexists. split; [reflexivity|]. split; [|done]. exists t. split; [exact Hc''|]. cbn [Input].
    split; [by apply take_app_length|]. rewrite length_app, length_drop. lia.
Qed.

Lemma take_input_run m temp ctx d :
  holds m ctx → Z.land (Z.shiftr temp 3) 0x3f = Z.of_nat (length m mod 64) → Z.of_nat (length d) < 2 ^ 31 →
  ∃ ctx', take_input tr temp ctx d (Z.of_nat (length d)) = Ok ctx' ∧ holds (m ++ d) ctx' ∧
    LenInBitCount0 ctx' = LenInBitCount0 ctx ∧ LenInBitCount1 ctx' = LenInBitCount1 ctx.
Proof.
  intros (t & Hc & Ht & Hi) Htemp Hd. rewrite (consumed_mod _ _ _ Hc) in Htemp.
  pose proof Hc as (_ & _ & _ & _ & Htl & _).
  unfold take_input. cbv zeta. rewrite Htemp. unfold truthy at 1. destruct (Z.eqb_spec (Z.of_nat (length t)) 0) as [E0|E0]; cbn [negb].
  { destruct t; [|discriminate E0]. by apply fresh_input. }
  rewrite u32_small by lia. rewrite <- (take_drop (length t) (Input ctx)), Ht.
  destruct (Z.ltb_spec (Z.of_nat (length t) + Z.of_nat (length d)) 64) as [Hlt|Hge].
  - rewrite sub_bytes_all by done. cbn [mbind result_bind].
    rewrite <- (take_drop (length d) (drop (length t) (Input ctx))).
    rewrite set_bytes_part by (rewrite ?length_take, ?length_drop; lia). cbn [mbind result_bind].
    eexists. split; [reflexivity|]. split; [|done]. exists (t ++ d). cbn [Buf Input].
    split; [apply consumed_more; [done|lia]|]. rewrite app_assoc. split; [by apply take_app_length|].
    rewrite !length_app, !length_drop. lia.
  - set (k := Z.to_nat (64 - Z.of_nat (length t))). rewrite sub_bytes_in by lia. fold k. change (Z.to_nat 0) with 0%nat.
    cbn [mbind result_bind]. rewrite drop_0. rewrite <- (take_drop k (drop (length t) (Input ctx))).
    rewrite set_bytes_part by (rewrite ?length_take, ?length_drop; lia). cbn [mbind result_bind].
    set (inp := t ++ take k d ++ drop k (drop (length t) (Input ctx))).
    assert (length (t ++ take k d) = 64%nat) as H64 by (rewrite length_app, length_take; lia).
    destruct (Htr (Buf ctx) inp) as (inp' & E & Hi'); [unfold inp; rewrite !length_app, !length_drop, length_take; lia|].
    rewrite E. cbn [mbind result_bind]. unfold inp. rewrite app_assoc, take_app_length' by done.
    replace (Z.of_nat (length d) - (64 - Z.of_nat (length t))) with (Z.of_nat (length (drop k d))) by (rewrite length_drop; lia).
    pose proof (consumed_blocks m (Buf ctx) t (take k d) 1 Hc H64) as Hc'. rewrite absorb_one in Hc' by done.
    destruct (fresh_input _ _ inp' (drop k d) (LenInBitCount0 ctx) (LenInBitCount1 ctx) Hc' Hi') as (ctx' & E' & Hh & H0 & H1).
    exists ctx'. split; [exact E'|]. rewrite <- app_assoc, take_drop in Hh. done.
Qed.
(** The blocks of the padding after [t]. *)
Lemma hash_consumed m st t lens :
  consumed m st t → length lens = 8%nat →
  hash T init lens m =
    (let pad := t ++ [0x80] ++ replicate (if decide (length t < 56)%nat then 55 - length t else 119 - length t) 0 ++ lens in
     absorb T (length pad / 64) st pad).
Proof.
  intros Hc Hl. unfold hash, padded. rewrite (consumed_mod _ _ _ Hc). destruct Hc as (q & full & -> & Hf & Ht & ->).
  set (z := if decide _ then _ else _). cbv zeta. rewrite <- app_assoc. set (pad := t ++ [0x80] ++ replicate z 0 ++ lens).
  replace (length (full ++ pad) / 64)%nat with (q + length pad / 64)%nat; [by rewrite absorb_app|].
  rewrite length_app, Hf, Nat.mul_comm, Nat.div_add_l by lia. lia.
Qed.

Lemma pad_input_run tr1 m lens ctx :
  does tr1 → holds m ctx → Z.land (Z.shiftr (LenInBitCount0 ctx) 3) 0x3f = Z.of_nat (length m mod 64) → length lens = 8%nat →
  ∃ inp', pad_input tr1 tr lens ctx = Ok (hash T init lens m, inp') ∧ length inp' = N.
Proof.
  intros Htr1 (t & Hc & Ht & Hi) Hr Hl. rewrite (hash_consumed m (Buf ctx) t lens Hc Hl).
  rewrite (consumed_mod _ _ _ Hc) in Hr. pose proof Hc as (_ & _ & _ & _ & Htl & _).
  unfold pad_input. cbv zeta. rewrite Hr, u8_small by lia.
  rewrite <- (take_drop (length t) (Input ctx)), Ht. set (y := drop (length t) (Input ctx)).
  assert (length y = (N - length t)%nat) as Hy by (unfold y; rewrite length_drop; lia). clearbody y.
  destruct (cut 1 y) as (y1 & y2 & -> & H1); [lia|]. rewrite length_app in Hy.
  rewrite set_bytes_part by done. cbn [mbind result_bind].
  destruct (Z.ltb_spec (Z.of_nat (length t)) 56) as [Hlt|Hge].
  - rewrite decide_True by lia.
    destruct (cut (55 - length t) y2) as (y3 & y4 & -> & H3); [lia|]. rewrite length_app in Hy.
    destruct (cut 8 y4) as (y5 & y6 & -> & H5); [lia|]. rewrite length_app in Hy.
    replace (Z.to_nat (56 - Z.of_nat (length t) - 1)) with (55 - length t)%nat by lia. set (z := replicate (55 - length t) 0).
    assert (length z = (55 - length t)%nat) as Hz by apply length_replicate. clearbody z.
    rewrite (app_assoc t), set_bytes_part by (rewrite ?length_app; simpl; lia). cbn [mbind result_bind].
    rewrite (app_assoc (t ++ [0x80])), set_bytes_part by (rewrite ?length_app; simpl; lia). cbn [mbind result_bind].
    set (b := t ++ [0x80] ++ z ++ lens). replace (((t ++ [0x80]) ++ z) ++ lens ++ y6) with (b ++ y6) by (unfold b; by rewrite <- !app_assoc).
    assert (length b = 64%nat) as Hb by (unfold b; rewrite !length_app; simpl; lia).
    destruct (Htr1 (Buf ctx) (b ++ y6)) as (inp' & E & Hi'); [rewrite length_app; lia|].
    exists inp'. rewrite E, take_app_length' by done. cbv zeta. rewrite Hb. change (64 / 64)%nat with 1%nat. by rewrite absorb_one.
  - rewrite decide_False by lia.
    destruct (cut (63 - length t) y2) as (y3 & y4 & -> & H3); [lia|]. rewrite length_app in Hy.
    replace (Z.to_nat (64 - Z.of_nat (length t) - 1)) with (63 - length t)%nat by lia.
    replace (Z.to_nat (120 - Z.of_nat (length t) - 1 - (64 - Z.of_nat (length t) - 1))) with 56%nat by lia.
    rewrite (app_assoc t), set_bytes_part by (rewrite ?length_app, ?length_replicate; simpl; lia). cbn [mbind result_bind].
    set (b := t ++ [0x80] ++ replicate (63 - length t) 0).
    replace ((t ++ [0x80]) ++ replicate (63 - length t) 0 ++ y4) with (b ++ y4) by (unfold b; by rewrite <- !app_assoc).
    assert (length b = 64%nat) as Hb by (unfold b; rewrite !length_app, length_replicate; simpl; lia).
    destruct (Htr (Buf ctx) (b ++ y4)) as (inp1 & E & Hi1); [rewrite length_app; lia|].
    rewrite E, take_app_length' by done. cbn [mbind result_bind].
    destruct (cut 56 inp1) as (w1 & w2 & -> & Hw1); [lia|]. rewrite length_app in Hi1.
    destruct (cut 8 w2) as (w3 & w4 & -> & Hw3); [lia|]. rewrite length_app in Hi1.
    set (z := replicate 56 0). assert (length z = 56%nat) as Hz by reflexivity. 
    rewrite set_bytes_prefix by lia. cbn [mbind result_bind]. rewrite set_bytes_part by lia. cbn [mbind result_bind].
    assert (length (z ++ lens) = 64%nat) as Hb2 by (rewrite length_app; lia).
    destruct (Htr (T (Buf ctx) b) (z ++ lens ++ w4)) as (inp2 & E2 & Hi2); [rewrite !length_app; lia|].
    exists inp2. rewrite E2, app_assoc, take_app_length' by done. split; [|done].
    replace (t ++ [0x80] ++ replicate (119 - length t) 0 ++ lens) with (b ++ z ++ lens).
    2: { unfold b, z. replace (119 - length t)%nat with ((63 - length t) + 56)%nat by lia. rewrite replicate_add, <- !app_assoc. done. }
    cbv zeta. rewrite length_app, Hb, Hb2. change ((64 + 64) / 64)%nat with (1 + 1)%nat.
    rewrite (absorb_app 1 1), !absorb_one by done. done.
Qed.
End Hashing.

(** ** The two digests *)

Definition md5_block (buf blk : list Z) : list Z := MD5Transform buf (input_words 16 blk).
Definition sha_block (buf blk : list Z) : list Z := SHATransform buf (input_words 16 blk).
Definition md5_init : list Z := [0x67452301; 0xefcdab89; 0x98badcfe; 0x10325476].
Definition sha_init : list Z := [0x67452301; 0xefcdab89; 0x98badcfe; 0x10325476; 0xc3d2e1f0].
(** The digests of RFC 1321 and RFC 3174, of the whole message. *)
Definition MD5 (m : list Z) : list Z := concat (le_bytes 4 <$> hash md5_block md5_init (le_bytes 8 (8 * Z.of_nat (length m))) m).
Definition SHA1 (m : list Z) : list Z := concat (be_bytes 4 <$> hash sha_block sha_init (be_bytes 8 (8 * Z.of_nat (length m))) m).

Lemma input_words_prefix n k l : (4 * n ≤ k)%nat → input_words n (take k l) = input_words n l.
Proof.
  revert k l. induction n as [|n IH]; intros k l Hk; [done|]. cbn [input_words].
  rewrite take_take, skipn_firstn_comm, IH by lia. by rewrite Nat.min_l by lia.
Qed.

Lemma take_input_words n m l : take n (input_words (n + m) l) = input_words n l.
Proof. revert l. induction n as [|n IH]; intros l; [done|]. cbn [Nat.add input_words take]. by rewrite IH. Qed.

Lemma sha_words buf Mes : SHATransform buf Mes = SHATransform buf (take 16 Mes).
Proof. unfold SHATransform. by rewrite take_take. Qed.

#[local] Opaque SHATransform MD5Transform.

Lemma md5_does : does md5_block 64 md5_transform.
Proof. intros buf inp Hl. exists inp. unfold md5_transform, md5_block. by rewrite take_ge by lia. Qed.

Lemma sha_does n : (n ≤ 16)%nat → does sha_block 80 (sha_transform n).
Proof.
  intros Hn buf inp Hl. unfold sha_transform.
  destruct (cut 64 inp) as (x & y & -> & Hx); [lia|]. rewrite length_app in Hl.
  destruct (cut n y) as (y1 & y2 & -> & Hy); [lia|]. rewrite length_app in Hl.
  rewrite set_bytes_part by (rewrite ?length_replicate; lia). cbn [mbind result_bind].
  exists (x ++ replicate n 0 ++ y2). split; [|rewrite !length_app, length_replicate; lia].
  rewrite take_app_length' by done. unfold sha_block. rewrite sha_words.
  replace (take 16 (input_words 20 (x ++ replicate n 0 ++ y2))) with (input_words 16 x); [reflexivity|].
  pose proof (take_input_words 16 4 (x ++ replicate n 0 ++ y2)) as E. cbn [Nat.add] in E. rewrite E.
  rewrite <- (input_words_prefix 16 64 (x ++ replicate n 0 ++ y2)) by lia. by rewrite (take_app_length' x) by done.
Qed.

(** The length in bits, in two words. *)
Definition counted (m : list Z) (ctx : hash_ctx) : Prop :=
  LenInBitCount0 ctx = u32 (8 * Z.of_nat (length m)) ∧ LenInBitCount1 ctx = u32 (8 * Z.of_nat (length m) / 2 ^ 32).

Lemma count_bits c (m : list Z) : c = u32 (8 * Z.of_nat (length m)) → Z.land (Z.shiftr c 3) 0x3f = Z.of_nat (length m mod 64).
Proof.
  intros ->. rewrite (land_ones_mod _ 6), (shiftr_div _ 3 8), Nat2Z.inj_mod by done. unfold u32.
  change (2 ^ 6) with 64. change (2 ^ 32) with 4294967296. dlia.
Qed.

Lemma count_more a b :
  0 ≤ a → 0 ≤ b < 2 ^ 32 →
  let c0 := u32 (u32 (8 * a) + u32 (Z.shiftl b 3)) in
  let c1 := if c0 <? u32 (8 * a) then u32 (u32 (8 * a / 2 ^ 32) + 1) else u32 (8 * a / 2 ^ 32) in
  c0 = u32 (8 * (a + b)) ∧ u32 (c1 + Z.shiftr b 29) = u32 (8 * (a + b) / 2 ^ 32).
Proof.
  intros Ha Hb. cbv zeta. rewrite Z.shiftl_mul_pow2, (shiftr_div b 29 (2 ^ 29)) by done. unfold u32.
  change (2 ^ 32) with 4294967296 in *. change (2 ^ 29) with 536870912. change (2 ^ 3) with 8.
  assert ((((8 * a) mod 4294967296 + (b * 8) mod 4294967296) mod 4294967296) = (8 * (a + b)) mod 4294967296) as E0 by dlia.
  rewrite E0. split; [done|].
  destruct (Z.ltb_spec ((8 * (a + b)) mod 4294967296) ((8 * a) mod 4294967296)) as [Hc|Hc].
  - assert ((8 * (a + b)) / 4294967296 = 8 * a / 4294967296 + b / 536870912 + 1) as -> by dlia.
    rewrite Zplus_mod_idemp_l, <- Z.add_assoc, Zplus_mod_idemp_l. f_equal. lia.
  - assert ((8 * (a + b)) / 4294967296 = 8 * a / 4294967296 + b / 536870912) as -> by dlia.
    rewrite Zplus_mod_idemp_l. done.
Qed.

Lemma le_bytes_u32 z : le_bytes 4 (u32 z) = le_bytes 4 z.
Proof.
  cbn [le_bytes]. unfold u32. change (2 ^ 32) with 4294967296. repeat (apply (f_equal2 cons); [dlia|]). done.
Qed.

Lemma le_bytes_8 z : le_bytes 8 z = le_bytes 4 (u32 z) ++ le_bytes 4 (u32 (z / 2 ^ 32)).
Proof.
  rewrite !le_bytes_u32. cbn [le_bytes app]. rewrite !Z.div_div by lia. done.
Qed.

Lemma be_bytes_8 z : be_bytes 8 z = be_bytes 4 (u32 (z / 2 ^ 32)) ++ be_bytes 4 (u32 z).
Proof. unfold be_bytes. by rewrite le_bytes_8, reverse_app. Qed.

(** ** The operations *)

(** A context that was started and given the message [m]. *)
Definition md5_holds (m : list Z) (ctx : hash_ctx) : Prop := holds md5_block md5_init 64 m ctx ∧ counted m ctx.
Definition sha_holds (m : list Z) (ctx : hash_ctx) : Prop := holds sha_block sha_init 80 m ctx ∧ counted m ctx.

Lemma start_holds T init N inp : length inp = N → holds T init N [] (mk_hash init inp 0 0).
Proof. intros Hi. exists []. split; [|done]. exists 0%nat, []. repeat split. simpl. lia. Qed.

Lemma holds_len T init N m b i c0 c1 c0' c1' : holds T init N m (mk_hash b i c0 c1) → holds T init N m (mk_hash b i c0' c1').
Proof. done. Qed.

Lemma md5_start ctx : length (Input ctx) = 64%nat → md5_holds [] (MD5Init ctx).
Proof. intros Hi. split; [by apply start_holds|done]. Qed.

Lemma md5_update_run m ctx d :
  md5_holds m ctx → Z.of_nat (length d) < 2 ^ 31 →
  ∃ ctx', MD5Update ctx d (Z.of_nat (length d)) = Ok ctx' ∧ md5_holds (m ++ d) ctx'.
Proof.
  intros [Hh [H0 H1]] Hd. unfold MD5Update. cbv zeta.
  destruct (count_more (Z.of_nat (length m)) (Z.of_nat (length d))) as [E0 E1]; [lia|lia|]. cbv zeta in E0, E1.
  rewrite H0, H1, E1, E0.
  destruct (take_input_run md5_block md5_init 64 ltac:(lia) md5_transform md5_does m (u32 (8 * Z.of_nat (length m)))
    (mk_hash (Buf ctx) (Input ctx) (u32 (8 * (Z.of_nat (length m) + Z.of_nat (length d))))
       (u32 (8 * (Z.of_nat (length m) + Z.of_nat (length d)) / 2 ^ 32))) d) as (ctx' & E & Hh' & G0 & G1);
    [by apply (holds_len _ _ _ _ _ _ (LenInBitCount0 ctx) (LenInBitCount1 ctx)); destruct ctx|by apply count_bits|done|].
  exists ctx'. split; [exact E|]. split; [exact Hh'|]. unfold counted. rewrite length_app, Nat2Z.inj_add, G0, G1. done.
Qed.

Lemma md5_final_run m ctx : md5_holds m ctx → ∃ ctx', MD5Final ctx = Ok (MD5 m, ctx') ∧ length (Input ctx') = 64%nat.
Proof.
  intros [Hh [H0 H1]]. unfold MD5Final, MD5. rewrite H0, H1, le_bytes_8. cbv zeta.
  destruct (pad_input_run md5_block md5_init 64 ltac:(lia) md5_transform md5_does md5_transform m
    (le_bytes 4 (u32 (8 * Z.of_nat (length m))) ++ le_bytes 4 (u32 (8 * Z.of_nat (length m) / 2 ^ 32))) ctx md5_does Hh)
    as (inp' & E & Hi); [by apply count_bits|done|].
  rewrite E. eexists. split; [reflexivity|exact Hi].
Qed.

Lemma sha_start ctx : length (Input ctx) = 80%nat → sha_holds [] (SHAInit ctx).
Proof. intros Hi. split; [by apply start_holds|done]. Qed.

Lemma sha_update_run m ctx d :
  sha_holds m ctx → Z.of_nat (length d) < 2 ^ 31 → Z.of_nat (length m) + Z.of_nat (length d) < 2 ^ 61 →
  ∃ ctx', SHAUpdate ctx d (Z.of_nat (length d)) = Ok (0, ctx') ∧ sha_holds (m ++ d) ctx'.
Proof.
  intros [Hh [H0 H1]] Hd Hmd. unfold SHAUpdate. cbv zeta.
  destruct (count_more (Z.of_nat (length m)) (Z.of_nat (length d))) as [E0 E1]; [lia|lia|]. cbv zeta in E0, E1.
  rewrite H0, H1, E1, E0.
  assert ((u32 (8 * (Z.of_nat (length m) + Z.of_nat (length d)) / 2 ^ 32) <? u32 (8 * Z.of_nat (length m) / 2 ^ 32)) = false) as ->.
  { apply Z.ltb_ge. rewrite !u32_small; [apply Z.div_le_mono; lia|..];
      (split; [apply Z.div_pos; lia|apply Z.div_lt_upper_bound; lia]). }
  destruct (take_input_run sha_block sha_init 80 ltac:(lia) (sha_transform 16) (sha_does 16 ltac:(lia)) m (u32 (8 * Z.of_nat (length m)))
    (mk_hash (Buf ctx) (Input ctx) (u32 (8 * (Z.of_nat (length m) + Z.of_nat (length d))))
       (u32 (8 * (Z.of_nat (length m) + Z.of_nat (length d)) / 2 ^ 32))) d) as (ctx' & E & Hh' & G0 & G1);
    [by apply (holds_len _ _ _ _ _ _ (LenInBitCount0 ctx) (LenInBitCount1 ctx)); destruct ctx|by apply count_bits|done|].
  exists ctx'. rewrite E. split; [done|]. split; [exact Hh'|]. unfold counted. rewrite length_app, Nat2Z.inj_add, G0, G1. done.
Qed.

Lemma sha_final_run m ctx : sha_holds m ctx → ∃ ctx', SHAFinal ctx = Ok (SHA1 m, ctx') ∧ length (Input ctx') = 80%nat.
Proof.
  intros [Hh [H0 H1]]. unfold SHAFinal, SHA1. rewrite H0, H1, be_bytes_8. cbv zeta.
  destruct (pad_input_run sha_block sha_init 80 ltac:(lia) (sha_transform 16) (sha_does 16 ltac:(lia)) (sha_transform 14) m
    (be_bytes 4 (u32 (8 * Z.of_nat (length m) / 2 ^ 32)) ++ be_bytes 4 (u32 (8 * Z.of_nat (length m)))) ctx (sha_does 14 ltac:(lia)) Hh)
    as (inp' & E & Hi); [by apply count_bits|done|].
  rewrite E. eexists. split; [reflexivity|exact Hi].
Qed.

Fixpoint md5_updates (ctx : hash_ctx) (ps : list (list Z)) : result hash_ctx :=
  match ps with [] => Ok ctx | p :: ps' => ctx ← MD5Update ctx p (Z.of_nat (length p)); md5_updates ctx ps' end.
Fixpoint sha_updates (ctx : hash_ctx) (ps : list (list Z)) : result hash_ctx :=
  match ps with [] => Ok ctx | p :: ps' => '(_, ctx) ← SHAUpdate ctx p (Z.of_nat (length p)); sha_updates ctx ps' end.

Lemma md5_updates_run m ctx ps :
  md5_holds m ctx → Forall (fun p => Z.of_nat (length p) < 2 ^ 31) ps →
  ∃ ctx', md5_updates ctx ps = Ok ctx' ∧ md5_holds (m ++ concat ps) ctx'.
Proof.
  intros Hm Hps. revert m ctx Hm. induction Hps as [|p ps Hp _ IH]; intros m ctx Hm.
  { exists ctx. cbn [concat]. by rewrite app_nil_r. }
  cbn [md5_updates concat]. destruct (md5_update_run m ctx p Hm Hp) as (c & -> & Hc). cbn [mbind result_bind].
  destruct (IH _ _ Hc) as (c' & E & Hc'). exists c'. by rewrite <- app_assoc in Hc'.
Qed.

Lemma sha_updates_run m ctx ps :
  sha_holds m ctx → Forall (fun p => Z.of_nat (length p) < 2 ^ 31) ps → Z.of_nat (length m) + Z.of_nat (length (concat ps)) < 2 ^ 61 →
  ∃ ctx', sha_updates ctx ps = Ok ctx' ∧ sha_holds (m ++ concat ps) ctx'.
Proof.
  intros Hm Hps. revert m ctx Hm. induction Hps as [|p ps Hp _ IH]; intros m ctx Hm Hl.
  { exists ctx. cbn [concat]. by rewrite app_nil_r. }
  cbn [sha_updates concat] in *. rewrite length_app in Hl.
  destruct (sha_update_run m ctx p Hm Hp) as (c & -> & Hc); [lia|]. cbn [mbind result_bind].
  destruct (IH _ _ Hc) as (c' & E & Hc'); [rewrite length_app; lia|]. exists c'. by rewrite <- app_assoc in Hc'.
Qed.

(** C30: However a message is cut into pieces for [MD5Update] and [SHAUpdate], and
    whatever the context held before, the digest is that of the whole message
    padded and taken in blocks of 64 bytes; for MD5 of any length, for SHA-1 of less
    than 2^64 bits, where [SHAUpdate] starts to refuse. *)
Theorem digest_incremental ctx ps :
  Forall (fun p => Z.of_nat (length p) < 2 ^ 31) ps →
  (length (Input ctx) = 64%nat →
    ∃ ctx', (c ← md5_updates (MD5Init ctx) ps; MD5Final c) = Ok (MD5 (concat ps), ctx')) ∧
  (length (Input ctx) = 80%nat → Z.of_nat (length (concat ps)) < 2 ^ 61 →
    ∃ ctx', (c ← sha_updates (SHAInit ctx) ps; SHAFinal c) = Ok (SHA1 (concat ps), ctx')).
Proof.
  intros Hps. split.
  - intros Hi. destruct (md5_updates_run [] _ ps (md5_start ctx Hi) Hps) as (c & -> & Hc).
    destruct (md5_final_run _ _ Hc) as (c' & E & _). exists c'. exact E.
  - intros Hi Hl. destruct (sha_updates_run [] _ ps (sha_start ctx Hi) Hps) as (c & -> & Hc); [simpl; lia|].
    destruct (sha_final_run _ _ Hc) as (c' & E & _). exists c'. exact E.
Qed.

Lemma digest_incremental_witness :
  (∃ ctx', (c ← md5_updates (MD5Init (unset 64)) [str "a"; []; str "bc"]; MD5Final c) =
     Ok (be_bytes 16 0x900150983cd24fb0d6963f7d28e17f72, ctx')) ∧
  (∃ ctx', (c ← sha_updates (SHAInit (unset 80)) [str "a"; []; str "bc"]; SHAFinal c) =
     Ok (be_bytes 20 0xa9993e364706816aba3e25717850c26c9cd0d89d, ctx')).
Proof.
  assert (Forall (fun p : list Z => Z.of_nat (length p) < 2 ^ 31) [str "a"; []; str "bc"]) as Hp
    by (repeat (apply Forall_cons; split; [reflexivity|]); constructor).
  assert (MD5 (concat [str "a"; []; str "bc"]) = be_bytes 16 0x900150983cd24fb0d6963f7d28e17f72) as E1 by (vm_compute; reflexivity).
  assert (SHA1 (concat [str "a"; []; str "bc"]) = be_bytes 20 0xa9993e364706816aba3e25717850c26c9cd0d89d) as E2 by (vm_compute; reflexivity).
  split.
  - rewrite <- E1. apply (proj1 (digest_incremental (unset 64) [str "a"; []; str "bc"] Hp)). reflexivity.
  - rewrite <- E2. apply (proj2 (digest_incremental (unset 80) [str "a"; []; str "bc"] Hp)); reflexivity.
Defined.

(** The context is not cleared: all but the first word of the state is left. *)
Example context_not_cleared :
  (fun r => tl (Buf r.2)) <$> MD5Final (MD5Init (unset 64)) = Ok (tl (hash md5_block md5_init (replicate 8 0) [])) ∧
  MD5 [] = concat (le_bytes 4 <$> hash md5_block md5_init (replicate 8 0) []).
Proof. split; vm_compute; reflexivity. Qed.

(** ** Authentication codes *)

(** HMAC of RFC 2104, for a digest [H] with blocks of 64 bytes. *)
Definition HMAC (H : list Z → list Z) (key text : list Z) : list Z :=
  let k := if decide (64 < length key)%nat then H key else key in
  let k0 := k ++ replicate (64 - length k) 0 in
  H (xor_bytes k0 (replicate 64 0x5c) ++ H (xor_bytes k0 (replicate 64 0x36) ++ text)).

Lemma absorb_length T k n st l : (∀ b x, length (T b x) = k) → length st = k → length (absorb T n st l) = k.
Proof. intros HT. revert st l. induction n as [|n IH]; intros st l Hs; [done|]. cbn [absorb]. by apply IH. Qed.

Lemma length_words (f : Z → list Z) ws : (∀ w, length (f w) = 4%nat) → length (concat (f <$> ws)) = (4 * length ws)%nat.
Proof. intros Hf. induction ws as [|w ws IH]; [done|]. cbn [fmap list_fmap concat length] in *. rewrite length_app, Hf, IH. lia. Qed.

#[local] Transparent SHATransform MD5Transform.
Lemma length_MD5Transform b x : length (MD5Transform b x) = 4%nat.
Proof. unfold MD5Transform. cbv zeta. destruct (fold_left _ (seqZ 48 16) _) as [[[r0 r1] r2] r3]. reflexivity. Qed.

Lemma length_SHATransform b x : length (SHATransform b x) = 5%nat.
Proof. unfold SHATransform. cbv zeta. destruct (fold_left _ (seqZ 0 80) _) as [[[[r0 r1] r2] r3] r4]. reflexivity. Qed.
#[local] Opaque SHATransform MD5Transform.

Lemma length_MD5 m : length (MD5 m) = 16%nat.
Proof.
  unfold MD5. rewrite length_words by done. unfold hash. rewrite (absorb_length _ 4); [done| |done].
  intros b x. apply length_MD5Transform.
Qed.

Lemma length_SHA1 m : length (SHA1 m) = 20%nat.
Proof.
  unfold SHA1. rewrite length_words by done. unfold hash. rewrite (absorb_length _ 5); [done| |done].
  intros b x. apply length_SHATransform.
Qed.

Lemma key_pad_run b k : (length k ≤ 64)%nat → key_pad b k = Ok (xor_bytes (k ++ replicate (64 - length k) 0) (replicate 64 b) ++ [0]).
Proof.
  intros Hk. unfold key_pad. replace 65%nat with (length k + ((64 - length k) + 1))%nat by lia.
  rewrite replicate_add, set_bytes_prefix by (rewrite length_replicate; done). cbn [mbind result_bind].
  rewrite replicate_add, app_assoc. rewrite take_app_length', drop_app_length' by (rewrite length_app, length_replicate; lia). done.
Qed.

Definition pad_of (b : Z) (k : list Z) : list Z := xor_bytes (k ++ replicate (64 - length k) 0) (replicate 64 b).

Lemma length_pad_of b k : (length k ≤ 64)%nat → length (pad_of b k) = 64%nat.
Proof. intros Hk. unfold pad_of. rewrite length_xor_bytes, length_app, !length_replicate. lia. Qed.

Lemma take_pad b k : (length k ≤ 64)%nat → take 64 (pad_of b k ++ [0]) = pad_of b k.
Proof. intros Hk. apply take_app_length'. by rewrite length_pad_of. Qed.

(** One digest over two parts, as both passes have it. *)
Lemma md5_two ctx a b :
  length (Input ctx) = 64%nat → Z.of_nat (length a) < 2 ^ 31 → Z.of_nat (length b) < 2 ^ 31 →
  ∃ c1 c2 c3, MD5Update (MD5Init ctx) a (Z.of_nat (length a)) = Ok c1 ∧ MD5Update c1 b (Z.of_nat (length b)) = Ok c2 ∧
    MD5Final c2 = Ok (MD5 (a ++ b), c3) ∧ length (Input c3) = 64%nat.
Proof.
  intros Hi Ha Hb. destruct (md5_update_run [] _ a (md5_start ctx Hi) Ha) as (c1 & E1 & H1).
  destruct (md5_update_run _ _ b H1 Hb) as (c2 & E2 & H2). destruct (md5_final_run _ _ H2) as (c3 & E3 & H3).
  by exists c1, c2, c3.
Qed.

Lemma sha_two ctx a b :
  length (Input ctx) = 80%nat → Z.of_nat (length a) < 2 ^ 31 → Z.of_nat (length b) < 2 ^ 31 →
  ∃ c1 c2 c3, SHAUpdate (SHAInit ctx) a (Z.of_nat (length a)) = Ok (0, c1) ∧ SHAUpdate c1 b (Z.of_nat (length b)) = Ok (0, c2) ∧
    SHAFinal c2 = Ok (SHA1 (a ++ b), c3) ∧ length (Input c3) = 80%nat.
Proof.
  intros Hi Ha Hb. destruct (sha_update_run [] _ a (sha_start ctx Hi) Ha) as (c1 & E1 & H1); [simpl; lia|].
  destruct (sha_update_run _ _ b H1 Hb) as (c2 & E2 & H2); [cbn [app]; lia|]. destruct (sha_final_run _ _ H2) as (c3 & E3 & H3).
  by exists c1, c2, c3.
Qed.

Lemma hmac_md5_run stack key data :
  length (Input stack) = 64%nat → Z.of_nat (length key) < 2 ^ 31 → Z.of_nat (length data) < 2 ^ 31 →
  hmac_md5 stack key data = Ok (HMAC MD5 key data).
Proof.
  intros Hi Hk Hd. unfold hmac_md5, HMAC.
  set (k := if decide (64 < length key)%nat then MD5 key else key).
  assert (length k ≤ 64)%nat as Hkl by (unfold k; destruct (decide _); [rewrite length_MD5|]; lia).
  match goal with |- (?m ≫= _) = _ => assert (m = Ok k) as -> end.
  { unfold k. destruct (decide (64 < length key)%nat) as [H|H].
    - rewrite (proj2 (Z.ltb_lt _ _)) by lia. destruct (md5_update_run [] _ key (md5_start stack Hi) Hk) as (c & -> & Hc).
      cbn [mbind result_bind]. destruct (md5_final_run _ _ Hc) as (c' & -> & _). done.
    - by rewrite (proj2 (Z.ltb_ge _ _)) by lia. }
  cbn [mbind result_bind]. clearbody k. rewrite !key_pad_run by done. cbn [mbind result_bind].
  fold (pad_of 0x36 k) (pad_of 0x5c k). rewrite !take_pad by done.
  pose proof (length_pad_of 0x36 k Hkl) as Hp. pose proof (length_pad_of 0x5c k Hkl) as Hq.
  destruct (md5_two stack (pad_of 0x36 k) data Hi) as (c1 & c2 & c3 & E1 & E2 & E3 & H3); [lia|done|].
  rewrite Hp in E1. change (Z.of_nat 64) with 64 in E1. rewrite E1. cbn [mbind result_bind]. rewrite E2. cbn [mbind result_bind].
  rewrite E3. cbn [mbind result_bind].
  destruct (md5_two c3 (pad_of 0x5c k) (MD5 (pad_of 0x36 k ++ data)) H3) as (d1 & d2 & d3 & G1 & G2 & G3 & _);
    [lia|rewrite length_MD5; lia|].
  rewrite Hq in G1. change (Z.of_nat 64) with 64 in G1. rewrite length_MD5 in G2. change (Z.of_nat 16) with 16 in G2.
  rewrite G1. cbn [mbind result_bind]. rewrite G2. cbn [mbind result_bind]. rewrite G3. done.
Qed.

Lemma hmac_sha_run stack text key :
  length (Input stack) = 80%nat → Z.of_nat (length key) < 2 ^ 31 → Z.of_nat (length text) < 2 ^ 31 →
  HMAC_SHA1 stack text key = Ok (HMAC SHA1 key text, if decide (64 < length key)%nat then SHA1 key ++ drop 20 key else key).
Proof.
  intros Hi Hk Hd. unfold HMAC_SHA1, HMAC.
  set (k := if decide (64 < length key)%nat then SHA1 key else key).
  set (key' := if decide (64 < length key)%nat then SHA1 key ++ drop 20 key else key).
  assert (length k ≤ 64)%nat as Hkl by (unfold k; destruct (decide _); [rewrite length_SHA1|]; lia).
  match goal with |- (?m ≫= _) = _ => assert (m = Ok (key', Z.of_nat (length k))) as -> end.
  { unfold k, key'. destruct (decide (64 < length key)%nat) as [H|H].
    - rewrite (proj2 (Z.ltb_lt _ _)) by lia. destruct (sha_update_run [] _ key (sha_start stack Hi) Hk) as (c & -> & Hc); [simpl; lia|].
      cbn [mbind result_bind]. destruct (sha_final_run _ _ Hc) as (c' & -> & _). cbn [mbind result_bind app].
      rewrite <- (take_drop 20 key) at 1. rewrite set_bytes_prefix by (rewrite length_SHA1, length_take; lia).
      cbn [mbind result_bind]. by rewrite length_SHA1.
    - by rewrite (proj2 (Z.ltb_ge _ _)) by lia. }
  cbn [mbind result_bind].
  assert (sub_bytes key' 0 (Z.of_nat (length k)) = Ok k) as ->.
  { unfold k, key'. destruct (decide _); [by apply sub_bytes_prefix|by apply sub_bytes_all]. }
  cbn [mbind result_bind]. clearbody k key'. rewrite !key_pad_run by done. cbn [mbind result_bind].
  fold (pad_of 0x36 k) (pad_of 0x5c k). rewrite !take_pad by done.
  pose proof (length_pad_of 0x36 k Hkl) as Hp. pose proof (length_pad_of 0x5c k Hkl) as Hq.
  destruct (sha_two stack (pad_of 0x36 k) text Hi) as (c1 & c2 & c3 & E1 & E2 & E3 & H3); [lia|done|].
  rewrite Hp in E1. change (Z.of_nat 64) with 64 in E1. rewrite E1. cbn [mbind result_bind]. rewrite E2. cbn [mbind result_bind].
  rewrite E3. cbn [mbind result_bind].
  destruct (sha_two c3 (pad_of 0x5c k) (SHA1 (pad_of 0x36 k ++ text)) H3) as (d1 & d2 & d3 & G1 & G2 & G3 & _);
    [lia|rewrite length_SHA1; lia|].
  rewrite Hq in G1. change (Z.of_nat 64) with 64 in G1. rewrite length_SHA1 in G2. change (Z.of_nat 20) with 20 in G2.
  rewrite G1. cbn [mbind result_bind]. rewrite G2. cbn [mbind result_bind]. rewrite G3. done.
Qed.

(** [hmac_md5] and [HMAC_SHA1] compute the HMAC of RFC 2104 for keys and texts of
    any length, and [md5_mac] the digest of key, data and key; a key of more than 64
    bytes is overwritten by [HMAC_SHA1] with its digest, in the caller's memory. *)
Theorem hmac_correct md5_stack sha_stack key text :
  length (Input md5_stack) = 64%nat → length (Input sha_stack) = 80%nat →
  Z.of_nat (length key) < 2 ^ 31 → Z.of_nat (length text) < 2 ^ 31 →
  hmac_md5 md5_stack key text = Ok (HMAC MD5 key text) ∧
  md5_mac md5_stack key text = Ok (MD5 (key ++ text ++ key)) ∧
  HMAC_SHA1 sha_stack text key = Ok (HMAC SHA1 key text, if decide (64 < length key)%nat then SHA1 key ++ drop 20 key else key).
Proof.
  intros Hm Hs Hk Ht. split; [by apply hmac_md5_run|]. split; [|by apply hmac_sha_run].
  unfold md5_mac. cbv zeta. destruct (md5_update_run [] _ key (md5_start md5_stack Hm) Hk) as (c1 & -> & H1). cbn [mbind result_bind].
  destruct (md5_update_run _ _ text H1 Ht) as (c2 & -> & H2). cbn [mbind result_bind].
  destruct (md5_update_run _ _ key H2 Hk) as (c3 & -> & H3). cbn [mbind result_bind].
  destruct (md5_final_run _ _ H3) as (c4 & -> & _). cbn [mbind result_bind app]. by rewrite <- app_assoc.
Qed.

Lemma hmac_correct_witness :
  hmac_md5 (unset 64) (replicate 80 0xaa) (str "Test Using Larger Than Block-Size Key - Hash Key First") =
    Ok (be_bytes 16 0x6b1ab7fe4bd7bf8f0b62e6ce61b9d0cd) ∧
  fst <$> HMAC_SHA1 (unset 80) (str "Test Using Larger Than Block-Size Key - Hash Key First") (replicate 80 0xaa) =
    Ok (be_bytes 20 0xaa4ae5e15272d00e95705637ce8a3b55ed402112).
Proof.
  destruct (hmac_correct (unset 64) (unset 80) (replicate 80 0xaa) (str "Test Using Larger Than Block-Size Key - Hash Key First"))
    as (H1 & _ & H3).
  - reflexivity.
  - reflexivity.
  - reflexivity.
  - reflexivity.
  - rewrite H1, H3. split; vm_compute; reflexivity.
Defined.

(** ** The hash of passwords *)

(** PBKDF2 of RFC 2898 with HMAC-SHA-1: the block [i] of the key. *)
Definition pbkdf2_block (password salt : list Z) (c : nat) (i : Z) : list Z :=
  let u1 := HMAC SHA1 password (salt ++ be_bytes 4 i) in
  fold_left xor_bytes ((fun j => Nat.iter j (HMAC SHA1 password) u1) <$> seq 1 (c - 1)) u1.

Lemma length_HMAC key text : length (HMAC SHA1 key text) = 20%nat.
Proof. apply length_SHA1. Qed.

Lemma F_loop_run n stack password u digest output :
  length (Input stack) = 80%nat → (length password ≤ 64)%nat → length u = 20%nat → length digest = 36%nat →
  F_loop n stack password u digest output =
    Ok (fold_left xor_bytes ((fun j => Nat.iter j (HMAC SHA1 password) u) <$> seq 1 n) output).
Proof.
  intros Hi Hp. revert u digest output. induction n as [|n IH]; intros u digest output Hu Hd; [done|].
  cbn [F_loop]. rewrite hmac_sha_run by lia. cbn [mbind result_bind]. rewrite decide_False by lia.
  rewrite <- (take_drop 20 digest). rewrite set_bytes_prefix by (rewrite length_HMAC, length_take; lia). cbn [mbind result_bind].
  rewrite sub_bytes_prefix by by rewrite length_HMAC. cbn [mbind result_bind].
  rewrite IH by (rewrite ?length_app, ?length_drop, ?length_HMAC; lia). cbn [seq fmap list_fmap fold_left Nat.iter].
  f_equal. f_equal. rewrite <- (fmap_S_seq 1 n), <- list_fmap_compose. apply list_fmap_ext. intros i j _. simpl.
  by rewrite <- Nat.iter_succ_r.
Qed.

Lemma be_bytes_4 z : [u8 (Z.land (Z.shiftr z 24) 0xff); u8 (Z.land (Z.shiftr z 16) 0xff); u8 (Z.land (Z.shiftr z 8) 0xff); u8 (Z.land z 0xff)] =
  be_bytes 4 z.
Proof.
  rewrite !(land_ones_mod _ 8 0xff), !Z.shiftr_div_pow2 by done. unfold be_bytes, u8. cbn [le_bytes reverse rev_append].
  rewrite !Z.div_div, !(Z.mod_mod _ (2 ^ 8)) by lia. done.
Qed.

Lemma F_run stack buffer password ssid c count :
  length (Input stack) = 80%nat → length buffer = 36%nat → (length password ≤ 64)%nat → (length ssid ≤ 32)%nat → (1 ≤ c)%nat →
  F stack buffer password ssid (Z.of_nat c) count = Ok (pbkdf2_block password ssid c count) ∧ length (pbkdf2_block password ssid c count) = 20%nat.
Proof.
  intros Hi Hb Hp Hs Hc. split.
  - unfold F. cbv zeta. rewrite be_bytes_4. rewrite <- (take_drop (length ssid) buffer).
    rewrite set_bytes_prefix by (rewrite length_take; lia). cbn [mbind result_bind].
    set (y := drop (length ssid) buffer). assert (length y = (36 - length ssid)%nat) as Hy by (unfold y; rewrite length_drop; lia).
    assert (length (be_bytes 4 count) = 4%nat) as H4 by done.
    rewrite <- (take_drop 4 y). rewrite set_bytes_part by (rewrite ?H4, ?length_take; lia). cbn [mbind result_bind].
    rewrite app_assoc, sub_bytes_prefix by (rewrite length_app, H4; lia). cbn [mbind result_bind].
    rewrite hmac_sha_run by (rewrite ?length_app; lia). cbn [mbind result_bind]. rewrite decide_False by lia.
    rewrite F_loop_run by (rewrite ?length_app, ?length_drop, ?length_HMAC; lia).
    by replace (Z.to_nat (Z.of_nat c - 1)) with (c - 1)%nat by lia.
  - unfold pbkdf2_block. cbv zeta. set (u1 := HMAC SHA1 password _). assert (length u1 = 20%nat) as Hu by apply length_HMAC.
    assert (∀ l acc, Forall (fun x => length x = 20%nat) l → length acc = 20%nat → length (fold_left xor_bytes l acc) = 20%nat) as Hf.
    { intros l. induction l as [|x l IH]; intros acc Hl Ha; [done|]. apply Forall_cons in Hl as [Hx Hl]. cbn [fold_left].
      apply IH; [done|]. rewrite length_xor_bytes. lia. }
    apply Hf; [|done]. apply Forall_fmap, Forall_forall. intros [|j] _; [done|]. apply length_HMAC.
Qed.

Lemma two_blocks stack buffer password ssid output c :
  length (Input stack) = 80%nat → length buffer = 36%nat → (40 ≤ length output)%nat → (length password ≤ 63)%nat → (length ssid ≤ 32)%nat →
  (1 ≤ c)%nat →
  (o ← F stack buffer password ssid (Z.of_nat c) 1;
   output ← set_bytes output 0 o;
   o ← F stack buffer password ssid (Z.of_nat c) 2;
   output ← set_bytes output SHA_DIGEST_LEN o;
   Ok (1, output)) = Ok (1, pbkdf2_block password ssid c 1 ++ pbkdf2_block password ssid c 2 ++ drop 40 output).
Proof.
  intros Hi Hb Ho Hp Hs Hc.
  destruct (F_run stack buffer password ssid c 1 Hi Hb ltac:(lia) Hs Hc) as [E1 H1].
  destruct (F_run stack buffer password ssid c 2 Hi Hb ltac:(lia) Hs Hc) as [E2 H2].
  rewrite E1, E2. cbn [mbind result_bind].
  destruct (cut 20 output) as (o1 & o & -> & Ho1); [lia|]. rewrite length_app in Ho.
  destruct (cut 20 o) as (o2 & o3 & -> & Ho2); [lia|]. rewrite length_app in Ho.
  rewrite set_bytes_prefix by lia. cbn [mbind result_bind]. rewrite set_bytes_part by (unfold SHA_DIGEST_LEN; lia).
  cbn [mbind result_bind]. rewrite app_assoc, (app_assoc o1), drop_app_length' by (rewrite length_app; lia). by rewrite app_assoc.
Qed.

#[local] Opaque F pbkdf2_block.

(** C31: [PasswordHash] derives the 40 bytes of WPA's pre-shared key as PBKDF2 with
    4096 iterations does, from passwords of up to 63 characters and network names of
    up to 32 bytes; others are refused and the output left alone. It never leaves
    its buffers. *)
Theorem password_hash_is_pbkdf2 stack buffer password ssid output :
  length (Input stack) = 80%nat → length buffer = 36%nat → (40 ≤ length output)%nat →
  PasswordHash stack buffer password ssid output =
    Ok (if decide (length password ≤ 63 ∧ length ssid ≤ 32)%nat
        then (1, pbkdf2_block password ssid 4096 1 ++ pbkdf2_block password ssid 4096 2 ++ drop 40 output)
        else (0, output)).
Proof.
  intros Hi Hb Ho. unfold PasswordHash. destruct (decide _) as [[Hp Hs]|Hn].
  - rewrite (proj2 (Z.ltb_ge _ _)), (proj2 (Z.ltb_ge _ _)) by lia. cbn [orb].
    apply (two_blocks stack buffer password ssid output 4096); lia.
  - destruct ((63 <? Z.of_nat (length password)) || (32 <? Z.of_nat (length ssid))) eqn:E; [done|].
    apply orb_false_elim in E as [E1 E2]. apply Z.ltb_ge in E1, E2. exfalso. apply Hn. lia.
Qed.

Lemma password_hash_is_pbkdf2_witness :
  PasswordHash (unset 80) (replicate 36 0) (str "password") (str "miavita") (replicate 40 0) =
    Ok (1, pbkdf2_block (str "password") (str "miavita") 4096 1 ++ pbkdf2_block (str "password") (str "miavita") 4096 2 ++ drop 40 (replicate 40 0)) ∧
  PasswordHash (unset 80) (replicate 36 0) (replicate 64 7) (str "miavita") (replicate 40 0) = Ok (0, replicate 40 0).
Proof.
  split.
  - rewrite (password_hash_is_pbkdf2 (unset 80) (replicate 36 0) (str "password") (str "miavita") (replicate 40 0)).
    + rewrite decide_True by (split; apply Nat.leb_le; reflexivity). reflexivity.
    + reflexivity.
    + reflexivity.
    + rewrite length_replicate. lia.
  - rewrite (password_hash_is_pbkdf2 (unset 80) (replicate 36 0) (replicate 64 7) (str "miavita") (replicate 40 0)).
    + rewrite decide_False by (rewrite length_replicate; intros [H _]; lia). reflexivity.
    + reflexivity.
    + reflexivity.
    + rewrite length_replicate. lia.
Defined.
