(* ===== verification/Ptk.v ===== *)
(** * The pairwise keys of WPA

    [src/rt2501/sources/Module/wpa.c] ([PRF], [WpaCountPTK], [GenRandom],
    [inc_byte_array]) and [rtmp_init.c] ([RTMPCompareMemory]): the pseudo random
    function of IEEE 802.11i, the pairwise transient key the two stations of a
    handshake derive from the master key, the nonce a station contributes and the
    counter of its requests.

    A pointer is the list of the bytes it points to, and a length given beside it is
    the length of that list. [stack] is the context [HMAC_SHA1] finds on the stack,
    [alloc] what [kmalloc] returns ([None] when it fails). *)

From S2P Require Import Prelude Words Digest.

(** ** Comparison and increment of byte arrays *)

Fixpoint compare_from (n : nat) (pMem1 pMem2 : list Z) (Index : Z) : result Z :=
  match n with
  | O => Ok 0
  | S n' =>
      a ← nth_byte pMem1 Index;
      b ← nth_byte pMem2 Index;
      if b <? a then Ok 1 else if a <? b then Ok 2 else compare_from n' pMem1 pMem2 (Index + 1)
  end.

(** 0: equal; 1: the first is larger; 2: the second is larger. *)
Definition RTMPCompareMemory (pSrc1 pSrc2 : list Z) (Length : Z) : result Z := compare_from (Z.to_nat Length) pSrc1 pSrc2 0.

(** [n]: the positions left, so that [pos = n - 1]. *)
Fixpoint inc_from (n : nat) (counter : list Z) : result (list Z) :=
  match n with
  | O => Ok counter
  | S pos =>
      c ← nth_byte counter (Z.of_nat pos);
      let c := u8 (c + 1) in
      counter ← set_bytes counter (Z.of_nat pos) [c];
      if c =? 0 then inc_from pos counter else Ok counter
  end.

Definition inc_byte_array (counter : list Z) (len : Z) : result (list Z) := inc_from (Z.to_nat len) counter.

(** ** The pseudo random function *)

Fixpoint prf_rounds (n : nat) (stack : hash_ctx) (input : list Z) (total_len : Z) (key output : list Z) (currentindex : Z) : result (list Z * list Z * list Z) :=
  match n with
  | O => Ok (input, key, output)
  | S n' =>
      text ← sub_bytes input 0 total_len;
      '(digest, key) ← HMAC_SHA1 stack text key;
      output ← set_bytes output currentindex digest;
      c ← nth_byte input (total_len - 1);
      input ← set_bytes input (total_len - 1) [u8 (c + 1)];
      prf_rounds n' stack input total_len key output (currentindex + 20)
  end.

(** The bytes of [prf_input], [key] and [output] afterwards. *)
Definition PRF (stack : hash_ctx) (alloc : option (list Z)) (prf_input key prefix data output : list Z) (len : Z) : result (list Z * list Z * list Z) :=
  let prefix_len := Z.of_nat (length prefix) in
  let data_len := Z.of_nat (length data) in
  let input := match alloc with Some m => m | None => prf_input end in
  input ← set_bytes input 0 prefix;
  input ← set_bytes input prefix_len [0];
  input ← set_bytes input (prefix_len + 1) data;
  let total_len := prefix_len + 1 + data_len in
  input ← set_bytes input total_len [0];
  let total_len := total_len + 1 in
  '(input, key, output) ← prf_rounds (Z.to_nat (Z.quot (len + 19) 20)) stack input total_len key output 0;
  Ok (match alloc with Some _ => prf_input | None => input end, key, output).

(** ** The pairwise transient key *)

Definition LEN_MASTER_KEY : Z := 32.
Definition LEN_PTK : Z := 64.
Definition MAC_ADDR_LEN : Z := 6.
Definition expansion_prefix : list Z := str "Pairwise key expansion".

(** [concatenation]: what the array holds before. *)
Definition WpaCountPTK (stack : hash_ctx) (alloc : option (list Z)) (prf_input concatenation PMK ANonce AA SNonce SA output : list Z) (len : Z) : result (list Z * list Z) :=
  (* smaller address, larger address *)
  c ← RTMPCompareMemory SA AA 6;
  a ← sub_bytes (if c =? 1 then AA else SA) 0 6;
  concatenation ← set_bytes concatenation 0 a;
  c ← RTMPCompareMemory SA AA 6;
  a ← sub_bytes (if c =? 1 then SA else AA) 0 6;
  concatenation ← set_bytes concatenation 6 a;
  (* smaller nonce, larger nonce *)
  c ← RTMPCompareMemory ANonce SNonce 32;
  a ← sub_bytes (if c =? 1 then SNonce else ANonce) 0 32;
  concatenation ← set_bytes concatenation 12 a;
  c ← RTMPCompareMemory ANonce SNonce 32;
  a ← sub_bytes (if c =? 1 then ANonce else SNonce) 0 32;
  concatenation ← set_bytes concatenation 44 a;
  key ← sub_bytes PMK 0 LEN_MASTER_KEY;
  '(prf_input, _, output) ← PRF stack alloc prf_input key expansion_prefix concatenation output len;
  Ok (prf_input, output).

(** ** The nonce *)

(** [jiffies i]: the tick count read in round [i], of 32 bits. *)
Fixpoint random_rounds (n : nat) (stack : hash_ctx) (allocs : nat → option (list Z)) (CurrentAddress : list Z) (jiffies : nat → Z) (i : nat)
    (prf_input local KeyCounter result_ : list Z) : result (list Z * list Z) :=
  match n with
  | O => Ok (prf_input, result_)
  | S n' =>
      let curr := MAC_ADDR_LEN in
      local ← set_bytes local 0 CurrentAddress;
      let curr := curr + MAC_ADDR_LEN in
      local ← set_bytes local curr (le_bytes 4 (jiffies i));
      let curr := curr + 4 in
      r ← sub_bytes result_ 0 32;
      local ← set_bytes local curr r;
      let curr := curr + 32 in
      local ← set_bytes local curr (le_bytes 2 (Z.of_nat i));
      let curr := curr + 2 in
      data ← sub_bytes local 0 curr;
      '(prf_input, KeyCounter, result_) ← PRF stack (allocs i) prf_input KeyCounter (str "Init Counter") data result_ 32;
      random_rounds n' stack allocs CurrentAddress jiffies (S i) prf_input local KeyCounter result_
  end.

(** [pool]: whether the 256 bytes could be allocated; without them [random] is left
    as it was. *)
Definition GenRandom (stack : hash_ctx) (pool : bool) (allocs : nat → option (list Z)) (CurrentAddress : list Z) (jiffies : nat → Z) (prf_input random : list Z) : result (list Z * list Z) :=
  if negb pool then Ok (prf_input, random)
  else
    local ← set_bytes (replicate 80 0) 0 CurrentAddress;
    '(prf_input, result_) ← random_rounds 32 stack allocs CurrentAddress jiffies 0 prf_input local (replicate 32 0) (replicate 80 0);
    r ← sub_bytes result_ 0 32;
    random ← set_bytes random 0 r;
    Ok (prf_input, random).

(** The vector of IEEE 802.11i, annex H.3. *)
Example prf_vector :
  (fun r => take 24 r.2) <$> PRF (unset 80) None (replicate 1024 0xaa) (replicate 20 0x0b) (str "prefix") (str "Hi There") (replicate 40 0) 24 =
    Ok (be_bytes 24 0xbcd4c650b30b9684951829e0d75f9d54b862175ed9f00606).
Proof. vm_compute. reflexivity. Qed.

(** ** Byte arrays as numbers

    The first byte is the most significant, as IEEE 802.11i orders addresses and
    nonces. *)

Lemma le_val_app a b : le_val (a ++ b) = le_val a + 256 ^ Z.of_nat (length a) * le_val b.
Proof.
  induction a as [|x a IH]; cbn [app le_val length]; [lia|].
  rewrite IH, Nat2Z.inj_succ, Z.pow_succ_r by lia. lia.
Qed.

Lemma be_val_cons x l : be_val (x :: l) = x * 256 ^ Z.of_nat (length l) + be_val l.
Proof. unfold be_val. rewrite reverse_cons, le_val_app, length_reverse. cbn [le_val]. lia. Qed.

Lemma be_val_snoc l x : be_val (l ++ [x]) = 256 * be_val l + x.
Proof. unfold be_val. rewrite reverse_snoc. cbn [le_val]. lia. Qed.

Lemma be_val_range bs : bytes_ok bs → 0 ≤ be_val bs < 256 ^ Z.of_nat (length bs).
Proof. intros H. unfold be_val. rewrite <- (length_reverse bs). by apply le_val_range, bytes_ok_reverse. Qed.

Lemma be_val_inj a b : bytes_ok a → bytes_ok b → length a = length b → be_val a = be_val b → a = b.
Proof.
  intros Ha Hb Hl He. apply (inj reverse).
  rewrite <- (le_bytes_le_val (reverse a) (length a)), <- (le_bytes_le_val (reverse b) (length b)) by
    (rewrite ?bytes_ok_reverse, ?length_reverse; done).
  unfold be_val in He. by rewrite He, Hl.
Qed.

(** The code [RTMPCompareMemory] gives for the order of two numbers. *)
Definition order_code (c : comparison) : Z := match c with Eq => 0 | Gt => 1 | Lt => 2 end.

Lemma compare_from_run p q a b :
  bytes_ok a → bytes_ok b → length p = length q → length a = length b →
  compare_from (length a) (p ++ a) (q ++ b) (Z.of_nat (length p)) = Ok (order_code (be_val a ?= be_val b)).
Proof.
  intros Ha. revert p q b. induction Ha as [|x a Hx Ha IH]; intros p q [|y b] Hb Hpq Hab; try done.
  apply Forall_cons in Hb as [Hy Hb]. injection Hab as Hab. cbn [length compare_from].
  rewrite !nth_byte_part by lia. cbn [mbind result_bind]. rewrite !be_val_cons, <- Hab.
  pose proof (be_val_range a Ha) as Hra. pose proof (be_val_range b Hb) as Hrb. rewrite <- Hab in Hrb.
  destruct (Z.ltb_spec y x).
  { rewrite (proj2 (Z.compare_gt_iff _ _)) by nia. done. }
  destruct (Z.ltb_spec x y).
  { rewrite (proj2 (Z.compare_lt_iff _ _)) by nia. done. }
  assert (x = y) as -> by lia. replace (Z.of_nat (length p) + 1) with (Z.of_nat (length (p ++ [y]))) by (rewrite length_app; simpl; lia).
  rewrite (cons_middle y p a), (cons_middle y q b), !app_assoc, IH by (rewrite ?length_app; auto).
  f_equal. f_equal. destruct (Z.compare_spec (be_val a) (be_val b)); symmetry;
    [apply Z.compare_eq_iff|apply Z.compare_lt_iff|apply Z.compare_gt_iff]; lia.
Qed.

Lemma compare_memory_run a b n :
  bytes_ok a → bytes_ok b → Z.of_nat (length a) = n → length b = length a →
  RTMPCompareMemory a b n = Ok (order_code (be_val a ?= be_val b)).
Proof.
  intros Ha Hb <- Hl. unfold RTMPCompareMemory. rewrite Nat2Z.id. by apply (compare_from_run [] []).
Qed.

Lemma inc_from_run c s :
  bytes_ok c → ∃ c', inc_from (length c) (c ++ s) = Ok (c' ++ s) ∧ length c' = length c ∧ bytes_ok c' ∧
    be_val c' = (be_val c + 1) mod 256 ^ Z.of_nat (length c).
Proof.
  revert s. induction c as [|x c IH] using rev_ind; intros s Hc; [exists []; done|].
  apply Forall_app in Hc as [Hc Hx]. apply Forall_cons in Hx as [Hx _].
  rewrite length_app, Nat.add_1_r. cbn [inc_from]. rewrite <- app_assoc. cbn [app].
  rewrite nth_byte_part by done. cbn [mbind result_bind]. cbv zeta.
  rewrite (set_bytes_part c [x] s) by done. cbn [mbind result_bind app].
  rewrite be_val_snoc, Nat2Z.inj_succ, Z.pow_succ_r by lia. pose proof (be_val_range c Hc) as Hr.
  destruct (Z.eqb_spec (u8 (x + 1)) 0) as [E|E].
  - destruct (IH (u8 (x + 1) :: s) Hc) as (c' & E' & Hl & Hb & Hv). exists (c' ++ [u8 (x + 1)]). rewrite E'.
    assert (x = 255) as -> by (unfold u8 in E; dlia).
    split; [by rewrite <- app_assoc|]. split; [rewrite length_app; simpl; lia|].
    split; [apply Forall_app; split; [done|]; apply Forall_cons; split; [rewrite E; lia|constructor]|].
    rewrite be_val_snoc, Hv, E. replace (256 * be_val c + 255 + 1) with (256 * (be_val c + 1)) by lia.
    rewrite Z.mul_mod_distr_l by lia. lia.
  - exists (c ++ [u8 (x + 1)]). assert (x + 1 < 256) as Hlt by (unfold u8 in *; dlia). assert (u8 (x + 1) = x + 1) as Hu by (unfold u8; dlia).
    split; [by rewrite <- app_assoc|]. split; [rewrite length_app; simpl; lia|].
    split; [apply Forall_app; split; [done|]; apply Forall_cons; split; [rewrite Hu; lia|constructor]|].
    rewrite be_val_snoc, Hu, Z.mod_small by lia. lia.
Qed.

(** ** The pseudo random function of IEEE 802.11i *)

#[local] Opaque HMAC SHA1.

(** Rounds [k], ..., [k + n - 1]. *)
Definition prf_blocks (key m : list Z) (k n : nat) : list Z :=
  concat ((fun i => HMAC SHA1 key (m ++ [u8 (Z.of_nat i)])) <$> seq k n).

(** PRF-[len]: as many blocks as hold [len] bytes. *)
Definition prf_spec (key prefix data : list Z) (len : nat) : list Z :=
  take len (prf_blocks key (prefix ++ [0] ++ data) 0 ((len + 19) / 20)).

Lemma length_prf_blocks key m k n : length (prf_blocks key m k n) = (20 * n)%nat.
Proof.
  unfold prf_blocks. revert k. induction n as [|n IH]; intros k; [done|]. cbn [seq fmap list_fmap concat].
  rewrite length_app, length_HMAC, IH. lia.
Qed.

Lemma prf_rounds_run n stack m k rest key o old :
  length (Input stack) = 80%nat → (length key ≤ 64)%nat → (length m < 1024)%nat → (20 * n ≤ length old)%nat →
  prf_rounds n stack (m ++ u8 (Z.of_nat k) :: rest) (Z.of_nat (length m) + 1) key (o ++ old) (Z.of_nat (length o)) =
    Ok (m ++ u8 (Z.of_nat (k + n)) :: rest, key, o ++ prf_blocks key m k n ++ drop (20 * n) old).
Proof.
  intros Hi Hk Hm. revert k o old. induction n as [|n IH]; intros k o old Ho.
  { cbn [prf_rounds Nat.mul drop]. by rewrite Nat.add_0_r. }
  cbn [prf_rounds]. rewrite (cons_middle _ m rest), (app_assoc m), (sub_bytes_prefix (m ++ [u8 (Z.of_nat k)]) rest) by (rewrite length_app; simpl; lia).
  cbn [mbind result_bind]. rewrite hmac_sha_run by (rewrite ?length_app; simpl; lia). cbn [mbind result_bind].
  rewrite decide_False by lia. set (d := HMAC SHA1 key _). assert (length d = 20%nat) as Hd by apply length_HMAC.
  destruct (cut 20 old) as (o1 & o2 & -> & Ho1); [lia|]. rewrite length_app in Ho.
  rewrite (set_bytes_part o o1 o2 d) by lia. cbn [mbind result_bind].
  rewrite <- (app_assoc m). cbn [app]. rewrite nth_byte_part by lia. cbn [mbind result_bind].
  rewrite (cons_middle _ m rest), (set_bytes_part m [_] rest) by (simpl; lia). cbn [mbind result_bind app].
  replace (u8 (u8 (Z.of_nat k) + 1)) with (u8 (Z.of_nat (S k))) by (unfold u8; rewrite Z.add_mod_idemp_l by lia; f_equal; lia).
  rewrite (app_assoc o d). replace (Z.of_nat (length o) + 20) with (Z.of_nat (length (o ++ d))) by (rewrite length_app; lia).
  rewrite IH by lia. replace (S k + n)%nat with (k + S n)%nat by lia. f_equal. f_equal.
  unfold prf_blocks. cbn [seq fmap list_fmap concat]. fold d. rewrite <- !app_assoc. do 3 f_equal.
  replace (20 * S n)%nat with (length o1 + 20 * n)%nat by lia. by rewrite drop_app_add.
Qed.

Lemma prf_run stack alloc prf_input key prefix data output len :
  length (Input stack) = 80%nat → (length key ≤ 64)%nat →
  length (default prf_input alloc) = 1024%nat → (length prefix + length data + 2 ≤ 1024)%nat →
  (20 * ((len + 19) / 20) ≤ length output)%nat →
  ∃ prf_input', length prf_input' = length prf_input ∧
    PRF stack alloc prf_input key prefix data output (Z.of_nat len) =
      Ok (prf_input', key, prf_blocks key (prefix ++ [0] ++ data) 0 ((len + 19) / 20) ++ drop (20 * ((len + 19) / 20)) output).
Proof.
  intros Hi Hk Ha Hl Ho. unfold PRF. cbv zeta.
  replace (Z.to_nat (Z.quot (Z.of_nat len + 19) 20)) with ((len + 19) / 20)%nat by
    (rewrite Z.quot_div_nonneg by lia; rewrite <- (Nat2Z.id (_ / 20)), Nat2Z.inj_div; f_equal; f_equal; lia).
  set (n := ((len + 19) / 20)%nat) in *.
  replace (match alloc with Some m => m | None => prf_input end) with (default prf_input alloc) by (by destruct alloc).
  set (mem := default prf_input alloc) in *.
  destruct (cut (length prefix) mem) as (m1 & r1 & Em & H1); [lia|].
  assert (length mem = length m1 + length r1)%nat as L1 by (by rewrite Em, length_app).
  destruct (cut 1 r1) as (m2 & r2 & E2 & H2); [lia|]. assert (length r1 = length m2 + length r2)%nat as L2 by (by rewrite E2, length_app).
  destruct (cut (length data) r2) as (m3 & r3 & E3 & H3); [lia|]. assert (length r2 = length m3 + length r3)%nat as L3 by (by rewrite E3, length_app).
  destruct (cut 1 r3) as (m4 & r4 & E4 & H4); [lia|].
  rewrite Em, (set_bytes_prefix m1 r1 prefix) by lia. cbn [mbind result_bind].
  rewrite E2, (set_bytes_part prefix m2 r2 [0]) by (simpl; lia). cbn [mbind result_bind].
  rewrite E3, (app_assoc prefix), (set_bytes_part (prefix ++ [0]) m3 r3 data) by (rewrite ?length_app; simpl; lia). cbn [mbind result_bind].
  rewrite E4, (app_assoc (prefix ++ [0])), (set_bytes_part ((prefix ++ [0]) ++ data) m4 r4 [0]) by (rewrite ?length_app; simpl; lia).
  cbn [mbind result_bind app]. rewrite <- (app_assoc prefix). set (m := prefix ++ [0] ++ data).
  assert (length m = length prefix + 1 + length data)%nat as Hm by (unfold m; rewrite !length_app; simpl; lia).
  replace (Z.of_nat (length prefix) + 1 + Z.of_nat (length data) + 1) with (Z.of_nat (length m) + 1) by lia.
  pose proof (prf_rounds_run n stack m 0 r4 key [] output Hi Hk ltac:(lia) Ho) as E. cbn [app length] in E. change (u8 (Z.of_nat 0)) with 0 in E.
  change (Z.of_nat 0) with 0 in E. rewrite E. cbn [mbind result_bind].
  exists (match alloc with Some _ => prf_input | None => m ++ u8 (Z.of_nat (0 + n)) :: r4 end). split; [|done].
  destruct alloc; [done|]. subst mem. cbn [default] in L1. rewrite length_app. cbn [length]. rewrite E4, length_app in L3. lia.
Qed.

(** ** The pairwise transient key *)

Definition min_bytes (a b : list Z) : list Z := if be_val a <=? be_val b then a else b.
Definition max_bytes (a b : list Z) : list Z := if be_val a <=? be_val b then b else a.

(** PTK = PRF(PMK, "Pairwise key expansion", Min(AA, SPA) || Max(AA, SPA) ||
    Min(ANonce, SNonce) || Max(ANonce, SNonce)). *)
Definition ptk_spec (PMK AA SA ANonce SNonce : list Z) (len : nat) : list Z :=
  prf_spec PMK expansion_prefix (min_bytes AA SA ++ max_bytes AA SA ++ min_bytes ANonce SNonce ++ max_bytes ANonce SNonce) len.

(** [n] bytes. *)
Definition array (n : nat) (a : list Z) : Prop := bytes_ok a ∧ length a = n.

Lemma min_bytes_comm n a b : array n a → array n b → min_bytes a b = min_bytes b a.
Proof.
  intros [Ha La] [Hb Lb]. unfold min_bytes. destruct (Z.leb_spec (be_val a) (be_val b)), (Z.leb_spec (be_val b) (be_val a)); try done; [|lia].
  apply be_val_inj; [done..|congruence|lia].
Qed.

Lemma max_bytes_comm n a b : array n a → array n b → max_bytes a b = max_bytes b a.
Proof.
  intros [Ha La] [Hb Lb]. unfold max_bytes. destruct (Z.leb_spec (be_val a) (be_val b)), (Z.leb_spec (be_val b) (be_val a)); try done; [|lia].
  apply be_val_inj; [done..|congruence|lia].
Qed.

Lemma ptk_spec_comm PMK AA SA ANonce SNonce len :
  array 6 AA → array 6 SA → array 32 ANonce → array 32 SNonce → ptk_spec PMK AA SA ANonce SNonce len = ptk_spec PMK SA AA SNonce ANonce len.
Proof.
  intros. unfold ptk_spec. by rewrite (min_bytes_comm 6 AA SA), (max_bytes_comm 6 AA SA), (min_bytes_comm 32 ANonce SNonce), (max_bytes_comm 32 ANonce SNonce).
Qed.

(** The choices [WpaCountPTK] makes with the code of the comparison. *)
Lemma choose_min a b : (if order_code (be_val a ?= be_val b) =? 1 then b else a) = min_bytes a b.
Proof. unfold min_bytes, Z.leb, order_code. by destruct (be_val a ?= be_val b). Qed.

Lemma choose_max a b : (if order_code (be_val a ?= be_val b) =? 1 then a else b) = max_bytes a b.
Proof. unfold max_bytes, Z.leb, order_code. by destruct (be_val a ?= be_val b). Qed.

Lemma length_min n a b : array n a → array n b → length (min_bytes a b) = n.
Proof. intros [_ La] [_ Lb]. unfold min_bytes. by destruct (_ <=? _). Qed.

Lemma length_max n a b : array n a → array n b → length (max_bytes a b) = n.
Proof. intros [_ La] [_ Lb]. unfold max_bytes. by destruct (_ <=? _). Qed.

#[local] Opaque min_bytes max_bytes PRF.

Lemma count_ptk_run stack alloc prf_input conc PMK ANonce AA SNonce SA output len :
  length (Input stack) = 80%nat → length (default prf_input alloc) = 1024%nat → length conc = 76%nat → (32 ≤ length PMK)%nat →
  array 6 AA → array 6 SA → array 32 ANonce → array 32 SNonce → (20 * ((len + 19) / 20) ≤ length output)%nat →
  ∃ m out, WpaCountPTK stack alloc prf_input conc PMK ANonce AA SNonce SA output (Z.of_nat len) = Ok (m, out) ∧
    take len out = ptk_spec (take 32 PMK) AA SA ANonce SNonce len ∧ length out = length output.
Proof.
  intros Hs Hm Hc Hk HA HS Han Hsn Ho. unfold WpaCountPTK.
  rewrite (compare_memory_run SA AA 6) by (destruct HA, HS; (done || lia)). cbn [mbind result_bind].
  rewrite (compare_memory_run ANonce SNonce 32) by (destruct Han, Hsn; (done || lia)). cbn [mbind result_bind].
  rewrite !choose_min, !choose_max.
  pose proof (length_min 6 SA AA HS HA) as L1. pose proof (length_max 6 SA AA HS HA) as L2.
  pose proof (length_min 32 ANonce SNonce Han Hsn) as L3. pose proof (length_max 32 ANonce SNonce Han Hsn) as L4.
  destruct (cut 6 conc) as (c1 & r1 & -> & H1); [lia|]. rewrite length_app in Hc.
  destruct (cut 6 r1) as (c2 & r2 & -> & H2); [lia|]. rewrite length_app in Hc.
  destruct (cut 32 r2) as (c3 & c4 & -> & H3); [lia|]. rewrite length_app in Hc.
  unfold ptk_spec. rewrite (min_bytes_comm 6 AA SA), (max_bytes_comm 6 AA SA) by done.
  set (a1 := min_bytes SA AA) in *. set (a2 := max_bytes SA AA) in *. set (a3 := min_bytes ANonce SNonce) in *. set (a4 := max_bytes ANonce SNonce) in *.
  clearbody a1 a2 a3 a4. rewrite (sub_bytes_all a1) by lia. cbn [mbind result_bind]. rewrite (set_bytes_prefix c1) by lia. cbn [mbind result_bind].
  rewrite (sub_bytes_all a2) by lia. cbn [mbind result_bind]. rewrite (set_bytes_part a1 c2) by lia. cbn [mbind result_bind].
  rewrite (sub_bytes_all a3) by lia. cbn [mbind result_bind].
  rewrite (app_assoc a1 a2), (set_bytes_part (a1 ++ a2) c3) by (rewrite ?length_app; lia). cbn [mbind result_bind].
  rewrite (sub_bytes_all a4) by lia. cbn [mbind result_bind].
  replace ((a1 ++ a2) ++ a3 ++ c4) with (((a1 ++ a2) ++ a3) ++ c4 ++ []) by (by rewrite app_nil_r, <- !app_assoc).
  rewrite (set_bytes_part ((a1 ++ a2) ++ a3) c4 []) by (rewrite ?length_app; lia). cbn [mbind result_bind].
  rewrite app_nil_r, <- !app_assoc. rewrite (sub_bytes_in PMK 0 LEN_MASTER_KEY) by (unfold LEN_MASTER_KEY; lia). cbn [mbind result_bind].
  change (take (Z.to_nat LEN_MASTER_KEY) (drop (Z.to_nat 0) PMK)) with (take 32 PMK).
  assert (length expansion_prefix = 22%nat) as Hp by done.
  destruct (prf_run stack alloc prf_input (take 32 PMK) expansion_prefix (a1 ++ a2 ++ a3 ++ a4) output len)
    as (m & _ & E); [done|rewrite length_take; lia|done|rewrite !length_app; lia|done|].
  rewrite E. cbn [mbind result_bind]. do 2 eexists. split; [reflexivity|].
  pose proof (length_prf_blocks (take 32 PMK) (expansion_prefix ++ [0] ++ a1 ++ a2 ++ a3 ++ a4) 0 ((len + 19) / 20)) as Hb.
  split; [|rewrite length_app, Hb, length_drop; lia]. unfold prf_spec. rewrite take_app_le; [done|]. rewrite Hb.
  pose proof (Nat.div_mod_eq (len + 19) 20). pose proof (Nat.mod_upper_bound (len + 19) 20). lia.
Qed.

(** C40: The station and the access point derive the same pairwise key of 64 bytes,
    each from its own memory (whether or not [kmalloc] succeeds there) and in its own
    order of arguments, and it is the key IEEE 802.11i defines: PRF-512 of the master
    key over the smaller and the larger address and nonce. Neither call leaves its
    buffers; the array of 80 bytes the callers have is just large enough. *)
Theorem ptk_agreement stack1 alloc1 mem1 conc1 out1 stack2 alloc2 mem2 conc2 out2 PMK ANonce AA SNonce SA :
  length (Input stack1) = 80%nat → length (default mem1 alloc1) = 1024%nat → length conc1 = 76%nat → length out1 = 80%nat →
  length (Input stack2) = 80%nat → length (default mem2 alloc2) = 1024%nat → length conc2 = 76%nat → length out2 = 80%nat →
  length PMK = 32%nat → array 6 AA → array 6 SA → array 32 ANonce → array 32 SNonce →
  ∃ m1 m2 k1 k2,
    WpaCountPTK stack1 alloc1 mem1 conc1 PMK ANonce AA SNonce SA out1 LEN_PTK = Ok (m1, k1) ∧
    WpaCountPTK stack2 alloc2 mem2 conc2 PMK SNonce SA ANonce AA out2 LEN_PTK = Ok (m2, k2) ∧
    take 64 k1 = ptk_spec PMK AA SA ANonce SNonce 64 ∧ take 64 k2 = take 64 k1 ∧ length k1 = 80%nat ∧ length k2 = 80%nat.
Proof.
  intros Hs1 Hm1 Hc1 Ho1 Hs2 Hm2 Hc2 Ho2 Hk HA HS Han Hsn.
  destruct (count_ptk_run stack1 alloc1 mem1 conc1 PMK ANonce AA SNonce SA out1 64) as (m1 & k1 & E1 & T1 & L1); try done; try (simpl; lia).
  destruct (count_ptk_run stack2 alloc2 mem2 conc2 PMK SNonce SA ANonce AA out2 64) as (m2 & k2 & E2 & T2 & L2); try done; try (simpl; lia).
  exists m1, m2, k1, k2. rewrite T1, T2, !(take_ge PMK) by lia. rewrite (ptk_spec_comm PMK AA) by done.
  repeat split; (done || lia).
Qed.

Lemma ptk_agreement_witness :
  ∃ m1 m2 k1 k2,
    WpaCountPTK (unset 80) (Some (replicate 1024 1)) [] (replicate 76 9) (replicate 32 0x11) (replicate 32 3) (replicate 6 5) (replicate 32 4) (replicate 6 2) (replicate 80 0) LEN_PTK = Ok (m1, k1) ∧
    WpaCountPTK (unset 80) None (replicate 1024 0) (replicate 76 0) (replicate 32 0x11) (replicate 32 4) (replicate 6 2) (replicate 32 3) (replicate 6 5) (replicate 80 7) LEN_PTK = Ok (m2, k2) ∧
    take 64 k1 = ptk_spec (replicate 32 0x11) (replicate 6 5) (replicate 6 2) (replicate 32 3) (replicate 32 4) 64 ∧ take 64 k2 = take 64 k1 ∧
    length k1 = 80%nat ∧ length k2 = 80%nat.
Proof.
  apply (ptk_agreement (unset 80) (Some (replicate 1024 1)) [] (replicate 76 9) (replicate 80 0)
           (unset 80) None (replicate 1024 0) (replicate 76 0) (replicate 80 7)
           (replicate 32 0x11) (replicate 32 3) (replicate 6 5) (replicate 32 4) (replicate 6 2));
    first [reflexivity | split; [unfold bytes_ok; apply Forall_replicate; lia | reflexivity]].
Defined.

(** ** The nonce and the counter of requests *)

(** What the rounds of [GenRandom] compute: the key is zero, and the bytes between
    the address and the ticks are never written. *)
Fixpoint nonce_rounds (n i : nat) (addr : list Z) (jiffies : nat → Z) (r : list Z) : list Z :=
  match n with
  | O => r
  | S n' =>
      nonce_rounds n' (S i) addr jiffies
        (prf_spec (replicate 32 0) (str "Init Counter") (addr ++ replicate 6 0 ++ le_bytes 4 (jiffies i) ++ r ++ le_bytes 2 (Z.of_nat i)) 32)
  end.

Lemma length_prf_spec key prefix data len : length (prf_spec key prefix data len) = len.
Proof.
  unfold prf_spec. rewrite length_take, length_prf_blocks.
  pose proof (Nat.div_mod_eq (len + 19) 20). pose proof (Nat.mod_upper_bound (len + 19) 20). lia.
Qed.

Lemma prf_blocks_32 key prefix data :
  ∃ x, length x = 8%nat ∧ prf_blocks key (prefix ++ [0] ++ data) 0 2 = prf_spec key prefix data 32 ++ x.
Proof.
  exists (drop 32 (prf_blocks key (prefix ++ [0] ++ data) 0 2)). split; [by rewrite length_drop, length_prf_blocks|].
  unfold prf_spec. symmetry. apply take_drop.
Qed.

#[local] Opaque prf_spec.

Lemma random_rounds_run n stack allocs addr jiffies i mem rest r more :
  length (Input stack) = 80%nat → (∀ j, default 1024%nat (length <$> allocs j) = 1024%nat) → length mem = 1024%nat → length addr = 6%nat →
  length rest = 68%nat → length r = 32%nat → length more = 48%nat →
  ∃ mem' more', length mem' = 1024%nat ∧
    random_rounds n stack allocs addr jiffies i mem (addr ++ replicate 6 0 ++ rest) (replicate 32 0) (r ++ more) =
      Ok (mem', nonce_rounds n i addr jiffies r ++ more').
Proof.
  intros Hs Hal Hmem Ha. revert i mem rest r more Hmem. induction n as [|n IH]; intros i mem rest r more Hmem Hrest Hr Hmore.
  { exists mem, more. done. }
  cbn [random_rounds nonce_rounds]. cbv zeta. rewrite (set_bytes_prefix addr) by done. cbn [mbind result_bind].
  set (t := le_bytes 4 (jiffies i)). assert (length t = 4%nat) as Ht by done. clearbody t.
  set (u := le_bytes 2 (Z.of_nat i)). assert (length u = 2%nat) as Hu by done. clearbody u.
  destruct (cut 4 rest) as (r1 & r2 & -> & H1); [lia|]. rewrite length_app in Hrest.
  destruct (cut 32 r2) as (r3 & r4 & -> & H3); [lia|]. rewrite length_app in Hrest.
  destruct (cut 2 r4) as (r5 & r6 & -> & H5); [lia|]. rewrite length_app in Hrest.
  set (h := addr ++ replicate 6 0). assert (length h = 12%nat) as Hh by (unfold h; rewrite length_app, length_replicate; lia).
  rewrite (app_assoc addr). fold h. rewrite (set_bytes_part h r1 _ t) by (unfold MAC_ADDR_LEN; lia). cbn [mbind result_bind].
  rewrite (sub_bytes_prefix r more) by lia. cbn [mbind result_bind].
  rewrite (app_assoc h t), (set_bytes_part (h ++ t) r3 _ r) by (unfold MAC_ADDR_LEN; rewrite ?length_app; lia). cbn [mbind result_bind].
  rewrite (app_assoc (h ++ t) r), (set_bytes_part ((h ++ t) ++ r) r5 r6 u) by (unfold MAC_ADDR_LEN; rewrite ?length_app; lia). cbn [mbind result_bind].
  rewrite (app_assoc ((h ++ t) ++ r) u), (sub_bytes_prefix (((h ++ t) ++ r) ++ u) r6) by (unfold MAC_ADDR_LEN; rewrite ?length_app; lia).
  cbn [mbind result_bind].
  destruct (prf_run stack (allocs i) mem (replicate 32 0) (str "Init Counter") (((h ++ t) ++ r) ++ u) (r ++ more) 32) as (mem' & Lm & E);
    [done|rewrite length_replicate; lia| |rewrite !length_app; simpl; lia|rewrite length_app; simpl; lia|].
  { specialize (Hal i). destruct (allocs i); cbn in Hal |- *; lia. }
  change (Z.of_nat 32) with 32 in E. rewrite E. cbn [mbind result_bind]. change ((32 + 19) / 20)%nat with 2%nat in *.
  destruct (prf_blocks_32 (replicate 32 0) (str "Init Counter") (((h ++ t) ++ r) ++ u)) as (x & Hx & ->).
  unfold h. rewrite <- !app_assoc.
  apply IH; [congruence|rewrite !length_app; lia|apply length_prf_spec|]. rewrite !length_app, !length_drop, length_app. lia.
Qed.

(** [GenRandom] ends in every case. When its pool cannot be allocated the nonce is
    left as it was; otherwise its 32 bytes are a function of the address of the
    station and of the ticks read, whatever the memory holds and whichever
    allocations fail: nothing unpredictable enters. *)
Theorem nonce_determined stack pool allocs addr jiffies mem random :
  length (Input stack) = 80%nat → (∀ j, default 1024%nat (length <$> allocs j) = 1024%nat) → length mem = 1024%nat → length addr = 6%nat →
  length random = 32%nat →
  ∃ mem', length mem' = 1024%nat ∧
    GenRandom stack pool allocs addr jiffies mem random =
      Ok (mem', if pool then nonce_rounds 32 0 addr jiffies (replicate 32 0) else random).
Proof.
  intros Hs Hal Hmem Ha Hr. destruct pool; [|by exists mem]. unfold GenRandom. cbn [negb].
  assert (set_bytes (replicate 80 0) 0 addr = Ok (addr ++ replicate 6 0 ++ replicate 68 0)) as ->
    by (by apply (set_bytes_prefix (replicate 6 0) (replicate 6 0 ++ replicate 68 0))). cbn [mbind result_bind].
  destruct (random_rounds_run 32 stack allocs addr jiffies 0 mem (replicate 68 0) (replicate 32 0) (replicate 48 0)) as (mem' & more & Hm & E); try done.
  change (replicate 32 0 ++ replicate 48 0) with (replicate 80 0) in E. rewrite E. cbn [mbind result_bind].
  assert (∀ n i r, length r = 32%nat → length (nonce_rounds n i addr jiffies r) = 32%nat) as Hn.
  { intros n. induction n as [|n IH]; intros i r Hl; [done|]. cbn [nonce_rounds]. apply IH, length_prf_spec. }
  specialize (Hn 32%nat 0%nat (replicate 32 0) eq_refl). set (nc := nonce_rounds 32 0 addr jiffies (replicate 32 0)) in *. clearbody nc.
  rewrite (sub_bytes_prefix nc) by lia. cbn [mbind result_bind].
  replace random with (random ++ []) by apply app_nil_r. rewrite (set_bytes_prefix random) by lia. cbn [mbind result_bind].
  exists mem'. by rewrite app_nil_r.
Qed.

(** [inc_byte_array] adds one to a counter whose first byte is the most significant,
    wraps around at its end and leaves what follows alone. *)
Theorem inc_byte_array_adds counter after :
  bytes_ok counter → ∃ counter', inc_byte_array (counter ++ after) (Z.of_nat (length counter)) = Ok (counter' ++ after) ∧
    array (length counter) counter' ∧ be_val counter' = (be_val counter + 1) mod 256 ^ Z.of_nat (length counter).
Proof.
  intros Hc. unfold inc_byte_array. rewrite Nat2Z.id. destruct (inc_from_run counter after Hc) as (c & E & L & B & V).
  exists c. by repeat split.
Qed.
