(* ===== verification/StateMachine.v ===== *)
(** * The state machines of the wireless driver

    [src/rt2501/sources/Module/mlme.c] ([StateMachineInit], [StateMachineSetAction],
    [StateMachinePerformAction]) and the tables [assoc.c], [auth.c], [auth_rsp.c],
    [sync.c] and [wpa.c] fill in: a machine is an array with one function for each
    pair of a state and a message, and a message calls the function of the state the
    machine is in.

    A function of the table is its name; what the functions do is not modelled here.
    [ULONG] has 32 bits. *)

From S2P Require Import Prelude Words Wep.

(** ** Machines *)

(** The functions of the five tables. *)
Inductive STATE_MACHINE_FUNC : Type :=
| Drop
| MlmeAssocReqAction | MlmeReassocReqAction | MlmeDisassocReqAction | PeerDisassocAction
| InvalidStateWhenAssoc | InvalidStateWhenReassoc | InvalidStateWhenDisassociate
| PeerAssocRspAction | PeerReassocRspAction | AssocTimeoutAction | ReassocTimeoutAction | DisassocTimeoutAction
| MlmeAuthReqAction | InvalidStateWhenAuth | PeerAuthRspAtSeq2Action | PeerAuthRspAtSeq4Action | AuthTimeoutAction
| PeerDeauthAction
| MlmeScanReqAction | MlmeJoinReqAction | MlmeStartReqAction | PeerBeacon | PeerProbeReqAction
| InvalidStateWhenScan | InvalidStateWhenJoin | InvalidStateWhenStart
| PeerBeaconAtJoinAction | BeaconTimeoutAtJoinAction | PeerBeaconAtScanAction | ScanTimeoutAction
| WpaEAPOLKeyAction.

#[export] Instance func_eq_dec : EqDecision STATE_MACHINE_FUNC.
Proof. solve_decision. Defined.

Record STATE_MACHINE : Type := mk_machine { Base : Z; NrState : Z; NrMsg : Z; CurrState : Z; TransFunc : list STATE_MACHINE_FUNC }.

Definition set_func (t : list STATE_MACHINE_FUNC) (i : Z) (f : STATE_MACHINE_FUNC) : result (list STATE_MACHINE_FUNC) :=
  if (0 <=? i) && (i <? Z.of_nat (length t)) then Ok (<[Z.to_nat i := f]> t) else Crash OutOfBounds.

(** The two loops: [j] from [j0] on, [i] from [i0] on. *)
Fixpoint init_row (n : nat) (t : list STATE_MACHINE_FUNC) (i MsgNr j : Z) (DefFunc : STATE_MACHINE_FUNC) : result (list STATE_MACHINE_FUNC) :=
  match n with
  | O => Ok t
  | S n' => t ← set_func t (u32 (i * MsgNr + j)) DefFunc; init_row n' t i MsgNr (j + 1) DefFunc
  end.

Fixpoint init_rows (n : nat) (t : list STATE_MACHINE_FUNC) (i MsgNr : Z) (DefFunc : STATE_MACHINE_FUNC) : result (list STATE_MACHINE_FUNC) :=
  match n with
  | O => Ok t
  | S n' => t ← init_row (Z.to_nat MsgNr) t i MsgNr 0 DefFunc; init_rows n' t (i + 1) MsgNr DefFunc
  end.

Definition StateMachineInit (Trans : list STATE_MACHINE_FUNC) (StNr MsgNr : Z) (DefFunc : STATE_MACHINE_FUNC) (InitState Base_ : Z) : result STATE_MACHINE :=
  t ← init_rows (Z.to_nat StNr) Trans 0 MsgNr DefFunc;
  Ok (mk_machine Base_ StNr MsgNr InitState t).

Definition StateMachineSetAction (S : STATE_MACHINE) (St Msg : Z) (Func : STATE_MACHINE_FUNC) : result STATE_MACHINE :=
  let MsgIdx := u32 (Msg - Base S) in
  if (St <? NrState S) && (MsgIdx <? NrMsg S) then
    t ← set_func (TransFunc S) (u32 (St * NrMsg S + MsgIdx)) Func;
    Ok (mk_machine (Base S) (NrState S) (NrMsg S) (CurrState S) t)
  else Ok S.

(** The function called for a message of type [MsgType]. *)
Definition StateMachinePerformAction (S : STATE_MACHINE) (MsgType : Z) : result STATE_MACHINE_FUNC :=
  match TransFunc S !! Z.to_nat (u32 (CurrState S * NrMsg S + MsgType - Base S)) with
  | Some f => Ok f
  | None => Crash OutOfBounds
  end.

(** A sequence of calls of [StateMachineSetAction]. *)
Fixpoint set_actions (S : STATE_MACHINE) (l : list (Z * Z * STATE_MACHINE_FUNC)) : result STATE_MACHINE :=
  match l with
  | [] => Ok S
  | (St, Msg, f) :: l => S ← StateMachineSetAction S St Msg f; set_actions S l
  end.

(** ** The machine of associations *)

Definition ASSOC_IDLE : Z := 0.
Definition ASSOC_WAIT_RSP : Z := 1.
Definition REASSOC_WAIT_RSP : Z := 2.
Definition DISASSOC_WAIT_RSP : Z := 3.
Definition MAX_ASSOC_STATE : Z := 4.
Definition MT2_MLME_ASSOC_REQ : Z := 0.
Definition MT2_MLME_REASSOC_REQ : Z := 1.
Definition MT2_MLME_DISASSOC_REQ : Z := 2.
Definition MT2_PEER_DISASSOC_REQ : Z := 3.
Definition MT2_PEER_ASSOC_REQ : Z := 4.
Definition MT2_PEER_ASSOC_RSP : Z := 5.
Definition MT2_PEER_REASSOC_REQ : Z := 6.
Definition MT2_PEER_REASSOC_RSP : Z := 7.
Definition MT2_DISASSOC_TIMEOUT : Z := 8.
Definition MT2_ASSOC_TIMEOUT : Z := 9.
Definition MT2_REASSOC_TIMEOUT : Z := 10.
Definition MAX_ASSOC_MSG : Z := 11.

Definition AssocStateMachineInit (Trans : list STATE_MACHINE_FUNC) : result STATE_MACHINE :=
  S ← StateMachineInit Trans MAX_ASSOC_STATE MAX_ASSOC_MSG Drop ASSOC_IDLE 0;
  set_actions S
    [ (ASSOC_IDLE, MT2_MLME_ASSOC_REQ, MlmeAssocReqAction);
      (ASSOC_IDLE, MT2_MLME_REASSOC_REQ, MlmeReassocReqAction);
      (ASSOC_IDLE, MT2_MLME_DISASSOC_REQ, MlmeDisassocReqAction);
      (ASSOC_IDLE, MT2_PEER_DISASSOC_REQ, PeerDisassocAction);
      (ASSOC_WAIT_RSP, MT2_MLME_ASSOC_REQ, InvalidStateWhenAssoc);
      (ASSOC_WAIT_RSP, MT2_MLME_REASSOC_REQ, InvalidStateWhenReassoc);
      (ASSOC_WAIT_RSP, MT2_MLME_DISASSOC_REQ, InvalidStateWhenDisassociate);
      (ASSOC_WAIT_RSP, MT2_PEER_DISASSOC_REQ, PeerDisassocAction);
      (ASSOC_WAIT_RSP, MT2_PEER_ASSOC_RSP, PeerAssocRspAction);
      (ASSOC_WAIT_RSP, MT2_ASSOC_TIMEOUT, AssocTimeoutAction);
      (REASSOC_WAIT_RSP, MT2_MLME_ASSOC_REQ, InvalidStateWhenAssoc);
      (REASSOC_WAIT_RSP, MT2_MLME_REASSOC_REQ, InvalidStateWhenReassoc);
      (REASSOC_WAIT_RSP, MT2_MLME_DISASSOC_REQ, InvalidStateWhenDisassociate);
      (REASSOC_WAIT_RSP, MT2_PEER_DISASSOC_REQ, PeerDisassocAction);
      (REASSOC_WAIT_RSP, MT2_PEER_REASSOC_RSP, PeerReassocRspAction);
      (REASSOC_WAIT_RSP, MT2_REASSOC_TIMEOUT, ReassocTimeoutAction);
      (DISASSOC_WAIT_RSP, MT2_MLME_ASSOC_REQ, InvalidStateWhenAssoc);
      (DISASSOC_WAIT_RSP, MT2_MLME_REASSOC_REQ, InvalidStateWhenReassoc);
      (DISASSOC_WAIT_RSP, MT2_MLME_DISASSOC_REQ, InvalidStateWhenDisassociate);
      (DISASSOC_WAIT_RSP, MT2_PEER_DISASSOC_REQ, PeerDisassocAction);
      (DISASSOC_WAIT_RSP, MT2_DISASSOC_TIMEOUT, DisassocTimeoutAction) ].

(** ** The machines of authentication *)

Definition AUTH_REQ_IDLE : Z := 0.
Definition AUTH_WAIT_SEQ2 : Z := 1.
Definition AUTH_WAIT_SEQ4 : Z := 2.
Definition MAX_AUTH_STATE : Z := 3.
Definition MT2_MLME_AUTH_REQ : Z := 0.
Definition MT2_PEER_AUTH_EVEN : Z := 1.
Definition MT2_AUTH_TIMEOUT : Z := 2.
Definition MAX_AUTH_MSG : Z := 3.

Definition AuthStateMachineInit (Trans : list STATE_MACHINE_FUNC) : result STATE_MACHINE :=
  S ← StateMachineInit Trans MAX_AUTH_STATE MAX_AUTH_MSG Drop AUTH_REQ_IDLE 0;
  set_actions S
    [ (AUTH_REQ_IDLE, MT2_MLME_AUTH_REQ, MlmeAuthReqAction);
      (AUTH_WAIT_SEQ2, MT2_MLME_AUTH_REQ, InvalidStateWhenAuth);
      (AUTH_WAIT_SEQ2, MT2_PEER_AUTH_EVEN, PeerAuthRspAtSeq2Action);
      (AUTH_WAIT_SEQ2, MT2_AUTH_TIMEOUT, AuthTimeoutAction);
      (AUTH_WAIT_SEQ4, MT2_MLME_AUTH_REQ, InvalidStateWhenAuth);
      (AUTH_WAIT_SEQ4, MT2_PEER_AUTH_EVEN, PeerAuthRspAtSeq4Action);
      (AUTH_WAIT_SEQ4, MT2_AUTH_TIMEOUT, AuthTimeoutAction) ].

Definition AUTH_RSP_IDLE : Z := 0.
Definition AUTH_RSP_WAIT_CHAL : Z := 1.
Definition MAX_AUTH_RSP_STATE : Z := 2.
Definition MT2_AUTH_CHALLENGE_TIMEOUT : Z := 0.
Definition MT2_PEER_AUTH_ODD : Z := 1.
Definition MT2_PEER_DEAUTH : Z := 2.
Definition MAX_AUTH_RSP_MSG : Z := 3.

(** The machine, and the shift register. *)
Definition AuthRspStateMachineInit (Trans : list STATE_MACHINE_FUNC) (jiffies : Z) : result (STATE_MACHINE * Z) :=
  S ← StateMachineInit Trans MAX_AUTH_RSP_STATE MAX_AUTH_RSP_MSG Drop AUTH_RSP_IDLE 0;
  S ← set_actions S
    [ (AUTH_RSP_IDLE, MT2_PEER_DEAUTH, PeerDeauthAction);
      (AUTH_RSP_WAIT_CHAL, MT2_PEER_DEAUTH, PeerDeauthAction) ];
  Ok (S, LfsrInit jiffies).

(** ** The machine of synchronisation *)

Definition SYNC_IDLE : Z := 0.
Definition JOIN_WAIT_BEACON : Z := 1.
Definition SCAN_LISTEN : Z := 2.
Definition MAX_SYNC_STATE : Z := 3.
Definition MT2_MLME_SCAN_REQ : Z := 0.
Definition MT2_MLME_JOIN_REQ : Z := 1.
Definition MT2_MLME_START_REQ : Z := 2.
Definition MT2_PEER_BEACON : Z := 3.
Definition MT2_PEER_PROBE_RSP : Z := 4.
Definition MT2_PEER_ATIM : Z := 5.
Definition MT2_SCAN_TIMEOUT : Z := 6.
Definition MT2_BEACON_TIMEOUT : Z := 7.
Definition MT2_ATIM_TIMEOUT : Z := 8.
Definition MT2_PEER_PROBE_REQ : Z := 9.
Definition MAX_SYNC_MSG : Z := 10.

Definition SyncStateMachineInit (Trans : list STATE_MACHINE_FUNC) : result STATE_MACHINE :=
  S ← StateMachineInit Trans MAX_SYNC_STATE MAX_SYNC_MSG Drop SYNC_IDLE 0;
  set_actions S
    [ (SYNC_IDLE, MT2_MLME_SCAN_REQ, MlmeScanReqAction);
      (SYNC_IDLE, MT2_MLME_JOIN_REQ, MlmeJoinReqAction);
      (SYNC_IDLE, MT2_MLME_START_REQ, MlmeStartReqAction);
      (SYNC_IDLE, MT2_PEER_BEACON, PeerBeacon);
      (SYNC_IDLE, MT2_PEER_PROBE_REQ, PeerProbeReqAction);
      (JOIN_WAIT_BEACON, MT2_MLME_SCAN_REQ, InvalidStateWhenScan);
      (JOIN_WAIT_BEACON, MT2_MLME_JOIN_REQ, MlmeJoinReqAction);
      (JOIN_WAIT_BEACON, MT2_MLME_START_REQ, InvalidStateWhenStart);
      (JOIN_WAIT_BEACON, MT2_PEER_BEACON, PeerBeaconAtJoinAction);
      (JOIN_WAIT_BEACON, MT2_BEACON_TIMEOUT, BeaconTimeoutAtJoinAction);
      (SCAN_LISTEN, MT2_MLME_SCAN_REQ, InvalidStateWhenScan);
      (SCAN_LISTEN, MT2_MLME_JOIN_REQ, InvalidStateWhenJoin);
      (SCAN_LISTEN, MT2_MLME_START_REQ, InvalidStateWhenStart);
      (SCAN_LISTEN, MT2_PEER_BEACON, PeerBeaconAtScanAction);
      (SCAN_LISTEN, MT2_PEER_PROBE_RSP, PeerBeaconAtScanAction);
      (SCAN_LISTEN, MT2_SCAN_TIMEOUT, ScanTimeoutAction) ].

(** ** The machine of keys *)

Definition WPA_PSK_IDLE : Z := 0.
Definition MAX_WPA_PSK_STATE : Z := 1.
Definition MT2_EAPPacket : Z := 0.
Definition MT2_EAPOLStart : Z := 1.
Definition MT2_EAPOLLogoff : Z := 2.
Definition MT2_EAPOLKey : Z := 3.
Definition MT2_EAPOLASFAlert : Z := 4.
Definition MAX_WPA_PSK_MSG : Z := 5.

Definition WpaPskStateMachineInit (Trans : list STATE_MACHINE_FUNC) : result STATE_MACHINE :=
  S ← StateMachineInit Trans MAX_WPA_PSK_STATE MAX_WPA_PSK_MSG Drop WPA_PSK_IDLE 0;
  StateMachineSetAction S WPA_PSK_IDLE MT2_EAPOLKey WpaEAPOLKeyAction.

(** ** Tables as maps *)

(** The sizes of a machine: the array holds a function for every state and message,
    and no index overflows. *)
Record machine_ok (S : STATE_MACHINE) : Prop := {
  ok_base : 0 ≤ Base S;
  ok_states : 0 < NrState S;
  ok_msgs : 0 < NrMsg S;
  ok_msg_range : Base S + NrMsg S ≤ 2 ^ 32;
  ok_table : NrState S * NrMsg S ≤ Z.of_nat (length (TransFunc S));
  ok_size : Z.of_nat (length (TransFunc S)) < 2 ^ 32
}.

(** The machine in another state. *)
Definition in_state (S : STATE_MACHINE) (st : Z) : STATE_MACHINE := mk_machine (Base S) (NrState S) (NrMsg S) st (TransFunc S).

(** What the calls of [StateMachineSetAction] leave for a pair: the last function set. *)
Definition last_set (l : list (Z * Z * STATE_MACHINE_FUNC)) (st msg : Z) (def : STATE_MACHINE_FUNC) : STATE_MACHINE_FUNC :=
  fold_left (fun f '(st', msg', f') => if decide (st' = st ∧ msg' = msg) then f' else f) l def.

Lemma set_func_ok t i f : 0 ≤ i < Z.of_nat (length t) → set_func t i f = Ok (<[Z.to_nat i := f]> t).
Proof. intros H. unfold set_func. by rewrite (proj2 (Z.leb_le _ _)), (proj2 (Z.ltb_lt _ _)) by lia. Qed.

Lemma u32_id z : 0 ≤ z < 2 ^ 32 → u32 z = z.
Proof. intros. unfold u32. by apply Z.mod_small. Qed.

(** Two pairs in range share a cell only when they are equal. *)
Lemma cell_inj m s1 j1 s2 j2 : 0 ≤ j1 < m → 0 ≤ j2 < m → s1 * m + j1 = s2 * m + j2 → s1 = s2 ∧ j1 = j2.
Proof. intros. assert (s1 = s2) by nia. subst. lia. Qed.

Lemma cell_range n m s j : 0 ≤ s < n → 0 ≤ j < m → 0 ≤ s * m + j < n * m.
Proof. nia. Qed.

Lemma init_row_run n t i m j d :
  0 ≤ i → 0 ≤ j → 0 ≤ m → i * m + j + Z.of_nat n ≤ Z.of_nat (length t) → Z.of_nat (length t) < 2 ^ 32 →
  ∃ t', init_row n t i m j d = Ok t' ∧ length t' = length t ∧
    ∀ k, t' !! k = if decide (i * m + j ≤ Z.of_nat k < i * m + j + Z.of_nat n) then Some d else t !! k.
Proof.
  intros Hi. revert t j. induction n as [|n IH]; intros t j Hj Hm Hl Ht; cbn [init_row].
  { exists t. split; [done|]. split; [done|]. intros k. rewrite decide_False by lia. done. }
  rewrite u32_id by nia. rewrite set_func_ok by nia. cbn [mbind result_bind].
  destruct (IH (<[Z.to_nat (i * m + j):=d]> t) (j + 1)) as (t' & E & L & H); [lia|lia|rewrite length_insert; lia|rewrite length_insert; lia|].
  exists t'. split; [done|]. split; [by rewrite L, length_insert|]. intros k. rewrite H.
  destruct (decide (Z.to_nat (i * m + j) = k)) as [<-|Hk].
  - rewrite list_lookup_insert_eq by nia. rewrite (decide_True (P := i * m + j ≤ _ < _)) by nia. by destruct (decide _).
  - rewrite list_lookup_insert_ne by done. assert (i * m + j ≠ Z.of_nat k) by lia. repeat case_decide; (done || lia).
Qed.

Lemma init_rows_run n t i m d :
  0 ≤ i → 0 ≤ m → (i + Z.of_nat n) * m ≤ Z.of_nat (length t) → Z.of_nat (length t) < 2 ^ 32 →
  ∃ t', init_rows n t i m d = Ok t' ∧ length t' = length t ∧
    ∀ k, t' !! k = if decide (i * m ≤ Z.of_nat k < (i + Z.of_nat n) * m) then Some d else t !! k.
Proof.
  revert t i. induction n as [|n IH]; intros t i Hi Hm Hl Ht; cbn [init_rows].
  { exists t. split; [done|]. split; [done|]. intros k. rewrite decide_False by lia. done. }
  destruct (init_row_run (Z.to_nat m) t i m 0 d) as (t1 & E1 & L1 & H1); [lia|lia|lia|nia|lia|]. rewrite E1. cbn [mbind result_bind].
  destruct (IH t1 (i + 1)) as (t' & E & L & H); [lia|lia|rewrite L1; nia|lia|]. exists t'. split; [done|]. split; [lia|].
  intros k. rewrite H, H1. repeat case_decide; (done || nia).
Qed.

Lemma set_action_run S st msg f :
  machine_ok S → 0 ≤ st → 0 ≤ msg < 2 ^ 32 →
  ∃ S', StateMachineSetAction S st msg f = Ok S' ∧ machine_ok S' ∧ NrState S' = NrState S ∧ NrMsg S' = NrMsg S ∧ Base S' = Base S ∧ CurrState S' = CurrState S ∧
    ∀ st' msg', 0 ≤ st' < NrState S → Base S ≤ msg' < Base S + NrMsg S →
      StateMachinePerformAction (in_state S' st') msg' =
        if decide (st = st' ∧ msg = msg') then Ok f else StateMachinePerformAction (in_state S st') msg'.
Proof.
  intros [H1 H2 H3 H4 H5 H6] Hst Hmsg. unfold StateMachineSetAction. cbv zeta.
  destruct (decide (st < NrState S ∧ Base S ≤ msg < Base S + NrMsg S)) as [[Ha Hb]|Hn].
  - rewrite (u32_id (msg - _)) by lia. rewrite (proj2 (Z.ltb_lt st _)), (proj2 (Z.ltb_lt _ (NrMsg S))) by lia. cbn [andb].
    pose proof (cell_range (NrState S) (NrMsg S) st (msg - Base S)) as Hr. rewrite (u32_id (st * _ + _)) by lia. rewrite set_func_ok by lia.
    cbn [mbind result_bind]. eexists. split; [done|]. split; [constructor; cbn; rewrite ?length_insert; lia|].
    cbn. do 4 (split; [done|]). intros st' msg' Hst' Hmsg'. unfold StateMachinePerformAction. cbn.
    pose proof (cell_range (NrState S) (NrMsg S) st' (msg' - Base S)) as Hr'.
    rewrite !(u32_id (st' * _ + _ - _)) by lia. destruct (decide (st = st' ∧ msg = msg')) as [[<- <-]|Hne].
    + rewrite Z.add_sub_assoc, list_lookup_insert_eq by lia. done.
    + rewrite list_lookup_insert_ne; [done|]. intros He. apply Hne.
      destruct (cell_inj (NrMsg S) st (msg - Base S) st' (msg' - Base S)); lia.
  - assert ((st <? NrState S) && (u32 (msg - Base S) <? NrMsg S) = false) as ->.
    { destruct (Z.ltb_spec st (NrState S)); [|done]. cbn [andb]. apply Z.ltb_ge.
      destruct (decide (Base S ≤ msg)); [rewrite u32_id by lia; lia|]. unfold u32.
      rewrite <- (Z.mod_add (msg - Base S) 1), Z.mod_small by lia. lia. }
    exists S. split; [done|]. split; [done|]. do 4 (split; [done|]). intros st' msg' Hst' Hmsg'. rewrite decide_False by lia. done.
Qed.

Lemma set_actions_run l S :
  machine_ok S → Forall (fun '(st, msg, _) => 0 ≤ st ∧ 0 ≤ msg < 2 ^ 32) l →
  ∃ S', set_actions S l = Ok S' ∧ machine_ok S' ∧ NrState S' = NrState S ∧ NrMsg S' = NrMsg S ∧ Base S' = Base S ∧ CurrState S' = CurrState S ∧
    ∀ st msg def, 0 ≤ st < NrState S → Base S ≤ msg < Base S + NrMsg S →
      StateMachinePerformAction (in_state S st) msg = Ok def → StateMachinePerformAction (in_state S' st) msg = Ok (last_set l st msg def).
Proof.
  intros Hok Hl. revert S Hok. induction Hl as [|[[st msg] f] l [Hst Hmsg] _ IH]; intros S Hok; cbn [set_actions].
  { exists S. split; [done|]. split; [done|]. do 4 (split; [done|]). done. }
  destruct (set_action_run S st msg f Hok Hst Hmsg) as (S1 & E1 & Hok1 & N1 & M1 & B1 & C1 & H1). rewrite E1. cbn [mbind result_bind].
  destruct (IH S1 Hok1) as (S2 & E2 & Hok2 & N2 & M2 & B2 & C2 & H2). exists S2. split; [done|]. split; [done|].
  do 4 (split; [congruence|]). intros st' msg' def Hs Hm Hd. cbn [last_set fold_left]. apply H2; [lia|lia|].
  rewrite H1 by lia. by destruct (decide _).
Qed.

Lemma machine_set_up Trans StNr MsgNr DefFunc InitState base l :
  0 ≤ base → 0 < StNr → 0 < MsgNr → base + MsgNr ≤ 2 ^ 32 → StNr * MsgNr ≤ Z.of_nat (length Trans) → Z.of_nat (length Trans) < 2 ^ 32 →
  Forall (fun '(st, msg, _) => 0 ≤ st ∧ 0 ≤ msg < 2 ^ 32) l →
  ∃ S, (S ← StateMachineInit Trans StNr MsgNr DefFunc InitState base; set_actions S l) = Ok S ∧ CurrState S = InitState ∧ machine_ok S ∧
    Base S = base ∧ NrState S = StNr ∧ NrMsg S = MsgNr ∧
    ∀ st msg, 0 ≤ st < StNr → base ≤ msg < base + MsgNr →
      StateMachinePerformAction (in_state S st) msg = Ok (last_set l st msg DefFunc).
Proof.
  intros Hb Hs Hm Hr Ht Hl Hf. unfold StateMachineInit.
  destruct (init_rows_run (Z.to_nat StNr) Trans 0 MsgNr DefFunc) as (t & E & L & H); [lia|lia|nia|lia|]. rewrite E. cbn [mbind result_bind].
  assert (machine_ok (mk_machine base StNr MsgNr InitState t)) as Hok by (constructor; cbn; lia).
  destruct (set_actions_run l _ Hok Hf) as (S & E' & Hok' & N & M & B & C & HS). exists S. do 6 (split; [done|]).
  intros st msg Hst Hmsg. apply HS; [done|done|]. unfold StateMachinePerformAction. cbn.
  pose proof (cell_range StNr MsgNr st (msg - base)) as Hc. rewrite u32_id by lia. rewrite H, decide_True by lia. done.
Qed.

(** A machine set up with [StateMachineInit] and any calls of
    [StateMachineSetAction] calls, for every state and every message of its range,
    the function set last for that pair, or the default one; calls that name a state
    or a message outside the ranges change nothing. No access leaves the array. *)
Theorem state_machine_runs Trans StNr MsgNr DefFunc InitState base l :
  0 ≤ base → 0 < StNr → 0 < MsgNr → base + MsgNr ≤ 2 ^ 32 → StNr * MsgNr ≤ Z.of_nat (length Trans) → Z.of_nat (length Trans) < 2 ^ 32 →
  Forall (fun '(st, msg, _) => 0 ≤ st ∧ 0 ≤ msg < 2 ^ 32) l →
  ∃ S, (S ← StateMachineInit Trans StNr MsgNr DefFunc InitState base; set_actions S l) = Ok S ∧ CurrState S = InitState ∧ machine_ok S ∧
    Base S = base ∧ NrState S = StNr ∧ NrMsg S = MsgNr ∧
    ∀ st msg, 0 ≤ st < StNr → base ≤ msg < base + MsgNr →
      StateMachinePerformAction (in_state S st) msg = Ok (last_set l st msg DefFunc).
Proof. apply machine_set_up. Qed.

Lemma state_machine_runs_witness :
  ∃ S, (S ← StateMachineInit (replicate 9 PeerBeacon) 3 3 Drop 0 0;
        set_actions S [(1, 2, PeerDeauthAction); (0, 7, PeerBeacon); (1, 2, AuthTimeoutAction)]) = Ok S ∧
    StateMachinePerformAction (in_state S 1) 2 = Ok AuthTimeoutAction ∧ StateMachinePerformAction (in_state S 2) 1 = Ok Drop.
Proof.
  destruct (state_machine_runs (replicate 9 PeerBeacon) 3 3 Drop 0 0 [(1, 2, PeerDeauthAction); (0, 7, PeerBeacon); (1, 2, AuthTimeoutAction)])
    as (S & E & _ & _ & _ & _ & _ & H); [lia|lia|lia|lia|simpl; lia|simpl; lia|repeat constructor; lia|].
  exists S. split; [exact E|]. rewrite (H 1 2), (H 2 1) by lia. split; reflexivity.
Defined.

(** ** The tables of the driver *)

(** Rows are states, columns messages. *)
Definition table (S : STATE_MACHINE) : result (list (list STATE_MACHINE_FUNC)) :=
  mapM (fun st => mapM (fun msg => StateMachinePerformAction (in_state S st) msg) (seqZ (Base S) (NrMsg S))) (seqZ 0 (NrState S)).

Lemma mapM_ok {A B} (f : A → result B) (g : A → B) l : (∀ x, x ∈ l → f x = Ok (g x)) → mapM f l = Ok (g <$> l).
Proof.
  induction l as [|x l IH]; intros H; [done|]. cbn [mapM fmap list_fmap]. rewrite (H x) by left. cbn [mbind result_bind].
  rewrite IH; [done|]. intros y Hy. apply H. by right.
Qed.

Lemma machine_table Trans StNr MsgNr DefFunc InitState l :
  0 < StNr → 0 < MsgNr → Z.of_nat (length Trans) = StNr * MsgNr → StNr * MsgNr < 2 ^ 32 →
  Forall (fun '(st, msg, _) => 0 ≤ st ∧ 0 ≤ msg < 2 ^ 32) l →
  ∃ S, (S ← StateMachineInit Trans StNr MsgNr DefFunc InitState 0; set_actions S l) = Ok S ∧ CurrState S = InitState ∧ machine_ok S ∧
    Base S = 0 ∧ NrState S = StNr ∧ NrMsg S = MsgNr ∧
    table S = Ok ((fun st => (fun msg => last_set l st msg DefFunc) <$> seqZ 0 MsgNr) <$> seqZ 0 StNr).
Proof.
  intros Hs Hm Ht Hl Hf.
  destruct (machine_set_up Trans StNr MsgNr DefFunc InitState 0 l) as (S & E & C & Hok & B & N & M & H); [lia|done|done|nia|lia|lia|done|].
  exists S. do 6 (split; [done|]). unfold table. rewrite B, M, N. apply mapM_ok. intros st Hst. apply elem_of_seqZ in Hst.
  apply mapM_ok. intros msg Hmsg. apply elem_of_seqZ in Hmsg. apply H; lia.
Qed.

(** A table of the driver: its machine, in its first state. *)
Definition set_up (init : result STATE_MACHINE) (StNr MsgNr : Z) (rows : list (list STATE_MACHINE_FUNC)) : Prop :=
  ∃ S, init = Ok S ∧ CurrState S = 0 ∧ machine_ok S ∧ Base S = 0 ∧ NrState S = StNr ∧ NrMsg S = MsgNr ∧ table S = Ok rows.

(** The five machines, whatever their arrays held before: a row for each state, a
    column for each message. A message that has no place in a state is dropped. *)
Theorem driver_tables assoc auth auth_rsp sync psk jiffies :
  length assoc = 44%nat → length auth = 9%nat → length auth_rsp = 6%nat → length sync = 30%nat → length psk = 5%nat →
  set_up (AssocStateMachineInit assoc) 4 11
    [ [MlmeAssocReqAction; MlmeReassocReqAction; MlmeDisassocReqAction; PeerDisassocAction; Drop; Drop; Drop; Drop; Drop; Drop; Drop];
      [InvalidStateWhenAssoc; InvalidStateWhenReassoc; InvalidStateWhenDisassociate; PeerDisassocAction; Drop; PeerAssocRspAction; Drop; Drop; Drop; AssocTimeoutAction; Drop];
      [InvalidStateWhenAssoc; InvalidStateWhenReassoc; InvalidStateWhenDisassociate; PeerDisassocAction; Drop; Drop; Drop; PeerReassocRspAction; Drop; Drop; ReassocTimeoutAction];
      [InvalidStateWhenAssoc; InvalidStateWhenReassoc; InvalidStateWhenDisassociate; PeerDisassocAction; Drop; Drop; Drop; Drop; DisassocTimeoutAction; Drop; Drop] ] ∧
  set_up (AuthStateMachineInit auth) 3 3
    [ [MlmeAuthReqAction; Drop; Drop];
      [InvalidStateWhenAuth; PeerAuthRspAtSeq2Action; AuthTimeoutAction];
      [InvalidStateWhenAuth; PeerAuthRspAtSeq4Action; AuthTimeoutAction] ] ∧
  set_up (fst <$> AuthRspStateMachineInit auth_rsp jiffies) 2 3
    [ [Drop; Drop; PeerDeauthAction];
      [Drop; Drop; PeerDeauthAction] ] ∧
  set_up (SyncStateMachineInit sync) 3 10
    [ [MlmeScanReqAction; MlmeJoinReqAction; MlmeStartReqAction; PeerBeacon; Drop; Drop; Drop; Drop; Drop; PeerProbeReqAction];
      [InvalidStateWhenScan; MlmeJoinReqAction; InvalidStateWhenStart; PeerBeaconAtJoinAction; Drop; Drop; Drop; BeaconTimeoutAtJoinAction; Drop; Drop];
      [InvalidStateWhenScan; InvalidStateWhenJoin; InvalidStateWhenStart; PeerBeaconAtScanAction; PeerBeaconAtScanAction; Drop; ScanTimeoutAction; Drop; Drop; Drop] ] ∧
  set_up (WpaPskStateMachineInit psk) 1 5 [ [Drop; Drop; Drop; WpaEAPOLKeyAction; Drop] ].
Proof.
  intros H1 H2 H3 H4 H5.
  split; [|split; [|split; [|split]]].
  - unfold set_up, AssocStateMachineInit. match goal with |- context [set_actions _ ?l] => destruct (machine_table assoc 4 11 Drop 0 l) as (S & E & HS) end;
      [lia|lia|lia|lia|repeat constructor; done|]. exists S. split; [exact E|exact HS].
  - unfold set_up, AuthStateMachineInit. match goal with |- context [set_actions _ ?l] => destruct (machine_table auth 3 3 Drop 0 l) as (S & E & HS) end;
      [lia|lia|lia|lia|repeat constructor; done|]. exists S. split; [exact E|exact HS].
  - unfold set_up, AuthRspStateMachineInit. match goal with |- context [set_actions _ ?l] => destruct (machine_table auth_rsp 2 3 Drop 0 l) as (S & E & HS) end;
      [lia|lia|lia|lia|repeat constructor; done|]. exists S. split; [|exact HS].
    change MAX_AUTH_RSP_STATE with 2. change MAX_AUTH_RSP_MSG with 3. change AUTH_RSP_IDLE with 0 in E |- *.
    destruct (StateMachineInit auth_rsp 2 3 Drop 0 0) as [S0|]; [|done]. cbn [mbind result_bind] in E |- *. rewrite E. done.
  - unfold set_up, SyncStateMachineInit. match goal with |- context [set_actions _ ?l] => destruct (machine_table sync 3 10 Drop 0 l) as (S & E & HS) end;
      [lia|lia|lia|lia|repeat constructor; done|]. exists S. split; [exact E|exact HS].
  - unfold set_up, WpaPskStateMachineInit. destruct (machine_table psk 1 5 Drop 0 [(0, 3, WpaEAPOLKeyAction)]) as (S & E & HS);
      [lia|lia|lia|lia|repeat constructor; done|]. exists S. split; [|exact HS].
    change MAX_WPA_PSK_STATE with 1. change MAX_WPA_PSK_MSG with 5. change WPA_PSK_IDLE with 0. change MT2_EAPOLKey with 3.
    destruct (StateMachineInit psk 1 5 Drop 0 0) as [S0|]; [|done]. cbn [mbind result_bind set_actions] in E |- *.
    by destruct (StateMachineSetAction S0 0 3 WpaEAPOLKeyAction).
Qed.

(** [StateMachinePerformAction] does not check the message: one past the range is
    taken for a message of the next state. *)
Theorem perform_unchecked S st k :
  StateMachinePerformAction (in_state S st) (Base S + NrMsg S + k) = StateMachinePerformAction (in_state S (st + 1)) (Base S + k).
Proof.
  unfold StateMachinePerformAction. cbn [in_state TransFunc CurrState NrMsg Base].
  by replace (st * NrMsg S + (Base S + NrMsg S + k) - Base S) with ((st + 1) * NrMsg S + (Base S + k) - Base S) by lia.
Qed.
