(* ===== verification/MlmeQueue.v ===== *)
(** * The message queue of the wireless driver

    [src/rt2501/sources/Module/mlme.c]: [MlmeQueueInit], [MlmeEnqueue],
    [MlmeEnqueueForRecv], [MlmeDequeue], [MlmeQueueEmpty], [MlmeQueueFull],
    [MlmeQueueDestroy], [MsgTypeSubst]; [WpaMsgTypeSubst] of [wpa.c] and
    [BackDoorProbeRspSanity] of [sanity.c].

    Timers, the receiver of frames and the functions of the state machines put
    messages into a ring of 40 elements; one thread takes them out. Every access to
    the ring holds its lock, so that each of [MlmeQueueFull], [put], [MlmeDequeue]
    and [MlmeQueueEmpty] is one atomic step; an enqueuer takes the lock twice, and
    the consumer frees its element without it.

    The thread works on the element in place: [MlmeDequeue] returns its index. *)

From S2P Require Import Prelude Words StateMachine.

(** ** The queue *)

Definition MAX_LEN_OF_MLME_QUEUE : Z := 40.
Definition MAX_LEN_OF_MLME_BUFFER : Z := 2048.
Definition LENGTH_802_11 : Z := 24.
Definition LENGTH_802_1_H : Z := 8.

Record MLME_QUEUE_ELEM : Type := mk_elem {
  Msg : list Z; Machine : Z; MsgType : Z; MsgLen : Z; TimeStamp : Z; Rssi : Z; Signal : Z; Channel : Z;
  Occupied : bool; bReqIsFromNdis : bool
}.

Record MLME_QUEUE : Type := mk_queue { Num : Z; Head : Z; Tail : Z; Entry : list MLME_QUEUE_ELEM }.

(** [Entry[i]] changed by [f]. *)
Definition set_entry (q : MLME_QUEUE) (i : Z) (f : MLME_QUEUE_ELEM → result MLME_QUEUE_ELEM) : result MLME_QUEUE :=
  if i <? 0 then Crash OutOfBounds
  else match Entry q !! Z.to_nat i with
       | Some e => e ← f e; Ok (mk_queue (Num q) (Head q) (Tail q) (<[Z.to_nat i := e]> (Entry q)))
       | None => Crash OutOfBounds
       end.

Definition init_elem (e : MLME_QUEUE_ELEM) : MLME_QUEUE_ELEM :=
  mk_elem (replicate 2048 0) (Machine e) (MsgType e) 0 (TimeStamp e) (Rssi e) (Signal e) (Channel e) false (bReqIsFromNdis e).

(** The array has 40 elements. *)
Definition MlmeQueueInit (q : MLME_QUEUE) : MLME_QUEUE := mk_queue 0 0 0 (init_elem <$> Entry q).

Definition MlmeQueueEmpty (q : MLME_QUEUE) : bool := Num q =? 0.

Definition MlmeQueueFull (q : MLME_QUEUE) : result bool :=
  if Num q =? MAX_LEN_OF_MLME_QUEUE then Ok true
  else match Entry q !! Z.to_nat (Tail q) with
       | Some e => Ok (Occupied e)
       | None => Crash OutOfBounds
       end.

Definition MlmeQueueDestroy (q : MLME_QUEUE) : MLME_QUEUE := mk_queue 0 0 0 (Entry q).

(** An index advanced around the ring. *)
Definition advance (i : Z) : Z := let i := u32 (i + 1) in if i =? MAX_LEN_OF_MLME_QUEUE then 0 else i.

(** The section under the lock that both enqueuing functions have: the element at
    the tail is taken and filled by [f]. *)
Definition put (q : MLME_QUEUE) (f : MLME_QUEUE_ELEM → result MLME_QUEUE_ELEM) : result MLME_QUEUE :=
  let Tail_ := Tail q in
  set_entry (mk_queue (u32 (Num q + 1)) (Head q) (advance (Tail q)) (Entry q)) Tail_ f.

(** The index of the element, and the queue without it. *)
Definition MlmeDequeue (q : MLME_QUEUE) : Z * MLME_QUEUE :=
  (Head q, mk_queue (u32 (Num q - 1)) (advance (Head q)) (Tail q) (Entry q)).

(** The consumer gives the element back. *)
Definition free_elem (q : MLME_QUEUE) (i : Z) : result MLME_QUEUE :=
  set_entry q i (fun e => Ok (mk_elem (Msg e) (Machine e) (MsgType e) 0 (TimeStamp e) (Rssi e) (Signal e) (Channel e) false (bReqIsFromNdis e))).

(** ** The adapter *)

(** [halt], [reset], [nic_gone]: the flags [fRTMP_ADAPTER_HALT_IN_PROGRESS],
    [.._MLME_RESET_IN_PROGRESS] and [.._NIC_NOT_EXIST]. *)
Record RTMP_ADAPTER : Type := mk_adapter {
  Queue : MLME_QUEUE;
  halt : bool; reset : bool; nic_gone : bool;
  MLMEThr_pid : Z; mlme_semaphore : Z;
  bGetAPConfig : bool; RfChannel : Z;
  bRunning : bool; CntlState : Z;
  AssocMachine : STATE_MACHINE; AuthMachine : STATE_MACHINE; AuthRspMachine : STATE_MACHINE;
  SyncMachine : STATE_MACHINE; WpaPskMachine : STATE_MACHINE
}.

Definition with_queue (a : RTMP_ADAPTER) (q : MLME_QUEUE) : RTMP_ADAPTER :=
  mk_adapter q (halt a) (reset a) (nic_gone a) (MLMEThr_pid a) (mlme_semaphore a) (bGetAPConfig a) (RfChannel a) (bRunning a) (CntlState a)
    (AssocMachine a) (AuthMachine a) (AuthRspMachine a) (SyncMachine a) (WpaPskMachine a).

Definition with_config (a : RTMP_ADAPTER) (b : bool) : RTMP_ADAPTER :=
  mk_adapter (Queue a) (halt a) (reset a) (nic_gone a) (MLMEThr_pid a) (mlme_semaphore a) b (RfChannel a) (bRunning a) (CntlState a)
    (AssocMachine a) (AuthMachine a) (AuthRspMachine a) (SyncMachine a) (WpaPskMachine a).

(** Wakes the thread, when there is one. *)
Definition RTUSBMlmeUp (a : RTMP_ADAPTER) : RTMP_ADAPTER :=
  if 0 <? MLMEThr_pid a
  then mk_adapter (Queue a) (halt a) (reset a) (nic_gone a) (MLMEThr_pid a) (mlme_semaphore a + 1) (bGetAPConfig a) (RfChannel a) (bRunning a) (CntlState a)
         (AssocMachine a) (AuthMachine a) (AuthRspMachine a) (SyncMachine a) (WpaPskMachine a)
  else a.

(** ** Enqueuing *)

(** What [MlmeEnqueue] stores in the element. *)
Definition fill_local (Machine_ MsgType_ MsgLen_ : Z) (Msg_ : list Z) (e : MLME_QUEUE_ELEM) : result MLME_QUEUE_ELEM :=
  bytes ← sub_bytes Msg_ 0 MsgLen_;
  m ← set_bytes (Msg e) 0 bytes;
  Ok (mk_elem m Machine_ MsgType_ MsgLen_ (TimeStamp e) (Rssi e) (Signal e) (Channel e) true (bReqIsFromNdis e)).

(** The value returned, and the adapter. *)
Definition MlmeEnqueue (a : RTMP_ADAPTER) (Machine_ MsgType_ MsgLen_ : Z) (Msg_ : list Z) : result (bool * RTMP_ADAPTER) :=
  if halt a then Ok (false, a)
  else if MAX_LEN_OF_MLME_BUFFER <? MsgLen_ then Ok (false, a)
  else if 0 <? MLMEThr_pid a then
    full ← MlmeQueueFull (Queue a);
    if (full : bool) then Ok (false, RTUSBMlmeUp a)
    else q ← put (Queue a) (fill_local Machine_ MsgType_ MsgLen_ Msg_); Ok (true, with_queue a q)
  else Ok (true, a).

(** ** Received frames *)

Definition ASSOC_STATE_MACHINE : Z := 1.
Definition AUTH_STATE_MACHINE : Z := 2.
Definition AUTH_RSP_STATE_MACHINE : Z := 3.
Definition SYNC_STATE_MACHINE : Z := 4.
Definition MLME_CNTL_STATE_MACHINE : Z := 5.
Definition WPA_PSK_STATE_MACHINE : Z := 6.

Definition BTYPE_MGMT : Z := 0.
Definition BTYPE_DATA : Z := 2.

(** The fields of the first byte of a frame. *)
Definition FC_Type (hdr : list Z) : result Z := b ← nth_byte hdr 0; Ok (Z.land (Z.shiftr b 2) 3).
Definition FC_SubType (hdr : list Z) : result Z := b ← nth_byte hdr 0; Ok (Z.land (Z.shiftr b 4) 15).

Definition WpaMsgTypeSubst (EAPType : Z) : option Z :=
  if EAPType =? 0 then Some MT2_EAPPacket
  else if EAPType =? 1 then Some MT2_EAPOLStart
  else if EAPType =? 2 then Some MT2_EAPOLLogoff
  else if EAPType =? 3 then Some MT2_EAPOLKey
  else if EAPType =? 4 then Some MT2_EAPOLASFAlert
  else None.

(** Machine and type of a frame with header [hdr] and body [pFrame]; [None]: FALSE. *)
Definition MsgTypeSubst (hdr pFrame : list Z) : result (option (Z * Z)) :=
  ty ← FC_Type hdr;
  if ty =? BTYPE_DATA then
    EAPType ← nth_byte pFrame (LENGTH_802_1_H + 1);
    Ok (pair WPA_PSK_STATE_MACHINE <$> WpaMsgTypeSubst EAPType)
  else if ty =? BTYPE_MGMT then
    st ← FC_SubType hdr;
    if st =? 0 then Ok (Some (ASSOC_STATE_MACHINE, MT2_PEER_ASSOC_REQ))
    else if st =? 1 then Ok (Some (ASSOC_STATE_MACHINE, MT2_PEER_ASSOC_RSP))
    else if st =? 2 then Ok (Some (ASSOC_STATE_MACHINE, MT2_PEER_REASSOC_REQ))
    else if st =? 3 then Ok (Some (ASSOC_STATE_MACHINE, MT2_PEER_REASSOC_RSP))
    else if st =? 4 then Ok (Some (SYNC_STATE_MACHINE, MT2_PEER_PROBE_REQ))
    else if st =? 5 then Ok (Some (SYNC_STATE_MACHINE, MT2_PEER_PROBE_RSP))
    else if st =? 8 then Ok (Some (SYNC_STATE_MACHINE, MT2_PEER_BEACON))
    else if st =? 9 then Ok (Some (SYNC_STATE_MACHINE, MT2_PEER_ATIM))
    else if st =? 10 then Ok (Some (ASSOC_STATE_MACHINE, MT2_PEER_DISASSOC_REQ))
    else if st =? 11 then
      s ← sub_bytes pFrame 2 2;
      let Seq := le_val s in
      if (Seq =? 1) || (Seq =? 3) then Ok (Some (AUTH_RSP_STATE_MACHINE, MT2_PEER_AUTH_ODD))
      else if (Seq =? 2) || (Seq =? 4) then Ok (Some (AUTH_STATE_MACHINE, MT2_PEER_AUTH_EVEN))
      else Ok None
    else if st =? 12 then Ok (Some (AUTH_RSP_STATE_MACHINE, MT2_PEER_DEAUTH))
    else Ok None
  else Ok None.

Definition IE_VENDOR_SPECIFIC : Z := 221.
Definition RALINK_OUI : list Z := [0x00; 0x0c; 0x43].
Definition MAX_CFG_BUFFER_LEN : Z := 1056.

(** The information elements from offset [p] of [mem] on, of a message of [MsgLen_]
    bytes. The length given to the copy is unsigned. *)
Fixpoint config_elements (fuel : nat) (mem : list Z) (MsgLen_ p cfgDataLen : Z) : result bool :=
  match fuel with
  | O => Crash Diverges
  | S fuel =>
      Len ← nth_byte mem (p + 1);
      if negb (p + Len + 1 <? MsgLen_) then Ok false
      else
        Eid ← nth_byte mem p;
        let next := p + 2 + Len in
        if Eid =? IE_VENDOR_SPECIFIC then
          oui ← sub_bytes mem (p + 2) 3;
          if bool_decide (oui = RALINK_OUI) then
            k ← nth_byte mem (p + 5);
            if Z.land k 0x80 =? 0x80 then
              if cfgDataLen + Len - 4 <=? MAX_CFG_BUFFER_LEN then
                d ← sub_bytes mem (p + 6) (u32 (Len - 4));
                _ ← set_bytes (replicate 255 0) 0 d;
                Ok true
              else Ok false
            else if Z.land k 0x40 =? 0x40 then
              let cfgDataLen := u16 (cfgDataLen + (Len - 4)) in
              d ← sub_bytes mem (p + 6) (u32 (Len - 4));
              _ ← set_bytes (replicate 255 0) 0 d;
              if MAX_CFG_BUFFER_LEN <? cfgDataLen then Ok false else config_elements fuel mem MsgLen_ next cfgDataLen
            else config_elements fuel mem MsgLen_ next cfgDataLen
          else config_elements fuel mem MsgLen_ next cfgDataLen
        else config_elements fuel mem MsgLen_ next cfgDataLen
  end.

(** The elements follow the time stamp, the interval and the capabilities. *)
Definition BackDoorProbeRspSanity (mem : list Z) (MsgLen_ : Z) : result bool := config_elements (S (Z.to_nat MsgLen_)) mem MsgLen_ 12 0.

(** What [MlmeEnqueueForRecv] stores in the element: the header, then the body. *)
Definition fill_received (Machine_ MsgType_ MsgLen_ Rssi_ Signal_ Channel_ : Z) (hdr Msg_ : list Z) (e : MLME_QUEUE_ELEM) : result MLME_QUEUE_ELEM :=
  h ← sub_bytes hdr 0 LENGTH_802_11;
  m ← set_bytes (Msg e) 0 h;
  bytes ← sub_bytes Msg_ 0 MsgLen_;
  m ← set_bytes m LENGTH_802_11 bytes;
  Ok (mk_elem m Machine_ MsgType_ (u32 (MsgLen_ + LENGTH_802_11)) (TimeStamp e) Rssi_ Signal_ Channel_ true false).

(** [Msg_]: the receive buffer from the body on, of which [MsgLen_] bytes are the body. *)
Definition MlmeEnqueueForRecv (a : RTMP_ADAPTER) (hdr : list Z) (Rssi_ MsgLen_ : Z) (Msg_ : list Z) (Signal_ : Z) : result (bool * RTMP_ADAPTER) :=
  if MLMEThr_pid a <=? 0 then Ok (false, a)
  else if halt a then Ok (false, a)
  else if MAX_LEN_OF_MLME_BUFFER <? u32 (MsgLen_ + LENGTH_802_11) then Ok (false, a)
  else
    full ← MlmeQueueFull (Queue a);
    if (full : bool) then Ok (false, RTUSBMlmeUp a)
    else
      r ← MsgTypeSubst hdr Msg_;
      match r with
      | None => Ok (false, a)
      | Some (Machine_, MsgType_) =>
          got ← (if (Machine_ =? SYNC_STATE_MACHINE) && (MsgType_ =? MT2_PEER_PROBE_RSP) && bGetAPConfig a && (CurrState (SyncMachine a) =? SYNC_IDLE)
                 then BackDoorProbeRspSanity Msg_ MsgLen_ else Ok false);
          let a := if (got : bool) then with_config a false else a in
          q ← put (Queue a) (fill_received Machine_ MsgType_ MsgLen_ Rssi_ Signal_ (RfChannel a) hdr Msg_);
          Ok (true, RTUSBMlmeUp (with_queue a q))
      end.

(** ** The ring as a queue *)

(** What the consumer sees of a message. *)
Definition message : Type := Z * Z * list Z.
Definition content (e : MLME_QUEUE_ELEM) : message := (Machine e, MsgType e, take (Z.to_nat (MsgLen e)) (Msg e)).

(** [k] places after the head. *)
Definition slot (q : MLME_QUEUE) (k : nat) : nat := (Z.to_nat (Head q) + k) mod 40.

Definition holds_msg (o : option message) (e : MLME_QUEUE_ELEM) : Prop :=
  length (Msg e) = 2048%nat ∧
  match o with Some m => Occupied e = true ∧ content e = m | None => Occupied e = false end.

(** The messages [ms] wait in the ring, and the consumer has the message [hand],
    which sits just before the head; all other elements are free. *)
Definition expected (hand : option message) (ms : list message) (k : nat) : option message :=
  match ms !! k with Some m => Some m | None => if decide (k = 39%nat) then hand else None end.

Definition in_hand (hand : option message) : nat := match hand with Some _ => 1 | None => 0 end.

Record ring (q : MLME_QUEUE) (hand : option message) (ms : list message) : Prop := {
  ring_entries : length (Entry q) = 40%nat;
  ring_num : Num q = Z.of_nat (length ms);
  ring_head : 0 ≤ Head q < 40;
  ring_tail : Z.to_nat (Tail q) = slot q (length ms) ∧ 0 ≤ Tail q;
  ring_room : (length ms + in_hand hand ≤ 40)%nat;
  ring_slots : ∀ k, (k < 40)%nat → ∃ e, Entry q !! slot q k = Some e ∧ holds_msg (expected hand ms k) e
}.

Lemma slot_below q k : (slot q k < 40)%nat.
Proof. apply Nat.mod_upper_bound. lia. Qed.

Lemma slot_inj q k j : (k < 40)%nat → (j < 40)%nat → slot q k = slot q j → k = j.
Proof.
  unfold slot. intros Hk Hj He. set (h := Z.to_nat (Head q)) in *.
  pose proof (Nat.div_mod_eq (h + k) 40). pose proof (Nat.div_mod_eq (h + j) 40). lia.
Qed.

Lemma advance_mod i : 0 ≤ i < 40 → 0 ≤ advance i < 40 ∧ Z.to_nat (advance i) = ((Z.to_nat i + 1) mod 40)%nat.
Proof.
  intros H. unfold advance, MAX_LEN_OF_MLME_QUEUE. cbv zeta. rewrite u32_id by lia. destruct (Z.eqb_spec (i + 1) 40) as [E|E].
  - split; [lia|]. replace (Z.to_nat i + 1)%nat with 40%nat by lia. done.
  - split; [lia|]. rewrite Nat.mod_small by lia. lia.
Qed.

Lemma tail_range q k : Z.to_nat (Tail q) = slot q k → 0 ≤ Tail q → 0 ≤ Tail q < 40.
Proof. pose proof (slot_below q k). lia. Qed.

Lemma mod_shift a b : ((a mod 40 + b) mod 40 = (a + b) mod 40)%nat.
Proof. by rewrite Nat.Div0.add_mod_idemp_l. Qed.

Lemma ring_init q : length (Entry q) = 40%nat → ring (MlmeQueueInit q) None [].
Proof.
  intros H. constructor; [cbn; by rewrite length_fmap|done|cbn; lia|done|cbn; lia|].
  intros k Hk. set (j := slot _ k). assert (j < 40)%nat as Hs by apply slot_below. clearbody j. change (Entry (MlmeQueueInit q)) with (init_elem <$> Entry q).
  destruct (lookup_lt_is_Some_2 (Entry q) j) as [e He]; [lia|].
  exists (init_elem e). split; [by rewrite list_lookup_fmap, He|]. unfold expected. cbn. by case_decide.
Qed.

Lemma ring_empty q hand ms : ring q hand ms → MlmeQueueEmpty q = bool_decide (ms = []).
Proof.
  intros H. unfold MlmeQueueEmpty. rewrite (ring_num _ _ _ H). destruct ms; [done|]. rewrite bool_decide_false by done. cbn. apply Z.eqb_neq. lia.
Qed.

Lemma ring_full q hand ms : ring q hand ms → MlmeQueueFull q = Ok (bool_decide (length ms + in_hand hand = 40)%nat).
Proof.
  intros [He Hn Hh [Ht _] Hr Hs]. unfold MlmeQueueFull, MAX_LEN_OF_MLME_QUEUE. rewrite Hn.
  destruct (Z.eqb_spec (Z.of_nat (length ms)) 40) as [E|E].
  { rewrite bool_decide_true by lia. done. }
  rewrite Ht. destruct (Hs (length ms)) as (e & Ee & Hl & Hc); [lia|]. rewrite Ee. f_equal. unfold expected in Hc.
  rewrite (lookup_ge_None_2 ms) in Hc by lia. destruct (decide (length ms = 39%nat)) as [E'|E'].
  - rewrite E'. destruct hand; [destruct Hc as [-> _]|rewrite Hc]; done.
  - rewrite Hc, bool_decide_false; [done|]. destruct hand; cbn; lia.
Qed.

(** A filler stores the message [m]. *)
Definition fills (f : MLME_QUEUE_ELEM → result MLME_QUEUE_ELEM) (m : message) : Prop :=
  ∀ e, length (Msg e) = 2048%nat → ∃ e', f e = Ok e' ∧ holds_msg (Some m) e'.

(** [put] needs only room for the index: it does not look at the element. *)
Lemma put_run q f m e :
  fills f m → 0 ≤ Tail q → Entry q !! Z.to_nat (Tail q) = Some e → length (Msg e) = 2048%nat →
  ∃ e', holds_msg (Some m) e' ∧
    put q f = Ok (mk_queue (u32 (Num q + 1)) (Head q) (advance (Tail q)) (<[Z.to_nat (Tail q) := e']> (Entry q))).
Proof.
  intros Hf Ht He Hl. destruct (Hf e Hl) as (e' & E & He'). exists e'. split; [done|].
  unfold put, set_entry. cbn. rewrite (proj2 (Z.ltb_ge _ _)), He by lia. by rewrite E.
Qed.

Lemma ring_put q hand ms f m :
  ring q hand ms → fills f m → (length ms + in_hand hand < 40)%nat → ∃ q', put q f = Ok q' ∧ ring q' hand (ms ++ [m]).
Proof.
  intros [He Hn Hh [Ht Ht0] Hr Hs] Hf Hlt. destruct (Hs (length ms)) as (e & Ee & Hl & _); [lia|].
  destruct (put_run q f m e Hf Ht0) as (e' & He' & E); [by rewrite Ht|done|]. rewrite E. eexists. split; [done|].
  pose proof (tail_range _ _ Ht Ht0) as Htr. destruct (advance_mod _ Htr) as [Ha1 Ha2].
  constructor; cbn [Entry Num Head Tail]; [by rewrite length_insert|rewrite length_app; cbn; rewrite u32_id; lia|done| |rewrite length_app; cbn; lia|].
  - split; [|lia]. rewrite Ha2, Ht, length_app. unfold slot. cbn [Head length]. rewrite mod_shift. f_equal. lia.
  - intros k Hk. change (slot _ k) with (slot q k). rewrite Ht. destruct (decide (k = length ms)) as [->|Hne].
    + exists e'. rewrite list_lookup_insert_eq by (rewrite He; apply slot_below). split; [done|].
      unfold expected. by rewrite list_lookup_middle.
    + rewrite list_lookup_insert_ne by (intros E'; apply Hne, (slot_inj q); [lia|lia|done]).
      destruct (Hs k Hk) as (e2 & E2 & H2). exists e2. split; [done|]. unfold expected in *.
      destruct (decide (k < length ms)%nat); [by rewrite lookup_app_l by lia|].
      rewrite (lookup_ge_None_2 ms) in H2 by lia. rewrite (lookup_ge_None_2 (ms ++ [m])) by (rewrite length_app; cbn; lia). done.
Qed.

Lemma slot_next q j : 0 ≤ Head q < 40 → slot (MlmeDequeue q).2 j = slot q (S j).
Proof.
  intros H. unfold slot. cbn [MlmeDequeue snd Head]. destruct (advance_mod _ H) as [_ ->]. rewrite mod_shift. f_equal. lia.
Qed.

Lemma slot_head q : 0 ≤ Head q < 40 → slot q 0 = Z.to_nat (Head q).
Proof. intros H. unfold slot. rewrite Nat.add_0_r, Nat.mod_small by lia. done. Qed.

Lemma slot_40 q : slot q 40 = slot q 0.
Proof. unfold slot. rewrite Nat.add_0_r. replace (Z.to_nat (Head q) + 40)%nat with (Z.to_nat (Head q) + 1 * 40)%nat by lia. by rewrite Nat.Div0.mod_add. Qed.

(** The message at the head goes into the hand of the consumer, and stays where it is. *)
Lemma ring_get q m ms :
  ring q None (m :: ms) →
  ring (MlmeDequeue q).2 (Some m) ms ∧ (∃ e, Entry q !! Z.to_nat (MlmeDequeue q).1 = Some e ∧ holds_msg (Some m) e).
Proof.
  intros [He Hn Hh [Ht Ht0] Hr Hs]. cbn in Hn, Hr. split.
  - constructor; cbn [MlmeDequeue snd Entry Num Head Tail]; [done|rewrite u32_id; lia|by apply advance_mod| |cbn; lia|].
    + split; [|done]. change (mk_queue _ _ _ _) with (MlmeDequeue q).2. rewrite slot_next by done. done.
    + intros k Hk. change (mk_queue _ _ _ _) with (MlmeDequeue q).2. rewrite slot_next by done.
      destruct (decide (k = 39%nat)) as [->|Hne].
      * rewrite slot_40. destruct (Hs 0%nat) as (e & Ee & Hc); [lia|]. exists e. split; [done|]. cbn in Hc. unfold expected.
        rewrite lookup_ge_None_2 by lia. done.
      * destruct (Hs (S k)) as (e & Ee & Hc); [lia|]. exists e. split; [done|]. unfold expected in *. cbn in Hc.
        rewrite (decide_False (P := k = 39%nat)) by done. destruct (ms !! k); [done|]. by case_decide.
  - destruct (Hs 0%nat) as (e & Ee & Hc); [lia|]. rewrite slot_head in Ee by done. exists e. split; [exact Ee|]. exact Hc.
Qed.

(** Where the consumer's element is: just before the head. *)
Definition hand_at (q : MLME_QUEUE) (i : Z) : Prop := 0 ≤ i < 40 ∧ Z.to_nat i = slot q 39.

Lemma hand_at_get q : 0 ≤ Head q < 40 → hand_at (MlmeDequeue q).2 (MlmeDequeue q).1.
Proof. intros H. split; [done|]. rewrite slot_next by done. rewrite slot_40, slot_head by done. done. Qed.

Lemma ring_hand q m ms i : ring q (Some m) ms → hand_at q i → ∃ e, Entry q !! Z.to_nat i = Some e ∧ holds_msg (Some m) e.
Proof.
  intros [He Hn Hh [Ht Ht0] Hr Hs] [_ Hi]. cbn in Hr. destruct (Hs 39%nat) as (e & Ee & Hc); [lia|]. exists e. rewrite Hi. split; [done|].
  unfold expected in Hc. rewrite (lookup_ge_None_2 ms) in Hc by lia. exact Hc.
Qed.

Lemma ring_free q m ms i : ring q (Some m) ms → hand_at q i → ∃ q', free_elem q i = Ok q' ∧ ring q' None ms.
Proof.
  intros H [Hi0 Hi]. destruct (ring_hand _ _ _ _ H (conj Hi0 Hi)) as (e & Ee & Hl & _). destruct H as [He Hn Hh [Ht Ht0] Hr Hs]. cbn in Hr.
  unfold free_elem, set_entry. rewrite (proj2 (Z.ltb_ge _ _)), Ee by lia. cbn [mbind result_bind]. eexists. split; [done|].
  constructor; cbn [Entry Num Head Tail]; [by rewrite length_insert|done|done|done|cbn; lia|].
  intros k Hk. change (slot _ k) with (slot q k). rewrite Hi. destruct (decide (k = 39%nat)) as [->|Hne].
  - rewrite list_lookup_insert_eq by (rewrite He; apply slot_below). eexists. split; [done|].
    unfold expected. rewrite lookup_ge_None_2 by lia. done.
  - rewrite list_lookup_insert_ne by (intros E; apply Hne; symmetry; apply (slot_inj q); [lia|lia|done]).
    destruct (Hs k Hk) as (e2 & E2 & H2). exists e2. split; [done|]. unfold expected in *.
    destruct (ms !! k); [done|]. by rewrite decide_False in H2 |- * by done.
Qed.

(** *** What the two enqueuing functions store *)

Lemma fill_local_fills mach ty len msg :
  0 ≤ len ≤ 2048 → len ≤ Z.of_nat (length msg) → fills (fill_local mach ty len msg) (mach, ty, take (Z.to_nat len) msg).
Proof.
  intros Hl Hm e He. unfold fill_local. rewrite (sub_bytes_in msg 0 len) by lia. change (drop (Z.to_nat 0) msg) with msg. cbn [mbind result_bind].
  set (b := take (Z.to_nat len) msg). assert (length b = Z.to_nat len) as Hb by (unfold b; rewrite length_take; lia).
  destruct (cut (length b) (Msg e)) as (m1 & m2 & Em & Hm1); [lia|]. rewrite Em in *. rewrite length_app in He.
  rewrite set_bytes_prefix by lia. cbn [mbind result_bind]. eexists. split; [done|]. split; [cbn; rewrite length_app; lia|].
  split; [done|]. unfold content. cbn. by rewrite <- Hb, take_app_length.
Qed.

Lemma fill_received_fills mach ty len rssi sgn chan hdr msg :
  0 ≤ len → len + 24 ≤ 2048 → length hdr = 24%nat → len ≤ Z.of_nat (length msg) →
  fills (fill_received mach ty len rssi sgn chan hdr msg) (mach, ty, hdr ++ take (Z.to_nat len) msg).
Proof.
  intros H0 Hl Hh Hm e He. unfold fill_received. rewrite (sub_bytes_all hdr) by (unfold LENGTH_802_11; lia). cbn [mbind result_bind].
  destruct (cut 24 (Msg e)) as (m1 & r & Em & Hm1); [lia|]. rewrite Em in *. rewrite length_app in He. rewrite set_bytes_prefix by lia. cbn [mbind result_bind].
  rewrite (sub_bytes_in msg 0 len) by lia. change (drop (Z.to_nat 0) msg) with msg. cbn [mbind result_bind].
  set (b := take (Z.to_nat len) msg). assert (length b = Z.to_nat len) as Hb by (unfold b; rewrite length_take; lia).
  destruct (cut (length b) r) as (m2 & m3 & -> & Hm2); [lia|]. rewrite length_app in He.
  rewrite (set_bytes_part hdr m2 m3 b) by (unfold LENGTH_802_11; lia). cbn [mbind result_bind]. eexists. split; [done|].
  split; [cbn; rewrite !length_app; lia|]. split; [done|]. unfold content. cbn [Machine MsgType MsgLen Msg]. f_equal.
  rewrite u32_id by (unfold LENGTH_802_11; lia). rewrite app_assoc. apply take_app_length'. rewrite length_app. unfold LENGTH_802_11. lia.
Qed.

(** ** Interleavings

    An enqueuer checks with [MlmeQueueFull] and calls [put] later; the consumer sees
    that the queue is not empty, takes an element, works on it and frees it. *)

Inductive consumer : Type := Idle | Seen | Holding (i : Z).

(** [pending]: the enqueuers between their check and their [put]. *)
Record system : Type := mk_system { squeue : MLME_QUEUE; pending : nat; reader : consumer }.

Inductive event : Type := In (m : message) | Out (m : message).

(** [writers]: how many enqueuers can be between the two sections at a time. *)
Inductive step (writers : nat) : system → list event → system → Prop :=
| step_check q k c : (k < writers)%nat → MlmeQueueFull q = Ok false → step writers (mk_system q k c) [] (mk_system q (S k) c)
| step_refused q k c : MlmeQueueFull q = Ok true → step writers (mk_system q k c) [] (mk_system q k c)
| step_put q k c f m q' : fills f m → put q f = Ok q' → step writers (mk_system q (S k) c) [In m] (mk_system q' k c)
| step_see q k : MlmeQueueEmpty q = false → step writers (mk_system q k Idle) [] (mk_system q k Seen)
| step_get q k e : Entry q !! Z.to_nat (MlmeDequeue q).1 = Some e →
    step writers (mk_system q k Seen) [Out (content e)] (mk_system (MlmeDequeue q).2 k (Holding (MlmeDequeue q).1))
| step_free q k i q' : free_elem q i = Ok q' → step writers (mk_system q k (Holding i)) [] (mk_system q' k Idle).

Inductive runs (writers : nat) : system → list event → system → Prop :=
| runs_nil s : runs writers s [] s
| runs_step s tr s1 ev s2 : runs writers s tr s1 → step writers s1 ev s2 → runs writers s (tr ++ ev) s2.

Definition ins (tr : list event) : list message := omap (fun e => match e with In m => Some m | Out _ => None end) tr.
Definition outs (tr : list event) : list message := omap (fun e => match e with In _ => None | Out m => Some m end) tr.

Definition start (q : MLME_QUEUE) : system := mk_system (MlmeQueueInit q) 0 Idle.

(** No access of the next step leaves the ring. *)
Definition safe (s : system) : Prop :=
  (∃ b, MlmeQueueFull (squeue s) = Ok b) ∧
  (∀ f m, (0 < pending s)%nat → fills f m → ∃ q', put (squeue s) f = Ok q') ∧
  (reader s = Seen → ∃ e, Entry (squeue s) !! Z.to_nat (MlmeDequeue (squeue s)).1 = Some e) ∧
  (∀ i, reader s = Holding i → ∃ q', free_elem (squeue s) i = Ok q').

Definition consistent (tr : list event) (s : system) (hand : option message) (ms : list message) : Prop :=
  ring (squeue s) hand ms ∧ ins tr = outs tr ++ ms ∧ (pending s = 0 ∨ pending s = 1 ∧ length ms + in_hand hand < 40)%nat ∧
  match reader s with
  | Idle => hand = None
  | Seen => hand = None ∧ ms ≠ []
  | Holding i => hand_at (squeue s) i ∧ hand ≠ None ∧ hand = last (outs tr)
  end.

Lemma put_keeps_head q f q' : put q f = Ok q' → Head q' = Head q.
Proof.
  unfold put, set_entry. cbn. destruct (Tail q <? 0); [done|]. destruct (Entry q !! _) as [e|]; [|done].
  destruct (f e); cbn; [|done]. intros E. injection E as <-. done.
Qed.

Lemma omap_app_events {B} (f : event → option B) a b : omap f (a ++ b) = omap f a ++ omap f b.
Proof. apply omap_app. Qed.

Lemma consistent_step tr s ev s' hand ms :
  consistent tr s hand ms → step 1 s ev s' → ∃ hand' ms', consistent (tr ++ ev) s' hand' ms'.
Proof.
  intros (Hr & Htr & Hp & Hc) Hstep. destruct Hstep as [q k c Hk Hf|q k c Hf|q k c f m q' Hfill Hput|q k He|q k e He|q k i q' Hfree];
    cbn [squeue pending reader] in *; try rewrite app_nil_r.
  - exists hand, ms. do 2 (split; [done|]). split; [|done]. right. split; [cbn; lia|].
    rewrite (ring_full _ _ _ Hr) in Hf. injection Hf as Hf. apply bool_decide_eq_false in Hf. pose proof (ring_room _ _ _ Hr). lia.
  - exists hand, ms. done.
  - destruct Hp as [Hp|[Hp Hlt]]; [done|]. injection Hp as ->. destruct (ring_put _ _ _ _ _ Hr Hfill Hlt) as (q2 & E & Hr').
    rewrite E in Hput. injection Hput as <-. exists hand, (ms ++ [m]). split; [done|].
    split; [unfold ins, outs in *; rewrite !omap_app_events; cbn; rewrite app_nil_r, Htr; by rewrite app_assoc|].
    split; [by left|]. cbn [squeue reader]. destruct c as [| |i]; [done|by destruct Hc; split; [|by destruct ms]|].
    destruct Hc as (Ha & Hn & Hl). split; [|split; [done|]].
    + destruct Ha as [Ha0 Ha]. split; [done|]. unfold slot in *. by rewrite (put_keeps_head _ _ _ E).
    + rewrite Hl. unfold outs. rewrite omap_app_events. cbn. by rewrite app_nil_r.
  - exists hand, ms. do 3 (split; [done|]). split; [done|]. rewrite (ring_empty _ _ _ Hr) in He. by apply bool_decide_eq_false in He.
  - destruct Hc as [-> Hne]. destruct ms as [|m ms]; [done|]. destruct (ring_get _ _ _ Hr) as [Hr' (e' & Ee & _ & _ & Hce)].
    rewrite Ee in He. injection He as <-. exists (Some m), ms. split; [done|].
    split; [unfold ins, outs in *; rewrite !omap_app_events; cbn; rewrite app_nil_r, Htr, Hce; by rewrite <- app_assoc|].
    split; [destruct Hp as [Hp|[Hp Hlt]]; [by left|right; cbn in *; split; [done|lia]]|].
    split; [apply hand_at_get, (ring_head _ _ _ Hr)|]. split; [done|]. unfold outs. rewrite omap_app_events. cbn. by rewrite last_snoc, Hce.
  - destruct Hc as (Ha & Hn & Hl). destruct hand as [m|]; [|done]. destruct (ring_free _ _ _ _ Hr Ha) as (q2 & E & Hr').
    rewrite E in Hfree. injection Hfree as <-. exists None, ms. split; [done|]. split; [done|]. split; [|done].
    destruct Hp as [Hp|[Hp Hlt]]; [by left|right; cbn in *; split; [done|lia]].
Qed.

Lemma consistent_runs q tr s : length (Entry q) = 40%nat → runs 1 (start q) tr s → ∃ hand ms, consistent tr s hand ms.
Proof.
  intros Hq Hruns. remember (start q) as s0 eqn:E. induction Hruns as [s|s tr s1 ev s2 _ IH Hstep].
  - exists None, []. subst s. split; [by apply ring_init|]. split; [done|]. split; [by left|done].
  - destruct (IH E) as (hand & ms & Hc). by apply (consistent_step _ _ _ _ _ _ Hc Hstep).
Qed.

Lemma consistent_safe tr s hand ms : consistent tr s hand ms → safe s.
Proof.
  intros (Hr & _ & Hp & Hc). split; [by rewrite (ring_full _ _ _ Hr); eexists|]. split; [|split].
  - intros f m Hk Hf. destruct Hp as [Hp|[_ Hlt]]; [lia|]. destruct (ring_put _ _ _ _ _ Hr Hf Hlt) as (q' & E & _). by exists q'.
  - intros E. rewrite E in Hc. destruct Hc as [-> Hne]. destruct ms as [|m ms]; [done|]. destruct (ring_get _ _ _ Hr) as [_ (e & He & _)]. by exists e.
  - intros i E. rewrite E in Hc. destruct Hc as (Ha & Hn & _). destruct hand as [m|]; [|done].
    destruct (ring_free _ _ _ _ Hr Ha) as (q' & E' & _). by exists q'.
Qed.

(** C37: With one enqueuer at a time between its check and its store, and the
    consumer interleaved in any way, the ring of the driver is a queue: what the
    consumer takes is what was put in, in that order and without loss; the queue
    holds the rest; the element the consumer works on keeps its message until it is
    freed, since a free place is recognised by its mark and not only by the number
    of messages; and no access leaves the ring. *)
Theorem mlme_queue_fifo q tr s :
  length (Entry q) = 40%nat → runs 1 (start q) tr s →
  ∃ ms, ins tr = outs tr ++ ms ∧ Num (squeue s) = Z.of_nat (length ms) ∧ (length ms ≤ 40)%nat ∧ safe s ∧
    ∀ i, reader s = Holding i → ∃ e, Entry (squeue s) !! Z.to_nat i = Some e ∧ Occupied e = true ∧ last (outs tr) = Some (content e).
Proof.
  intros Hq Hruns. destruct (consistent_runs q tr s Hq Hruns) as (hand & ms & H). pose proof (consistent_safe _ _ _ _ H) as Hsafe.
  destruct H as (Hr & Htr & _ & Hc). exists ms. split; [done|]. split; [apply (ring_num _ _ _ Hr)|].
  split; [pose proof (ring_room _ _ _ Hr); lia|]. split; [done|]. intros i E. rewrite E in Hc. destruct Hc as (Ha & Hn & Hl).
  destruct hand as [m|]; [|done]. destruct (ring_hand _ _ _ _ Hr Ha) as (e & Ee & _ & Ho & Hm). exists e. rewrite <- Hl, Hm. done.
Qed.

(** An element as the memory of the adapter holds it at first. *)
Definition blank : MLME_QUEUE_ELEM := mk_elem (replicate 2048 0) 0 0 0 0 0 0 0 false false.
Definition blank_queue : MLME_QUEUE := mk_queue 0 0 0 (replicate 40 blank).

(** A message of machine [m] and type [t] without a body. *)
Definition note (m t : Z) : message := (m, t, []).

Lemma note_fills m t : fills (fill_local m t 0 []) (note m t).
Proof. apply fill_local_fills; cbn; lia. Qed.

Lemma put_one writers q c ms hand m t :
  ring q hand ms → (length ms + in_hand hand < 40)%nat → (0 < writers)%nat →
  ∃ q', ring q' hand (ms ++ [note m t]) ∧ Head q' = Head q ∧ ∀ s tr, runs writers s tr (mk_system q 0 c) → runs writers s (tr ++ [In (note m t)]) (mk_system q' 0 c).
Proof.
  intros Hr Hlt Hw. destruct (ring_put _ _ _ _ _ Hr (note_fills m t) Hlt) as (q' & E & Hr'). exists q'. split; [done|]. split; [apply (put_keeps_head _ _ _ E)|]. intros s tr Hruns.
  assert (MlmeQueueFull q = Ok false) as Hf by (rewrite (ring_full _ _ _ Hr), bool_decide_false by lia; done).
  pose proof (runs_step _ _ _ _ _ _ Hruns (step_check writers q 0 c Hw Hf)) as H1. rewrite app_nil_r in H1.
  exact (runs_step _ _ _ _ _ _ H1 (step_put writers q 0 c _ _ q' (note_fills m t) E)).
Qed.

Lemma mlme_queue_fifo_witness :
  ∃ tr s ms, runs 1 (start blank_queue) tr s ∧ outs tr = [note 4 3] ∧ ins tr = outs tr ++ ms ∧ Num (squeue s) = Z.of_nat (length ms) ∧ reader s = Holding 0.
Proof.
  assert (ring (MlmeQueueInit blank_queue) None []) as H0 by (apply ring_init; reflexivity).
  destruct (put_one 1 _ Idle [] None 4 3 H0) as (q1 & H1 & Hh & R1); [cbn; lia|lia|]. specialize (R1 _ _ (runs_nil 1 (start blank_queue))).
  assert (MlmeQueueEmpty q1 = false) as He by (rewrite (ring_empty _ _ _ H1), bool_decide_false; done).
  pose proof (runs_step _ _ _ _ _ _ R1 (step_see 1 q1 0 He)) as R2.
  destruct (ring_get _ _ _ H1) as [H2 (e & Ee & _ & _ & Ec)].
  pose proof (runs_step _ _ _ _ _ _ R2 (step_get 1 q1 0 e Ee)) as R3. rewrite Ec in R3.
  eexists _, _. destruct (mlme_queue_fifo blank_queue _ _ eq_refl R3) as (ms & Hm & Hn & _). exists ms.
  split; [exact R3|]. split; [reflexivity|]. split; [exact Hm|]. split; [exact Hn|]. cbn. rewrite Hh. reflexivity.
Defined.

(** With two enqueuers between check and store the queue loses a message: both find
    the last free place, the second store goes over the oldest message, and the
    consumer takes the newest one first. *)
Theorem mlme_queue_race q :
  length (Entry q) = 40%nat →
  ∃ tr s, runs 2 (start q) tr s ∧ ins tr = (note 4 <$> seqZ 0 41) ∧ outs tr = [note 4 40] ∧ Num (squeue s) = 40.
Proof.
  intros Hq.
  assert (∀ n, (n ≤ 39)%nat → ∃ q1, ring q1 None (note 4 <$> seqZ 0 (Z.of_nat n)) ∧
            runs 2 (start q) (In <$> (note 4 <$> seqZ 0 (Z.of_nat n))) (mk_system q1 0 Idle)) as Hfill.
  { intros n. induction n as [|n IH]; intros Hn; [exists (MlmeQueueInit q); split; [by apply ring_init|constructor]|].
    destruct IH as (q1 & H1 & R1); [lia|].
    destruct (put_one 2 q1 Idle _ None 4 (Z.of_nat n) H1) as (q2 & H2 & _ & R2); [rewrite length_fmap, length_seqZ; cbn; lia|lia|].
    exists q2. replace (Z.of_nat (S n)) with (Z.of_nat n + 1) by lia. rewrite seqZ_app, !fmap_app by lia. split; [exact H2|]. by apply R2. }
  destruct (Hfill 39%nat) as (q1 & H1 & R1); [lia|]. change (Z.of_nat 39) with 39 in *.
  assert (length (note 4 <$> seqZ 0 39) = 39%nat) as Hlen by (by rewrite length_fmap, length_seqZ).
  assert (MlmeQueueFull q1 = Ok false) as Hf by (rewrite (ring_full _ _ _ H1), Hlen; done).
  pose proof (runs_step _ _ _ _ _ _ R1 (step_check 2 q1 0 Idle ltac:(lia) Hf)) as R2.
  pose proof (runs_step _ _ _ _ _ _ R2 (step_check 2 q1 1 Idle ltac:(lia) Hf)) as R3.
  destruct (ring_put _ _ _ _ _ H1 (note_fills 4 39)) as (q2 & E2 & H2); [rewrite Hlen; cbn; lia|].
  pose proof (runs_step _ _ _ _ _ _ R3 (step_put 2 q1 1 Idle _ _ q2 (note_fills 4 39) E2)) as R4.
  pose proof H2 as [He2 Hn2 Hh2 [Ht2 Ht2'] _ Hs2]. rewrite length_app, Hlen in Hn2, Ht2. cbn in Hn2.
  change (39 + length [note 4 39])%nat with 40%nat in Ht2. rewrite slot_40, slot_head in Ht2 by done.
  destruct (Hs2 0%nat) as (e & Ee & Hl & _); [lia|]. rewrite slot_head in Ee by done.
  destruct (put_run q2 _ _ e (note_fills 4 40) Ht2') as (e' & (_ & _ & Hc) & E3); [by rewrite Ht2|done|].
  pose proof (runs_step _ _ _ _ _ _ R4 (step_put 2 q2 0 Idle _ _ _ (note_fills 4 40) E3)) as R5. rewrite Ht2 in R5.
  set (q3 := mk_queue _ _ _ _) in R5. assert (Num q3 = 41) as Hn3 by (cbn; rewrite u32_id; lia).
  assert (MlmeQueueEmpty q3 = false) as Hee by (unfold MlmeQueueEmpty; rewrite Hn3; done).
  pose proof (runs_step _ _ _ _ _ _ R5 (step_see 2 q3 0 Hee)) as R6.
  assert (Entry q3 !! Z.to_nat (MlmeDequeue q3).1 = Some e') as Eg by (cbn; apply list_lookup_insert_eq; lia).
  pose proof (runs_step _ _ _ _ _ _ R6 (step_get 2 q3 0 e' Eg)) as R7. rewrite Hc in R7.
  eexists _, _. split; [exact R7|]. split; [reflexivity|]. split; [reflexivity|]. cbn [squeue MlmeDequeue snd Num]. rewrite Hn3. done.
Qed.

(** ** The enqueuing functions *)

(** [MlmeEnqueue] on every branch. A message for a driver without a thread is thrown
    away, and the caller told that it was queued. *)
Theorem mlme_enqueue_run a hand ms mach ty len msg :
  ring (Queue a) hand ms → 0 ≤ len ≤ Z.of_nat (length msg) →
  (halt a = true ∨ 2048 < len → MlmeEnqueue a mach ty len msg = Ok (false, a)) ∧
  (halt a = false → len ≤ 2048 → MLMEThr_pid a ≤ 0 → MlmeEnqueue a mach ty len msg = Ok (true, a)) ∧
  (halt a = false → len ≤ 2048 → 0 < MLMEThr_pid a → (length ms + in_hand hand = 40)%nat →
    MlmeEnqueue a mach ty len msg = Ok (false, RTUSBMlmeUp a)) ∧
  (halt a = false → len ≤ 2048 → 0 < MLMEThr_pid a → (length ms + in_hand hand < 40)%nat →
    ∃ q, MlmeEnqueue a mach ty len msg = Ok (true, with_queue a q) ∧ Head q = Head (Queue a) ∧
      ring q hand (ms ++ [(mach, ty, take (Z.to_nat len) msg)])).
Proof.
  intros Hr Hl. unfold MlmeEnqueue, MAX_LEN_OF_MLME_BUFFER. split; [|split; [|split]].
  - intros [->|H]; [done|]. destruct (halt a); [done|]. by rewrite (proj2 (Z.ltb_lt _ _)).
  - intros -> H1 H2. by rewrite !(proj2 (Z.ltb_ge _ _)).
  - intros -> H1 H2 H3. rewrite (proj2 (Z.ltb_ge _ _)), (proj2 (Z.ltb_lt _ _)) by done. rewrite (ring_full _ _ _ Hr), bool_decide_true by done. done.
  - intros -> H1 H2 H3. rewrite (proj2 (Z.ltb_ge _ _)), (proj2 (Z.ltb_lt _ _)) by done. rewrite (ring_full _ _ _ Hr), bool_decide_false by lia.
    cbn [mbind result_bind]. destruct (ring_put _ _ _ _ _ Hr (fill_local_fills mach ty len msg ltac:(lia) ltac:(lia)) H3) as (q & E & Hr').
    rewrite E. exists q. split; [done|]. split; [by apply (put_keeps_head _ _ _ E)|done].
Qed.

(** The message types of each machine that has a table. *)
Definition in_table (mach ty : Z) : Prop :=
  mach = ASSOC_STATE_MACHINE ∧ 0 ≤ ty < MAX_ASSOC_MSG ∨ mach = AUTH_STATE_MACHINE ∧ 0 ≤ ty < MAX_AUTH_MSG ∨
  mach = AUTH_RSP_STATE_MACHINE ∧ 0 ≤ ty < MAX_AUTH_RSP_MSG ∨ mach = SYNC_STATE_MACHINE ∧ 0 ≤ ty < MAX_SYNC_MSG ∨
  mach = WPA_PSK_STATE_MACHINE ∧ 0 ≤ ty < MAX_WPA_PSK_MSG.

Ltac table_case := cbn; intros E; injection E as <- <-; unfold in_table; cbv; intuition congruence.

Lemma wpa_subst_table e ty : WpaMsgTypeSubst e = Some ty → in_table WPA_PSK_STATE_MACHINE ty.
Proof.
  unfold WpaMsgTypeSubst. repeat case_match; try done; intros E; injection E as <-; unfold in_table; cbv; intuition congruence.
Qed.

Lemma msg_type_subst_run hdr msg :
  length hdr = 24%nat → (10 ≤ length msg)%nat →
  ∃ r, MsgTypeSubst hdr msg = Ok r ∧ ∀ mach ty, r = Some (mach, ty) → in_table mach ty.
Proof.
  intros Hh Hm. unfold MsgTypeSubst, FC_Type, FC_SubType. destruct hdr as [|b hdr]; [done|].
  change (nth_byte (b :: hdr) 0) with (Ok b). cbn [mbind result_bind].
  destruct (Z.land (Z.shiftr b 2) 3 =? BTYPE_DATA).
  { destruct (nth_byte msg (LENGTH_802_1_H + 1)) as [x|] eqn:E.
    - cbn [mbind result_bind]. eexists. split; [done|]. intros mach ty. destruct (WpaMsgTypeSubst x) as [y|] eqn:E'; [|done].
      intros Ep. injection Ep as <- <-. by apply (wpa_subst_table x).
    - rewrite <- (app_nil_r msg), nth_byte_tab in E by (unfold LENGTH_802_1_H; lia). done. }
  destruct (Z.land (Z.shiftr b 2) 3 =? BTYPE_MGMT); [|by exists None].
  rewrite (sub_bytes_in msg 2 2) by lia. cbn [mbind result_bind].
  repeat match goal with |- context [if ?c then _ else _] => destruct c end;
    eexists; (split; [reflexivity|]); intros mach ty; try done; table_case.
Qed.

(** The driver waits for its configuration, and a probe response comes while it does not
    scan or join. *)
Definition looks_for_config (a : RTMP_ADAPTER) (mach ty : Z) : bool :=
  bGetAPConfig a && bool_decide (mach = SYNC_STATE_MACHINE ∧ ty = MT2_PEER_PROBE_RSP ∧ CurrState (SyncMachine a) = SYNC_IDLE).
(** Why a frame is dropped. *)
Definition frame_dropped (a : RTMP_ADAPTER) (waiting : nat) (hdr msg : list Z) (len : Z) : Prop :=
  MLMEThr_pid a ≤ 0 ∨ halt a = true ∨ 2048 < len + 24 ∨ waiting = 40%nat ∨ MsgTypeSubst hdr msg = Ok None.

Lemma looks_for_config_test a mach ty :
  (mach =? SYNC_STATE_MACHINE) && (ty =? MT2_PEER_PROBE_RSP) && bGetAPConfig a && (CurrState (SyncMachine a) =? SYNC_IDLE) =
  looks_for_config a mach ty.
Proof.
  unfold looks_for_config. destruct (bGetAPConfig a); [|by rewrite andb_false_r].
  rewrite andb_true_r. cbn [andb].
  destruct (Z.eqb_spec mach SYNC_STATE_MACHINE), (Z.eqb_spec ty MT2_PEER_PROBE_RSP), (Z.eqb_spec (CurrState (SyncMachine a)) SYNC_IDLE);
    symmetry; (apply bool_decide_eq_true_2; done) || (apply bool_decide_eq_false_2; tauto).
Qed.

(** C39: When no other enqueuer comes between its check and its store ([mlme_queue_race]
    is what happens otherwise), a frame the driver receives is stored whole, header and
    body, behind the messages that wait, with a machine and a type for which the machine
    has a column in its table, and the thread is woken; nothing is stored outside the
    element.  It is dropped exactly when the thread is not there, when the driver stops,
    when it is too long, when the queue is full or when it is of no known kind, and the
    queue is then left as it was.  A probe response that comes while the driver waits for
    its configuration is searched for it first: the flag is cleared when it is found, and
    when the search fails ([backdoor_overflow]) the call fails. *)
Theorem received_frame_queued a hand ms hdr rssi len msg sgn :
  ring (Queue a) hand ms → length hdr = 24%nat → (10 ≤ length msg)%nat → 0 ≤ len ≤ Z.of_nat (length msg) → len < 2 ^ 31 →
  (frame_dropped a (length ms + in_hand hand) hdr msg len ∧
   ∃ a', MlmeEnqueueForRecv a hdr rssi len msg sgn = Ok (false, a') ∧ Queue a' = Queue a ∧ bGetAPConfig a' = bGetAPConfig a) ∨
  (¬ frame_dropped a (length ms + in_hand hand) hdr msg len ∧
   ∃ mach ty, MsgTypeSubst hdr msg = Ok (Some (mach, ty)) ∧ in_table mach ty ∧
     match (if looks_for_config a mach ty then BackDoorProbeRspSanity msg len else Ok false) with
     | Crash c => MlmeEnqueueForRecv a hdr rssi len msg sgn = Crash c
     | Ok got =>
         ∃ a', MlmeEnqueueForRecv a hdr rssi len msg sgn = Ok (true, a') ∧
           ring (Queue a') hand (ms ++ [(mach, ty, hdr ++ take (Z.to_nat len) msg)]) ∧
           mlme_semaphore a' = mlme_semaphore a + 1 ∧ bGetAPConfig a' = bGetAPConfig a && negb got
     end).
Proof.
  intros Hr Hh Hm Hl Hl2. unfold MlmeEnqueueForRecv, MAX_LEN_OF_MLME_BUFFER. rewrite u32_id by (unfold LENGTH_802_11; lia).
  destruct (Z.leb_spec (MLMEThr_pid a) 0) as [Hp|Hp]; [left; split; [by left|by exists a]|].
  destruct (halt a) eqn:Ehalt; [left; split; [right; by left|by exists a]|].
  destruct (Z.ltb_spec 2048 (len + LENGTH_802_11)) as [Hn|Hn]; unfold LENGTH_802_11 in Hn;
    [left; split; [do 2 right; by left|by exists a]|].
  rewrite (ring_full _ _ _ Hr). cbn [mbind result_bind]. destruct (bool_decide_reflect (length ms + in_hand hand = 40)%nat) as [Hf|Hf].
  { left. split; [do 3 right; by left|]. exists (RTUSBMlmeUp a). split; [done|]. unfold RTUSBMlmeUp. by destruct (0 <? _). }
  destruct (msg_type_subst_run hdr msg Hh Hm) as (r & E & Ht). rewrite E. cbn [mbind result_bind].
  destruct r as [[mach ty]|]; [|left; split; [by do 4 right|by exists a]].
  right. split; [intros [?|[?|[?|[?|?]]]]; congruence || lia|]. exists mach, ty. split; [done|]. split; [by apply Ht|].
  rewrite looks_for_config_test. destruct (if looks_for_config a mach ty then _ else _) as [got|c]; [|done]. cbn [mbind result_bind].
  destruct (ring_put _ _ _ _ _ Hr (fill_received_fills mach ty len rssi sgn (RfChannel a) hdr msg ltac:(lia) ltac:(lia) Hh ltac:(lia))) as (q & Eq & Hr').
  { pose proof (ring_room _ _ _ Hr). lia. }
  destruct got; cbn [Queue RfChannel with_config]; rewrite Eq; cbn [mbind result_bind]; (eexists; split; [done|]);
    unfold RTUSBMlmeUp; cbn [with_queue with_config MLMEThr_pid]; rewrite (proj2 (Z.ltb_lt _ _)) by done;
    (split; [exact Hr'|]); (split; [done|]); cbn; by rewrite ?andb_true_r, ?andb_false_r.
Qed.

(** A driver just set up, with machines of the driver's sizes. *)
Definition idle_machine (StNr MsgNr : Z) : STATE_MACHINE := mk_machine 0 StNr MsgNr 0 (replicate (Z.to_nat (StNr * MsgNr)) Drop).
Definition new_adapter : RTMP_ADAPTER :=
  mk_adapter (MlmeQueueInit blank_queue) false false false 100 0 false 6 false 0
    (idle_machine 4 11) (idle_machine 3 3) (idle_machine 2 3) (idle_machine 3 10) (idle_machine 1 5).

Lemma received_frame_queued_witness :
  ∃ a', MlmeEnqueueForRecv new_adapter (0x80 :: replicate 23 0) 40 12 (replicate 100 7) 1 = Ok (true, a') ∧
    ring (Queue a') None [(SYNC_STATE_MACHINE, MT2_PEER_BEACON, (0x80 :: replicate 23 0) ++ replicate 12 7)].
Proof.
  destruct (received_frame_queued new_adapter None [] (0x80 :: replicate 23 0) 40 12 (replicate 100 7) 1)
    as [[H _]|(_ & mach & ty & Et & _ & H)].
  - apply ring_init. reflexivity.
  - reflexivity.
  - rewrite length_replicate. lia.
  - rewrite length_replicate. lia.
  - lia.
  - exfalso. destruct H as [H|[H|[H|[H|H]]]]; [cbn in H; lia|discriminate H|lia|cbn in H; lia|discriminate H].
  - injection Et as <- <-. destruct H as (a' & E & Hr & _). exists a'. split; [exact E|exact Hr].
Defined.

(** ** Configuration in probe responses *)

(** A vendor element of less than 4 bytes in a probe response gives a copy of almost
    2^32 bytes: the length is never compared with the 4 bytes taken off it. Whoever
    answers the probes of a station that waits for its configuration stops its
    kernel. *)
Theorem backdoor_overflow fixed len k rest MsgLen_ :
  length fixed = 12%nat → 0 ≤ len < 4 → is_u8 k → Z.testbit k 7 = true → 13 + len < MsgLen_ → Z.of_nat (length rest) < 2 ^ 31 →
  BackDoorProbeRspSanity (fixed ++ [IE_VENDOR_SPECIFIC; len; 0x00; 0x0c; 0x43; k] ++ rest) MsgLen_ = Crash OutOfBounds.
Proof.
  intros Hf Hlen Hk Hbit HM Hr. unfold BackDoorProbeRspSanity. cbn [config_elements]. set (mem := fixed ++ _ ++ rest).
  assert (∀ z i x, z = 12 + Z.of_nat i → (i < 6)%nat → [IE_VENDOR_SPECIFIC; len; 0x00; 0x0c; 0x43; k] !! i = Some x → nth_byte mem z = Ok x) as Hn.
  { intros z i x -> Hi E. unfold nth_byte. rewrite (proj2 (Z.ltb_ge _ _)) by lia. unfold mem.
    rewrite lookup_app_r by lia. rewrite lookup_app_l by (cbn; lia). replace (Z.to_nat (12 + Z.of_nat i) - length fixed)%nat with i by lia. by rewrite E. }
  rewrite (Hn (12 + 1) 1%nat len) by (done || lia). cbn [mbind result_bind]. rewrite (proj2 (Z.ltb_lt _ _)) by lia. cbn [negb].
  rewrite (Hn 12 0%nat IE_VENDOR_SPECIFIC) by (done || lia). cbn [mbind result_bind].
  change (IE_VENDOR_SPECIFIC =? IE_VENDOR_SPECIFIC) with true.
  assert (sub_bytes mem (12 + 2) 3 = Ok RALINK_OUI) as ->.
  { apply (sub_bytes_at mem (fixed ++ [IE_VENDOR_SPECIFIC; len]) RALINK_OUI (k :: rest)); [|rewrite length_app; cbn; lia|done].
    unfold mem. rewrite <- !app_assoc. done. }
  cbn [mbind result_bind]. rewrite bool_decide_true by done. rewrite (Hn (12 + 5) 5%nat k) by (done || lia). cbn [mbind result_bind].
  assert (Z.land k 0x80 = 0x80) as Hl.
  { apply Z.bits_inj'. intros i Hi. rewrite Z.land_spec. destruct (decide (i = 7)) as [->|Hne]; [by rewrite Hbit|].
    change 0x80 with (2 ^ 7). rewrite Z.pow2_bits_false by lia. apply andb_false_r. }
  rewrite Hl, Z.eqb_refl. rewrite (proj2 (Z.leb_le _ _)) by (unfold MAX_CFG_BUFFER_LEN; lia).
  assert (sub_bytes mem (12 + 6) (u32 (len - 4)) = Crash OutOfBounds) as ->; [|done].
  assert (u32 (len - 4) = 2 ^ 32 - 4 + len) as -> by (unfold u32; rewrite <- (Z.mod_add (len - 4) 1), Z.mod_small by lia; lia).
  unfold sub_bytes. rewrite (proj2 (Z.leb_gt (12 + 6 + _) _)); [by rewrite andb_false_r|].
  unfold mem. rewrite !length_app. cbn [length]. lia.
Qed.
