(* ===== verification/Mlme.v ===== *)
(** * The thread of the wireless driver

    [src/rt2501/sources/Module/mlme.c] ([MlmeHandler], [MlmeRestartStateMachine],
    [MlmeSuspend], [MlmeResume]): the loop that takes messages out of the queue and
    drives the state machines with them.

    The functions of the machines (in [assoc.c], [auth.c], [auth_rsp.c], [sync.c],
    [wpa.c] and [connect.c]) are an interface here: the class [MlmeActions] gives
    them, the class [Enqueuing] states what the loop relies on. Timers, channels and
    flags other than those of [RTMP_ADAPTER] are not part of the state. *)

From S2P Require Import Prelude Words StateMachine MlmeQueue.

(** The functions of the tables, and the function of the control machine, called
    with the index of the element. *)
Class MlmeActions : Type := {
  act : STATE_MACHINE_FUNC → RTMP_ADAPTER → Z → result RTMP_ADAPTER;
  cntl : RTMP_ADAPTER → Z → result RTMP_ADAPTER
}.

Definition RT_CMD_RESET_MLME : Z := 0x0D730224.
Definition CNTL_IDLE : Z := 0.

(** ** The adapter *)

Definition with_running (a : RTMP_ADAPTER) (b : bool) : RTMP_ADAPTER :=
  mk_adapter (Queue a) (halt a) (reset a) (nic_gone a) (MLMEThr_pid a) (mlme_semaphore a) (bGetAPConfig a) (RfChannel a) b (CntlState a)
    (AssocMachine a) (AuthMachine a) (AuthRspMachine a) (SyncMachine a) (WpaPskMachine a).

Definition with_reset (a : RTMP_ADAPTER) (b : bool) : RTMP_ADAPTER :=
  mk_adapter (Queue a) (halt a) b (nic_gone a) (MLMEThr_pid a) (mlme_semaphore a) (bGetAPConfig a) (RfChannel a) (bRunning a) (CntlState a)
    (AssocMachine a) (AuthMachine a) (AuthRspMachine a) (SyncMachine a) (WpaPskMachine a).

(** Five of the six machines go back to their first state. *)
Definition machines_idle (a : RTMP_ADAPTER) : RTMP_ADAPTER :=
  mk_adapter (Queue a) (halt a) (reset a) (nic_gone a) (MLMEThr_pid a) (mlme_semaphore a) (bGetAPConfig a) (RfChannel a) (bRunning a) CNTL_IDLE
    (in_state (AssocMachine a) ASSOC_IDLE) (in_state (AuthMachine a) AUTH_REQ_IDLE) (in_state (AuthRspMachine a) AUTH_RSP_IDLE)
    (in_state (SyncMachine a) SYNC_IDLE) (WpaPskMachine a).

Definition MlmeRestartStateMachine (a : RTMP_ADAPTER) : RTMP_ADAPTER :=
  let a := with_reset a true in
  let a := machines_idle a in
  with_reset a false.

(** Waits while the flag is set, which nobody else clears. *)
Definition MlmePostRestartStateMachine (a : RTMP_ADAPTER) : result RTMP_ADAPTER := if reset a then Crash Diverges else Ok a.

Definition MlmeResume (a : RTMP_ADAPTER) : RTMP_ADAPTER := machines_idle a.

(** ** The loop *)

Section Handler.
Context `{MlmeActions}.

(** The message in element [i] drives its machine. *)
Definition dispatch (a : RTMP_ADAPTER) (i : Z) (e : MLME_QUEUE_ELEM) : result RTMP_ADAPTER :=
  let drive S := f ← StateMachinePerformAction S (MsgType e); act f a i in
  if Machine e =? ASSOC_STATE_MACHINE then drive (AssocMachine a)
  else if Machine e =? AUTH_STATE_MACHINE then drive (AuthMachine a)
  else if Machine e =? AUTH_RSP_STATE_MACHINE then drive (AuthRspMachine a)
  else if Machine e =? SYNC_STATE_MACHINE then drive (SyncMachine a)
  else if Machine e =? MLME_CNTL_STATE_MACHINE then cntl a i
  else if Machine e =? WPA_PSK_STATE_MACHINE then drive (WpaPskMachine a)
  else Ok a.

(** The element taken out, used and freed. *)
Definition process (a : RTMP_ADAPTER) (i : Z) (e : MLME_QUEUE_ELEM) : result RTMP_ADAPTER :=
  a ← (if MsgType e =? RT_CMD_RESET_MLME then MlmePostRestartStateMachine (MlmeRestartStateMachine a) else dispatch a i e);
  q ← free_elem (Queue a) i;
  Ok (with_queue a q).

(** The adapter, and the messages in the order in which they were taken. *)
Fixpoint handler_loop (fuel : nat) (a : RTMP_ADAPTER) (log : list message) : result (RTMP_ADAPTER * list message) :=
  match fuel with
  | O => Crash Diverges
  | S fuel =>
      if MlmeQueueEmpty (Queue a) then Ok (a, log)
      else if reset a || halt a || nic_gone a then Ok (a, log)
      else
        let '(i, q) := MlmeDequeue (Queue a) in
        match Entry q !! Z.to_nat i with
        | None => Crash OutOfBounds
        | Some e => a ← process (with_queue a q) i e; handler_loop fuel a (log ++ [content e])
        end
  end.

Definition MlmeHandler (fuel : nat) (a : RTMP_ADAPTER) : result (RTMP_ADAPTER * list message) :=
  if bRunning a then Ok (a, [])
  else
    '(a, log) ← handler_loop fuel (with_running a true) [];
    Ok (with_running a false, log).

End Handler.

(** The messages thrown away, with the fuel of the ring. *)
Fixpoint flush_loop (fuel : nat) (q : MLME_QUEUE) : result MLME_QUEUE :=
  match fuel with
  | O => Crash Diverges
  | S fuel =>
      if MlmeQueueEmpty q then Ok q
      else let '(i, q) := MlmeDequeue q in q ← free_elem q i; flush_loop fuel q
  end.

(** Waits for the thread, unless the driver stops; then throws the messages away.
    While the thread runs this waits: [Diverges] stands for that. *)
Definition MlmeSuspend (a : RTMP_ADAPTER) : result RTMP_ADAPTER :=
  if bRunning a then if halt a then Ok a else Crash Diverges
  else
    let a := with_running a true in
    q ← flush_loop 41 (Queue a);
    let a := with_running (with_queue a q) false in
    Ok (machines_idle a).

(** ** What the loop relies on *)

(** A machine of the given sizes in one of its states. *)
Definition table_ok (S : STATE_MACHINE) (StNr MsgNr : Z) : Prop :=
  machine_ok S ∧ Base S = 0 ∧ NrState S = StNr ∧ NrMsg S = MsgNr ∧ 0 ≤ CurrState S < StNr.

(** The machines are set up and the driver is neither stopping nor resetting. *)
Record well (a : RTMP_ADAPTER) : Prop := {
  well_assoc : table_ok (AssocMachine a) MAX_ASSOC_STATE MAX_ASSOC_MSG;
  well_auth : table_ok (AuthMachine a) MAX_AUTH_STATE MAX_AUTH_MSG;
  well_auth_rsp : table_ok (AuthRspMachine a) MAX_AUTH_RSP_STATE MAX_AUTH_RSP_MSG;
  well_sync : table_ok (SyncMachine a) MAX_SYNC_STATE MAX_SYNC_MSG;
  well_psk : table_ok (WpaPskMachine a) MAX_WPA_PSK_STATE MAX_WPA_PSK_MSG;
  well_flags : halt a = false ∧ reset a = false ∧ nic_gone a = false
}.

(** A message the loop knows what to do with: a type of the table of its machine, a
    message to the control machine or to none, or the command to reset. *)
Definition has_table (mach : Z) : Prop :=
  mach = ASSOC_STATE_MACHINE ∨ mach = AUTH_STATE_MACHINE ∨ mach = AUTH_RSP_STATE_MACHINE ∨ mach = SYNC_STATE_MACHINE ∨ mach = WPA_PSK_STATE_MACHINE.

Definition deliverable (m : message) : Prop := m.1.2 = RT_CMD_RESET_MLME ∨ in_table m.1.1 m.1.2 ∨ ¬ has_table m.1.1.

(** Calls of the enqueuing functions, one after the other. *)
Inductive enqueued : MLME_QUEUE → list message → MLME_QUEUE → Prop :=
| enqueued_nil q : enqueued q [] q
| enqueued_full q m ms q' : MlmeQueueFull q = Ok true → enqueued q ms q' → enqueued q (m :: ms) q'
| enqueued_put q f m q1 ms q' : MlmeQueueFull q = Ok false → fills f m → put q f = Ok q1 → enqueued q1 ms q' → enqueued q (m :: ms) q'.

(** The function a message calls. *)
Definition machine_of (a : RTMP_ADAPTER) (mach : Z) : option STATE_MACHINE :=
  if mach =? ASSOC_STATE_MACHINE then Some (AssocMachine a)
  else if mach =? AUTH_STATE_MACHINE then Some (AuthMachine a)
  else if mach =? AUTH_RSP_STATE_MACHINE then Some (AuthRspMachine a)
  else if mach =? SYNC_STATE_MACHINE then Some (SyncMachine a)
  else if mach =? WPA_PSK_STATE_MACHINE then Some (WpaPskMachine a)
  else None.

Definition calls (a : RTMP_ADAPTER) (m : message) (f : STATE_MACHINE_FUNC) : Prop :=
  ∃ S, machine_of a m.1.1 = Some S ∧ StateMachinePerformAction S m.1.2 = Ok f.

(** What a function may do with a message [m] for which it is called ([P]): it
    changes the queue only by enqueuing messages the loop knows, and leaves the tables
    and flags in order.  Nothing bounds what it sends: a failed join, for one, is
    answered to the control machine, which asks for another. *)
Definition behaves (P : RTMP_ADAPTER → message → Prop) (f : RTMP_ADAPTER → Z → result RTMP_ADAPTER) : Prop :=
  ∀ a i m ms, well a → P a m → ring (Queue a) (Some m) ms → hand_at (Queue a) i →
  ∃ a' posted, f a i = Ok a' ∧ well a' ∧ bRunning a' = bRunning a ∧ enqueued (Queue a) posted (Queue a') ∧
    Forall deliverable posted.

Class Enqueuing `{MlmeActions} : Prop := {
  enqueuing_act f : behaves (fun a m => calls a m f) (act f);
  enqueuing_cntl : behaves (fun _ m => m.1.1 = MLME_CNTL_STATE_MACHINE) cntl
}.

Lemma enqueued_ring q posted q' hand ms :
  ring q hand ms → enqueued q posted q' → ∃ acc, acc `sublist_of` posted ∧ ring q' hand (ms ++ acc) ∧ Head q' = Head q.
Proof.
  intros Hr He. revert ms Hr. induction He as [q|q m l q' Hf _ IH|q f m q1 l q' Hf Hfill Hput _ IH]; intros ms Hr.
  - exists []. rewrite app_nil_r. done.
  - destruct (IH ms Hr) as (acc & Hs & Hr' & Hh). exists acc. split; [by constructor|done].
  - rewrite (ring_full _ _ _ Hr) in Hf. injection Hf as Hf. apply bool_decide_eq_false in Hf.
    destruct (ring_put _ _ _ _ _ Hr Hfill) as (q2 & E & Hr2); [pose proof (ring_room _ _ _ Hr); lia|].
    rewrite E in Hput. injection Hput as <-. destruct (IH _ Hr2) as (acc & Hs & Hr' & Hh). exists (m :: acc).
    split; [by constructor|]. rewrite <- app_assoc in Hr'. split; [done|]. rewrite Hh. by apply (put_keeps_head _ _ _ E).
Qed.

Lemma sublist_deliverable l k : l `sublist_of` k → Forall deliverable k → Forall deliverable l.
Proof. induction 1; intros Hk; [done|apply Forall_cons in Hk as [? ?]; constructor; auto|apply Forall_cons in Hk as [_ ?]; auto]. Qed.

Lemma table_step S n m ty : table_ok S n m → 0 ≤ ty < m → ∃ f, StateMachinePerformAction S ty = Ok f.
Proof.
  intros ([_ _ _ _ Ht Hs] & Hb & Hn & Hm & Hc) Hty. unfold StateMachinePerformAction. rewrite Hb, Hm, Z.sub_0_r.
  pose proof (cell_range n m (CurrState S) ty Hc Hty). rewrite Hn, Hm in Ht. rewrite u32_id by lia.
  destruct (lookup_lt_is_Some_2 (TransFunc S) (Z.to_nat (CurrState S * m + ty))) as [f Hf]; [lia|]. rewrite Hf. by exists f.
Qed.

Section Drain.
Context `{Hp : Enqueuing}.

(** One message. *)
Definition outcome (a : RTMP_ADAPTER) (i : Z) (m : message) (ms : list message) (r : result RTMP_ADAPTER) : Prop :=
  ∃ a' posted, r = Ok a' ∧ well a' ∧ bRunning a' = bRunning a ∧ enqueued (Queue a) posted (Queue a') ∧
    Forall deliverable posted.

Lemma nothing_done a i m ms : well a → outcome a i m ms (Ok a).
Proof. intros Hw. exists a, []. do 3 (split; [done|]). split; constructor. Qed.

Lemma drive_run a i m ms S n k ty :
  well a → ring (Queue a) (Some m) ms → hand_at (Queue a) i → machine_of a m.1.1 = Some S → m.1.2 = ty → table_ok S n k → 0 ≤ ty < k →
  outcome a i m ms (f ← StateMachinePerformAction S ty; act f a i).
Proof.
  intros Hw Hr Ha Hm <- Ht Hty. destruct (table_step S n k _ Ht Hty) as (f & E). rewrite E. cbn [mbind result_bind].
  apply (enqueuing_act f a i m ms); [done| |done|done]. by exists S.
Qed.

Lemma dispatch_run a i e ms :
  well a → ring (Queue a) (Some (content e)) ms → hand_at (Queue a) i → in_table (Machine e) (MsgType e) ∨ ¬ has_table (Machine e) →
  outcome a i (content e) ms (dispatch a i e).
Proof.
  intros Hw Hr Ha Hd. unfold dispatch. cbv zeta. unfold in_table, has_table in Hd.
  destruct (Z.eqb_spec (Machine e) ASSOC_STATE_MACHINE) as [E|N1].
  { apply (drive_run a i _ ms _ MAX_ASSOC_STATE MAX_ASSOC_MSG); [done..|cbn; by rewrite E|done|apply well_assoc, Hw|]. rewrite E in Hd. cbv in Hd |- *. intuition congruence. }
  destruct (Z.eqb_spec (Machine e) AUTH_STATE_MACHINE) as [E|N2].
  { apply (drive_run a i _ ms _ MAX_AUTH_STATE MAX_AUTH_MSG); [done..|cbn; by rewrite E|done|apply well_auth, Hw|]. rewrite E in Hd. cbv in Hd |- *. intuition congruence. }
  destruct (Z.eqb_spec (Machine e) AUTH_RSP_STATE_MACHINE) as [E|N3].
  { apply (drive_run a i _ ms _ MAX_AUTH_RSP_STATE MAX_AUTH_RSP_MSG); [done..|cbn; by rewrite E|done|apply well_auth_rsp, Hw|]. rewrite E in Hd. cbv in Hd |- *. intuition congruence. }
  destruct (Z.eqb_spec (Machine e) SYNC_STATE_MACHINE) as [E|N4].
  { apply (drive_run a i _ ms _ MAX_SYNC_STATE MAX_SYNC_MSG); [done..|cbn; by rewrite E|done|apply well_sync, Hw|]. rewrite E in Hd. cbv in Hd |- *. intuition congruence. }
  destruct (Z.eqb_spec (Machine e) MLME_CNTL_STATE_MACHINE) as [E|N5]; [by apply (enqueuing_cntl a i (content e) ms)|].
  destruct (Z.eqb_spec (Machine e) WPA_PSK_STATE_MACHINE) as [E|N6]; [|by apply nothing_done].
  apply (drive_run a i _ ms _ MAX_WPA_PSK_STATE MAX_WPA_PSK_MSG); [done..|cbn; by rewrite E|done|apply well_psk, Hw|]. rewrite E in Hd. cbv in Hd |- *. intuition congruence.
Qed.

Lemma in_state_ok S n m : table_ok S n m → 0 < n → table_ok (in_state S 0) n m.
Proof. intros ([H1 H2 H3 H4 H5 H6] & Hb & Hn & Hm & Hc) H0. repeat split; cbn; try done; lia. Qed.

Lemma machines_idle_well a : well a → well (machines_idle a).
Proof. intros [H1 H2 H3 H4 H5 H6]. constructor; cbn; try done; apply in_state_ok; done. Qed.

Lemma process_run a i e ms :
  well a → ring (Queue a) (Some (content e)) ms → hand_at (Queue a) i → deliverable (content e) →
  ∃ a' acc, process a i e = Ok a' ∧ well a' ∧ bRunning a' = bRunning a ∧ ring (Queue a') None (ms ++ acc) ∧ Forall deliverable acc.
Proof.
  intros Hw Hr Ha Hd. unfold process.
  assert (outcome a i (content e) ms
    (if MsgType e =? RT_CMD_RESET_MLME then MlmePostRestartStateMachine (MlmeRestartStateMachine a) else dispatch a i e)) as Ho.
  { destruct (Z.eqb_spec (MsgType e) RT_CMD_RESET_MLME) as [E|E].
    - exists (MlmeRestartStateMachine a), []. split; [done|]. split.
      + destruct (machines_idle_well a Hw). constructor; try done. cbn. destruct (well_flags a Hw) as (? & ? & ?). done.
      + split; [done|]. split; constructor.
    - apply dispatch_run; [done..|]. destruct Hd as [Hd|Hd]; [done|exact Hd]. }
  destruct Ho as (a1 & posted & -> & Hw1 & Hb1 & He1 & Hd1). cbn [mbind result_bind].
  destruct (enqueued_ring _ _ _ _ _ Hr He1) as (acc & Hsub & Hr1 & Hh).
  assert (hand_at (Queue a1) i) as Ha1 by (destruct Ha as [Ha0 Ha]; split; [done|]; unfold slot in *; by rewrite Hh).
  destruct (ring_free _ _ _ _ Hr1 Ha1) as (q & -> & Hr2). cbn [mbind result_bind]. exists (with_queue a1 q), acc. split; [done|].
  split; [destruct Hw1; by constructor|]. do 2 (split; [done|]). by apply (sublist_deliverable _ _ Hsub).
Qed.

Lemma loop_run fuel a ms log :
  well a → ring (Queue a) None ms → Forall deliverable ms →
  handler_loop fuel a log = Crash Diverges ∨
  ∃ a' more accs, handler_loop fuel a log = Ok (a', log ++ more) ∧ well a' ∧ bRunning a' = bRunning a ∧ ring (Queue a') None [] ∧
    more = ms ++ concat accs ∧ length accs = length more.
Proof.
  revert a ms log. induction fuel as [|fuel IH]; intros a ms log Hw Hr Hd; [by left|]. cbn [handler_loop].
  rewrite (ring_empty _ _ _ Hr). destruct ms as [|m ms].
  { right. exists a, [], []. rewrite app_nil_r. do 4 (split; [done|]). done. }
  rewrite bool_decide_false by done. destruct (well_flags a Hw) as (-> & -> & ->). cbn [orb].
  destruct (ring_get _ _ _ Hr) as [Hr1 (e & Ee & _ & _ & Hc)]. pose proof (hand_at_get _ (ring_head _ _ _ Hr)) as Ha.
  destruct (MlmeDequeue (Queue a)) as [i q] eqn:Eq. cbn [fst snd] in *.
  assert (Entry q = Entry (Queue a)) as -> by (by injection Eq as <- <-). rewrite Ee.
  apply Forall_cons in Hd as [Hdm Hd]. subst m.
  destruct (process_run (with_queue a q) i e ms) as (a1 & acc & -> & Hw1 & Hb1 & Hr2 & Hd2);
    [destruct Hw; by constructor|done|done|done|]. cbn [mbind result_bind].
  destruct (IH a1 (ms ++ acc) (log ++ [content e]) Hw1 Hr2) as [E|(a2 & more & accs & E & Hw2 & Hb2 & Hr3 & Hm & Hf)];
    [by apply Forall_app|by left|]. right.
  exists a2, (content e :: more), (acc :: accs). rewrite E, <- app_assoc. split; [done|]. split; [done|].
  split; [by rewrite Hb2, Hb1|]. split; [done|]. split; [cbn; by rewrite Hm, <- app_assoc|cbn; by rewrite Hf].
Qed.

End Drain.

(** For all functions of the machines that change the queue only by enqueuing: however
    many turns the thread's loop is given, it never fails, calls no function outside a
    table, and either goes on or has emptied the queue; then every message that waited,
    and every one sent meanwhile for which there was room ([accs] has those sent by the
    handling of each message), was taken once, first in first out, and its element
    freed. A second call that finds the loop running returns at once. *)
Theorem handler_takes_in_order `{Enqueuing} fuel a ms :
  well a → ring (Queue a) None ms → Forall deliverable ms →
  (bRunning a = true → MlmeHandler fuel a = Ok (a, [])) ∧
  (bRunning a = false →
   MlmeHandler fuel a = Crash Diverges ∨
   ∃ a' log accs, MlmeHandler fuel a = Ok (a', log) ∧ well a' ∧ bRunning a' = false ∧ ring (Queue a') None [] ∧
     log = ms ++ concat accs ∧ length accs = length log).
Proof.
  intros Hw Hr Hd. unfold MlmeHandler. split; intros ->; [done|].
  destruct (loop_run fuel (with_running a true) ms []) as [E|(a' & log & accs & E & Hw' & _ & Hr' & Hl)];
    [destruct Hw; by constructor|done|done|left; by rewrite E|right].
  rewrite E. cbn [mbind result_bind app]. exists (with_running a' false), log, accs. split; [done|]. split; [destruct Hw'; by constructor|]. done.
Qed.

(** *** Functions that satisfy the interface *)

Definition MT2_AUTH_CONF : Z := 35.

(** A request to authenticate is answered to the control machine, nothing else is. *)
#[local] Instance answering : MlmeActions := {
  act f a i := if decide (f = MlmeAuthReqAction) then '(_, a) ← MlmeEnqueue a MLME_CNTL_STATE_MACHINE MT2_AUTH_CONF 0 []; Ok a else Ok a;
  cntl a i := Ok a
}.

Lemma quiet_behaves P : behaves P (fun a i => Ok a).
Proof. intros a i m ms Ha _ _ _. exists a, []. do 3 (split; [done|]). split; constructor. Qed.

#[local] Instance answering_enqueuing : Enqueuing.
Proof.
  constructor; [|apply quiet_behaves].
  intros f a i m ms Hw Hc Hr Ha. cbn [act answering].
  destruct (decide (f = MlmeAuthReqAction)); [|by apply (quiet_behaves (fun _ _ => True) a i m ms Hw I Hr Ha)].
  destruct (well_flags a Hw) as (Hh & _ & _).
  destruct (mlme_enqueue_run a (Some m) ms MLME_CNTL_STATE_MACHINE MT2_AUTH_CONF 0 [] Hr) as (_ & H1 & H2 & H3); [cbn; lia|].
  destruct (Z.le_gt_cases (MLMEThr_pid a) 0) as [Hp|Hp].
  { rewrite H1 by (done || lia). cbn [mbind result_bind]. exists a, []. do 3 (split; [done|]). split; constructor. }
  assert (deliverable (note MLME_CNTL_STATE_MACHINE MT2_AUTH_CONF)) as Hdel by (right; right; cbv; intuition congruence).
  pose proof (ring_room _ _ _ Hr) as Hroom. destruct (decide (length ms + in_hand (Some m) = 40)%nat) as [Hf|Hf].
  - rewrite H2 by (done || lia). cbn [mbind result_bind]. exists (RTUSBMlmeUp a), [note MLME_CNTL_STATE_MACHINE MT2_AUTH_CONF].
    split; [done|]. unfold RTUSBMlmeUp. rewrite (proj2 (Z.ltb_lt _ _)) by lia. split; [destruct Hw; by constructor|]. split; [done|].
    split; [|by constructor]. apply enqueued_full; [rewrite (ring_full _ _ _ Hr), bool_decide_true by done; done|constructor].
  - clear H1 H2 H3. unfold MlmeEnqueue. rewrite Hh, (proj2 (Z.ltb_ge _ _)), (proj2 (Z.ltb_lt _ _)) by (unfold MAX_LEN_OF_MLME_BUFFER; lia).
    rewrite (ring_full _ _ _ Hr), bool_decide_false by done. cbn [mbind result_bind].
    destruct (ring_put _ _ _ _ _ Hr (note_fills MLME_CNTL_STATE_MACHINE MT2_AUTH_CONF)) as (q & E & _); [lia|]. rewrite E.
    exists (with_queue a q), [note MLME_CNTL_STATE_MACHINE MT2_AUTH_CONF]. split; [done|]. split; [destruct Hw; by constructor|]. split; [done|].
    split; [|by constructor].
    eapply enqueued_put; [rewrite (ring_full _ _ _ Hr), bool_decide_false by done; done|apply note_fills|exact E|constructor].
Qed.

(** A driver with the authentication machine of the driver, and with a message. *)
Definition auth_adapter (q : MLME_QUEUE) : RTMP_ADAPTER :=
  mk_adapter q false false false 100 0 false 6 false 0
    (idle_machine 4 11) (mk_machine 0 3 3 0 ([MlmeAuthReqAction; Drop; Drop] ++ replicate 6 Drop)) (idle_machine 2 3) (idle_machine 3 10) (idle_machine 1 5).

Lemma auth_adapter_well q : well (auth_adapter q).
Proof. repeat constructor; cbn; (done || lia). Qed.

(** The answer is taken after the request. *)
Example request_answered :
  (fun '(_, log) => log) <$> (q ← put (MlmeQueueInit blank_queue) (fill_local AUTH_STATE_MACHINE MT2_MLME_AUTH_REQ 0 []); MlmeHandler 10 (auth_adapter q)) =
    Ok [note AUTH_STATE_MACHINE MT2_MLME_AUTH_REQ; note MLME_CNTL_STATE_MACHINE MT2_AUTH_CONF].
Proof. vm_compute. reflexivity. Qed.

(** ** Throwing the messages away *)

Lemma flush_run n q ms : ring q None ms → length ms = n → ∃ q', flush_loop (S n) q = Ok q' ∧ ring q' None [].
Proof.
  revert q ms. induction n as [|n IH]; intros q ms Hr Hn; cbn [flush_loop]; rewrite (ring_empty _ _ _ Hr).
  { destruct ms; [|done]. by exists q. }
  destruct ms as [|m ms]; [done|]. rewrite bool_decide_false by done. injection Hn as Hn.
  destruct (ring_get _ _ _ Hr) as [Hr1 _]. pose proof (hand_at_get _ (ring_head _ _ _ Hr)) as Ha.
  destruct (MlmeDequeue q) as [i q1]. cbn [fst snd] in *. destruct (ring_free _ _ _ _ Hr1 Ha) as (q2 & -> & Hr2). cbn [mbind result_bind].
  by apply (IH q2 ms).
Qed.

Lemma flush_more n k q q' : flush_loop n q = Ok q' → flush_loop (n + k) q = Ok q'.
Proof.
  revert q. induction n as [|n IH]; intros q; [done|]. cbn [Nat.add flush_loop]. destruct (MlmeQueueEmpty q); [done|].
  destruct (MlmeDequeue q) as [i q1]. destruct (free_elem q1 i); cbn [mbind result_bind]; [apply IH|done].
Qed.

(** When the thread is not running, [MlmeSuspend] empties the queue with at most 40
    rounds, frees all elements and puts the machines with a table, the one of keys
    apart, and the control machine back to their first states. *)
Theorem suspend_empties a ms :
  ring (Queue a) None ms → bRunning a = false →
  ∃ a', MlmeSuspend a = Ok a' ∧ ring (Queue a') None [] ∧ bRunning a' = false ∧ CntlState a' = CNTL_IDLE ∧
    CurrState (AssocMachine a') = ASSOC_IDLE ∧ CurrState (AuthMachine a') = AUTH_REQ_IDLE ∧ CurrState (AuthRspMachine a') = AUTH_RSP_IDLE ∧
    CurrState (SyncMachine a') = SYNC_IDLE ∧ WpaPskMachine a' = WpaPskMachine a.
Proof.
  intros Hr Hb. unfold MlmeSuspend. rewrite Hb. destruct (flush_run _ _ _ Hr eq_refl) as (q' & E & Hr').
  apply (flush_more _ (40 - length ms)) in E. pose proof (ring_room _ _ _ Hr). replace (S (length ms) + (40 - length ms))%nat with 41%nat in E by (cbn in *; lia).
  change (Queue (with_running a true)) with (Queue a). rewrite E. cbn [mbind result_bind]. eexists. split; [done|]. done.
Qed.
